(* ===== verification/_CoqProject ===== *)
-Q . S2P
Prelude.v
PyBytes.v
Adler.v
Lzss.v
Greedy.v
PyText.v
Layout.v
PyFloat.v
Artifacts.v
Font.v
Tests.v
BootInfo.v
PageTables.v
AsmText.v
Fat.v
Image.v
Check.v
Iso.v
CheckMain.v
CheckSound.v
BootModel.v
BootExact.v
Regex.v
Pipeline.v
AsmRun.v
Clang.v
Libc.v
Frames.v
Ports.v
Keyboard.v
Mouse.v
Console.v
Shell.v
Ata.v
FatVolume.v
ImageBytes.v
Interrupts.v
Net.v
Drivers.v
Sysmngr.v
Cpu.v
ConsoleStart.v
