(* ===== verification/Prelude.v ===== *)
(** * qizo: a verification library

    qizo is a small operating system.  Its disk image, optical image and generated
    headers are made and checked by Python programs under [tools/]; its kernel, in
    C under [kernel/], finds the disk, the volume on it, the keyboard and the
    screen.  This library models both and proves what the parts promise each other:
    that what the image builder writes is what the checkers accept, what the boot
    can load, and where the kernel finds its volume.

    ** The program and where it is modelled

    - [tools/common/qizolayout.py] reads [boot/qizoboot.inc], the one place with
      the addresses of the boot: [Layout.v], Module [LY] ([parse], [g], a constant
      per module level name).  Every other tool takes its numbers from there.
    - [tools/common/qizolzss.py] packs the kernel: [Lzss.v] ([compress],
      [_find_match], [decompress]), [Greedy.v] (what [compress] chooses) and
      [Adler.v] ([checksum]).  The other tools are verified against the interface
      [Codec] of [Lzss.v], of which [lzss_codec] is the instance.
    - [tools/mkqizoimg/mkqizoimg.py] builds the disk image: [Fat.v]
      ([plan_layout], [pick_layout], [dir_entry], [fat_set]) and [Image.v]
      ([build_image], [main] with its steps).
    - [tools/mkqizoiso/mkqizoiso.py] wraps it in an optical image: [Iso.v],
      Module [ISO] ([build_iso] and its helpers).
    - [tools/qizocheck/qizocheck.py] checks both images: [Check.v] ([check_fs],
      [check_stage1_dap], [check_stage2_gdt], [check_stage2_transition]),
      [Iso.v] ([check_iso]) and [CheckMain.v], Module [QC] ([main]).
      [CheckSound.v] says what an image that passes is ([accepted]).
    - [tools/qizocheck/qizobootmodel.py] replays the boot of an image:
      [BootModel.v], Module [BM]; [BootExact.v], Module [BE], says which disks it
      boots, and which of those that [qizocheck] accepts.
    - [tools/qizoasm/qizoasmrun.py] assembles parts of the boot and of the kernel
      as programs and checks what they write: [AsmText.v], Module [AT] (the
      texts), [PageTables.v], Module [PT] ([check_tables]) and [AsmRun.v], Module
      [AR] (the cases and [main]).
    - [tools/qizocheck/qizotest.py] is the test program: [Tests.v], Module [QT].
    - [tools/qizoartifacts/qizobootinfo.py] generates the C header of the boot
      information: [BootInfo.v], Module [BI].
    - [tools/common/qizofont.py] and [tools/qizoartifacts/qizofontgen.py]:
      [Font.v], Modules [QFont] and [FontGen].
    - [tools/qizoartifacts/qizoartifacts.py] and [tools/ci/qizosize.py]:
      [Artifacts.v], Modules [ART] and [Size]; [read], [write] and [size_bytes]
      are in [Pipeline.v].
    - [Makefile]: the rules that run the image tools, the checker, the boot model
      and the size report are programs over a store of files in [Pipeline.v],
      Module [FILES] ([img_rule], [iso_rule], [check_rule], [make_check],
      [size_rule]).
    - The regular expressions of the tools: [Regex.v], Module [RE], a semantics of
      [re] for the patterns they use.  The readers [match_set], [sections_used],
      [sections_placed] and [copy_offset] are written without it and proved equal
      to the patterns.

    The kernel, each driver in a Module of its own:

    - [kernel/qizo.h]: [Clang.v], the integers, arrays, loops and strings of C;
      [kernel/lib/libc.c]: [Libc.v], Module [LIBC].
    - [kernel/drivers/pma.c], the frames of memory: [Frames.v], Module [PMA].
    - [Ports.v] is the interface to the devices.  Over it are
      [kernel/drivers/kbd.c] ([Keyboard.v], [KBD]), [kernel/drivers/mouse.c]
      ([Mouse.v], [MOUSE]), [kernel/drivers/ata.c] ([Ata.v], [ATA]) and
      [kernel/drivers/net.c] ([Net.v], [NET]).
    - [kernel/console.c]: [Console.v], [CON] (the terminal, numbers, formats) and
      [ConsoleStart.v], [CST] (the start and the font).
    - [kernel/shell.c]: [Shell.v], [SH]: the keys of the keyboard driver go in,
      events come out ([Print], [Run], ...), of which [Console.v] shows the text.
    - [kernel/drivers/fat.c]: [FatVolume.v], [FV], over the interface
      [SectorReader], which [ata_reader] implements with [Ata.v]; its buffers come
      from [Frames.v].  [ImageBytes.v]: the image that the tool builds is bytes.
    - [kernel/main.c]: [Interrupts.v], [IRQ]: the handler calls [KBD] and [MOUSE].
    - [kernel/drivers/driver.c]: [Drivers.v], [DRV]: the state of all drivers
      together, their start and their report.
    - [kernel/sysmngr.c]: [Sysmngr.v], [SM], over [DRV], [NET], [FV] and [PMA];
      [kernel/drivers/cpu.c]: [Cpu.v], [CPU].

    What the tools use of Python is in this file (exceptions, loops), in
    [PyBytes.v] (byte strings, slices, [struct]), [PyText.v] (text, integer
    literals, [eval] on integers, number formats) and [PyFloat.v] ([float]).

    ** How the code is modelled

    A function that may raise has the type [res]: a value, an exception with its
    message, or [Diverge].  Loops are [while], with fuel, and [for_each]; [break]
    and [return] out of a loop are [Break].  Objects that are changed in place
    ([bytearray], dictionaries, the memory of the boot model) are values that each
    operation takes and returns; no claim depends on aliasing, because no tool
    keeps two names for one object.  Integers are [Z]; where a field has a width,
    packing a number that does not fit raises [StructError], as [struct] does.
    Arguments of the command line are records ([options]) or arguments, files
    are their contents, and what external commands print ([nm], [objdump],
    [size], the assembled programs) are arguments; only [Pipeline.v] has files by
    name.  [print] is modelled as a list of lines; of [qizocheck] only the verdict
    is, its message when it fails and not the lines of progress.  A [SystemExit]
    is an exception with its message.

    A function of the kernel has an [option]: [None] is what C leaves undefined (an
    access outside an array, an argument that is not there) and a loop that needs
    more rounds than it is given.  The global variables of a file are a record that
    its functions take and return; there are no two pointers to one array, except
    the blocks of the frame allocator, of which [blocks_disjoint] says that they
    never meet.  Numbers are stored with [u8], [u16], [u32], [u64] and their signed
    kinds.  A device is a state of a type [D]; reading a port may change it.  What
    is printed is returned, or is an event.  Interrupts that come between the
    accesses of the code they interrupt are steps of a machine in [Keyboard.v]; in
    [Interrupts.v] they come one after the other.

    ** Fuel

    Every [while] has the fuel that its measure needs: the bytes left for the
    codec, the candidates of the window for the match finder, the sectors left
    for the first stage, the entries of a directory for the directory walks, the
    sectors of the image for the descriptor walk, and the limit of 100000 steps
    that the code itself puts on cluster chains.  The termination theorems prove
    that [Diverge] is never reached: [decompress_total], [boot_returns],
    [check_fs_returns], [check_iso_returns], [pick_layout_correct]; the theorems
    that a tool succeeds prove it for the builders.  [re.findall] has a position
    more than the text has characters, and every match takes one at least.
    The loops of the kernel that wait for a device count their own rounds, and the
    model has that count as its fuel; [sleep_ends] and [reboot_resets] say how many
    rounds the two loops without a count need.  A theorem with [safe] says that the
    computation is not [None].

    ** The theorems

    - The tools fit together: [check_accepts_build] (what [mkqizoimg] and
      [mkqizoiso] write passes [qizocheck]), [build_boots] (and boots in the
      model, kernel in place), [make_check_passes] (the rules of the Makefile, over
      files), [build_iso_checked], [check_rejects_raw], [blob_of_build].
    - Abstract specifications: [check_sound] (what passes the check is
      [accepted]), [boot_exact] (the boot model succeeds exactly on the disks that
      are [bootable]), [accepted_boots] (which accepted images are bootable).
      These hold for every image, not only for those the tools build.
    - Files and patterns: [builders_write] (a builder that fails changes no file),
      [match_set_regex], [readers_regex].
    - The builder: [main_builds], [main_checked] (success and failure),
      [build_image_correct] (the volume holds the files), [check_fs_volume] (they
      are read back), [plan_layout_fat16], [pick_layout_correct],
      [fat_set_correct], [plan_layout_fat12_short], [boot_sector_count].
    - The codec: [compress_is_greedy] (the compressor computes the greedy
      container, which is unique), [lzss_roundtrip], [find_match_correct],
      [decompress_total], [decompress_truncated], the bounds [compress_bound] and
      [compress_periodic], and the checksum ([checksum_hand_adler],
      [checksum_single_byte]).
    - The checks mean what they say: [check_tables_exact] and
      [check_tables_identity] (page tables that pass are an identity mapping of
      the first 4 GiB), [check_gates_exact], [check_fault_gates_exact],
      [run_sound], [check_stage2_gdt_correct], [check_stage2_transition_sound],
      [stage1_safe].
    - The generators: [emit_offsets] and [emit_inc] (the C struct has every field
      at its offset), [glyph_rows_correct], [emit_psf1_cells], [psf1_raises],
      [layout_constants], [parse_render], [extract_routine].
    - The tests: [tests_pass] (whatever the random generator returns).
    - From the tools to the kernel: [kernel_finds_volume] and [drivers_find_volume]
      (on the disk [mkqizoimg] builds the kernel finds the volume, and takes it for
      larger than it is), [font_shifted] (which picture of the generated font is in
      the place of a character), [main_bytes].
    - State of the kernel: [blocks_disjoint], [init_frames], [page_alloc_first] and
      [free_leaks] (frames), [keys_in_order] and [press_release] (keys),
      [packet_spec] (the mouse), [interrupts_safe] and [pic_init_lines] (interrupts),
      [sleep_ends], [calibrate_rate], [reboot_resets] (time).
    - Devices: [read_drive_correct] (sectors), [find_rtl_spec] and [no_card] (the
      bus), [drivers_start_once].
    - The console and the shell: [printf_spec], [printf_fits], [term_write_safe],
      [console_init_spec], [line_runs], [typing_spec], [shell_safe], [recall_spec],
      [sysmngr_reports], [word_spec], [cpu_init_texts], [trim_ascii_spec], and
      [memmove_spec] of the library.

    A theorem with hypotheses is followed by a witness, an instance at concrete
    values; [ex_options] of [Image.v] is the build most of them use.

    ** Parameters

    The assembler, the linker and the programs they make are a [host] in
    [AsmRun.v], of which [run_sound] only assumes that files hold bytes.  The
    random generator in [Tests.v] returns numbers below its bound.  The sources
    the tools read ([boot/stage2.S], [kernel/idt.S] and others) are arguments;
    [boot/qizoboot.inc] is the constant [LY.INC_TEXT].

    What a device answers is a parameter: [Ports] and [Ports32] (any device whose
    bytes are bytes), [IdeDisk] (a drive as the ATA commands are documented),
    [TwoPics] (interrupt controllers as documented) and [SectorReader] (what the
    volume reader needs of a disk).  Each has an instance that the witnesses run on.
    The symbols of the linker script, the boot information, the answers of [cpuid]
    and the time stamp counter are arguments.

    ** Not modelled

    The boot loader and the other assembly ([boot64.S], [idt.S] but for the calls
    of its common part, [sse2.S]) are not modelled: the boot model of the tools
    stands for what the first does.  Of the kernel in C these are not: the
    benchmarks of [bench.c], the reports of [sysinfo.c], which print what other
    parts count, the order of the start in [main.c], and the commands of the shell
    that only call other parts, which are [Run] events.  Of the Makefile the rules
    that compile, link and pack are not, nor are time stamps and the assembly
    runner as a step of [check]; the shell scripts of [tools/ci] and the workflows
    only call the tools.  Creating directories, parsing the command line and
    removing temporary files are outside the models, and so are the patterns of
    [re] that the tools do not use and text that is not ASCII where the tools
    change case or strip blanks. *)

From Stdlib Require Export ZArith Lia.
From stdpp Require Export base list gmap strings option numbers.
Global Open Scope Z_scope.

(** ** Results of Python computations

    A call returns a value, raises an exception, or does not return.  [Diverge]
    is only produced by a [while] loop whose fuel is used up; the termination
    theorems show it is never reached from the entry points. *)

Inductive exc : Type :=
  | IndexError
  | ValueError (msg : string)
  | KeyError (key : string)
  | TypeError
  | StructError
  | StopIteration
  | SyntaxError
  | EvalError
  | OSError
  | HostUnsupported (detail : string)
  | UnicodeError
  | SystemExit (msg : string).

Inductive res (A : Type) : Type :=
  | Ok (a : A)
  | Raise (e : exc)
  | Diverge.
Arguments Ok {_} _.
Arguments Raise {_} _.
Arguments Diverge {_}.

#[export] Instance exc_eq_dec : EqDecision exc.
Proof. solve_decision. Defined.
#[export] Instance res_eq_dec {A} `{EqDecision A} : EqDecision (res A).
Proof. solve_decision. Defined.

#[export] Instance res_ret : MRet res := λ A a, Ok a.
#[export] Instance res_bind : MBind res := λ A B k m,
  match m with Ok a => k a | Raise e => Raise e | Diverge => Diverge end.

(** Lift of a partial lookup: [None] raises [e]. *)
Definition or_raise {A} (e : exc) (o : option A) : res A :=
  match o with Some a => Ok a | None => Raise e end.

(** The value of a computation that returns one, for concrete cases. *)
Definition ok_or {A} (a : A) (m : res A) : A := match m with Ok x => x | _ => a end.

(** [if b: raise e] *)
Definition raise_if (b : bool) (e : exc) : res unit :=
  if b then Raise e else Ok tt.

(** ** Loops

    The body of a loop either continues with a new state or breaks. *)

Inductive ctl (S : Type) : Type :=
  | Next (s : S)
  | Break (s : S).
Arguments Next {_} _.
Arguments Break {_} _.

(** [for x in l: body] *)
Fixpoint for_each {A S} (body : A → S → res (ctl S)) (l : list A) (s : S) : res S :=
  match l with
  | [] => Ok s
  | x :: l =>
      c ← body x s;
      match c with
      | Next s' => for_each body l s'
      | Break s' => Ok s'
      end
  end.

(** [while cond: body], at most [fuel] times. *)
Fixpoint while {S} (fuel : nat) (cond : S → bool) (body : S → res (ctl S)) (s : S) : res S :=
  if cond s then
    match fuel with
    | O => Diverge
    | Datatypes.S fuel =>
        c ← body s;
        match c with
        | Next s' => while fuel cond body s'
        | Break s' => Ok s'
        end
    end
  else Ok s.

(** [range(a, b)] *)
Definition range (a b : Z) : list Z := seqZ a (b - a).

(** [range(a, b, k)] for a positive step *)
Definition range_step (a b k : Z) : list Z :=
  (λ i, a + k * i) <$> seqZ 0 ((b - a + k - 1) / k).

(** ** Program logic

    [runs m Q E]: [m] returns a value satisfying [Q] or raises an exception
    satisfying [E]; it does not diverge. *)

Definition runs {A} (m : res A) (Q : A → Prop) (E : exc → Prop) : Prop :=
  match m with Ok a => Q a | Raise e => E e | Diverge => False end.

Definition no_exc : exc → Prop := λ _, False.

Lemma Ok_inj {A} (x y : A) : Ok x = Ok y → x = y.
Proof. by intros [= ->]. Qed.

Section runs.
Context {A B : Type}.
Implicit Types (Q : A → Prop) (E : exc → Prop).

Lemma runs_ok (a : A) Q E : Q a → runs (Ok a) Q E.
Proof. done. Qed.

Lemma runs_bind (m : res B) (k : B → res A) Q E :
  runs m (λ b, runs (k b) Q E) E → runs (m ≫= k) Q E.
Proof. by destruct m. Qed.

Lemma runs_mono (m : res A) Q Q' E E' :
  runs m Q E → (∀ a, Q a → Q' a) → (∀ e, E e → E' e) → runs m Q' E'.
Proof. destruct m; simpl; auto. Qed.

Lemma runs_total (m : res A) Q : runs m Q no_exc ↔ ∃ a, m = Ok a ∧ Q a.
Proof.
  split.
  - destruct m; simpl; [by eauto|done..].
  - by intros (a & -> & ?).
Qed.

Lemma bind_Ok (m : res B) (k : B → res A) a : m ≫= k = Ok a ↔ ∃ x, m = Ok x ∧ k x = Ok a.
Proof.
  destruct m; simpl; (split; [eauto || done|]); intros (x & Hx & ?); by simplify_eq.
Qed.

Lemma runs_Ok_inv (m : res A) Q E a : m = Ok a → runs m Q E → Q a.
Proof. by intros ->. Qed.
End runs.

Section loops.
Context {A S : Type}.
Implicit Types (Inv Post : S → Prop) (E : exc → Prop).

(** Outcome of one iteration: go on in [P], or leave the loop in [Q]. *)
Definition step_to (P Q : S → Prop) (c : ctl S) : Prop :=
  match c with Next s => P s | Break s => Q s end.

Lemma runs_while Inv Post E (μ : S → nat) fuel cond body s :
  (∀ s, Inv s → cond s = true →
    runs (body s) (step_to (λ s', Inv s' ∧ (μ s' < μ s)%nat) Post) E) →
  (∀ s, Inv s → cond s = false → Post s) →
  Inv s → (μ s < fuel)%nat → runs (while fuel cond body s) Post E.
Proof.
  intros Hbody Hexit. revert s. induction fuel as [|fuel IH]; intros s HI Hμ; [lia|].
  simpl. destruct (cond s) eqn:Hc; [|by apply Hexit].
  apply runs_bind. eapply runs_mono; [by apply Hbody| |done].
  intros [s'|s'] H; simpl in *; [|done]. destruct H. apply IH; [done|lia].
Qed.

Lemma runs_for_each (Inv : list A → S → Prop) Post E body l s :
  (∀ done_ x rest s, l = done_ ++ x :: rest → Inv done_ s →
    runs (body x s) (step_to (Inv (done_ ++ [x])) Post) E) →
  (∀ s, Inv l s → Post s) →
  Inv [] s → runs (for_each body l s) Post E.
Proof.
  intros Hbody Hexit HI.
  assert (∀ rest done_ s, l = done_ ++ rest → Inv done_ s →
    runs (for_each body rest s) Post E) as Hgen; [|by apply (Hgen l [] s)].
  clear s HI. induction rest as [|x rest IH]; intros done_ s Hl HI; simpl.
  - apply Hexit. by rewrite Hl, (right_id_L [] (++)).
  - apply runs_bind. eapply runs_mono; [by eapply Hbody| |done].
    intros [s'|s'] H; simpl in *; [|done]. apply (IH (done_ ++ [x])); [|done].
    by rewrite Hl, <-(assoc_L (++)).
Qed.

(** The same for a loop that is known to have returned, whatever its fuel. *)
Lemma while_Ok_inv Inv Post fuel cond (body : S → res (ctl S)) s r :
  (∀ s c, Inv s → cond s = true → body s = Ok c → step_to Inv Post c) →
  (∀ s, Inv s → cond s = false → Post s) →
  Inv s → while fuel cond body s = Ok r → Post r.
Proof.
  intros Hbody Hexit. revert s. induction fuel as [|fuel IH]; intros s HI; simpl;
    (destruct (cond s) eqn:Hc; [|intros <-%Ok_inj; by apply Hexit]); [done|].
  destruct (body s) as [c|e|] eqn:Hs; [|done..]. simpl. pose proof (Hbody s c HI Hc Hs) as Hstep.
  destruct c as [s'|s']; [by apply IH|by intros <-%Ok_inj].
Qed.

(** A body that agrees with another one wherever that one returns gives the
    same loop, when [Inv] holds along the way. *)
Definition agrees (Inv : S → Prop) (m m' : res (ctl S)) : Prop :=
  ∀ c, m = Ok c → m' = Ok c ∧ step_to Inv Inv c.

Lemma for_each_agrees Inv (body body' : A → S → res (ctl S)) l s r :
  (∀ x s, Inv s → agrees Inv (body x s) (body' x s)) →
  Inv s → for_each body l s = Ok r → for_each body' l s = Ok r ∧ Inv r.
Proof.
  intros Hb. revert s. induction l as [|x l IH]; intros s HI; simpl; [by intros [= ->]|].
  destruct (body x s) as [c|e|] eqn:Hx; [|done..].
  destruct (Hb x s HI c Hx) as [-> Hc]. simpl.
  destruct c as [s'|s']; [by apply IH|by intros [= ->]].
Qed.

Lemma while_agrees Inv fuel fuel' cond (body body' : S → res (ctl S)) s r :
  (∀ s, Inv s → agrees Inv (body s) (body' s)) → (fuel ≤ fuel')%nat →
  Inv s → while fuel cond body s = Ok r → while fuel' cond body' s = Ok r ∧ Inv r.
Proof.
  intros Hb. revert fuel' s. induction fuel as [|fuel IH]; intros fuel' s Hf HI; simpl.
  - destruct (cond s) eqn:Hc; [done|]. intros [= ->]. destruct fuel'; simpl; by rewrite Hc.
  - destruct fuel' as [|fuel']; [lia|]. simpl. destruct (cond s); [|by intros [= ->]].
    destruct (body s) as [c|e|] eqn:Hx; [|done..].
    destruct (Hb s HI c Hx) as [-> Hc]. simpl.
    destruct c as [s'|s']; [apply IH; [lia|done]|by intros [= ->]].
Qed.

(** A loop whose body neither breaks nor raises is a fold. *)
Lemma for_each_fold (f : A → S → S) (body : A → S → res (ctl S)) l s :
  (∀ x s, x ∈ l → body x s = Ok (Next (f x s))) →
  for_each body l s = Ok (fold_left (λ s x, f x s) l s).
Proof.
  revert s. induction l as [|x l IH]; intros s Hf; simpl; [done|].
  rewrite Hf by apply list_elem_of_here. simpl. apply IH.
  intros y s' Hy. apply Hf. by apply list_elem_of_further.
Qed.
End loops.

Lemma for_each_cons {A S} (body : A → S → res (ctl S)) x l s :
  for_each body (x :: l) s =
    body x s ≫= λ c, match c with Next s' => for_each body l s' | Break s' => Ok s' end.
Proof. done. Qed.

Lemma while_S {S} fuel (cond : S → bool) (body : S → res (ctl S)) s :
  while (Datatypes.S fuel) cond body s =
    if cond s then
      body s ≫= λ c, match c with Next s' => while fuel cond body s' | Break s' => Ok s' end
    else Ok s.
Proof. done. Qed.

Lemma for_each_ext {A S} (body body' : A → S → res (ctl S)) l s :
  (∀ x s, x ∈ l → body x s = body' x s) → for_each body l s = for_each body' l s.
Proof.
  revert s. induction l as [|x l IH]; intros s H; [done|].
  rewrite !for_each_cons, (H x s) by apply list_elem_of_here.
  destruct (body' x s) as [[s'|s']|e|]; simpl; [|done..]. apply IH.
  intros y s2 Hy. apply H. by apply list_elem_of_further.
Qed.

(** A loop that only appends what it computes for each element. *)
Lemma for_each_append {A B} (f : A → res (list B)) (l : list A) (acc : list B) :
  for_each (λ x acc, r ← f x; Ok (Next (acc ++ r))) l acc =
    for_each (λ x acc, r ← f x; Ok (Next (acc ++ r))) l [] ≫= λ r, Ok (acc ++ r).
Proof.
  revert acc. induction l as [|x l IH]; intros acc; [simpl; by rewrite (right_id_L [] (++))|].
  rewrite !for_each_cons. destruct (f x) as [r|e|]; [|done..]. cbn [mbind res_bind app].
  rewrite IH, (IH r). destruct (for_each _ l []); [|done..]. simpl. by rewrite (assoc_L (++)).
Qed.

(** A loop that neither breaks nor raises, with an invariant. *)
Lemma for_each_keeps {A S} (R : S → Prop) (body : A → S → res (ctl S)) l s :
  (∀ x s, x ∈ l → R s → ∃ s', body x s = Ok (Next s') ∧ R s') → R s →
  ∃ s', for_each body l s = Ok s' ∧ R s'.
Proof.
  revert s. induction l as [|x l IH]; intros s Hb HR; [by exists s|]. rewrite for_each_cons.
  destruct (Hb x s) as (s' & -> & HR'); [apply list_elem_of_here|done|]. apply IH; [|done].
  intros y s2 Hy. apply Hb. by apply list_elem_of_further.
Qed.

(** A counting loop that does not break, with an invariant on the counter. *)
Lemma runs_for_range {S} (Inv : Z → S → Prop) (E : exc → Prop) (body : Z → S → res (ctl S)) a b s :
  a ≤ b →
  (∀ i s, a ≤ i < b → Inv i s → runs (body i s) (step_to (Inv (i + 1)) (λ _, False)) E) →
  Inv a s → runs (for_each body (range a b) s) (Inv b) E.
Proof.
  intros Hab Hbody HI. remember (Z.to_nat (b - a)) as n eqn:Hn.
  revert a s Hab Hn Hbody HI. induction n as [|n IH]; intros a s Hab Hn Hbody HI.
  - replace a with b in * by lia. unfold range. by rewrite Z.sub_diag.
  - unfold range. rewrite seqZ_cons by lia. rewrite for_each_cons. apply runs_bind.
    eapply runs_mono; [apply Hbody; [lia|done]| |done]. intros [s'|s'] Hs'; simpl in Hs'; [|done].
    replace (Z.pred (b - a)) with (b - Z.succ a) by lia. apply IH; [lia|lia| |done].
    intros i s2 ?. apply Hbody. lia.
Qed.

(** A computation that returns or raises. *)
Definition returns {A} (m : res A) : Prop := runs m (λ _, True) (λ _, True).

Lemma returns_bind {A B} (m : res A) (k : A → res B) : returns m → (∀ a, returns (k a)) → returns (m ≫= k).
Proof. intros Hm Hk. apply runs_bind. eapply runs_mono; [exact Hm|intros a _; apply Hk|done]. Qed.

Lemma runs_bind_returns {A B} (m : res A) (k : A → res B) Q :
  returns m → (∀ a, runs (k a) Q (λ _, True)) → runs (m ≫= k) Q (λ _, True).
Proof. intros Hm Hk. apply runs_bind. eapply runs_mono; [exact Hm|intros a _; apply Hk|done]. Qed.

Lemma returns_for_each {A S} (body : A → S → res (ctl S)) l s :
  (∀ x s, returns (body x s)) → returns (for_each body l s).
Proof.
  intros Hb. revert s. induction l as [|x l IH]; intros s; [done|]. rewrite for_each_cons.
  apply returns_bind; [apply Hb|]. intros [s'|s']; [apply IH|done].
Qed.

#[global] Arguments while : simpl never.
#[global] Arguments for_each : simpl never.

(** ** Lists and their lengths *)

(** [len(l)] *)
Abbreviation len l := (Z.of_nat (length l)).

Create Rewrite HintDb len.
#[export] Hint Rewrite @length_app @length_take @length_drop @length_replicate
  @length_fmap @length_insert @length_reverse @length_seqZ @length_rev : len.

(** Normalise the lengths of list expressions, then decide the arithmetic. *)
Ltac list_lia :=
  cbn [length] in *; autorewrite with len in *; cbn [length] in *; lia.

Section lists.
Context {A : Type}.
Implicit Types l k : list A.

Lemma range_length a b : (length (range a b)) = Z.to_nat (b - a).
Proof. apply length_seqZ. Qed.

Lemma elem_of_range a b i : i ∈ range a b ↔ a ≤ i < b.
Proof. unfold range. rewrite elem_of_seqZ. lia. Qed.

Lemma lookup_app l k i :
  (l ++ k) !! i = if decide (i < length l)%nat then l !! i else k !! (i - length l)%nat.
Proof.
  case_decide; [by apply lookup_app_l|apply lookup_app_r; lia].
Qed.
End lists.

(** ** Sorting

    [sorted(l, key=..)]: stable, [leb a b] when the key of [a] is at most that
    of [b]. *)

Fixpoint insert_by {A} (leb : A → A → bool) (x : A) (l : list A) : list A :=
  match l with
  | [] => [x]
  | y :: l' => if leb x y then x :: l else y :: insert_by leb x l'
  end.

Definition sort_by {A} (leb : A → A → bool) (l : list A) : list A :=
  foldr (insert_by leb) [] l.

Lemma insert_by_Permutation {A} (leb : A → A → bool) x l : insert_by leb x l ≡ₚ x :: l.
Proof.
  induction l as [|y l IH]; simpl; [done|]. case_match; [done|].
  by rewrite IH, Permutation_swap.
Qed.

Lemma sort_by_Permutation {A} (leb : A → A → bool) l : sort_by leb l ≡ₚ l.
Proof.
  unfold sort_by. induction l as [|x l IH]; simpl; [done|]. by rewrite insert_by_Permutation, IH.
Qed.

(** ** Arithmetic *)

Lemma pow_256 (n : nat) : 256 ^ Z.of_nat (S n) = 256 * 256 ^ Z.of_nat n.
Proof. rewrite Nat2Z.inj_succ, Z.pow_succ_r; lia. Qed.

Lemma ceil_div_spec a b q : 0 < b → b * (q - 1) < a ≤ b * q → (a + b - 1) / b = q.
Proof. intros ??. symmetry. apply (Z.div_unique _ _ _ (a + b - 1 - b * q)); lia. Qed.

Lemma ceil_div_bounds a b : 0 < b → b * ((a + b - 1) / b - 1) < a ≤ b * ((a + b - 1) / b).
Proof.
  intros ?. pose proof (Z.div_mod (a + b - 1) b ltac:(lia)).
  pose proof (Z.mod_pos_bound (a + b - 1) b ltac:(lia)). lia.
Qed.

(** ** Bits *)

Lemma shiftl_land_small a c n : 0 ≤ n → 0 ≤ a < 2 ^ n → Z.land (Z.shiftl c n) a = 0.
Proof.
  intros Hn Ha. apply Z.bits_inj_0. intros m. rewrite Z.land_spec.
  destruct (Z.ltb_spec m 0); [by rewrite Z.testbit_neg_r|].
  destruct (Z.ltb_spec m n); [by rewrite Z.shiftl_spec_low|].
  destruct (Z.eq_dec a 0) as [->|]; [by rewrite Z.bits_0, andb_false_r|].
  assert (Z.log2 a < n) by (apply Z.log2_lt_pow2; lia).
  by rewrite (Z.bits_above_log2 a m), andb_false_r by lia.
Qed.

(** [c << n | a] is addition when [a] fits below the shift. *)
Lemma lor_shiftl_add a c n : 0 ≤ n → 0 ≤ a < 2 ^ n → Z.lor (Z.shiftl c n) a = 2 ^ n * c + a.
Proof.
  intros. rewrite <-Z.lxor_lor, <-Z.add_nocarry_lxor by (by apply shiftl_land_small).
  rewrite Z.shiftl_mul_pow2 by lia. lia.
Qed.

Lemma lor_range a c n : 0 ≤ a < 2 ^ n → 0 ≤ c < 2 ^ n → 0 ≤ Z.lor a c < 2 ^ n.
Proof.
  intros Ha Hc. assert (0 ≤ n) by (destruct (Z.le_gt_cases 0 n); [done|];
    rewrite Z.pow_neg_r in Ha by lia; lia).
  rewrite <-(Z.mod_small a (2 ^ n)), <-(Z.mod_small c (2 ^ n)) by done.
  rewrite <-!Z.land_ones, <-Z.land_lor_distr_l, Z.land_ones by lia.
  apply Z.mod_pos_bound. lia.
Qed.

(** [f & (1 << k)] tests bit [k]. *)
Lemma land_bit_test f k : 0 ≤ k → negb (Z.land f (Z.shiftl 1 k) =? 0) = Z.testbit f k.
Proof.
  intros Hk. assert (Z.land f (Z.shiftl 1 k) = if Z.testbit f k then Z.shiftl 1 k else 0) as ->.
  { apply Z.bits_inj'. intros m Hm. rewrite Z.land_spec, Z.shiftl_1_l, Z.pow2_bits_eqb by lia.
    destruct (Z.eqb_spec k m) as [->|Hne].
    - rewrite andb_true_r.
      destruct (Z.testbit f m); [by rewrite Z.pow2_bits_true by lia|by rewrite Z.bits_0].
    - rewrite andb_false_r.
      destruct (Z.testbit f k); [by rewrite Z.pow2_bits_false by lia|by rewrite Z.bits_0]. }
  destruct (Z.testbit f k); [|done]. rewrite Z.shiftl_1_l.
  destruct (Z.eqb_spec (2 ^ k) 0); [lia|done].
Qed.

(** ** Proof automation *)

(** Reduce the binds of computed values, and nothing else. *)
Ltac ok_bind := cbn [mbind res_bind].

(** Take one step of a monadic computation apart. *)
Ltac runs_step :=
  match goal with
  | |- runs (_ ≫= _) _ _ => apply runs_bind
  | |- runs (Ok _) _ _ => apply runs_ok
  | |- runs (mret _) _ _ => apply runs_ok
  end.

(** Decide the boolean tests the goal branches on. *)
Ltac case_bool :=
  repeat match goal with
  | H : context [(?a <=? ?b)%Z] |- _ => destruct (Z.leb_spec a b)
  | H : context [(?a <? ?b)%Z] |- _ => destruct (Z.ltb_spec a b)
  | H : context [(?a =? ?b)%Z] |- _ => destruct (Z.eqb_spec a b)
  | |- context [(?a <=? ?b)%Z] => destruct (Z.leb_spec a b)
  | |- context [(?a <? ?b)%Z] => destruct (Z.ltb_spec a b)
  | |- context [(?a =? ?b)%Z] => destruct (Z.eqb_spec a b)
  end.

(** Rewrite boolean comparisons whose value [lia] can decide. *)
Ltac rw_bool :=
  repeat match goal with
  | |- context [(?a <=? ?b)%Z] =>
      first [rewrite (proj2 (Z.leb_le a b)) by lia
            |rewrite (proj2 (Z.leb_gt a b)) by lia]
  | |- context [(?a <? ?b)%Z] =>
      first [rewrite (proj2 (Z.ltb_lt a b)) by lia
            |rewrite (proj2 (Z.ltb_ge a b)) by lia]
  | |- context [(?a =? ?b)%Z] =>
      first [rewrite (proj2 (Z.eqb_eq a b)) by lia
            |rewrite (proj2 (Z.eqb_neq a b)) by lia]
  end; cbn [andb orb negb].
