(* ===== verification/PyBytes.v ===== *)
(** * Byte strings

    [bytes] and [bytearray] as lists of integers; indexing, slicing, slice
    assignment and the parts of the [struct] module the tools use, with their
    behaviour out of range.  The second half is the read-over-write theory the
    image builders and checkers are verified with. *)

From S2P Require Export Prelude.

Abbreviation bytes := (list Z).

(** A value a [bytes] object can hold. *)
Definition is_byte (v : Z) : bool := (0 <=? v) && (v <? 256).

(** [bytes(n)], [bytearray(n)] and [b"\0" * n] (empty for a negative [n]) *)
Definition zeros (n : Z) : bytes := replicate (Z.to_nat n) 0.

(** The bytes of a literal. *)
Definition b (s : string) : bytes := (λ c, Z.of_N (Ascii.N_of_ascii c)) <$> String.list_ascii_of_string s.

(** Python's adjustment of an index: negative ones count from the end. *)
Definition norm_index (n i : Z) : Z := if i <? 0 then i + n else i.

(** [l[i]] *)
Definition bget {A} (l : list A) (i : Z) : res A :=
  let j := norm_index (len l) i in
  if j <? 0 then Raise IndexError else or_raise IndexError (l !! Z.to_nat j).

(** [l[i] = v] on a [bytearray] *)
Definition bset (l : bytes) (i v : Z) : res bytes :=
  if is_byte v then
    let j := norm_index (len l) i in
    if (0 <=? j) && (j <? len l) then Ok (<[Z.to_nat j := v]> l) else Raise IndexError
  else Raise (ValueError "byte must be in range(0, 256)").

(** [l.append(v)] on a [bytearray] *)
Definition bappend (l : bytes) (v : Z) : res bytes :=
  if is_byte v then Ok (l ++ [v]) else Raise (ValueError "byte must be in range(0, 256)").

(** The bounds of a slice are clamped, never an error. *)
Definition clamp (n i : Z) : Z := if i <? 0 then Z.max 0 (i + n) else Z.min i n.

(** [l[i:j]] *)
Definition slice {A} (l : list A) (i j : Z) : list A :=
  let i := clamp (len l) i in
  let j := clamp (len l) j in
  take (Z.to_nat (j - i)) (drop (Z.to_nat i) l).

(** [l[i:j] = d]; the buffer grows or shrinks when [d] has another length. *)
Definition slice_set {A} (l : list A) (i j : Z) (d : list A) : list A :=
  let i := clamp (len l) i in
  let j := Z.max i (clamp (len l) j) in
  take (Z.to_nat i) l ++ d ++ drop (Z.to_nat j) l.

(** [l.ljust(n, fill)] *)
Definition ljust {A} (l : list A) (n : Z) (fill : A) : list A :=
  l ++ replicate (Z.to_nat (n - len l)) fill.

(** [l.startswith(p)] *)
Definition starts_with (l p : bytes) : bool := bool_decide (take (length p) l = p).

(** [l.find(p)] from [i] on, [-1] when there is none; [fuel] positions are tried. *)
Fixpoint find_fuel (fuel : nat) (l p : bytes) (i : Z) : Z :=
  match fuel with
  | O => -1
  | S fuel => if starts_with l p then i else find_fuel fuel (tail l) p (i + 1)
  end.
Definition find (l p : bytes) : Z := find_fuel (S (length l)) l p 0.

(** [p in l] *)
Definition occurs (p l : bytes) : bool := 0 <=? find l p.

(** [l.rfind(p, 0, stop)] for [0 <= stop]: the last match that ends by [stop]. *)
Fixpoint rfind_fuel (fuel : nat) (l p : bytes) : Z :=
  match fuel with
  | O => -1
  | S fuel => if starts_with (drop fuel l) p then Z.of_nat fuel else rfind_fuel fuel l p
  end.
Definition rfind (l p : bytes) (stop : Z) : Z :=
  let l := slice l 0 stop in rfind_fuel (S (length l)) l p.

(** ** The [struct] module

    Little endian and big endian integers of [n] bytes: "<H" is [n = 2] and
    "<I" is [n = 4]. *)

Fixpoint le_bytes (n : nat) (v : Z) : bytes :=
  match n with
  | O => []
  | S n => v mod 256 :: le_bytes n (v / 256)
  end.

Fixpoint le_val (l : bytes) : Z :=
  match l with
  | [] => 0
  | x :: l => x + 256 * le_val l
  end.

Definition fits (n : nat) (v : Z) : bool := (0 <=? v) && (v <? 256 ^ Z.of_nat n).

(** [struct.pack("<..", v)] and [struct.pack(">..", v)] *)
Definition pack_le (n : nat) (v : Z) : res bytes :=
  if fits n v then Ok (le_bytes n v) else Raise StructError.
Definition pack_be (n : nat) (v : Z) : res bytes :=
  if fits n v then Ok (rev (le_bytes n v)) else Raise StructError.

(** Where an access of [n] bytes at offset [off] of a buffer of [size] bytes
    starts, if it is inside the buffer. *)
Definition struct_offset (size off n : Z) : res Z :=
  if off <? 0 then
    if (off + n >? 0) || (off + size <? 0) then Raise StructError else Ok (off + size)
  else if off + n <=? size then Ok off else Raise StructError.

(** [struct.unpack_from("<..", l, off)[0]], and its big endian form *)
Definition unpack_le (n : nat) (l : bytes) (off : Z) : res Z :=
  o ← struct_offset (len l) off (Z.of_nat n);
  Ok (le_val (slice l o (o + Z.of_nat n))).
Definition unpack_be (n : nat) (l : bytes) (off : Z) : res Z :=
  o ← struct_offset (len l) off (Z.of_nat n);
  Ok (le_val (rev (slice l o (o + Z.of_nat n)))).

(** [struct.pack_into("<..", l, off, v)] *)
Definition pack_into (n : nat) (l : bytes) (off v : Z) : res bytes :=
  d ← pack_le n v;
  o ← struct_offset (len l) off (Z.of_nat n);
  Ok (slice_set l o (o + Z.of_nat n) d).

(** ** Integers as bytes *)

Abbreviation Bytes l := (Forall (λ v, is_byte v = true) l).

Lemma is_byte_spec v : is_byte v = true ↔ 0 ≤ v < 256.
Proof. unfold is_byte. rewrite andb_true_iff, Z.leb_le, Z.ltb_lt. done. Qed.

Lemma Bytes_lookup l i x : Bytes l → l !! i = Some x → is_byte x = true.
Proof. rewrite Forall_lookup. eauto. Qed.

Lemma fits_spec n v : fits n v = true ↔ 0 ≤ v < 256 ^ Z.of_nat n.
Proof. unfold fits. rewrite andb_true_iff, Z.leb_le, Z.ltb_lt. done. Qed.

Lemma length_le_bytes n v : length (le_bytes n v) = n.
Proof. revert v. induction n; intros; simpl; auto. Qed.
#[export] Hint Rewrite length_le_bytes : len.

Lemma le_bytes_Bytes n v : Bytes (le_bytes n v).
Proof.
  revert v. induction n as [|n IH]; intros v; simpl; constructor; [|done].
  apply is_byte_spec, Z.mod_pos_bound. lia.
Qed.

Lemma le_val_le_bytes n v : le_val (le_bytes n v) = v mod 256 ^ Z.of_nat n.
Proof.
  revert v. induction n as [|n IH]; intros v; [by rewrite Z.mod_1_r|].
  cbn [le_bytes le_val]. rewrite IH, pow_256.
  rewrite Z.rem_mul_r by lia. done.
Qed.

Lemma le_val_pack n v : fits n v = true → le_val (le_bytes n v) = v.
Proof. rewrite fits_spec. intros. by rewrite le_val_le_bytes, Z.mod_small. Qed.

Lemma le_val_bounds l : Bytes l → 0 ≤ le_val l < 256 ^ len l.
Proof.
  induction 1 as [|x l Hx Hl IH]; cbn [length le_val]; [lia|].
  apply is_byte_spec in Hx. rewrite pow_256. lia.
Qed.

Lemma le_bytes_le_val l : Bytes l → le_bytes (length l) (le_val l) = l.
Proof.
  induction 1 as [|x l Hx Hl IH]; simpl; [done|].
  apply is_byte_spec in Hx. rewrite (Z.mul_comm 256), Z.mod_add, Z.mod_small, Z.div_add by lia.
  rewrite Z.div_small, Z.add_0_l by lia. by rewrite IH.
Qed.

(** Shifting and masking an integer is dropping and keeping bytes. *)
Lemma le_val_drop l n : Bytes l → le_val (drop n l) = le_val l / 256 ^ Z.of_nat n.
Proof.
  revert n. induction l as [|x l IH]; intros [|n] Hl.
  - by rewrite Z.div_1_r.
  - rewrite drop_nil. cbn [le_val]. by rewrite Z.div_0_l by lia.
  - by rewrite Z.div_1_r.
  - apply Forall_cons_iff in Hl as [Hx%is_byte_spec Hl]. cbn [drop le_val]. rewrite IH, pow_256 by done.
    rewrite <-Z.div_div by lia. f_equal. rewrite (Z.mul_comm 256), Z.div_add, Z.div_small by lia. lia.
Qed.

Lemma le_val_take l n : Bytes l → le_val (take n l) = le_val l mod 256 ^ Z.of_nat n.
Proof.
  revert n. induction l as [|x l IH]; intros [|n] Hl.
  - by rewrite Z.mod_1_r.
  - rewrite take_nil. cbn [le_val]. by rewrite Z.mod_0_l by lia.
  - by rewrite Z.mod_1_r.
  - apply Forall_cons_iff in Hl as [Hx%is_byte_spec Hl]. cbn [take le_val]. rewrite IH, pow_256 by done.
    rewrite Z.rem_mul_r by lia. rewrite (Z.mul_comm 256 (le_val l)), Z.mod_add, Z.div_add by lia.
    rewrite (Z.mod_small x), (Z.div_small x) by lia. by rewrite Z.add_0_l.
Qed.

Lemma pack_le_ok n v : fits n v = true → pack_le n v = Ok (le_bytes n v).
Proof. unfold pack_le. by intros ->. Qed.

Lemma zeros_Bytes n : Bytes (zeros n).
Proof. by apply Forall_replicate. Qed.

Lemma length_zeros n : length (zeros n) = Z.to_nat n.
Proof. apply length_replicate. Qed.
#[export] Hint Rewrite length_zeros : len.

(** ** Slices *)

Section slices.
Context {A : Type}.
Implicit Types l k d : list A.

Lemma clamp_id n i : 0 ≤ i ≤ n → clamp n i = i.
Proof. intros. unfold clamp. case_bool; lia. Qed.

Lemma clamp_bounds n i : 0 ≤ n → 0 ≤ clamp n i ≤ n.
Proof. intros. unfold clamp. case_bool; lia. Qed.

Lemma slice_eq l i j :
  0 ≤ i ≤ j → j ≤ len l → slice l i j = take (Z.to_nat (j - i)) (drop (Z.to_nat i) l).
Proof. intros. unfold slice. by rewrite !clamp_id by lia. Qed.

Lemma length_slice l i j :
  0 ≤ i ≤ j → j ≤ len l → length (slice l i j) = Z.to_nat (j - i).
Proof. intros. rewrite slice_eq by lia. list_lia. Qed.

Lemma length_slice_le l i j : len (slice l i j) ≤ len l.
Proof. unfold slice. list_lia. Qed.

Lemma lookup_slice l i j n :
  0 ≤ i ≤ j → j ≤ len l →
  slice l i j !! n = if decide (Z.of_nat n < j - i) then l !! (Z.to_nat i + n)%nat else None.
Proof.
  intros. rewrite slice_eq by lia. case_decide.
  - rewrite lookup_take_lt by lia. apply lookup_drop.
  - apply lookup_take_ge. lia.
Qed.

Lemma slice_nil l i : 0 ≤ i ≤ len l → slice l i i = [].
Proof. intros. rewrite slice_eq, Z.sub_diag by lia. done. Qed.

Lemma slice_all l : slice l 0 (len l) = l.
Proof. rewrite slice_eq by lia. rewrite drop_0. apply take_ge. lia. Qed.

Lemma slice_all' l n : n = len l → slice l 0 n = l.
Proof. intros ->. apply slice_all. Qed.

Lemma slice_snoc l i j x :
  0 ≤ i ≤ j → l !! Z.to_nat j = Some x → slice l i (j + 1) = slice l i j ++ [x].
Proof.
  intros ? Hx. pose proof (lookup_lt_Some _ _ _ Hx).
  rewrite !slice_eq by lia. replace (Z.to_nat (j + 1 - i)) with (S (Z.to_nat (j - i))) by lia.
  apply take_S_r. rewrite lookup_drop. rewrite <-Hx. f_equal. lia.
Qed.

Lemma slice_split l i m j :
  0 ≤ i ≤ m → m ≤ j → j ≤ len l → slice l i j = slice l i m ++ slice l m j.
Proof.
  intros. apply list_eq. intros n. rewrite lookup_app, length_slice by lia.
  rewrite !lookup_slice by lia. repeat case_decide; try lia; try done.
  f_equal. lia.
Qed.

Lemma slice_app_l l k i j : 0 ≤ i ≤ j → j ≤ len l → slice (l ++ k) i j = slice l i j.
Proof.
  intros. apply list_eq. intros n. rewrite !lookup_slice by list_lia.
  case_decide; [|done]. apply lookup_app_l. lia.
Qed.

Lemma slice_app_r l k i j :
  len l ≤ i ≤ j → j ≤ len l + len k → slice (l ++ k) i j = slice k (i - len l) (j - len l).
Proof.
  intros. apply list_eq. intros n. rewrite !lookup_slice by list_lia.
  repeat case_decide; try lia; [|done]. rewrite lookup_app_r by lia. f_equal. lia.
Qed.

Lemma slice_slice l a c i j :
  0 ≤ a ≤ c → c ≤ len l → 0 ≤ i ≤ j → j ≤ c - a →
  slice (slice l a c) i j = slice l (a + i) (a + j).
Proof.
  intros. apply list_eq. intros n. rewrite !lookup_slice by (rewrite ?length_slice; lia).
  repeat case_decide; try lia; try done. f_equal. lia.
Qed.

(** A slice reaching past the end stops there. *)
Lemma slice_over l i j : 0 ≤ i → len l ≤ j → slice l i j = drop (Z.to_nat i) l.
Proof.
  intros. unfold slice, clamp. case_bool; try lia.
  destruct (Z.le_gt_cases i (len l)).
  - rewrite (Z.min_l i), (Z.min_r j) by lia. apply take_ge. list_lia.
  - rewrite (Z.min_r i), (Z.min_r j), Z.sub_diag by lia. symmetry. apply drop_ge. lia.
Qed.

Lemma slice_app_over l k i j :
  len l ≤ i ≤ j → slice (l ++ k) i j = slice k (i - len l) (j - len l).
Proof.
  intros. unfold slice, clamp. autorewrite with len. case_bool; try lia.
  rewrite drop_app_ge by lia. f_equal; [lia|f_equal; lia].
Qed.

(** Slice assignment with a value of the same length: a write. *)
Lemma slice_set_eq l i j d :
  0 ≤ i → j = i + len d → j ≤ len l →
  slice_set l i j d = take (Z.to_nat i) l ++ d ++ drop (Z.to_nat j) l.
Proof. intros. unfold slice_set. rewrite !clamp_id by lia. by rewrite Z.max_r by lia. Qed.

Lemma length_slice_set l i j d :
  0 ≤ i → j = i + len d → j ≤ len l → length (slice_set l i j d) = length l.
Proof. intros. rewrite slice_set_eq by lia. list_lia. Qed.

Lemma lookup_slice_set l i j d n :
  0 ≤ i → j = i + len d → j ≤ len l →
  slice_set l i j d !! n =
    if decide (i ≤ Z.of_nat n < j) then d !! (n - Z.to_nat i)%nat else l !! n.
Proof.
  intros. rewrite slice_set_eq by lia. rewrite !lookup_app, length_take.
  rewrite Nat.min_l by lia.
  repeat case_decide; try lia.
  - by rewrite lookup_take_lt by lia.
  - done.
  - rewrite lookup_drop. f_equal. lia.
Qed.

Lemma slice_slice_set_in l i j d a c :
  0 ≤ i → j = i + len d → j ≤ len l → i ≤ a ≤ c → c ≤ j →
  slice (slice_set l i j d) a c = slice d (a - i) (c - i).
Proof.
  intros. apply list_eq. intros n.
  rewrite !lookup_slice by (rewrite ?length_slice_set by lia; lia).
  rewrite lookup_slice_set by lia. repeat case_decide; try lia; [|done]. f_equal. lia.
Qed.

Lemma slice_slice_set_out l i j d a c :
  0 ≤ i → j = i + len d → j ≤ len l → 0 ≤ a ≤ c → c ≤ len l → c ≤ i ∨ j ≤ a →
  slice (slice_set l i j d) a c = slice l a c.
Proof.
  intros. apply list_eq. intros n.
  rewrite !lookup_slice by (rewrite ?length_slice_set by lia; lia).
  case_decide; [|done]. rewrite lookup_slice_set by lia. by rewrite decide_False by lia.
Qed.

Lemma slice_slice_set_same l i j d :
  0 ≤ i → j = i + len d → j ≤ len l → slice (slice_set l i j d) i j = d.
Proof.
  intros. rewrite slice_slice_set_in, Z.sub_diag by lia. apply slice_all'. lia.
Qed.

(** Adjacent writes are one write. *)
Lemma slice_set_adjacent l i j j' d e :
  0 ≤ i → j = i + len d → j' = j + len e → j' ≤ len l →
  slice_set (slice_set l i j d) j j' e = slice_set l i j' (d ++ e).
Proof.
  intros. apply list_eq. intros n.
  rewrite !lookup_slice_set by (rewrite ?length_slice_set; list_lia).
  repeat case_decide; try lia; rewrite ?lookup_app_l, ?lookup_app_r by lia; try done.
  f_equal. lia.
Qed.

Lemma bget_lookup l i x : 0 ≤ i → l !! Z.to_nat i = Some x → bget l i = Ok x.
Proof.
  intros ? Hx. unfold bget, norm_index. case_bool; try lia. by rewrite Hx.
Qed.

Lemma bget_ok l i : 0 ≤ i < len l → ∃ x, l !! Z.to_nat i = Some x ∧ bget l i = Ok x.
Proof.
  intros. destruct (lookup_lt_is_Some_2 l (Z.to_nat i)) as [x Hx]; [lia|].
  exists x. split; [done|]. apply bget_lookup; [lia|done].
Qed.

Lemma runs_bget l i : runs (bget l i) (λ x, x ∈ l) (λ e, e = IndexError).
Proof.
  unfold bget. destruct (_ <? 0); [done|]. destruct (l !! _) eqn:Hx; [|done].
  by eapply list_elem_of_lookup_2.
Qed.

Lemma bget_Ok_inv l i x : 0 ≤ i → bget l i = Ok x → i < len l ∧ l !! Z.to_nat i = Some x.
Proof.
  intros ?. unfold bget, norm_index. case_bool; try lia. destruct (l !! _) eqn:Hx; [|done].
  intros [= ->]. split; [|done]. apply lookup_lt_Some in Hx. lia.
Qed.

Lemma bget_slice l a c i :
  0 ≤ a ≤ c → c ≤ len l → 0 ≤ i < c - a → bget (slice l a c) i = bget l (a + i).
Proof.
  intros. destruct (bget_ok l (a + i)) as (x & Hx & ->); [lia|].
  apply bget_lookup; [lia|]. rewrite lookup_slice by lia. case_decide; [|lia].
  rewrite <-Hx. f_equal. lia.
Qed.

Lemma bget_slice_set_in l i j d a :
  0 ≤ i → j = i + len d → j ≤ len l → i ≤ a < j →
  bget (slice_set l i j d) a = bget d (a - i).
Proof.
  intros. destruct (bget_ok d (a - i)) as (x & Hx & ->); [lia|].
  apply bget_lookup; [lia|]. rewrite lookup_slice_set by lia. case_decide; [|lia].
  rewrite <-Hx. f_equal. lia.
Qed.

Lemma bget_slice_set_out l i j d a :
  0 ≤ i → j = i + len d → j ≤ len l → 0 ≤ a < len l → a < i ∨ j ≤ a →
  bget (slice_set l i j d) a = bget l a.
Proof.
  intros. destruct (bget_ok l a) as (x & Hx & ->); [lia|].
  apply bget_lookup; [lia|]. rewrite lookup_slice_set by lia. by case_decide; [lia|].
Qed.

Lemma bget_app_l l k i : 0 ≤ i < len l → bget (l ++ k) i = bget l i.
Proof.
  intros. destruct (bget_ok l i) as (x & Hx & ->); [lia|].
  apply bget_lookup; [lia|]. by rewrite lookup_app_l by lia.
Qed.

Lemma bget_app_r l k i : len l ≤ i < len l + len k → bget (l ++ k) i = bget k (i - len l).
Proof.
  intros. destruct (bget_ok k (i - len l)) as (x & Hx & ->); [lia|].
  apply bget_lookup; [lia|]. rewrite lookup_app_r by lia. rewrite <-Hx. f_equal. lia.
Qed.
End slices.

Lemma slice_zeros n i j : 0 ≤ i ≤ j → j ≤ n → slice (zeros n) i j = zeros (j - i).
Proof.
  intros. apply list_eq. intros m. rewrite lookup_slice by list_lia.
  unfold zeros. case_decide.
  - rewrite !lookup_replicate_2 by lia. done.
  - symmetry. apply lookup_ge_None. list_lia.
Qed.

Lemma slice_Bytes l i j : Bytes l → Bytes (slice l i j).
Proof. intros. unfold slice. by apply Forall_take, Forall_drop. Qed.

Lemma slice_set_Bytes l i j d : Bytes l → Bytes d → Bytes (slice_set l i j d).
Proof.
  intros. unfold slice_set. apply Forall_app; split; [by apply Forall_take|].
  apply Forall_app; split; [done|by apply Forall_drop].
Qed.

(** ** Reads and writes inside the buffer *)

Lemma struct_offset_ok size off n : 0 ≤ off → off + n ≤ size → struct_offset size off n = Ok off.
Proof. intros. unfold struct_offset. by rw_bool. Qed.

Lemma unpack_le_ok n l off :
  0 ≤ off → off + Z.of_nat n ≤ len l →
  unpack_le n l off = Ok (le_val (slice l off (off + Z.of_nat n))).
Proof. intros. unfold unpack_le. by rewrite struct_offset_ok. Qed.

Lemma unpack_be_ok n l off :
  0 ≤ off → off + Z.of_nat n ≤ len l →
  unpack_be n l off = Ok (le_val (rev (slice l off (off + Z.of_nat n)))).
Proof. intros. unfold unpack_be. by rewrite struct_offset_ok. Qed.

Lemma pack_into_ok n l off v :
  0 ≤ off → off + Z.of_nat n ≤ len l → fits n v = true →
  pack_into n l off v = Ok (slice_set l off (off + Z.of_nat n) (le_bytes n v)).
Proof. intros. unfold pack_into. rewrite pack_le_ok by done. simpl. by rewrite struct_offset_ok. Qed.

Lemma bset_ok l i v :
  0 ≤ i < len l → is_byte v = true → bset l i v = Ok (slice_set l i (i + 1) [v]).
Proof.
  intros ? Hv. unfold bset. rewrite Hv. unfold norm_index. rw_bool. f_equal.
  apply list_eq. intros n. rewrite lookup_slice_set by list_lia.
  destruct (decide (n = Z.to_nat i)) as [->|].
  - rewrite list_lookup_insert_eq by lia. rewrite decide_True by lia.
    by replace (Z.to_nat i - Z.to_nat i)%nat with 0%nat by lia.
  - rewrite list_lookup_insert_ne by done. by rewrite decide_False by lia.
Qed.

Lemma bappend_ok l v : is_byte v = true → bappend l v = Ok (l ++ [v]).
Proof. unfold bappend. by intros ->. Qed.

Lemma Bytes_elem l x : Bytes l → x ∈ l → is_byte x = true.
Proof. intros ? [i Hi]%list_elem_of_lookup. by eapply Bytes_lookup. Qed.

Lemma unpack_le_Ok_inv n l off v :
  0 ≤ off → unpack_le n l off = Ok v →
  off + Z.of_nat n ≤ len l ∧ v = le_val (slice l off (off + Z.of_nat n)).
Proof.
  intros ?. unfold unpack_le, struct_offset. case_bool; try lia; [|done]. by intros [= <-].
Qed.

Lemma runs_unpack_le n l off :
  Bytes l → 0 ≤ off →
  runs (unpack_le n l off) (λ v, 0 ≤ v < 256 ^ Z.of_nat n ∧ off + Z.of_nat n ≤ len l)
    (λ e, e = StructError).
Proof.
  intros Hl ?. destruct (Z.le_gt_cases (off + Z.of_nat n) (len l)) as [Hle|Hgt].
  - rewrite unpack_le_ok by done. split; [|done].
    pose proof (le_val_bounds (slice l off (off + Z.of_nat n))
      (slice_Bytes _ _ _ Hl)) as Hb.
    rewrite length_slice in Hb by lia.
    by replace (Z.of_nat (Z.to_nat (off + Z.of_nat n - off))) with (Z.of_nat n) in Hb by lia.
  - unfold unpack_le, struct_offset. by rw_bool.
Qed.

(** ** Primitives that always return *)

Lemma returns_unpack n l off : returns (unpack_le n l off).
Proof. unfold unpack_le, struct_offset. by repeat case_match. Qed.
Lemma returns_unpack_be n l off : returns (unpack_be n l off).
Proof. unfold unpack_be, struct_offset. by repeat case_match. Qed.
Lemma returns_bget {A} (l : list A) i : returns (bget l i).
Proof. unfold bget, or_raise. by repeat case_match. Qed.

(** Takes a computation apart down to its loops. *)
Ltac returns_solve :=
  repeat match goal with
  | |- returns (_ ≫= _) => apply returns_bind; [|intros ?]
  | |- returns (unpack_le _ _ _) => apply returns_unpack
  | |- returns (unpack_be _ _ _) => apply returns_unpack_be
  | |- returns (bget _ _) => apply returns_bget
  | |- returns (if ?c then _ else _) => destruct c
  | |- returns (match ?c with _ => _ end) => destruct c
  | |- returns (Ok _) => exact I
  | |- returns (Raise _) => exact I
  end.

(** ** Contents of a buffer

    [has l o d]: the buffer [l] holds the bytes [d] at offset [o]. *)

Definition has (l : bytes) (o : Z) (d : bytes) : Prop :=
  0 ≤ o ∧ o + len d ≤ len l ∧ slice l o (o + len d) = d.

Lemma has_slice l o d j : has l o d → j = o + len d → slice l o j = d.
Proof. by intros (_ & _ & H) ->. Qed.

Lemma has_intro l o j : 0 ≤ o ≤ j → j ≤ len l → has l o (slice l o j).
Proof.
  intros. unfold has. rewrite !length_slice by lia.
  replace (o + Z.of_nat (Z.to_nat (j - o))) with j by lia. split_and!; lia || done.
Qed.

Lemma has_app l o d e : has l o (d ++ e) ↔ has l o d ∧ has l (o + len d) e.
Proof.
  unfold has. rewrite length_app, Nat2Z.inj_add, Z.add_assoc. split.
  - intros (? & ? & H). rewrite (slice_split _ _ (o + len d)) in H by lia.
    apply app_inj_1 in H as [-> ->]; [|rewrite length_slice; lia]. split_and!; lia || done.
  - intros ((? & ? & H1) & (? & ? & H2)). split_and!; [lia|lia|].
    rewrite (slice_split _ _ (o + len d)) by lia. by rewrite H1, H2.
Qed.

Lemma has_sub l o d i j :
  has l o d → 0 ≤ i ≤ j → j ≤ len d → has l (o + i) (slice d i j).
Proof.
  intros (? & ? & H) ??. unfold has. rewrite length_slice by lia. split_and!; [lia|lia|].
  rewrite <-H, slice_slice by lia. f_equal. lia.
Qed.

(** A write, and what it keeps. *)
Lemma has_write l i d : 0 ≤ i → i + len d ≤ len l → has (slice_set l i (i + len d) d) i d.
Proof.
  intros. unfold has. rewrite length_slice_set by lia. split_and!; [done|done|].
  by apply slice_slice_set_same.
Qed.

Lemma has_frame l i j d o e :
  0 ≤ i → j = i + len d → j ≤ len l → o + len e ≤ i ∨ j ≤ o →
  has l o e → has (slice_set l i j d) o e.
Proof.
  intros ???? (? & ? & H). unfold has. rewrite length_slice_set by lia. split_and!; [done|done|].
  by rewrite slice_slice_set_out by lia.
Qed.

Lemma has_unpack l o n v :
  has l o (le_bytes n v) → fits n v = true → unpack_le n l o = Ok v.
Proof.
  intros (? & Hle & H) Hv. rewrite length_le_bytes in *. rewrite unpack_le_ok by done.
  by rewrite H, le_val_pack.
Qed.

Lemma has_bget l o d i x :
  has l o d → 0 ≤ i → d !! Z.to_nat i = Some x → bget l (o + i) = Ok x.
Proof.
  intros (? & ? & H) ? Hx. pose proof (lookup_lt_Some _ _ _ Hx). rewrite <-H in Hx.
  rewrite lookup_slice in Hx by lia. case_decide; [|done].
  apply bget_lookup; [lia|]. rewrite <-Hx. f_equal. lia.
Qed.

Lemma has_zeros n i j : 0 ≤ i ≤ j → j ≤ n → has (zeros n) i (zeros (j - i)).
Proof.
  intros. rewrite <-(slice_zeros n i j) by done. apply has_intro; [done|].
  rewrite length_zeros. lia.
Qed.

Lemma has_all l : has l 0 l.
Proof. split_and!; [done|lia|]. by apply slice_all'. Qed.

Lemma has_trans l o d i e : has l o d → has d i e → has l (o + i) e.
Proof.
  intros Hl (? & ? & <-). replace (i + len e) with (i + len e) by done.
  apply has_sub; [done|lia|lia].
Qed.

(** A write that continues the write before it. *)
Lemma bset_adjacent l i j d v :
  0 ≤ i → j = i + len d → j < len l → is_byte v = true →
  bset (slice_set l i j d) j v = Ok (slice_set l i (j + 1) (d ++ [v])).
Proof.
  intros. rewrite bset_ok by (done || rewrite length_slice_set; lia).
  by rewrite slice_set_adjacent by list_lia.
Qed.

Lemma pack_into_adjacent n l i j d v :
  0 ≤ i → j = i + len d → j + Z.of_nat n ≤ len l → fits n v = true →
  pack_into n (slice_set l i j d) j v = Ok (slice_set l i (j + Z.of_nat n) (d ++ le_bytes n v)).
Proof.
  intros. rewrite pack_into_ok by (done || rewrite ?length_slice_set; lia).
  by rewrite slice_set_adjacent by list_lia.
Qed.

(** Take a list of known length apart into its elements. *)
Ltac explode l :=
  let x := fresh "x" in
  destruct l as [|x l]; cbn [length] in *; try lia.

(** The elements of a fixed width integer, as variables. *)
Lemma le_bytes_2 v : ∃ x y, le_bytes 2 v = [x; y].
Proof. do 2 eexists. reflexivity. Qed.
Lemma le_bytes_4 v : ∃ x y z w, le_bytes 4 v = [x; y; z; w].
Proof. do 4 eexists. reflexivity. Qed.
Ltac explode_ints :=
  repeat match goal with
  | |- context [le_bytes 2 ?v] =>
      let H := fresh in destruct (le_bytes_2 v) as (? & ? & H); rewrite H; clear H
  | |- context [le_bytes 4 ?v] =>
      let H := fresh in destruct (le_bytes_4 v) as (? & ? & ? & ? & H); rewrite H; clear H
  end.

(** ** Searching *)

Lemma starts_with_has l p i :
  0 ≤ i → starts_with (drop (Z.to_nat i) l) p = true → i ≤ len l → has l i p.
Proof.
  intros Hi Hs%bool_decide_eq_true Hle.
  assert (len p ≤ len l - i) as Hp by (rewrite <-Hs; list_lia).
  unfold has. split_and!; [done|lia|]. rewrite slice_eq by lia. rewrite <-Hs at 2. f_equal. lia.
Qed.

Lemma find_fuel_spec fuel l p k :
  find_fuel fuel l p k = -1 ∨
  ∃ n, find_fuel fuel l p k = k + Z.of_nat n ∧ (n < fuel)%nat ∧ starts_with (drop n l) p = true.
Proof.
  revert l k. induction fuel as [|fuel IH]; intros l k; [by left|]. cbn [find_fuel].
  destruct (starts_with l p) eqn:Hs; [right; exists 0%nat; rewrite drop_0; split_and!; [lia|lia|done]|].
  destruct (IH (tail l) (k + 1)) as [?|(n & Hn & ? & Hd)]; [by left|right].
  exists (S n). split_and!; [lia|lia|]. destruct l; [by rewrite drop_nil in *|done].
Qed.

Lemma find_has l p : 0 ≤ find l p → has l (find l p) p.
Proof.
  intros H. unfold find in *. destruct (find_fuel_spec (S (length l)) l p 0) as [?|(n & Hn & ? & Hd)]; [lia|].
  rewrite Hn. apply starts_with_has; [lia|by rewrite Z.add_0_l, Nat2Z.id|lia].
Qed.

Lemma rfind_fuel_spec fuel l p :
  rfind_fuel fuel l p = -1 ∨
  ∃ n, rfind_fuel fuel l p = Z.of_nat n ∧ (n < fuel)%nat ∧ starts_with (drop n l) p = true.
Proof.
  induction fuel as [|fuel IH]; [by left|]. cbn [rfind_fuel].
  destruct (starts_with (drop fuel l) p) eqn:Hs; [right; exists fuel; split_and!; [done|lia|done]|].
  destruct IH as [?|(n & ? & ? & ?)]; [by left|right]. exists n. split_and!; [done|lia|done].
Qed.

Lemma rfind_has l p stop :
  0 ≤ stop ≤ len l → 0 ≤ rfind l p stop →
  has l (rfind l p stop) p ∧ rfind l p stop + len p ≤ stop.
Proof.
  intros Hs H. unfold rfind in *. cbv zeta in *.
  assert (length (slice l 0 stop) = Z.to_nat stop) as Hl by (rewrite length_slice; lia).
  destruct (rfind_fuel_spec (S (length (slice l 0 stop))) (slice l 0 stop) p) as [?|(n & Hn & ? & Hd)]; [lia|].
  rewrite Hn. rewrite <-(Nat2Z.id n) in Hd. apply starts_with_has in Hd; [|lia|rewrite Hl in *; lia].
  pose proof Hd as (_ & Hle & _). split; [|lia].
  apply (has_trans l 0 (slice l 0 stop) (Z.of_nat n) p); [apply has_intro; lia|done].
Qed.
