(* ===== verification/Adler.v ===== *)
(** * The blob checksum: [tools/common/qizolzss.py] [checksum] and the reference
    loop [hand_adler] of [tools/qizocheck/qizotest.py]

    The library function [zlib.adler32] is modelled from its definition (RFC
    1950): two sums modulo 65521, the second of which weights every byte by its
    distance to the end.  The theorems show that the reference loop computes the
    same value and what kind of damage to a blob the checksum always reveals. *)

From S2P Require Export PyBytes.

(** ** Definitions *)

Definition MOD_ADLER : Z := 65521.

Definition byte_sum (data : bytes) : Z := foldr Z.add 0 data.

(** The sum of the bytes, each weighted by its distance to the end. *)
Fixpoint weighted_sum (data : bytes) : Z :=
  match data with
  | [] => 0
  | x :: data => len (x :: data) * x + weighted_sum data
  end.

(** [zlib.adler32(data, value)] *)
Definition adler32 (data : bytes) (value : Z) : Z :=
  let a := Z.land value 0xFFFF in
  let b := Z.land (Z.shiftr value 16) 0xFFFF in
  Z.lor
    (Z.shiftl ((b + len data * a + weighted_sum data) mod MOD_ADLER) 16)
    ((a + byte_sum data) mod MOD_ADLER).

(** [qizolzss.checksum] *)
Definition checksum (data : bytes) : Z := Z.land (adler32 data 1) 0xFFFFFFFF.

(** The loop state of [hand_adler]: the pair [(a, b)]. *)
Definition hand_adler_step (ab : Z * Z) (byte : Z) : Z * Z :=
  let a := (ab.1 + byte) mod 65521 in
  (a, (ab.2 + a) mod 65521).

(** [qizotest.hand_adler] *)
Definition hand_adler (data : bytes) : Z :=
  let '(a, b) := fold_left hand_adler_step data (1, 0) in
  Z.land (Z.lor (Z.shiftl b 16) a) 0xFFFFFFFF.

(** ** Lemmas *)

(** The two halves of a checksum. *)
Definition halves (v : Z) : Z * Z := (v mod 65536, v / 65536).

Lemma lor_halves a b : 0 ≤ a < 65536 → Z.lor (Z.shiftl b 16) a = 65536 * b + a.
Proof. intros. by apply (lor_shiftl_add a b 16). Qed.

Lemma land_32_id v : 0 ≤ v < 2 ^ 32 → Z.land v 0xFFFFFFFF = v.
Proof.
  intros. change 0xFFFFFFFF with (Z.ones 32). rewrite Z.land_ones by lia. by apply Z.mod_small.
Qed.

Lemma halves_lor a b : 0 ≤ a < 65536 → halves (65536 * b + a) = (a, b).
Proof.
  intros. unfold halves. f_equal.
  - rewrite Z.add_comm, Z.mul_comm, Z.mod_add by lia. by apply Z.mod_small.
  - rewrite Z.add_comm, Z.mul_comm, Z.div_add, Z.div_small by lia. lia.
Qed.

Lemma byte_sum_app d1 d2 : byte_sum (d1 ++ d2) = byte_sum d1 + byte_sum d2.
Proof. unfold byte_sum. induction d1; simpl; lia. Qed.

Lemma weighted_sum_app d1 d2 :
  weighted_sum (d1 ++ d2) = weighted_sum d1 + len d2 * byte_sum d1 + weighted_sum d2.
Proof.
  unfold byte_sum. induction d1 as [|x d1 IH]; [simpl; lia|].
  cbn [app weighted_sum foldr]. rewrite IH. list_lia.
Qed.

Lemma adler32_eq data value :
  0 ≤ value < 2 ^ 32 →
  adler32 data value =
    65536 * ((value / 65536 + len data * (value mod 65536) + weighted_sum data) mod MOD_ADLER)
    + (value mod 65536 + byte_sum data) mod MOD_ADLER.
Proof.
  intros. unfold adler32. change 0xFFFF with (Z.ones 16).
  rewrite !Z.land_ones, Z.shiftr_div_pow2 by lia. change (2 ^ 16) with 65536.
  rewrite (Z.mod_small (value / 65536)) by
    (split; [by apply Z.div_pos; lia|by apply Z.div_lt_upper_bound; lia]).
  apply lor_halves. unfold MOD_ADLER.
  pose proof (Z.mod_pos_bound (value mod 65536 + byte_sum data) 65521). lia.
Qed.

Lemma adler32_bounds data value : 0 ≤ value < 2 ^ 32 → 0 ≤ adler32 data value < 2 ^ 32.
Proof.
  intros. rewrite adler32_eq by done. unfold MOD_ADLER.
  pose proof (Z.mod_pos_bound (value mod 65536 + byte_sum data) 65521 ltac:(lia)).
  pose proof (Z.mod_pos_bound
    (value / 65536 + len data * (value mod 65536) + weighted_sum data) 65521 ltac:(lia)).
  lia.
Qed.

Lemma checksum_eq data :
  checksum data =
    65536 * ((len data + weighted_sum data) mod 65521) + (1 + byte_sum data) mod 65521.
Proof.
  unfold checksum. rewrite land_32_id by (by apply adler32_bounds).
  rewrite adler32_eq by lia. change (1 / 65536) with 0. change (1 mod 65536) with 1.
  unfold MOD_ADLER. by rewrite Z.add_0_l, Z.mul_1_r.
Qed.

Lemma halves_checksum data :
  halves (checksum data) = ((1 + byte_sum data) mod 65521, (len data + weighted_sum data) mod 65521).
Proof.
  rewrite checksum_eq. apply halves_lor.
  pose proof (Z.mod_pos_bound (1 + byte_sum data) 65521 ltac:(lia)). lia.
Qed.

Lemma hand_adler_fold data a b :
  fold_left hand_adler_step data (a mod 65521, b mod 65521) =
    ((a + byte_sum data) mod 65521, (b + len data * a + weighted_sum data) mod 65521).
Proof.
  unfold byte_sum. revert a b. induction data as [|x data IH]; intros a b.
  - simpl. by rewrite !Z.add_0_r.
  - cbn [fold_left foldr weighted_sum length]. unfold hand_adler_step at 2. cbn [fst snd].
    rewrite Zplus_mod_idemp_l. rewrite (Zplus_mod_idemp_r (a + x)), Zplus_mod_idemp_l.
    rewrite IH. f_equal; f_equal; lia.
Qed.

(** Two checksums that agree have congruent sums. *)
Lemma checksum_inj_sums d1 d2 :
  checksum d1 = checksum d2 →
  (byte_sum d1 - byte_sum d2) mod 65521 = 0 ∧
  (len d1 + weighted_sum d1 - (len d2 + weighted_sum d2)) mod 65521 = 0.
Proof.
  intros H. apply (f_equal halves) in H. rewrite !halves_checksum in H.
  injection H as H1 H2. split.
  - replace (byte_sum d1 - byte_sum d2) with ((1 + byte_sum d1) - (1 + byte_sum d2)) by lia.
    by rewrite Zminus_mod, H1, Z.sub_diag.
  - by rewrite Zminus_mod, H2, Z.sub_diag.
Qed.

Lemma small_mod_zero d n : d mod n = 0 → - n < d < n → d = 0.
Proof.
  intros H ?. apply Z.mod_divide in H; [|lia]. destruct H as [q ->].
  destruct (Z.eq_dec q 0); [lia|nia].
Qed.

Lemma checksum_loop data : checksum data = hand_adler data.
Proof.
  unfold hand_adler. pose proof (hand_adler_fold data 1 0) as Hf.
  change (1 mod 65521) with 1 in Hf. change (0 mod 65521) with 0 in Hf. rewrite Hf.
  rewrite Z.mul_1_r, Z.add_0_l.
  rewrite lor_halves by (pose proof (Z.mod_pos_bound (1 + byte_sum data) 65521); lia).
  rewrite <-checksum_eq, land_32_id; [done|].
  unfold checksum. rewrite land_32_id; by apply adler32_bounds.
Qed.

(** ** Theorems *)

(** The loop [hand_adler] and the library checksum agree on every input;
    in particular the "adler matches the hand loop" test never fails. *)
Theorem checksum_hand_adler data : checksum data = hand_adler data.
Proof. apply checksum_loop. Qed.

Lemma checksum_range data : 0 ≤ checksum data < 2 ^ 32.
Proof. unfold checksum. rewrite land_32_id; by apply adler32_bounds. Qed.

(** A checksum fits the 32 bit field of the stage1 argument block. *)
Theorem checksum_fits data : fits 4 (checksum data) = true.
Proof.
  apply fits_spec, checksum_range.
Qed.

(** Damage to one byte of a blob changes its checksum. *)
Theorem checksum_single_byte pre x y post :
  is_byte x = true → is_byte y = true → x ≠ y →
  checksum (pre ++ x :: post) ≠ checksum (pre ++ y :: post).
Proof.
  rewrite !is_byte_spec. intros Hx Hy Hne H. apply checksum_inj_sums in H as [H _].
  rewrite !byte_sum_app in H. cbn [byte_sum foldr] in H.
  apply small_mod_zero in H; unfold byte_sum in *; cbn [foldr] in *; lia.
Qed.

Lemma checksum_single_byte_witness :
  checksum ([81; 73; 90] ++ 76 :: [0; 1]) ≠ checksum ([81; 73; 90] ++ 77 :: [0; 1]).
Proof. apply (checksum_single_byte [81; 73; 90] 76 77 [0; 1]); [done|done|lia]. Defined.

(** Swapping two different adjacent bytes changes the checksum. *)
Theorem checksum_transposition pre x y post :
  is_byte x = true → is_byte y = true → x ≠ y →
  checksum (pre ++ x :: y :: post) ≠ checksum (pre ++ y :: x :: post).
Proof.
  rewrite !is_byte_spec. intros Hx Hy Hne H. apply checksum_inj_sums in H as [_ H].
  rewrite !weighted_sum_app in H. cbn [byte_sum foldr weighted_sum] in H.
  apply small_mod_zero in H; autorewrite with len in *; cbn [length] in *; lia.
Qed.

Lemma checksum_transposition_witness :
  checksum ([81] ++ 73 :: 90 :: [76]) ≠ checksum ([81] ++ 90 :: 73 :: [76]).
Proof. apply (checksum_transposition [81] 73 90 [76]); [done|done|lia]. Defined.

(** The checksum of a blob read in two parts is the checksum of the second
    part started from that of the first. *)
Theorem adler32_app d1 d2 : adler32 (d1 ++ d2) 1 = adler32 d2 (adler32 d1 1).
Proof.
  rewrite (adler32_eq d2) by (by apply adler32_bounds).
  assert (halves (adler32 d1 1) = ((1 + byte_sum d1) mod 65521, (len d1 + weighted_sum d1) mod 65521))
    as Hh.
  { rewrite <-halves_checksum. unfold checksum. by rewrite land_32_id by (by apply adler32_bounds). }
  injection Hh as -> ->. rewrite (adler32_eq (d1 ++ d2)) by lia. unfold MOD_ADLER.
  change (1 / 65536) with 0. change (1 mod 65536) with 1.
  rewrite byte_sum_app, weighted_sum_app, length_app, Zplus_mod_idemp_l. f_equal; [|f_equal; lia].
  f_equal. rewrite <-(Z.add_assoc (_ mod _)), Zplus_mod_idemp_l.
  rewrite (Z.add_comm (len d1 + _)), <-(Z.add_assoc (_ * _)).
  rewrite <-(Zplus_mod_idemp_l (len d2 * _)), Zmult_mod_idemp_r, Zplus_mod_idemp_l.
  f_equal. lia.
Qed.
