(* ===== verification/Lzss.v ===== *)
(** * The LZSS container: [tools/common/qizolzss.py]

    [compress], [_find_match] and [decompress] as the file writes them, an
    abstract description of the container (tokens, blocks, [container]), and the
    theorems: the match finder returns the longest and nearest match, every
    compressed input is a well formed stream, every well formed stream decodes
    to the data it describes, and the decoder always terminates. *)

From S2P Require Export PyBytes.

(** ** The code *)

Definition LZSS_MAGIC : Z := 0x51495A4C.
Definition WINDOW : Z := 4096.
Definition MIN_MATCH : Z := 3.
Definition MAX_MATCH : Z := 18.

(** The inner loop of [_find_match]: the length of the match at [j]. *)
Definition match_len (src : bytes) (limit i j : Z) : res Z :=
  while (S (Z.to_nat limit)) (λ l, l <? limit)
    (λ l,
      x ← bget src (j + l);
      y ← bget src (i + l);
      Ok (if x =? y then Next (l + 1) else Break l)) 0.

Record scan_state := Scan { sc_j : Z; sc_len : Z; sc_off : Z }.

(** One candidate position of [_find_match]. *)
Definition scan_step (src : bytes) (limit i : Z) (s : scan_state) : res (ctl scan_state) :=
  l ← match_len src limit i (sc_j s);
  Ok (if sc_len s <? l then
        if l =? limit then Break (Scan (sc_j s) l (i - sc_j s))
        else Next (Scan (sc_j s - 1) l (i - sc_j s))
      else Next (Scan (sc_j s - 1) (sc_len s) (sc_off s))).

Definition _find_match (src : bytes) (i n : Z) : res (Z * Z) :=
  let limit := Z.min MAX_MATCH (n - i) in
  if limit <? MIN_MATCH then Ok (0, 0)
  else
    let start := if i - WINDOW <? 0 then 0 else i - WINDOW in
    s ← while (Z.to_nat (i - start + 1)) (λ s, start <=? sc_j s)
          (scan_step src limit i) (Scan (i - 1) 0 0);
    Ok (if sc_len s <? MIN_MATCH then (0, 0) else (sc_off s, sc_len s)).

Record comp_state := Comp { c_out : bytes; c_i : Z; c_flags : Z }.

(** The body of the [for bit in range(8)] loop of [compress]. *)
Definition compress_item (src : bytes) (n bit : Z) (s : comp_state) : res (ctl comp_state) :=
  if n <=? c_i s then Ok (Break s)
  else
    '(off, ln) ← _find_match src (c_i s) n;
    if negb (ln =? 0) then
      tok ← pack_le 2 (Z.lor (Z.shiftl (off - 1) 4) (ln - MIN_MATCH));
      Ok (Next (Comp (c_out s ++ tok) (c_i s + ln) (Z.lor (c_flags s) (Z.shiftl 1 bit))))
    else
      x ← bget src (c_i s);
      out ← bappend (c_out s) x;
      Ok (Next (Comp out (c_i s + 1) (c_flags s))).

(** The body of the [while i < n] loop of [compress]. *)
Definition compress_block (src : bytes) (n : Z) (s : comp_state) : res (ctl comp_state) :=
  let fpos := len (c_out s) in
  s' ← for_each (compress_item src n) (range 0 8) (Comp (c_out s ++ [0]) (c_i s) 0);
  out ← bset (c_out s') fpos (c_flags s');
  Ok (Next (Comp out (c_i s') 0)).

Definition compress (src : bytes) : res bytes :=
  magic ← pack_le 4 LZSS_MAGIC;
  total ← pack_le 4 (len src);
  let n := len src in
  s ← while (S (length src)) (λ s, c_i s <? n) (compress_block src n) (Comp (magic ++ total) 0 0);
  Ok (c_out s).

Record dec_state := Dec { d_out : bytes; d_i : Z }.

(** The [for k in range(ln)] copy loop of [decompress]. *)
Definition copy_match (start ln : Z) (out : bytes) : res bytes :=
  for_each (λ k out,
    x ← bget out (start + k);
    out ← bappend out x;
    Ok (Next out)) (range 0 ln) out.

(** The body of the [for bit in range(8)] loop of [decompress]. *)
Definition decompress_item (src : bytes) (total flags bit : Z) (s : dec_state) : res (ctl dec_state) :=
  if total <=? len (d_out s) then Ok (Break s)
  else if negb (Z.land flags (Z.shiftl 1 bit) =? 0) then
    tok ← unpack_le 2 src (d_i s);
    let off := Z.shiftr tok 4 + 1 in
    let ln := Z.land tok 0xF + MIN_MATCH in
    let start := len (d_out s) - off in
    out ← copy_match start ln (d_out s);
    Ok (Next (Dec out (d_i s + 2)))
  else
    x ← bget src (d_i s);
    out ← bappend (d_out s) x;
    Ok (Next (Dec out (d_i s + 1))).

(** The body of the [while len(out) < total] loop of [decompress]. *)
Definition decompress_block (src : bytes) (total : Z) (s : dec_state) : res (ctl dec_state) :=
  if len src <=? d_i s then Raise (ValueError "truncated lzss stream")
  else
    flags ← bget src (d_i s);
    s' ← for_each (decompress_item src total flags) (range 0 8) (Dec (d_out s) (d_i s + 1));
    Ok (Next s').

(** The decoder with its final read position. *)
Definition decompress_from (src : bytes) (total : Z) : res dec_state :=
  while (S (length src)) (λ s, len (d_out s) <? total) (decompress_block src total) (Dec [] 8).

Definition decompress (src : bytes) : res bytes :=
  magic ← unpack_le 4 src 0;
  total ← unpack_le 4 src 4;
  if negb (magic =? LZSS_MAGIC) then Raise (ValueError "bad lzss magic")
  else
    s ← decompress_from src total;
    Ok (d_out s).

Example compress_qizo : (compress (b "qizoqizoqizo")) =
  Ok ([0x4C; 0x5A; 0x49; 0x51; 12; 0; 0; 0] ++ [0x10] ++ b "qizo" ++ [0x35; 0]).
Proof. vm_compute. reflexivity. Qed.

Example decompress_qizo : (x ← compress (b "qizoqizoqizo"); decompress x) = Ok (b "qizoqizoqizo").
Proof. vm_compute. reflexivity. Qed.

(** ** The match finder *)

(** [src] repeats at [i] the [l] bytes it has at [j]. *)
Definition common (src : bytes) (j i l : Z) : Prop :=
  ∀ k, 0 ≤ k < l → src !! Z.to_nat (j + k) = src !! Z.to_nat (i + k).

(** First position a match at [i] may start from. *)
Definition window_start (i : Z) : Z := Z.max 0 (i - WINDOW).

Definition match_limit (src : bytes) (i : Z) : Z := Z.min MAX_MATCH (len src - i).

(** [(off, ln)] is the longest match at [i] and, among the longest, the nearest. *)
Definition best_match (src : bytes) (i off ln : Z) : Prop :=
  MIN_MATCH ≤ ln ≤ match_limit src i ∧
  1 ≤ off ≤ i - window_start i ∧
  common src (i - off) i ln ∧
  ∀ j l, window_start i ≤ j < i → l ≤ match_limit src i → common src j i l →
    l ≤ ln ∧ (i - off < j → l < ln).

Definition no_match (src : bytes) (i : Z) : Prop :=
  ∀ j l, window_start i ≤ j < i → l ≤ match_limit src i → common src j i l → l < MIN_MATCH.

Section find_match.
Variable src : bytes.

Lemma match_len_spec limit i j :
  0 ≤ j < i → 0 ≤ limit → i + limit ≤ len src →
  runs (match_len src limit i j)
    (λ l, 0 ≤ l ≤ limit ∧ common src j i l ∧
          ∀ m, m ≤ limit → common src j i m → m ≤ l) no_exc.
Proof.
  intros Hj Hl Hn. unfold match_len.
  eapply (runs_while (λ l, 0 ≤ l ≤ limit ∧ common src j i l) _ _
    (λ l, Z.to_nat (limit - l))); [| |split; [lia|]; intros ??; lia|lia].
  - intros l [Hb Hc] Hlt%Z.ltb_lt.
    destruct (bget_ok src (j + l)) as (x & Hx & ->); [lia|].
    destruct (bget_ok src (i + l)) as (y & Hy & ->); [lia|].
    simpl. destruct (Z.eqb_spec x y) as [->|Hne]; simpl.
    + split; [split; [lia|]|lia]. intros k Hk.
      destruct (decide (k = l)) as [->|]; [congruence|apply Hc; lia].
    + split; [lia|]. split; [done|]. intros m Hm Hcm.
      destruct (Z.le_gt_cases m l); [done|]. specialize (Hcm l ltac:(lia)). congruence.
  - intros l [Hb Hc] Hge%Z.ltb_ge. split; [lia|]. split; [done|]. lia.
Qed.

(** Invariant of the candidate loop: what the best match so far promises about
    the positions above [sc_j]. *)
Definition scan_inv (limit i : Z) (s : scan_state) : Prop :=
  let '(Scan j bl bo) := s in
  window_start i - 1 ≤ j < i ∧ 0 ≤ bl ≤ limit ∧
  (bl = 0 ∧ bo = 0 ∨ 1 ≤ bl ∧ 1 ≤ bo ∧ j < i - bo ∧ common src (i - bo) i bl) ∧
  ∀ j' l, j < j' < i → l ≤ limit → common src j' i l → l ≤ bl ∧ (i - bo < j' → l < bl).

(** What holds when the loop is left. *)
Definition scan_post (limit i : Z) (s : scan_state) : Prop :=
  let '(Scan _ bl bo) := s in
  0 ≤ bl ≤ limit ∧
  (bl = 0 ∧ bo = 0 ∨
   1 ≤ bl ∧ 1 ≤ bo ≤ i - window_start i ∧ common src (i - bo) i bl) ∧
  ∀ j' l, window_start i ≤ j' < i → l ≤ limit → common src j' i l →
    l ≤ bl ∧ (i - bo < j' → l < bl).

Lemma scan_step_spec limit i s :
  0 ≤ limit → i + limit ≤ len src → scan_inv limit i s → window_start i ≤ sc_j s →
  runs (scan_step src limit i s)
    (step_to (λ s', scan_inv limit i s' ∧ sc_j s' = sc_j s - 1) (scan_post limit i)) no_exc.
Proof.
  destruct s as [j bl bo]. intros Hl Hn (Hj & Hb & Hbest & Hmax) Hcond. simpl in Hcond.
  unfold scan_step. apply runs_bind. eapply runs_mono.
  { apply match_len_spec; [unfold window_start in *; simpl; lia..]. }
  2: done.
  intros l (Hlb & Hc & Hlm). simpl in *.
  destruct (Z.ltb_spec bl l); [destruct (Z.eqb_spec l limit) as [->|]|]; simpl.
  - split_and!; [lia..| |].
    + right. replace (i - (i - j)) with j by lia. split_and!; [lia..|done].
    + intros j' l' Hj' Hl' Hc'. split; [lia|]. intros Hlt.
      replace (i - (i - j)) with j in Hlt by lia.
      destruct (Hmax j' l') as [Hle _]; [lia..|done|lia].
  - split_and!; [lia..| | |].
    + right. replace (i - (i - j)) with j by lia. split_and!; [lia..|done].
    + intros j' l' Hj' Hl' Hc'. replace (i - (i - j)) with j by lia.
      destruct (decide (j' = j)) as [->|]; [split; [by apply Hlm|lia]|].
      destruct (Hmax j' l') as [Hle _]; [lia..|done|]. split; lia.
    + lia.
  - split_and!; [lia..| | |].
    + destruct Hbest as [?|(?&?&?&?)]; [by left|right]. split_and!; [lia..|done].
    + intros j' l' Hj' Hl' Hc'.
      destruct (decide (j' = j)) as [->|]; [|apply Hmax; [lia..|done]].
      pose proof (Hlm l' Hl' Hc'). split; [lia|]. intros.
      destruct Hbest as [[-> ->]|(?&?&?&?)]; lia.
    + lia.
Qed.

(** [_find_match] returns, and finds the longest and nearest match. *)
Lemma find_match_spec i :
  0 ≤ i ≤ len src →
  runs (_find_match src i (len src))
    (λ r, r = (0, 0) ∧ no_match src i ∨ best_match src i r.1 r.2) no_exc.
Proof.
  intros Hi. unfold _find_match. fold (match_limit src i).
  destruct (Z.ltb_spec (match_limit src i) MIN_MATCH) as [Hlim|Hlim]; simpl.
  { left. split; [done|]. intros ????. lia. }
  replace (if i - WINDOW <? 0 then 0 else i - WINDOW) with (window_start i)
    by (unfold window_start; case_bool; lia).
  assert (0 ≤ window_start i ≤ i) by (unfold window_start, WINDOW; lia).
  assert (0 ≤ match_limit src i) by (unfold MIN_MATCH in Hlim; lia).
  apply runs_bind. eapply runs_mono; [|intros [j bl bo] Hpost|done].
  - eapply (runs_while (scan_inv (match_limit src i) i)
      (scan_post (match_limit src i) i) _ (λ s, Z.to_nat (sc_j s - window_start i + 1))).
    + intros s HI Hcond%Z.leb_le. eapply runs_mono; [apply scan_step_spec| |done].
      * lia.
      * unfold match_limit; lia.
      * done.
      * done.
      * intros [s'|s']; simpl; [|done]. intros [? ?]. split; [done|lia].
    + intros [j bl bo] (Hj & Hb & Hbest & Hmax) Hcond%Z.leb_gt. simpl in Hcond.
      split_and!; [lia..| |].
      * destruct Hbest as [?|(?&?&?&?)]; [by left|right]. split_and!; [lia..|done].
      * intros. apply Hmax; [lia..|done].
    + simpl. split_and!; [lia..|by left|]. intros; lia.
    + simpl. lia.
  - destruct Hpost as (Hb & Hbest & Hmax). simpl.
    destruct (Z.ltb_spec bl MIN_MATCH); simpl.
    + left. split; [done|]. intros j' l' Hj' Hl' Hc'.
      destruct (Hmax j' l'); [lia..|done|lia].
    + right. unfold best_match, MIN_MATCH in *. destruct Hbest as [[-> _]|(?&?&?)]; [lia|].
      split_and!; [lia..|done|done].
Qed.
End find_match.

(** ** The container format *)

Inductive token := Lit (x : Z) | Match (off ln : Z).

Definition is_match (t : token) : bool := match t with Lit _ => false | Match _ _ => true end.

(** Bytes of output a token stands for. *)
Definition span (t : token) : Z := match t with Lit _ => 1 | Match _ ln => ln end.

Definition enc_token (t : token) : bytes :=
  match t with
  | Lit x => [x]
  | Match off ln => le_bytes 2 (16 * (off - 1) + (ln - MIN_MATCH))
  end.

Definition encode (ts : list token) : bytes := ts ≫= enc_token.

(** The flag bits of [ts], the first of which is bit [k]. *)
Fixpoint flags_at (k : Z) (ts : list token) : Z :=
  match ts with
  | [] => 0
  | t :: ts => Z.lor (if is_match t then Z.shiftl 1 k else 0) (flags_at (k + 1) ts)
  end.

Section stream.
Variable src : bytes.
(** Which tokens may be chosen at a position. *)
Variable choice : Z → token → Prop.

(** [t] describes [src] at position [i]. *)
Definition token_at (i : Z) (t : token) : Prop :=
  match t with
  | Lit x => 0 ≤ i ∧ src !! Z.to_nat i = Some x
  | Match off ln =>
      MIN_MATCH ≤ ln ≤ match_limit src i ∧ 1 ≤ off ≤ Z.min WINDOW i ∧ common src (i - off) i ln
  end.

Inductive tokens_at : Z → list token → Z → Prop :=
  | tokens_nil i : tokens_at i [] i
  | tokens_cons i t ts j :
      token_at i t → choice i t → tokens_at (i + span t) ts j → tokens_at i (t :: ts) j.

(** Blocks describing [src] from [i] to [j]: a flag byte and eight tokens, or
    fewer at the end of the data. *)
Inductive blocks : Z → bytes → Z → Prop :=
  | blocks_nil i : blocks i [] i
  | blocks_cons i ts k bs j :
      tokens_at i ts k → (1 ≤ length ts ≤ 8)%nat → (length ts = 8)%nat ∨ k = len src →
      blocks k bs j → blocks i (flags_at 0 ts :: encode ts ++ bs) j.

Lemma token_at_span i t : token_at i t → 1 ≤ span t ∧ 0 ≤ i ∧ i + span t ≤ len src.
Proof.
  destruct t as [x|off ln]; simpl.
  - intros [? ?%lookup_lt_Some]. lia.
  - unfold match_limit, MIN_MATCH. lia.
Qed.

Lemma tokens_snoc i ts t j : tokens_at i ts j → token_at j t → choice j t → tokens_at i (ts ++ [t]) (j + span t).
Proof. induction 1; intros; simpl; repeat (constructor; auto). Qed.

Lemma tokens_end i ts j : tokens_at i ts j → i ≤ len src → i + len ts ≤ j ≤ len src.
Proof.
  induction 1 as [|i t ts j Ht Hch Hts IH]; intros; simpl; [lia|].
  pose proof (token_at_span _ _ Ht). lia.
Qed.

Lemma blocks_trans i bs k bs' j : blocks i bs k → blocks k bs' j → blocks i (bs ++ bs') j.
Proof.
  induction 1 as [|i ts k bs j' Hts Hl Hk Hbs IH]; intros; [done|].
  cbn [app]. rewrite <-(assoc_L (++)). econstructor; eauto.
Qed.

Lemma blocks_end i bs j : blocks i bs j → i ≤ len src → i ≤ j ≤ len src.
Proof.
  induction 1 as [|i ts k bs j Hts Hl Hk Hbs IH]; intros; [lia|].
  pose proof (tokens_end _ _ _ Hts). lia.
Qed.
End stream.

(** [blob] is a container holding [src], made of tokens [choice] allows. *)
Definition container_of (choice : Z → token → Prop) (src blob : bytes) : Prop :=
  ∃ bs, blob = le_bytes 4 LZSS_MAGIC ++ le_bytes 4 (len src) ++ bs ∧ blocks src choice 0 bs (len src).

Definition any (i : Z) (t : token) : Prop := True.
Definition container (src blob : bytes) : Prop := container_of any src blob.

(** The choice of the compressor: a match whenever there is one, and then the
    longest and nearest. *)
Definition greedy (src : bytes) (i : Z) (t : token) : Prop :=
  match t with Lit _ => no_match src i | Match off ln => best_match src i off ln end.
Definition greedy_container (src blob : bytes) : Prop := container_of (greedy src) src blob.

Lemma tokens_any src choice i ts j : tokens_at src choice i ts j → tokens_at src any i ts j.
Proof. induction 1; by constructor. Qed.
Lemma blocks_any src choice i bs j : blocks src choice i bs j → blocks src any i bs j.
Proof. induction 1; [constructor|]. econstructor; eauto using tokens_any. Qed.
Lemma container_any src choice blob : container_of choice src blob → container src blob.
Proof. intros (bs & -> & H). exists bs. split; [done|by eapply blocks_any]. Qed.

Lemma encode_app ts ts' : encode (ts ++ ts') = encode ts ++ encode ts'.
Proof. apply bind_app. Qed.

Lemma flags_at_snoc k ts t :
  flags_at k (ts ++ [t]) = Z.lor (flags_at k ts) (if is_match t then Z.shiftl 1 (k + len ts) else 0).
Proof.
  revert k. induction ts as [|t' ts IH]; intros k; cbn [app flags_at length].
  - by rewrite Z.lor_0_r, Z.lor_0_l, Z.add_0_r.
  - rewrite IH, Z.lor_assoc. by replace (k + Z.of_nat (S (length ts))) with (k + 1 + len ts) by lia.
Qed.

Lemma flags_at_range k ts :
  0 ≤ k → k + len ts ≤ 8 → 0 ≤ flags_at k ts < 2 ^ 8.
Proof.
  revert k. induction ts as [|t ts IH]; intros k Hk Hl; simpl in *; [lia|].
  apply lor_range; [|apply IH; lia]. destruct (is_match t); [|lia].
  rewrite Z.shiftl_1_l. split; [lia|]. apply Z.pow_lt_mono_r; lia.
Qed.

Lemma flags_at_low k ts m : 0 ≤ m < k → Z.testbit (flags_at k ts) m = false.
Proof.
  revert k. induction ts as [|t ts IH]; intros k Hk; simpl; [apply Z.bits_0|].
  rewrite Z.lor_spec, IH, orb_false_r by lia. destruct (is_match t); [|apply Z.bits_0].
  rewrite Z.shiftl_1_l. by apply Z.pow2_bits_false; lia.
Qed.

Lemma flags_at_testbit k ts1 t ts2 :
  0 ≤ k → Z.testbit (flags_at k (ts1 ++ t :: ts2)) (k + len ts1) = is_match t.
Proof.
  revert k. induction ts1 as [|t' ts1 IH]; intros k Hk;
    cbn [app flags_at length].
  - rewrite Z.add_0_r, Z.lor_spec, flags_at_low, orb_false_r by lia.
    destruct (is_match t); [|apply Z.bits_0]. rewrite Z.shiftl_1_l. by apply Z.pow2_bits_true.
  - rewrite Z.lor_spec. replace (k + Z.of_nat (S (length ts1))) with (k + 1 + len ts1) by lia.
    rewrite IH by lia. destruct (is_match t'); [|by rewrite Z.bits_0].
    rewrite Z.shiftl_1_l, Z.pow2_bits_false by lia. done.
Qed.

(** The 16 bit code of a match, and how the decoder takes it apart. *)
Lemma match_code off ln :
  1 ≤ off ≤ WINDOW → MIN_MATCH ≤ ln ≤ MAX_MATCH →
  let tok := 16 * (off - 1) + (ln - MIN_MATCH) in
  fits 2 tok = true ∧
  Z.lor (Z.shiftl (off - 1) 4) (ln - MIN_MATCH) = tok ∧
  Z.shiftr tok 4 + 1 = off ∧ Z.land tok 0xF + MIN_MATCH = ln.
Proof.
  unfold WINDOW, MIN_MATCH, MAX_MATCH. intros. split_and!.
  - apply fits_spec. lia.
  - apply (lor_shiftl_add (ln - 3) (off - 1) 4); lia.
  - rewrite Z.shiftr_div_pow2 by lia. change (2 ^ 4) with 16.
    rewrite (Z.mul_comm 16), Z.div_add_l, Z.div_small by lia. lia.
  - change 0xF with (Z.ones 4). rewrite Z.land_ones by lia. change (2 ^ 4) with 16.
    rewrite Z.add_comm, (Z.mul_comm 16), (Z.add_comm (_ * _)), Z.mod_add, Z.mod_small by lia. lia.
Qed.

(** ** The compressor writes containers *)

Section compress.
Variable src : bytes.
Hypothesis Hbytes : Bytes src.

(** What one iteration of the bit loop of [compress] maintains, started at
    position [i0] with output [out0]. *)
Definition item_inv (out0 : bytes) (i0 : Z) (n : nat) (s : comp_state) : Prop :=
  ∃ ts, length ts = n ∧ tokens_at src (greedy src) i0 ts (c_i s) ∧
    c_out s = out0 ++ [0] ++ encode ts ∧ c_flags s = flags_at 0 ts.

Lemma compress_item_spec out0 i0 n s :
  0 ≤ i0 ≤ len src → item_inv out0 i0 n s →
  runs (compress_item src (len src) (Z.of_nat n) s)
    (step_to (item_inv out0 i0 (S n)) (λ s', item_inv out0 i0 n s' ∧ c_i s' = len src)) no_exc.
Proof.
  intros Hi0 (ts & Hn & Hts & Hout & Hfl). unfold compress_item.
  pose proof (tokens_end _ _ _ _ _ Hts ltac:(lia)).
  destruct (Z.leb_spec (len src) (c_i s)).
  { simpl. split; [by exists ts|lia]. }
  apply runs_bind. eapply runs_mono; [apply find_match_spec; lia| |done].
  intros [off ln] [[[= -> ->] Hno]|Hbest]; simpl.
  - destruct (bget_ok src (c_i s)) as (x & Hx & ->); [lia|]. simpl.
    rewrite bappend_ok by (by eapply Bytes_lookup). simpl.
    exists (ts ++ [Lit x]). split_and!.
    + rewrite length_app. simpl. lia.
    + apply (tokens_snoc _ _ _ _ (Lit x)); [done| |done]. simpl. split; [lia|done].
    + simpl. rewrite encode_app, Hout. cbn. by rewrite <-!(assoc_L (++)).
    + simpl. by rewrite flags_at_snoc, Z.lor_0_r.
  - destruct (id Hbest) as (Hln & Hoff & Hcom & _). simpl in *. destruct (Z.eqb_spec ln 0) as [->|]; [unfold MIN_MATCH in Hln; lia|]. simpl.
    unfold window_start, WINDOW in Hoff.
    destruct (match_code off ln) as (Hfit & Hcode & _);
      [unfold WINDOW; lia|unfold match_limit in Hln; lia|].
    rewrite Hcode, pack_le_ok by done. simpl.
    exists (ts ++ [Match off ln]). split_and!.
    + rewrite length_app. simpl. lia.
    + apply (tokens_snoc _ _ _ _ (Match off ln)); [done| |done]. simpl. unfold WINDOW.
      split_and!; [lia..|done].
    + simpl. rewrite encode_app, Hout. cbn [encode mbind list_bind enc_token].
      by rewrite (right_id_L [] (++)), <-!(assoc_L (++)).
    + simpl. by rewrite flags_at_snoc, Hfl, Hn, Z.add_0_l.
Qed.

Lemma compress_block_spec hdr bs s :
  c_out s = hdr ++ bs → blocks src (greedy src) 0 bs (c_i s) → c_i s < len src →
  runs (compress_block src (len src) s)
    (step_to (λ s', ∃ bs', c_out s' = hdr ++ bs' ∧ blocks src (greedy src) 0 bs' (c_i s') ∧
                c_i s < c_i s' ≤ len src) (λ _, False)) no_exc.
Proof.
  intros Hout Hbs Hlt. pose proof (blocks_end _ _ _ _ _ Hbs ltac:(lia)).
  unfold compress_block. apply runs_bind.
  eapply runs_mono with (Q := λ s', ∃ n, item_inv (c_out s) (c_i s) n s' ∧ (n ≤ 8)%nat ∧
      (n = 8%nat ∨ c_i s' = len src)); [| |done].
  { eapply (runs_for_each (λ done_, item_inv (c_out s) (c_i s) (length done_))).
    - intros done_ x rest s' Hl Hinv.
      assert (x = Z.of_nat (length done_) ∧ (length done_ < 8)%nat) as [-> ?].
      { assert (range 0 8 !! length done_ = Some x) as Hx by (rewrite Hl; by apply list_lookup_middle).
        apply lookup_seqZ in Hx. lia. }
      rewrite length_app, Nat.add_1_r.
      eapply runs_mono; [apply (compress_item_spec (c_out s) (c_i s)); [lia|done]| |done].
      intros [s''|s'']; simpl; [done|]. intros [? ?]. eexists. split_and!; [done|lia|by right].
    - intros s' Hinv. exists 8%nat. split_and!; [done|lia|by left].
    - exists []. simpl. split_and!; [done|constructor|done|done]. }
  intros s' (n & (ts & <- & Hts & Hout' & Hfl) & Hn & Hend).
  pose proof (tokens_end _ _ _ _ _ Hts ltac:(lia)).
  pose proof (flags_at_range 0 ts ltac:(lia) ltac:(lia)).
  rewrite Hfl, Hout'. simpl.
  rewrite bset_ok by (list_lia || (apply is_byte_spec; lia)). simpl.
  rewrite slice_set_eq by list_lia.
  exists (bs ++ flags_at 0 ts :: encode ts ++ []). split_and!.
  - rewrite Nat2Z.id, take_app_length, (right_id_L [] (++)), Hout.
    rewrite drop_app_ge by list_lia. rewrite <-(assoc_L (++)). do 3 f_equal.
    replace (_ - _)%nat with 1%nat by lia. done.
  - eapply blocks_trans; [done|]. eapply blocks_cons; [done| |done|constructor].
    split; [|done]. destruct ts; simpl; [|lia]. inversion Hts; subst. destruct Hend; [done|lia].
  - destruct Hend as [Hlen|?]; lia.
  - lia.
Qed.

(** Compression always returns, and returns the greedy container of its input. *)
Lemma compress_greedy :
  fits 4 (len src) = true → runs (compress src) (greedy_container src) no_exc.
Proof.
  intros Hfit. unfold compress. rewrite (pack_le_ok 4 LZSS_MAGIC) by done. ok_bind.
  rewrite pack_le_ok by done. ok_bind. apply runs_bind.
  set (hdr := le_bytes 4 LZSS_MAGIC ++ le_bytes 4 (len src)).
  eapply runs_mono; [|intros s Hs|done].
  - eapply (runs_while (λ s, ∃ bs, c_out s = hdr ++ bs ∧ blocks src (greedy src) 0 bs (c_i s) ∧
              c_i s ≤ len src) (λ s, ∃ bs, c_out s = hdr ++ bs ∧ blocks src (greedy src) 0 bs (c_i s) ∧
              c_i s = len src) _ (λ s, Z.to_nat (len src - c_i s))).
    + intros s (bs & Hout & Hbs & Hi) Hlt%Z.ltb_lt.
      eapply runs_mono; [by eapply compress_block_spec| |done].
      intros [s'|s']; simpl; [|done]. intros (bs' & ? & ? & ?).
      split; [exists bs'; split_and!; [done|done|lia]|lia].
    + intros s (bs & Hout & Hbs & Hi) Hge%Z.ltb_ge. exists bs. split_and!; [done|done|lia].
    + exists []. cbn [c_out c_i].
      split_and!; [by rewrite (right_id_L [] (++))|constructor|lia].
    + cbn [c_i]. lia.
  - destruct Hs as (bs & Hout & Hbs & Hi). exists bs.
    split; [by rewrite Hout; unfold hdr; rewrite <-(assoc_L (++))|].
    by rewrite <-Hi.
Qed.

Lemma compress_container :
  fits 4 (len src) = true → runs (compress src) (container src) no_exc.
Proof. intros H. eapply runs_mono; [by apply compress_greedy| |done]. intros blob. apply container_any. Qed.
End compress.

(** ** The decompressor reads containers *)

Section decompress.
Variable src : bytes.
Hypothesis Hbytes : Bytes src.
(** The whole input of the decoder. *)
Variable inp : bytes.

(** The decoder has produced [src] up to [i] and read its input up to [p]. *)
Definition at_pos (i p : Z) (s : dec_state) : Prop :=
  d_out s = slice src 0 i ∧ d_i s = p.

(** The bytes [bs] are at position [p] of the input. *)
Definition input_at (p : Z) (bs : bytes) : Prop :=
  0 ≤ p ∧ p + len bs ≤ len inp ∧ slice inp p (p + len bs) = bs.

Lemma input_at_app p bs bs' : input_at p (bs ++ bs') ↔ input_at p bs ∧ input_at (p + len bs) bs'.
Proof.
  unfold input_at. rewrite length_app, Nat2Z.inj_add, !Z.add_assoc. split.
  - intros (Hp & Hl & Hs). rewrite (slice_split _ _ (p + len bs)) in Hs by lia.
    apply app_inj_1 in Hs as [-> ->]; [split_and!; lia || done|].
    rewrite length_slice by lia. lia.
  - intros ((Hp & Hl & Hs) & _ & Hl' & Hs'). split_and!; [lia..|].
    rewrite (slice_split _ _ (p + len bs)) by lia. by rewrite Hs, Hs'.
Qed.

Lemma input_at_bget p x : input_at p [x] → bget inp p = Ok x.
Proof.
  intros (Hp & Hl & Hs). cbn [length] in *.
  rewrite <-(Z.add_0_r p) at 1. rewrite <-(bget_slice inp p (p + 1)) by lia.
  change (p + 1) with (p + Z.of_nat 1). by rewrite Hs.
Qed.

Lemma copy_match_spec i off ln :
  token_at src i (Match off ln) →
  copy_match (i - off) ln (slice src 0 i) = Ok (slice src 0 (i + ln)).
Proof.
  simpl. unfold match_limit, MIN_MATCH. intros (Hln & Hoff & Hcom).
  assert (runs (copy_match (i - off) ln (slice src 0 i)) (λ out, out = slice src 0 (i + ln)) no_exc)
    as [? [-> ->]]%runs_total; [|done].
  eapply (runs_for_each (λ done_ out, out = slice src 0 (i + len done_))).
  - intros done_ k rest out Hl ->.
    assert (k = len done_ ∧ len done_ < ln) as [-> ?].
    { assert (range 0 ln !! length done_ = Some k) as Hx by (rewrite Hl; by apply list_lookup_middle).
      apply lookup_seqZ in Hx. lia. }
    destruct (bget_ok src (i + len done_)) as (x & Hx & _); [lia|].
    rewrite bget_slice by lia. rewrite (bget_lookup src _ x);
      [|lia|rewrite <-Hx, <-Hcom by lia; f_equal; lia].
    ok_bind. rewrite bappend_ok by (by eapply Bytes_lookup). simpl.
    rewrite length_app, Nat2Z.inj_add, Z.add_assoc. symmetry. by apply slice_snoc; [lia|].
  - intros out ->. f_equal. rewrite range_length. lia.
  - simpl. by rewrite Z.add_0_r.
Qed.

(** Decoding one token of a block. *)
Lemma decompress_token_spec i p t flags bit s :
  0 ≤ bit → Z.testbit flags bit = is_match t → token_at src i t → at_pos i p s →
  input_at p (enc_token t) →
  ∃ s', decompress_item inp (len src) flags bit s = Ok (Next s') ∧
        at_pos (i + span t) (p + len (enc_token t)) s'.
Proof.
  intros Hbit Hfl Ht [Hout Hp] Hin. pose proof (token_at_span _ _ _ Ht).
  unfold decompress_item. rewrite Hout, length_slice, Hp by lia. rw_bool.
  rewrite land_bit_test, Hfl by lia. destruct t as [x|off ln]; cbn [is_match].
  - rewrite (input_at_bget _ _ Hin). ok_bind. destruct Ht as [? Hx].
    rewrite bappend_ok by (by eapply Bytes_lookup). eexists. split; [done|].
    split; [|simpl; lia]. cbn [d_out span]. symmetry. by apply slice_snoc; [lia|].
  - cbn [enc_token] in *. destruct Hin as (? & Hl & Hs). cbn [le_bytes length] in Hl.
    destruct Ht as (Hln & Hoff & Hcom) eqn:Ht'. clear Ht'.
    destruct (match_code off ln) as (Hfit & _ & Ho & Hn);
      [unfold WINDOW in *; lia|unfold match_limit in Hln; lia|].
    rewrite unpack_le_ok by lia. ok_bind.
    rewrite length_le_bytes in Hs. rewrite Hs, le_val_pack, Ho, Hn by done.
    replace (Z.of_nat (Z.to_nat (i - 0)) - off) with (i - off) by lia.
    rewrite copy_match_spec by done. ok_bind. eexists. split; [done|]. by split.
Qed.

(** Decoding one block: the flag byte has been read. *)
Lemma decompress_items_spec i p ts j s :
  tokens_at src any i ts j → (length ts ≤ 8)%nat → (length ts = 8)%nat ∨ j = len src →
  at_pos i p s → input_at p (encode ts) → 0 ≤ i ≤ len src →
  runs (for_each (decompress_item inp (len src) (flags_at 0 ts)) (range 0 8) s)
    (at_pos j (p + len (encode ts))) no_exc.
Proof.
  intros Hts Hlen Hend Hs Hin Hi.
  eapply (runs_for_each (λ done_ s, ∃ ts1 ts2 k, ts = ts1 ++ ts2 ∧ length ts1 = length done_ ∧
    0 ≤ k ≤ len src ∧ tokens_at src any k ts2 j ∧ at_pos k (p + len (encode ts1)) s)).
  - intros done_ x rest s' Hl (ts1 & ts2 & k & -> & Hl1 & Hk & Hts2 & Hs').
    assert (x = len ts1 ∧ (length ts1 < 8)%nat) as [-> ?].
    { assert (range 0 8 !! length done_ = Some x) as Hx by (rewrite Hl; by apply list_lookup_middle).
      apply lookup_seqZ in Hx. lia. }
    destruct ts2 as [|t ts2].
    + inversion Hts2; subst. rewrite (right_id_L [] (++)) in *.
      unfold decompress_item. destruct Hs' as [Hout Hp].
      assert (j = len src) as -> by (destruct Hend; [lia|done]).
      rewrite Hout, length_slice by lia. rw_bool. simpl. done.
    + inversion Hts2 as [|? ? ? ? Ht _ Hts2']; subst.
      rewrite encode_app in Hin. apply input_at_app in Hin as [_ Hin].
      change (encode (t :: ts2)) with (enc_token t ++ encode ts2) in Hin.
      apply input_at_app in Hin as [Hin _].
      edestruct (decompress_token_spec k (p + len (encode ts1)) t
        (flags_at 0 (ts1 ++ t :: ts2)) (len ts1) s') as (s2 & -> & Hs2); [lia| |done..|].
      { rewrite <-(Z.add_0_l (len ts1)). by apply flags_at_testbit. }
      simpl. pose proof (token_at_span _ _ _ Ht).
      exists (ts1 ++ [t]), ts2, (k + span t). split_and!; [|list_lia|lia|lia|done|].
      * by rewrite <-(assoc_L (++)).
      * rewrite encode_app, length_app, Nat2Z.inj_add, Z.add_assoc.
        change (encode [t]) with (enc_token t ++ []). by rewrite (right_id_L [] (++)).
  - intros s' (ts1 & ts2 & k & -> & Hl1 & Hk & Hts2 & Hs').
    assert (length (range 0 8) = 8%nat) as H8 by done. rewrite H8, length_app in *.
    destruct ts2; [|simpl in *; lia]. inversion Hts2; subst. by rewrite (right_id_L [] (++)).
  - exists [], ts, i. cbn. rewrite Z.add_0_r. done.
Qed.

Lemma decompress_from_spec bs :
  blocks src any 0 bs (len src) → input_at 8 bs →
  runs (decompress_from inp (len src)) (at_pos (len src) (8 + len bs)) no_exc.
Proof.
  intros Hbs Hin. unfold decompress_from.
  eapply (runs_while (λ s, ∃ i bs1 bs2, bs = bs1 ++ bs2 ∧ 0 ≤ i ≤ len src ∧
    blocks src any i bs2 (len src) ∧ at_pos i (8 + len bs1) s) _ _
    (λ s, Z.to_nat (len inp - d_i s))).
  - intros s (i & bs1 & bs2 & -> & Hi & Hb & Hout & Hp) Hlt%Z.ltb_lt.
    rewrite Hout, length_slice in Hlt by lia.
    inversion Hb as [|? ts k bs3 ? Hts Hl Hk Hb3]; subst; [lia|].
    apply input_at_app in Hin as [_ Hin].
    change (flags_at 0 ts :: encode ts ++ bs3) with ([flags_at 0 ts] ++ encode ts ++ bs3) in Hin.
    rewrite !input_at_app in Hin. destruct Hin as (Hfl & Hts' & _).
    pose proof Hfl as (? & ? & _). cbn [length] in *.
    unfold decompress_block. rewrite Hp. rw_bool. rewrite (input_at_bget _ _ Hfl). ok_bind.
    apply runs_bind. eapply runs_mono; [eapply (decompress_items_spec i)| |done]; try done; [lia|].
    intros s' Hs'. simpl. pose proof (tokens_end _ _ _ _ _ Hts ltac:(lia)). split.
    + exists k, (bs1 ++ flags_at 0 ts :: encode ts), bs3.
      split_and!; [by rewrite <-(assoc_L (++))|lia|lia|done|].
      destruct Hs' as [? Hp']. cbn [d_i] in Hp'. split; [done|]. rewrite Hp'. list_lia.
    + destruct Hs' as [? Hp']. cbn [d_i] in Hp'. lia.
  - intros s (i & bs1 & bs2 & -> & Hi & Hb & Hout & Hp) Hge%Z.ltb_ge.
    rewrite Hout, length_slice in Hge by lia. assert (i = len src) as -> by lia.
    inversion Hb as [|? ts k ? ? Hts Hl]; subst; [by rewrite (right_id_L [] (++))|].
    pose proof (tokens_end _ _ _ _ _ Hts ltac:(lia)).
    pose proof (blocks_end src any k bs (len src)). lia.
  - exists 0, [], bs. split_and!; [done|lia|lia|done|].
    split; [by rewrite slice_nil by lia|done].
  - simpl. lia.
Qed.
End decompress.

(** Running the decoder on a container, whatever follows it: it reads the
    container to its end and nothing else. *)
Lemma container_run_pad src blob pad :
  Bytes src → fits 4 (len src) = true → container src blob →
  unpack_le 4 (blob ++ pad) 0 = Ok LZSS_MAGIC ∧ unpack_le 4 (blob ++ pad) 4 = Ok (len src) ∧
  ∃ s, decompress_from (blob ++ pad) (len src) = Ok s ∧ d_out s = src ∧ d_i s = len blob.
Proof.
  intros Hsrc Hfit (bs & -> & Hbs). set (m := le_bytes 4 LZSS_MAGIC). set (t := le_bytes 4 (len src)).
  assert (length m = 4%nat ∧ length t = 4%nat) as [Hm Ht] by (split; apply length_le_bytes).
  assert (le_val m = LZSS_MAGIC) as Hvm by by apply le_val_pack.
  assert (le_val t = len src) as Hvt by by apply le_val_pack.
  rewrite <-!(assoc_L (++)).
  rewrite (unpack_le_ok 4 _ 0), (unpack_le_ok 4 _ 4) by list_lia.
  rewrite slice_app_l, slice_all' by list_lia. rewrite slice_app_r, slice_app_l, slice_all' by list_lia.
  rewrite Hvm, Hvt. split_and!; [done|done|].
  assert (input_at (m ++ t ++ bs ++ pad) 8 bs) as Hin.
  { unfold input_at. split_and!; [lia|list_lia|].
    by rewrite slice_app_r, slice_app_r, slice_app_l, slice_all' by list_lia. }
  pose proof (decompress_from_spec src Hsrc _ bs Hbs Hin) as Hrun.
  apply runs_total in Hrun as (s & -> & Hs & Hp). exists s.
  rewrite slice_all in Hs. split_and!; [done|done|list_lia].
Qed.

Lemma decompress_container src blob pad :
  Bytes src → fits 4 (len src) = true → container src blob →
  decompress (blob ++ pad) = Ok src.
Proof.
  intros Hsrc Hfit Hc.
  destruct (container_run_pad src blob pad Hsrc Hfit Hc) as (Hm & Ht & s & Hs & Hout & _).
  unfold decompress. rewrite Hm, Ht. ok_bind. rewrite Z.eqb_refl. cbn [negb]. rewrite Hs.
  ok_bind. by rewrite Hout.
Qed.

Lemma container_run src blob :
  Bytes src → fits 4 (len src) = true → container src blob →
  unpack_le 4 blob 4 = Ok (len src) ∧
  ∃ s, decompress_from blob (len src) = Ok s ∧ d_i s = len blob.
Proof.
  intros Hsrc Hfit Hc.
  destruct (container_run_pad src blob [] Hsrc Hfit Hc) as (_ & Ht & s & Hs & _ & Hp).
  rewrite (right_id_L [] (++)) in Ht, Hs. eauto.
Qed.

Lemma tokens_Bytes src i ts j : Bytes src → tokens_at src any i ts j → Bytes (encode ts).
Proof.
  intros Hsrc. induction 1 as [|i t ts j Ht Hch Hts IH]; [constructor|].
  change (encode (t :: ts)) with (enc_token t ++ encode ts). apply Forall_app. split; [|done].
  destruct t as [x|off ln]; [|apply le_bytes_Bytes].
  constructor; [|done]. by eapply (Bytes_lookup src), Ht.
Qed.

Lemma container_Bytes src blob : Bytes src → container src blob → Bytes blob.
Proof.
  intros Hsrc (bs & -> & Hbs). do 2 (apply Forall_app; split; [apply le_bytes_Bytes|]).
  induction Hbs as [|i ts k bs j Hts Hl Hk Hbs IH]; constructor.
  - apply is_byte_spec. pose proof (flags_at_range 0 ts). lia.
  - apply Forall_app. split; [by eapply (tokens_Bytes src)|done].
Qed.

(** ** Arbitrary decoder input *)

(** What [decompress] can raise. *)
Definition dec_error (e : exc) : Prop :=
  e = StructError ∨ e = IndexError ∨
  e = ValueError "truncated lzss stream" ∨ e = ValueError "bad lzss magic".

Section any_input.
Variables (inp : bytes) (total : Z).
Hypothesis Hinp : Bytes inp.

Lemma runs_copy_match start ln out :
  Bytes out → 0 ≤ ln →
  runs (copy_match start ln out) (λ out', Bytes out' ∧ len out' = len out + ln) dec_error.
Proof.
  intros Hout Hln. eapply (runs_for_each (λ done_ o, Bytes o ∧ len o = len out + len done_)).
  - intros done_ k rest o _ [Ho Hlen]. apply runs_bind.
    eapply runs_mono; [apply runs_bget| |intros e ->; by right; left].
    intros x Hx. simpl. rewrite bappend_ok by (by eapply Bytes_elem). simpl. split; [|list_lia].
    apply Forall_app. split; [done|]. constructor; [by eapply Bytes_elem|done].
  - intros o. rewrite range_length. intros [? ?]. split; [done|lia].
  - split; [done|simpl; lia].
Qed.

(** The decoder state between two tokens. *)
Definition dec_inv (s : dec_state) : Prop :=
  Bytes (d_out s) ∧ 8 ≤ d_i s ≤ len inp ∧ len (d_out s) ≤ Z.max 0 (total + 17).

Lemma runs_decompress_item flags bit s :
  dec_inv s →
  runs (decompress_item inp total flags bit s)
    (step_to (λ s', dec_inv s' ∧ d_i s < d_i s') (λ s', s' = s)) dec_error.
Proof.
  intros (Hout & Hp & Hlen). unfold decompress_item.
  destruct (Z.leb_spec total (len (d_out s))); [done|]. case_match; apply runs_bind.
  - eapply runs_mono; [apply runs_unpack_le; [done|lia]| |intros e ->; by left].
    intros tok [Htok Hin]. simpl.
    change 0xF with (Z.ones 4). rewrite Z.land_ones by lia.
    pose proof (Z.mod_pos_bound tok (2 ^ 4) ltac:(lia)). change (2 ^ 4) with 16 in *.
    apply runs_bind. eapply runs_mono; [apply runs_copy_match; [done|unfold MIN_MATCH; lia]| |done].
    intros o [Ho Hol]. unfold MIN_MATCH, dec_inv in *. simpl. split_and!; [done|lia..].
  - destruct (bget inp (d_i s)) as [x|e|] eqn:Hx; simpl.
    + apply bget_Ok_inv in Hx as [Hlt Hx]; [|lia]. rewrite bappend_ok by (by eapply (Bytes_lookup inp)).
      simpl. unfold dec_inv. split_and!; simpl; [|lia|lia|list_lia|lia].
      apply Forall_app. split; [done|]. constructor; [by eapply (Bytes_lookup inp)|done].
    + pose proof (runs_bget inp (d_i s)) as Hr. rewrite Hx in Hr. simpl in Hr. subst. by right; left.
    + pose proof (runs_bget inp (d_i s)) as Hr. by rewrite Hx in Hr.
Qed.

Lemma runs_decompress_block s :
  dec_inv s → runs (decompress_block inp total s)
    (step_to (λ s', dec_inv s' ∧ d_i s < d_i s') (λ _, False)) dec_error.
Proof.
  intros Hs. pose proof Hs as (Hout & Hp & Hlen). unfold decompress_block.
  destruct (Z.leb_spec (len inp) (d_i s)); [by right; right; left|].
  destruct (bget_ok inp (d_i s)) as (fl & _ & ->); [lia|]. ok_bind. apply runs_bind.
  assert (dec_inv (Dec (d_out s) (d_i s + 1))) as Hinv by (unfold dec_inv; simpl; split_and!; [done|lia..]).
  eapply runs_mono; [|intros s' Hs'; exact Hs'|done].
  eapply (runs_for_each (λ _ s', dec_inv s' ∧ d_i s < d_i s')).
  - intros _ bit _ s' _ [Hs' ?]. eapply runs_mono; [by apply runs_decompress_item| |done].
    intros [s2|s2]; simpl; [|by intros ->]. intros [? ?]. split; [done|lia].
  - done.
  - split; [done|simpl; lia].
Qed.

Lemma runs_decompress_from :
  8 ≤ len inp → runs (decompress_from inp total) (λ s, dec_inv s ∧ total ≤ len (d_out s)) dec_error.
Proof.
  intros Hl. eapply (runs_while dec_inv _ _ (λ s, Z.to_nat (len inp - d_i s))).
  - intros s Hs _. pose proof Hs as (_ & Hp & _).
    eapply runs_mono; [by apply runs_decompress_block| |done].
    intros [s'|s']; simpl; [|done]. intros [Hs' ?]. pose proof Hs' as (_ & ? & _).
    split; [done|lia].
  - intros s Hs Hge%Z.ltb_ge. done.
  - unfold dec_inv. simpl. split_and!; [done|lia..].
  - simpl. lia.
Qed.
End any_input.

Lemma decompress_runs inp : Bytes inp → runs (decompress inp) (λ out, Bytes out) dec_error.
Proof.
  intros Hinp. unfold decompress. do 2 (apply runs_bind;
    eapply runs_mono; [apply runs_unpack_le; [done|lia]|intros ? [_ ?]|intros e ->; by left]).
  case_match; [by right; right; right|]. apply runs_bind.
  eapply runs_mono; [apply runs_decompress_from; [done|lia]| |done]. by intros s [(? & _) _].
Qed.

(** Neither the decoder's input nor its output matters for its end. *)
Lemma decompress_returns inp : returns (decompress inp).
Proof.
  unfold decompress. returns_solve. eapply (runs_while (λ _, True) _ _ (λ s, Z.to_nat (len inp - d_i s)));
    [|done|done|simpl; lia].
  intros s _ _. unfold decompress_block. destruct (Z.leb_spec (len inp) (d_i s)); [done|].
  apply runs_bind_returns; [apply returns_bget|intros flags]. apply runs_bind.
  eapply runs_mono; [|intros s' Hs'; exact Hs'|done]. cbn [runs step_to].
  eapply (runs_for_each (λ _ s', True ∧ (Z.to_nat (len inp - d_i s') < Z.to_nat (len inp - d_i s))%nat));
    [|done|simpl; lia].
  intros _ bit _ s' _ [_ Hlt]. unfold decompress_item. case_match; [done|].
  case_match; (apply runs_bind_returns; [first [apply returns_unpack | apply returns_bget]|intros x]);
    apply runs_bind_returns; try (intros out; simpl; lia).
  - apply returns_for_each. intros k out. apply returns_bind; [apply returns_bget|intros y].
    apply returns_bind; [unfold bappend; by case_match|done].
  - unfold bappend. by case_match.
Qed.

(** *** Extending the input

    A run that returns has not looked past the end of its input, so it is the
    same on any longer one. *)
Section extend.
Variables (inp pad : bytes) (total : Z).

Lemma bget_extend i x : 0 ≤ i → bget inp i = Ok x → bget (inp ++ pad) i = Ok x ∧ i < len inp.
Proof.
  intros Hi H. pose proof (bget_Ok_inv _ _ _ Hi H). split; [|lia]. by rewrite bget_app_l by lia.
Qed.

Lemma unpack_extend n i v :
  0 ≤ i → unpack_le n inp i = Ok v → unpack_le n (inp ++ pad) i = Ok v ∧ i + Z.of_nat n ≤ len inp.
Proof.
  intros Hi H. apply unpack_le_Ok_inv in H as [Hle ->]; [|done]. split; [|done].
  rewrite unpack_le_ok by list_lia. by rewrite slice_app_l by lia.
Qed.

Definition pos_inv (s : dec_state) : Prop := 0 ≤ d_i s ≤ len inp.

Lemma decompress_item_extend flags bit s :
  pos_inv s →
  agrees pos_inv (decompress_item inp total flags bit s) (decompress_item (inp ++ pad) total flags bit s).
Proof.
  intros Hs c. unfold decompress_item. destruct (total <=? len (d_out s)); [by intros [= <-]|].
  unfold pos_inv in *. case_match; intros (v & Hv & Hc)%bind_Ok.
  - apply unpack_extend in Hv as [-> ?]; [|lia]. ok_bind. rewrite Hc. split; [done|].
    apply bind_Ok in Hc as (o & _ & [= <-]). simpl. lia.
  - apply bget_extend in Hv as [-> ?]; [|lia]. ok_bind. rewrite Hc. split; [done|].
    apply bind_Ok in Hc as (o & _ & [= <-]). simpl. lia.
Qed.

Lemma decompress_block_extend s :
  pos_inv s →
  agrees pos_inv (decompress_block inp total s) (decompress_block (inp ++ pad) total s).
Proof.
  intros Hs c. unfold decompress_block.
  destruct (Z.leb_spec (len inp) (d_i s)); [done|].
  intros (fl & Hfl & (s' & Hs' & [= <-])%bind_Ok)%bind_Ok.
  apply bget_extend in Hfl as [-> ?]; [|unfold pos_inv in *; lia]. ok_bind.
  rewrite length_app. rw_bool.
  apply (for_each_agrees pos_inv _ (decompress_item (inp ++ pad) total fl)) in Hs' as [-> ?].
  - done.
  - intros bit s2. apply decompress_item_extend.
  - unfold pos_inv in *. simpl. lia.
Qed.

Lemma decompress_from_extend s :
  8 ≤ len inp → decompress_from inp total = Ok s →
  decompress_from (inp ++ pad) total = Ok s ∧ d_i s ≤ len inp.
Proof.
  intros Hl H.
  apply (while_agrees pos_inv _ (S (length (inp ++ pad))) _ _ (decompress_block (inp ++ pad) total))
    in H as [H [_ Hs]].
  - done.
  - apply decompress_block_extend.
  - list_lia.
  - unfold pos_inv. simpl. lia.
Qed.
End extend.

(** A decoder run that returns reads the same, and no more, from any extension
    of its input. *)
Lemma decompress_prefix inp pad out :
  decompress inp = Ok out →
  ∃ total s, unpack_le 4 (inp ++ pad) 4 = Ok total ∧
    decompress_from (inp ++ pad) total = Ok s ∧ d_i s ≤ len inp.
Proof.
  unfold decompress. intros (m & _ & (total & Ht & H)%bind_Ok)%bind_Ok. case_match; [done|].
  apply bind_Ok in H as (s & Hs & _). exists total, s.
  apply (unpack_extend inp pad) in Ht as [-> ?]; [|lia]. split; [done|].
  by apply decompress_from_extend; [lia|].
Qed.

(** *** Sizes *)

Lemma enc_token_length t : len (enc_token t) = if is_match t then 2 else 1.
Proof. by destruct t. Qed.

Lemma encode_length src i ts j : tokens_at src any i ts j → len (encode ts) ≤ j - i.
Proof.
  induction 1 as [|i t ts j Ht Hch Hts IH]; [simpl; lia|].
  change (encode (t :: ts)) with (enc_token t ++ encode ts).
  rewrite length_app, Nat2Z.inj_add, enc_token_length.
  destruct t; simpl in *; unfold MIN_MATCH in *; lia.
Qed.

Lemma blocks_length src i bs :
  blocks src any i bs (len src) → i ≤ len src → len bs ≤ len src - i + (len src - i + 7) / 8.
Proof.
  remember (len src) as j. intros H Hi. revert Heqj Hi.
  induction H as [|i ts k bs j Hts Hl Hk Hbs IH]; intros -> Hi.
  { rewrite Z.sub_diag. done. }
  pose proof (tokens_end _ _ _ _ _ Hts Hi). pose proof (encode_length _ _ _ _ Hts).
  specialize (IH eq_refl ltac:(lia)). cbn [length]. rewrite length_app.
  destruct Hk as [H8| ->].
  - assert ((len src - k + 7) / 8 + 1 ≤ (len src - i + 7) / 8); [|lia].
    rewrite <-(Z.div_add (len src - k + 7) 1 8) by lia. apply Z.div_le_mono; lia.
  - rewrite Z.sub_diag in IH. change ((0 + 7) / 8) with 0 in IH.
    assert (1 ≤ (len src - i + 7) / 8); [|lia]. apply Z.div_le_lower_bound; lia.
Qed.

(** *** The codec as a whole *)

Lemma compress_size src blob :
  Bytes src → len src < 2 ^ 32 → compress src = Ok blob → len blob ≤ 8 + len src + (len src + 7) / 8.
Proof.
  intros Hsrc Hlen Hc. assert (fits 4 (len src) = true) as Hfit by (apply fits_spec; lia).
  destruct (runs_Ok_inv _ _ _ _ Hc (compress_container src Hsrc Hfit)) as (bs & -> & Hbs).
  pose proof (blocks_length _ _ _ Hbs ltac:(lia)) as Hb. rewrite Z.sub_0_r in Hb. list_lia.
Qed.

Lemma compress_returns src : Bytes src → len src < 2 ^ 32 →
  ∃ blob, compress src = Ok blob ∧ container src blob.
Proof.
  intros Hsrc Hlen. assert (fits 4 (len src) = true) as Hfit by (apply fits_spec; lia).
  pose proof (compress_container src Hsrc Hfit) as [blob [-> Hc]]%runs_total. by exists blob.
Qed.

(** ** The interface

    What the tools that pack and unpack the kernel rely on, whatever the format:
    packing succeeds, the packed form opens with a magic number and the length,
    and it unpacks also when it is followed by padding. *)
Class Codec (enc dec : bytes → res bytes) (magic : Z) : Prop := {
  codec_encodes src : Bytes src → fits 4 (len src) = true → ∃ blob, enc src = Ok blob ∧ Bytes blob;
  codec_header src blob pad : Bytes src → fits 4 (len src) = true → enc src = Ok blob →
    8 ≤ len blob ∧ unpack_le 4 (blob ++ pad) 0 = Ok magic ∧ unpack_le 4 (blob ++ pad) 4 = Ok (len src);
  codec_decodes src blob pad : Bytes src → fits 4 (len src) = true → enc src = Ok blob →
    dec (blob ++ pad) = Ok src;
}.

#[export] Instance lzss_codec : Codec compress decompress LZSS_MAGIC.
Proof.
  split; intros src; [|intros blob pad..]; intros Hsrc Hfit.
  - pose proof (compress_container src Hsrc Hfit) as [blob [-> Hc]]%runs_total.
    exists blob. split; [done|by eapply container_Bytes].
  - intros Hc%(λ H, runs_Ok_inv _ _ _ _ H (compress_container src Hsrc Hfit)).
    destruct (container_run_pad src blob pad Hsrc Hfit Hc) as (Hm & Ht & _).
    split; [|done]. destruct Hc as (bs & -> & _). list_lia.
  - intros Hc%(λ H, runs_Ok_inv _ _ _ _ H (compress_container src Hsrc Hfit)).
    by apply decompress_container.
Qed.

(** ** Theorems *)

(** C13 - Round trip: every byte string shorter than 4 GiB compresses, and
    decompressing the result gives it back, even when the result is followed by
    padding up to a sector boundary. *)
Theorem lzss_roundtrip src pad :
  Bytes src → len src < 2 ^ 32 →
  ∃ blob, compress src = Ok blob ∧ decompress (blob ++ pad) = Ok src.
Proof.
  intros Hsrc Hlen. destruct (compress_returns src Hsrc Hlen) as (blob & Hc & Hcont).
  exists blob. split; [done|]. apply decompress_container; [done|apply fits_spec; lia|done].
Qed.

Lemma lzss_roundtrip_witness :
  ∃ blob, compress (b "qizoqizo") = Ok blob ∧ decompress (blob ++ zeros 5) = Ok (b "qizoqizo").
Proof. apply (lzss_roundtrip (b "qizoqizo") (zeros 5)); [by repeat constructor|done]. Defined.

(** The match finder returns, and what it returns is the longest match in
    the 4 KiB window, the nearest one among the longest; it returns [(0, 0)]
    exactly when no match reaches three bytes. *)
Theorem find_match_correct src i :
  0 ≤ i ≤ len src →
  ∃ off ln, _find_match src i (len src) = Ok (off, ln) ∧
    ((off, ln) = (0, 0) ∧ no_match src i ∨ best_match src i off ln).
Proof.
  intros Hi. pose proof (find_match_spec src i Hi) as [[off ln] [-> Hr]]%runs_total.
  by exists off, ln.
Qed.

Lemma find_match_correct_witness :
  ∃ off ln, _find_match (b "abcabcabc") 3 9 = Ok (off, ln) ∧
    ((off, ln) = (0, 0) ∧ no_match (b "abcabcabc") 3 ∨ best_match (b "abcabcabc") 3 off ln).
Proof. apply (find_match_correct (b "abcabcabc") 3). vm_compute. by split. Defined.

(** C39 - Compression never expands its input by more than the eight byte header
    and one flag byte for every eight bytes of input. *)
Theorem compress_bound src :
  Bytes src → len src < 2 ^ 32 →
  ∃ blob, compress src = Ok blob ∧ len blob ≤ 8 + len src + (len src + 7) / 8.
Proof.
  intros Hsrc Hlen. destruct (compress_returns src Hsrc Hlen) as (blob & Hc & _).
  exists blob. split; [done|by apply compress_size].
Qed.

Lemma compress_bound_witness :
  ∃ blob, compress (b "qizo boots") = Ok blob ∧ len blob ≤ 8 + 10 + (10 + 7) / 8.
Proof. apply (compress_bound (b "qizo boots")); [by repeat constructor|done]. Defined.

(** C38 - The decoder terminates on every input: it returns a byte string or
    raises one of the four errors of [dec_error]. *)
Theorem decompress_total inp :
  Bytes inp → runs (decompress inp) (λ out, Bytes out) dec_error.
Proof. apply decompress_runs. Qed.

Lemma decompress_total_witness : runs (decompress (b "not a blob")) (λ out, Bytes out) dec_error.
Proof. apply (decompress_total (b "not a blob")). by repeat constructor. Defined.

(** What the decoder returns has at least the length the header announces
    and overshoots it by at most 17 bytes, whatever the input. *)
Theorem decompress_length inp out :
  Bytes inp → decompress inp = Ok out →
  ∃ total, unpack_le 4 inp 4 = Ok total ∧ total ≤ len out ≤ total + 17.
Proof.
  unfold decompress. intros Hinp (m & Hm & (total & Ht & H)%bind_Ok)%bind_Ok.
  pose proof (runs_unpack_le 4 inp 4 Hinp ltac:(lia)) as Hr. rewrite Ht in Hr. destruct Hr as [Hb Hl].
  exists total. split; [done|]. case_match; [done|].
  apply bind_Ok in H as (s & Hs & [= <-]).
  pose proof (runs_decompress_from inp total Hinp ltac:(lia)) as Hr. rewrite Hs in Hr.
  destruct Hr as [(_ & _ & ?) ?]. lia.
Qed.

Lemma decompress_length_witness :
  ∃ total, unpack_le 4 (le_bytes 4 LZSS_MAGIC ++ [1; 0; 0; 0; 2; 7; 0x0F; 0]) 4 = Ok total ∧
           total ≤ len [7] ≤ total + 17.
Proof.
  apply (decompress_length (le_bytes 4 LZSS_MAGIC ++ [1; 0; 0; 0; 2; 7; 0x0F; 0]) [7]).
  - by repeat constructor.
  - vm_compute. reflexivity.
Defined.

(** A truncated container is never decoded: the decoder raises on every
    strict prefix of what [compress] wrote. *)
Theorem decompress_truncated src blob k :
  Bytes src → len src < 2 ^ 32 → compress src = Ok blob → (k < length blob)%nat →
  ∃ e, decompress (take k blob) = Raise e ∧ dec_error e.
Proof.
  intros Hsrc Hlen Hc Hk. assert (fits 4 (len src) = true) as Hfit by (apply fits_spec; lia).
  pose proof (compress_container src Hsrc Hfit) as Hr. rewrite Hc in Hr. simpl in Hr.
  pose proof (container_Bytes _ _ Hsrc Hr) as Hbb.
  pose proof (decompress_runs (take k blob) (Forall_take _ _ _ Hbb)) as Ht.
  destruct (decompress (take k blob)) as [out|e|] eqn:Hd; [exfalso|by exists e|done].
  apply (decompress_prefix _ (drop k blob)) in Hd as (total & s & Htot & Hrun & Hpos).
  rewrite take_drop in Htot, Hrun. pose proof (container_run _ _ Hsrc Hfit Hr) as [Htot' [s' [Hs' Hend]]].
  rewrite Htot' in Htot. injection Htot as <-. rewrite Hs' in Hrun. injection Hrun as <-.
  list_lia.
Qed.

Lemma decompress_truncated_witness :
  ∃ e, decompress (take 14 (le_bytes 4 LZSS_MAGIC ++ [12; 0; 0; 0] ++ [0x10] ++ b "qizo" ++ [0x35; 0]))
         = Raise e ∧ dec_error e.
Proof.
  apply (decompress_truncated (b "qizoqizoqizo")); [by repeat constructor|done|by vm_compute|].
  vm_compute. lia.
Defined.
