(* ===== verification/Greedy.v ===== *)
(** * What the LZSS compressor chooses

    [Lzss.v] shows that [compress] writes a container in which every token is the
    best one at its position.  Here: there is one such container, so that
    [compress] computes exactly this specification; and on data that repeats with
    a period inside the window it is short. *)

From S2P Require Export Lzss.
#[local] Ltac Zify.zify_post_hook ::= Z.to_euclidean_division_equations.

(** ** Determinism *)

Section greedy.
Variable src : bytes.

(** The best token at a position is unique. *)
Lemma greedy_token_det i t t' :
  0 ≤ i → token_at src i t → token_at src i t' → greedy src i t → greedy src i t' → t = t'.
Proof.
  intros Hi Ht Ht' Hg Hg'. destruct t as [x|off ln], t' as [y|off' ln']; cbn [token_at greedy] in *.
  - destruct Ht as [_ Hx], Ht' as [_ Hy]. congruence.
  - destruct Hg' as (Hln & Hoff & Hcom & _). pose proof (Hg (i - off') ln' ltac:(lia) ltac:(lia) Hcom). lia.
  - destruct Hg as (Hln & Hoff & Hcom & _). pose proof (Hg' (i - off) ln ltac:(lia) ltac:(lia) Hcom). lia.
  - destruct Hg as (Hln & Hoff & Hcom & Hbest), Hg' as (Hln' & Hoff' & Hcom' & Hbest').
    pose proof (Hbest (i - off') ln' ltac:(lia) ltac:(lia) Hcom') as [Hle Hnear].
    pose proof (Hbest' (i - off) ln ltac:(lia) ltac:(lia) Hcom) as [Hle' Hnear'].
    assert (ln = ln') as -> by lia. f_equal. lia.
Qed.

(** So is the list of tokens that fills a block of [m]. *)
Lemma greedy_tokens_det m i ts k ts' k' :
  0 ≤ i → tokens_at src (greedy src) i ts k → tokens_at src (greedy src) i ts' k' →
  (length ts ≤ m)%nat → (length ts' ≤ m)%nat →
  (length ts = m ∨ k = len src) → (length ts' = m ∨ k' = len src) → ts = ts' ∧ k = k'.
Proof.
  intros Hi Hts. revert m ts' k' Hi.
  induction Hts as [i|i t ts k Ht Hg Hts IH]; intros m ts' k' Hi Hts' Hm Hm' He He';
    inversion Hts' as [|? t' ts'' ? Ht' Hg' Hts'']; subst; cbn [length] in *.
  - done.
  - pose proof (token_at_span _ _ _ Ht'). destruct He; [lia|subst; lia].
  - pose proof (token_at_span _ _ _ Ht). destruct He'; [lia|subst; lia].
  - assert (t = t') as <- by by eapply greedy_token_det. pose proof (token_at_span _ _ _ Ht).
    destruct m as [|m]; [lia|].
    edestruct (IH m ts'' k') as [-> ->]; [lia|done|lia|lia|..|done]; [destruct He|destruct He']; auto; left; lia.
Qed.

Lemma greedy_blocks_det i bs bs' :
  0 ≤ i → blocks src (greedy src) i bs (len src) → blocks src (greedy src) i bs' (len src) → bs = bs'.
Proof.
  remember (len src) as j eqn:Hj. intros Hi H. revert bs' Hi.
  induction H as [i|i ts k bs j Hts Hl Hk Hbs IH]; intros bs' Hi H'; subst;
    inversion H' as [|? ts' k' bs'' ? Hts' Hl' Hk' Hbs']; subst.
  - done.
  - destruct ts' as [|t' ts']; [cbn [length] in *; lia|]. inversion Hts' as [|???? Ht]; subst.
    pose proof (token_at_span _ _ _ Ht). lia.
  - destruct ts as [|t ts]; [cbn [length] in *; lia|]. inversion Hts as [|???? Ht]; subst.
    pose proof (token_at_span _ _ _ Ht). lia.
  - destruct (greedy_tokens_det 8 i ts k ts' k') as [<- <-]; [done..|lia|lia|done|done|].
    do 2 f_equal. apply IH; [done| |done].
    clear -Hi Hts. induction Hts as [|i t ts k Ht Hg Hts IH]; [done|]. apply IH. pose proof (token_at_span _ _ _ Ht). lia.
Qed.
End greedy.

(** ** Periodic data *)

Definition periodic (p : Z) (src : bytes) : Prop :=
  ∀ k, 0 ≤ k → k + p < len src → src !! Z.to_nat k = src !! Z.to_nat (k + p).

Section periodic.
Variables (src : bytes) (p : Z).
Hypothesis Hp : 1 ≤ p ≤ WINDOW.
Hypothesis Hper : periodic p src.

(** After the first period the best token is a match that is as long as a match
    can be, unless fewer than three bytes are left. *)
Lemma periodic_token i t :
  p ≤ i → token_at src i t → greedy src i t → span t = match_limit src i ∨ len src - i < MIN_MATCH.
Proof.
  intros Hi Ht Hg. destruct (Z.lt_ge_cases (len src - i) MIN_MATCH) as [|Hleft]; [by right|left].
  assert (window_start i ≤ i - p < i) as Hw by (unfold window_start; lia).
  assert (common src (i - p) i (match_limit src i)) as Hcom.
  { unfold match_limit. intros k Hk. rewrite Hper by lia. f_equal. lia. }
  assert (MIN_MATCH ≤ match_limit src i) by (unfold match_limit, MIN_MATCH, MAX_MATCH in *; lia).
  destruct t as [x|off ln]; cbn [greedy span] in *.
  - pose proof (Hg (i - p) (match_limit src i) Hw ltac:(lia) Hcom). lia.
  - destruct Hg as (Hln & _ & _ & Hbest). pose proof (Hbest (i - p) (match_limit src i) Hw ltac:(lia) Hcom). lia.
Qed.

(** How many tokens are left at a position, at most. *)
Definition tokens_left (i : Z) : Z :=
  if i <? p then p - i + len src / MAX_MATCH + 2
  else (len src - i) / MAX_MATCH + Z.min 2 ((len src - i) mod MAX_MATCH).

Lemma tokens_left_step i t :
  0 ≤ i → token_at src i t → greedy src i t → 0 ≤ tokens_left (i + span t) ≤ tokens_left i - 1.
Proof.
  intros Hi Ht Hg. pose proof (token_at_span _ _ _ Ht).
  pose proof (λ H, periodic_token i t H Ht Hg) as Hs.
  assert (is_match t = false → span t = 1) as Hlit by by destruct t.
  assert (span t ≤ match_limit src i) as Hlim.
  { destruct t; cbn [span token_at] in *; [|lia]. unfold match_limit, MAX_MATCH. lia. }
  unfold tokens_left, match_limit, MIN_MATCH, MAX_MATCH in *.
  destruct (Z.ltb_spec i p), (Z.ltb_spec (i + span t) p); [lia|lia|lia|].
  destruct Hs as [Hs|Hs]; lia.
Qed.

Lemma tokens_left_list i ts j :
  0 ≤ i → tokens_at src (greedy src) i ts j → len ts ≤ tokens_left i - tokens_left j ∧ i ≤ j.
Proof.
  intros Hi H. induction H as [i|i t ts j Ht Hg Hts IH]; cbn [length]; [lia|].
  pose proof (tokens_left_step i t Hi Ht Hg). pose proof (token_at_span _ _ _ Ht). lia.
Qed.

Lemma tokens_left_nonneg i : 0 ≤ i ≤ len src → 0 ≤ tokens_left i.
Proof. unfold tokens_left, MAX_MATCH. case_bool; lia. Qed.

Lemma encode_short ts : len (encode ts) ≤ 2 * len ts.
Proof.
  induction ts as [|t ts IH]; [done|]. change (encode (t :: ts)) with (enc_token t ++ encode ts).
  rewrite length_app, Nat2Z.inj_add, enc_token_length. cbn [length]. destruct (is_match t); lia.
Qed.

Lemma blocks_periodic i bs :
  0 ≤ i ≤ len src → blocks src (greedy src) i bs (len src) →
  len bs ≤ 2 * tokens_left i + (tokens_left i + 7) / 8.
Proof.
  remember (len src) as j eqn:Hj. intros Hi H. revert Hi.
  induction H as [i|i ts k bs j Hts Hl Hk Hbs IH]; intros Hi; subst.
  - pose proof (tokens_left_nonneg (len src) Hi). cbn [length]. lia.
  - pose proof (tokens_left_list i ts k ltac:(lia) Hts). pose proof (encode_short ts).
    pose proof (tokens_end _ _ _ _ _ Hts ltac:(lia)).
    specialize (IH eq_refl ltac:(lia)). cbn [length]. rewrite length_app.
    pose proof (tokens_left_nonneg k ltac:(lia)). destruct Hk as [H8| ->]; [lia|].
    inversion Hbs as [|? ts' k' ? ? Hts' Hl']; subst; [cbn [length]; lia|].
    pose proof (tokens_end _ _ _ _ _ Hts' ltac:(lia)). pose proof (blocks_end _ _ _ _ _ Hbs ltac:(lia)). lia.
Qed.
End periodic.

Lemma periodic_size src p blob :
  Bytes src → len src < 2 ^ 32 → 1 ≤ p ≤ WINDOW → periodic p src → compress src = Ok blob →
  let tokens := p + len src / 18 + 2 in len blob ≤ 8 + 2 * tokens + (tokens + 7) / 8.
Proof.
  intros Hsrc Hlen Hp Hper Hc. assert (fits 4 (len src) = true) as Hfit by (apply fits_spec; lia).
  destruct (runs_Ok_inv _ _ _ _ Hc (compress_greedy src Hsrc Hfit)) as (bs & -> & Hbs).
  pose proof (blocks_periodic src p Hp Hper 0 bs ltac:(lia) Hbs) as Hb.
  assert (tokens_left src p 0 = p + len src / 18 + 2) as He by (unfold tokens_left, MAX_MATCH; rw_bool; lia).
  rewrite He in Hb. rewrite !length_app, !length_le_bytes. lia.
Qed.

(** ** Theorems *)

(** C12 - [compress] is the greedy parse: it returns [blob] exactly when [blob] is
    the container of its input in which every token is the longest match in the
    window, the nearest of the longest, and a literal only where nothing of three
    bytes or more repeats. *)
Theorem compress_is_greedy src blob :
  Bytes src → len src < 2 ^ 32 → compress src = Ok blob ↔ greedy_container src blob.
Proof.
  intros Hsrc Hlen. assert (fits 4 (len src) = true) as Hfit by (apply fits_spec; lia).
  pose proof (compress_greedy src Hsrc Hfit) as [blob' [-> (bs' & -> & Hbs')]]%runs_total. split.
  - intros [= <-]. by exists bs'.
  - intros (bs & -> & Hbs). f_equal. do 2 f_equal. by eapply (greedy_blocks_det src 0).
Qed.

Lemma compress_is_greedy_witness :
  compress (b "qizoqizoqizo") =
    Ok ([0x4C; 0x5A; 0x49; 0x51; 12; 0; 0; 0] ++ [0x10] ++ b "qizo" ++ [0x35; 0]) ↔
  greedy_container (b "qizoqizoqizo")
    ([0x4C; 0x5A; 0x49; 0x51; 12; 0; 0; 0] ++ [0x10] ++ b "qizo" ++ [0x35; 0]).
Proof. apply compress_is_greedy; [by repeat constructor|done]. Defined.

(** Data that repeats with a period of at most 4096 bytes shrinks to a ninth
    and a little more: past the first period every token but the last two is a
    match of 18 bytes. *)
Theorem compress_periodic src p :
  Bytes src → len src < 2 ^ 32 → 1 ≤ p ≤ WINDOW → periodic p src →
  ∃ blob, compress src = Ok blob ∧
    let tokens := p + len src / 18 + 2 in len blob ≤ 8 + 2 * tokens + (tokens + 7) / 8.
Proof.
  intros Hsrc Hlen Hp Hper. destruct (compress_returns src Hsrc Hlen) as (blob & Hc & _).
  exists blob. split; [done|by apply periodic_size].
Qed.

Lemma compress_periodic_witness :
  ∃ blob, compress (b "qizoqizoqizo") = Ok blob ∧
    let tokens := 4 + 12 / 18 + 2 in len blob ≤ 8 + 2 * tokens + (tokens + 7) / 8.
Proof.
  apply (compress_periodic (b "qizoqizoqizo") 4); [by repeat constructor|done|unfold WINDOW; lia|].
  intros k Hk Hlt. change (len (b "qizoqizoqizo")) with 12 in Hlt.
  assert (Forall (λ k, b "qizoqizoqizo" !! Z.to_nat k = b "qizoqizoqizo" !! Z.to_nat (k + 4)) (seqZ 0 8)) as Hall
    by (apply (bool_decide_unpack _); by vm_compute).
  rewrite Forall_forall in Hall. apply Hall, list_elem_of_In, elem_of_seqZ. lia.
Defined.
