(* ===== verification/PyText.v ===== *)
(** * Text

    A [string] stands for the UTF-8 encoding of a Python string; case and blanks
    are those of ASCII, and the tools only index ASCII text.  Stripping and splitting, integer literals
    ([int(s, 0)]), the integer expressions the layout file hands to [eval], and
    the number formats of the [%] operator. *)

From S2P Require Export PyBytes.
From Stdlib Require Export Ascii.

(** ** Characters *)

Definition code (c : ascii) : Z := Z.of_N (Ascii.N_of_ascii c).
Definition chr (n : Z) : ascii := Ascii.ascii_of_N (Z.to_N n).

(** [c.isspace()] and the class [\s] *)
Definition is_space (c : ascii) : bool :=
  let n := code c in (n =? 32) || (9 <=? n) && (n <=? 13) || (28 <=? n) && (n <=? 31).

Definition is_digit (c : ascii) : bool := (48 <=? code c) && (code c <=? 57).
Definition is_upper (c : ascii) : bool := (65 <=? code c) && (code c <=? 90).
Definition is_lower (c : ascii) : bool := (97 <=? code c) && (code c <=? 122).

(** The class [\w] *)
Definition is_word (c : ascii) : bool :=
  is_digit c || is_upper c || is_lower c || (code c =? 95).

Definition NL : ascii := chr 10.

(** ** Strings *)

(** [s.lstrip()] *)
Fixpoint lstrip (s : string) : string :=
  match s with
  | EmptyString => EmptyString
  | String c s' => if is_space c then lstrip s' else s
  end.

(** [s.rstrip()] *)
Fixpoint rstrip (s : string) : string :=
  match s with
  | EmptyString => EmptyString
  | String c s' =>
      match rstrip s' with
      | EmptyString => if is_space c then EmptyString else String c EmptyString
      | r => String c r
      end
  end.

Definition strip (s : string) : string := rstrip (lstrip s).

(** All characters are in the class [p]. *)
Fixpoint all_chars (p : ascii → bool) (s : string) : bool :=
  match s with EmptyString => true | String c s => p c && all_chars p s end.

(** The longest prefix of [s] in the class [p], and the rest. *)
Fixpoint str_span (p : ascii → bool) (s : string) : string * string :=
  match s with
  | EmptyString => (EmptyString, EmptyString)
  | String c s' =>
      if p c then let '(u, v) := str_span p s' in (String c u, v) else (EmptyString, s)
  end.

(** What follows the prefix [p] of [s]. *)
Fixpoint after (p s : string) : option string :=
  match p, s with
  | EmptyString, _ => Some s
  | String a p, String c s => if (a =? c)%char then after p s else None
  | String _ _, EmptyString => None
  end.

(** [s.split(sep)] for a one character separator *)
Fixpoint split_on (sep : ascii) (s : string) : list string :=
  match s with
  | EmptyString => [EmptyString]
  | String c s' =>
      if (c =? sep)%char then EmptyString :: split_on sep s'
      else match split_on sep s' with
           | [] => [String c EmptyString]
           | w :: ws => String c w :: ws
           end
  end.

(** The pieces of [s] between the characters of a class. *)
Fixpoint split_where (p : ascii → bool) (s : string) : list string :=
  match s with
  | EmptyString => [EmptyString]
  | String c s' =>
      if p c then EmptyString :: split_where p s'
      else match split_where p s' with
           | [] => [String c EmptyString]
           | w :: ws => String c w :: ws
           end
  end.

(** The characters [splitlines] breaks a line at. *)
Definition is_line_break (c : ascii) : bool :=
  let n := code c in (10 <=? n) && (n <=? 13) || (28 <=? n) && (n <=? 30).

(** [s.splitlines()] without the empty lines *)
Definition nonempty_lines (s : string) : list string :=
  filter (λ l, l ≠ EmptyString) (split_where is_line_break s).

(** The lines of an open text file, without their newline. *)
Definition file_lines (s : string) : list string :=
  match rev (split_on NL s) with
  | EmptyString :: ls => rev ls
  | ls => rev ls
  end.

(** [sep.join(l)] *)
Definition join (sep : string) (l : list string) : string := String.concat sep l.

(** [s.upper()] *)
Fixpoint upper (s : string) : string :=
  match s with
  | EmptyString => EmptyString
  | String c s => String (if is_lower c then chr (code c - 32) else c) (upper s)
  end.

(** [s[:n]] for [n >= 0] *)
Definition str_take (n : nat) (s : string) : string := String.substring 0 n s.

(** [s.ljust(n, c)] *)
Definition str_ljust (s : string) (n : nat) (c : ascii) : string :=
  (s +:+ String.string_of_list_ascii (replicate (n - String.length s) c))%string.

(** [s.rsplit(sep, 1)], when [sep] occurs in [s] *)
Fixpoint rsplit1 (sep : ascii) (s : string) : option (string * string) :=
  match s with
  | EmptyString => None
  | String c s' =>
      match rsplit1 sep s' with
      | Some (u, v) => Some (String c u, v)
      | None => if (c =? sep)%char then Some (EmptyString, s') else None
      end
  end.

(** [s.encode()] *)
Definition encode_utf8 (s : string) : bytes := b s.

(** [d.decode()]: the well formed sequences of UTF-8. *)
Fixpoint valid_utf8 (l : bytes) : bool :=
  let cont x := (0x80 <=? x) && (x <? 0xC0) in
  match l with
  | [] => true
  | x :: l =>
      if x <? 0x80 then valid_utf8 l
      else if (0xC2 <=? x) && (x <? 0xE0) then
        match l with y :: l => cont y && valid_utf8 l | _ => false end
      else if (0xE0 <=? x) && (x <? 0xF0) then
        match l with
        | y :: z :: l =>
            (if x =? 0xE0 then 0xA0 <=? y else true) && (if x =? 0xED then y <? 0xA0 else true) &&
            cont y && cont z && valid_utf8 l
        | _ => false
        end
      else if (0xF0 <=? x) && (x <? 0xF5) then
        match l with
        | y :: z :: w :: l =>
            (if x =? 0xF0 then 0x90 <=? y else true) && (if x =? 0xF4 then y <? 0x90 else true) &&
            cont y && cont z && cont w && valid_utf8 l
        | _ => false
        end
      else false
  end.

Definition decode_utf8 (l : bytes) : res string :=
  if valid_utf8 l then Ok (String.string_of_list_ascii (chr <$> l)) else Raise UnicodeError.

(** ** Searching *)

(** [t in s] *)
Fixpoint contains (t s : string) : bool :=
  match after t s with
  | Some _ => true
  | None => match s with EmptyString => false | String _ s => contains t s end
  end.

(** [s.startswith(t)] *)
Definition starts (t s : string) : bool := match after t s with Some _ => true | None => false end.

(** [s.replace(t, u)] for a non-empty [t]; every match consumes fuel. *)
Fixpoint replace_fuel (fuel : nat) (t u s : string) : string :=
  match fuel with
  | O => s
  | S fuel =>
      match after t s with
      | Some s' => (u +:+ replace_fuel fuel t u s')%string
      | None =>
          match s with
          | EmptyString => EmptyString
          | String c s => String c (replace_fuel fuel t u s)
          end
      end
  end.
Definition replace_all (t u s : string) : string := replace_fuel (S (String.length s)) t u s.

(** The position of the first [t] in [s]; the positions are those of the bytes,
    and are only used to cut [s] there. *)
Fixpoint index_of (t s : string) : option nat :=
  if starts t s then Some 0%nat
  else match s with EmptyString => None | String _ s => S <$> index_of t s end.

(** [s[i:]] and [s[i:j]] for positions in [s] *)
Fixpoint str_drop (i : nat) (s : string) : string :=
  match i, s with
  | O, _ => s
  | S i, String _ s => str_drop i s
  | S _, EmptyString => EmptyString
  end.
Definition str_slice (s : string) (i j : nat) : string := str_take (j - i) (str_drop i s).

(** [s.index(t)] and [s.index(t, i)] *)
Definition str_index (t s : string) : res nat :=
  or_raise (ValueError "substring not found") (index_of t s).
Definition str_index_from (t s : string) (i : nat) : res nat :=
  n ← str_index t (str_drop i s); Ok (i + n)%nat.

(** [s.rsplit(sep, 1)[-1]] *)
Definition last_field (sep : ascii) (s : string) : string := default s (snd <$> rsplit1 sep s).

(** [s.strip(c)] *)
Fixpoint lstrip_char (c : ascii) (s : string) : string :=
  match s with
  | EmptyString => EmptyString
  | String d s' => if (c =? d)%char then lstrip_char c s' else s
  end.
Fixpoint rstrip_char (c : ascii) (s : string) : string :=
  match s with
  | EmptyString => EmptyString
  | String d s' =>
      match rstrip_char c s' with
      | EmptyString => if (c =? d)%char then EmptyString else String d EmptyString
      | r => String d r
      end
  end.
Definition strip_char (c : ascii) (s : string) : string := rstrip_char c (lstrip_char c s).

(** ** Integer literals *)

Definition digit_value (c : ascii) : option Z :=
  if is_digit c then Some (code c - 48)
  else if is_lower c then Some (code c - 87)
  else if is_upper c then Some (code c - 55)
  else None.

(** Digits with single underscores between them; [us] says that an underscore
    (or the start of the number) precedes. *)
Fixpoint read_digits (base : Z) (us : bool) (acc : Z) (s : string) : option Z :=
  match s with
  | EmptyString => if us then None else Some acc
  | String c s =>
      if (c =? "_")%char then if us then None else read_digits base true acc s
      else
        match digit_value c with
        | Some d => if d <? base then read_digits base false (acc * base + d) s else None
        | None => None
        end
  end.

(** The digits after a base prefix: an underscore may come first. *)
Definition read_prefixed (base : Z) (s : string) : option Z :=
  match s with
  | String "_" s => read_digits base true 0 s
  | s => read_digits base true 0 s
  end.

(** An unsigned integer literal: a zero may only be followed by zeros. *)
Definition read_literal (s : string) : option Z :=
  match s with
  | String "0" (String ("x" | "X") s) => read_prefixed 16 s
  | String "0" (String ("o" | "O") s) => read_prefixed 8 s
  | String "0" (String ("b" | "B") s) => read_prefixed 2 s
  | String "0" _ =>
      match read_digits 10 true 0 s with Some 0 => Some 0 | _ => None end
  | _ => read_digits 10 true 0 s
  end.

(** [int(s, 0)]; [None] is the [ValueError]. *)
Definition int0 (s : string) : option Z :=
  match strip s with
  | String "-" s => Z.opp <$> read_literal s
  | String "+" s => read_literal s
  | s => read_literal s
  end.

(** [int(s, 16)]; a prefix [0x] is allowed. *)
Definition read_hex (s : string) : option Z :=
  match s with
  | String "0" (String ("x" | "X") s) => read_prefixed 16 s
  | s => read_digits 16 true 0 s
  end.
Definition int16 (s : string) : option Z :=
  match strip s with
  | String "-" s => Z.opp <$> read_hex s
  | String "+" s => read_hex s
  | s => read_hex s
  end.

Example int0_ex :
  int0 " 0x7DD0 " = Some 0x7DD0 ∧ int0 "1_000" = Some 1000 ∧ int0 "-0b101" = Some (-5) ∧
  int0 "010" = None ∧ int0 "00" = Some 0 ∧ int0 "248 * 512" = None ∧ int0 "0x" = None.
Proof. by vm_compute. Qed.

(** ** Integer expressions

    [eval(expr, vals)] for the expressions over integers and names: the
    arithmetic, shift and bit operators with Python's precedences.  [None] is an
    exception, or an expression outside this fragment (calls, comparisons, true
    division and so on, which a layout file does not use). *)

Inductive tok :=
  | TNum (n : Z)
  | TName (s : string)
  | TOp (s : string).

#[export] Instance tok_eq_dec : EqDecision tok.
Proof. solve_decision. Defined.

Definition two_char_ops : list string := ["**"; "//"; "<<"; ">>"]%string.
Definition one_char_ops : list string := ["+"; "-"; "*"; "%"; "&"; "|"; "^"; "~"; "("; ")"]%string.

(** The tokens of an expression; [None] for a character no token starts with. *)
Fixpoint tokens (fuel : nat) (s : string) : option (list tok) :=
  match fuel with
  | O => None
  | S fuel =>
      match lstrip s with
      | EmptyString => Some []
      | String c rest as s =>
          if is_word c then
            let '(w, rest) := str_span is_word s in
            t ← (if is_digit c then TNum <$> read_literal w else Some (TName w));
            ts ← tokens fuel rest;
            Some (t :: ts)
          else
            match rest with
            | String d rest' =>
                if bool_decide (String c (String d EmptyString) ∈ two_char_ops) then
                  cons (TOp (String c (String d EmptyString))) <$> tokens fuel rest'
                else if bool_decide (String c EmptyString ∈ one_char_ops) then
                  cons (TOp (String c EmptyString)) <$> tokens fuel rest
                else None
            | EmptyString =>
                if bool_decide (String c EmptyString ∈ one_char_ops) then
                  cons (TOp (String c EmptyString)) <$> tokens fuel rest
                else None
            end
      end
  end.

(** Binary operators by level, loosest first; all associate to the left. *)
Definition levels : list (list string) :=
  [["|"]; ["^"]; ["&"]; ["<<"; ">>"]; ["+"; "-"]; ["*"; "//"; "%"]]%string.

Definition apply_op (op : string) (x y : Z) : option Z :=
  if bool_decide (op = "|")%string then Some (Z.lor x y)
  else if bool_decide (op = "^")%string then Some (Z.lxor x y)
  else if bool_decide (op = "&")%string then Some (Z.land x y)
  else if bool_decide (op = "<<")%string then if y <? 0 then None else Some (Z.shiftl x y)
  else if bool_decide (op = ">>")%string then if y <? 0 then None else Some (Z.shiftr x y)
  else if bool_decide (op = "+")%string then Some (x + y)
  else if bool_decide (op = "-")%string then Some (x - y)
  else if bool_decide (op = "*")%string then Some (x * y)
  else if bool_decide (op = "//")%string then if y =? 0 then None else Some (x / y)
  else if bool_decide (op = "%")%string then if y =? 0 then None else Some (x mod y)
  else None.

Section eval.
Variable env : gmap string Z.

(** [parse_level n lvs ts]: a value at the first level of [lvs] and the tokens
    after it; with no level left, a unary expression or a power.  The fuel
    bounds the depth of the calls, at most eight per token. *)
Fixpoint parse_level (fuel : nat) (lvs : list (list string)) (ts : list tok) : option (Z * list tok) :=
  match fuel with
  | O => None
  | S fuel =>
      match lvs with
      | ops :: lvs' =>
          '(x, ts) ← parse_level fuel lvs' ts;
          parse_rest fuel ops lvs' x ts
      | [] =>
          match ts with
          | TOp "-" :: ts => '(x, ts) ← parse_level fuel [] ts; Some (- x, ts)
          | TOp "+" :: ts => parse_level fuel [] ts
          | TOp "~" :: ts => '(x, ts) ← parse_level fuel [] ts; Some (Z.lnot x, ts)
          | TOp "(" :: ts =>
              '(x, ts) ← parse_level fuel levels ts;
              match ts with TOp ")" :: ts => parse_power fuel x ts | _ => None end
          | TNum n :: ts => parse_power fuel n ts
          | TName s :: ts => n ← env !! s; parse_power fuel n ts
          | _ => None
          end
      end
  end
with parse_power (fuel : nat) (x : Z) (ts : list tok) : option (Z * list tok) :=
  match fuel with
  | O => None
  | S fuel =>
      match ts with
      | TOp "**" :: ts =>
          '(y, ts) ← parse_level fuel [] ts;
          if y <? 0 then None else Some (x ^ y, ts)
      | _ => Some (x, ts)
      end
  end
with parse_rest (fuel : nat) (ops : list string) (lvs : list (list string)) (x : Z) (ts : list tok) :
    option (Z * list tok) :=
  match fuel with
  | O => None
  | S fuel =>
      match ts with
      | TOp op :: ts' =>
          if bool_decide (op ∈ ops) then
            '(y, ts'') ← parse_level fuel lvs ts';
            z ← apply_op op x y;
            parse_rest fuel ops lvs z ts''
          else Some (x, ts)
      | _ => Some (x, ts)
      end
  end.

(** [eval(s, vals)] *)
Definition eval (s : string) : option Z :=
  ts ← tokens (S (String.length s)) s;
  r ← parse_level (16 * S (length ts)) levels ts;
  match r.2 with [] => Some r.1 | _ => None end.
End eval.

Example eval_ex :
  eval ∅ "248 * 512" = Some 126976 ∧ eval {["A" := 5]} "2 + 3*(A - 1) << 1" = Some 28 ∧
  eval ∅ "B + 1" = None ∧ eval ∅ "" = None ∧ eval ∅ "(((7)))" = Some 7 ∧
  eval ∅ "-2**2 + ~0" = Some (-5) ∧ eval ∅ "7 // -2 | 1 << 4" = Some (-4).
Proof. by vm_compute. Qed.

(** ** Number formats *)

Definition digit_char (d : Z) : ascii := chr (if d <? 10 then 48 + d else 87 + d).

Fixpoint show_digits (fuel : nat) (base n : Z) (acc : string) : string :=
  match fuel with
  | O => acc
  | S fuel =>
      let acc := String (digit_char (n mod base)) acc in
      if n / base =? 0 then acc else show_digits fuel base (n / base) acc
  end.

(** The digits of a natural number in [base] (at least 2). *)
Definition show_base (base n : Z) : string :=
  show_digits (S (Z.to_nat (Z.log2 n))) base n EmptyString.

(** ["%d" % n], ["%x" % n] and ["%X" % n] *)
Definition fmt_d (n : Z) : string :=
  if n <? 0 then String "-" (show_base 10 (- n)) else show_base 10 n.
Definition fmt_x (n : Z) : string :=
  if n <? 0 then String "-" (show_base 16 (- n)) else show_base 16 n.
Definition fmt_X (n : Z) : string := upper (fmt_x n).

(** [s] padded on the left with the character [c] to [n] characters *)
Definition pad_left (c : ascii) (n : nat) (s : string) : string :=
  (String.concat EmptyString (replicate (n - String.length s) (String c EmptyString)) +:+ s)%string.

(** ["%02x" % n] and ["%08x" % n] for [n] not negative *)
Definition fmt_02x (n : Z) : string := pad_left "0" 2 (fmt_x n).
Definition fmt_08x (n : Z) : string := pad_left "0" 8 (fmt_x n).

Example fmt_ex :
  fmt_d 0 = "0"%string ∧ fmt_d (-120) = "-120"%string ∧ fmt_X 0x51495A4C = "51495A4C"%string ∧
  fmt_08x 0xBEEF = "0000beef"%string ∧ fmt_02x 255 = "ff"%string.
Proof. by vm_compute. Qed.

(** ** Reading numbers back *)

Lemma digit_value_char d :
  0 ≤ d < 16 → digit_value (digit_char d) = Some d ∧ (digit_char d =? "_")%char = false.
Proof.
  intros Hd.
  assert (Forall (λ d, digit_value (digit_char d) = Some d ∧ (digit_char d =? "_")%char = false)
    (seqZ 0 16)) as H by (apply (bool_decide_unpack _); by vm_compute).
  rewrite Forall_lookup in H. apply (H (Z.to_nat d)).
  rewrite lookup_seqZ_lt by lia. f_equal. lia.
Qed.

Lemma read_show_digits base fuel n s :
  2 ≤ base ≤ 16 → 0 ≤ n < base ^ Z.of_nat fuel →
  ∃ k, 0 ≤ k ∧ ∀ us acc,
    read_digits base us acc (show_digits fuel base n s) =
      if decide (fuel = O) then read_digits base us acc s
      else read_digits base false (acc * base ^ k + n) s.
Proof.
  intros Hb. revert n s. induction fuel as [|fuel IH]; intros n s Hn; [by exists 0|].
  cbn [show_digits]. pose proof (Z.mod_pos_bound n base ltac:(lia)).
  pose proof (Z.div_mod n base ltac:(lia)).
  destruct (digit_value_char (n mod base)) as [Hv Hus]; [lia|].
  destruct (Z.eqb_spec (n / base) 0) as [Hz|Hz].
  - exists 1. split; [lia|]. intros us acc. cbn [read_digits]. rewrite Hus, Hv. rw_bool.
    simpl. f_equal. lia.
  - destruct (IH (n / base) (String (digit_char (n mod base)) s)) as (k & Hk & Hread).
    { split; [apply Z.div_pos; lia|]. apply Z.div_lt_upper_bound; [lia|].
      rewrite <-Z.pow_succ_r, <-Nat2Z.inj_succ by lia. lia. }
    exists (k + 1). split; [lia|]. intros us acc. rewrite Hread. case_decide as Hf.
    { subst fuel. change (base ^ Z.of_nat 1) with (base * 1) in Hn.
      destruct Hz. apply Z.div_small. lia. }
    cbn [read_digits]. rewrite Hus, Hv. rw_bool. rewrite decide_False by lia.
    f_equal. rewrite Z.pow_add_r, Z.pow_1_r by lia. lia.
Qed.

(** Reading the digits of a number gives it back. *)
Lemma read_show_base base n us :
  2 ≤ base ≤ 16 → 0 ≤ n → read_digits base us 0 (show_base base n) = Some n.
Proof.
  intros Hb Hn. unfold show_base.
  destruct (read_show_digits base (S (Z.to_nat (Z.log2 n))) n EmptyString) as (k & _ & ->); [done| |].
  - split; [done|]. destruct (Z.eq_dec n 0) as [->|]; [apply Z.pow_pos_nonneg; lia|].
    pose proof (Z.log2_nonneg n). rewrite Nat2Z.inj_succ, Z2Nat.id by done.
    apply Z.lt_le_trans with (2 ^ Z.succ (Z.log2 n)); [apply Z.log2_spec; lia|].
    apply Z.pow_le_mono_l. lia.
  - done.
Qed.

(** The first character of a printed number is a digit, and it is a zero only
    when the number is. *)
Lemma show_digits_first fuel base n s :
  2 ≤ base ≤ 16 → 0 ≤ n → (0 < fuel)%nat →
  ∃ d s', show_digits fuel base n s = String (digit_char d) s' ∧ 0 ≤ d < base ∧
          (n < base ^ Z.of_nat fuel → d = 0 → n = 0 ∧ s' = s).
Proof.
  intros Hb. revert n s. induction fuel as [|fuel IH]; intros n s Hn Hf; [lia|].
  cbn [show_digits]. pose proof (Z.mod_pos_bound n base ltac:(lia)).
  pose proof (Z.div_mod n base ltac:(lia)).
  destruct (Z.eqb_spec (n / base) 0) as [Hz|Hz].
  { eexists _, _. split; [done|]. split; [done|]. intros. split; [lia|done]. }
  assert (0 ≤ n / base) by (apply Z.div_pos; lia).
  destruct fuel as [|fuel].
  { simpl. eexists _, _. split; [done|]. split; [done|]. intros Hlt.
    change (base ^ Z.of_nat 1) with (base * 1) in Hlt. destruct Hz. apply Z.div_small. lia. }
  destruct (IH (n / base) (String (digit_char (n mod base)) s)) as (d & s' & -> & Hd & Hz'); [lia..|].
  eexists _, _. split; [done|]. split; [done|]. intros Hlt ->.
  destruct Hz' as [Hz' _]; [|done|lia]. apply Z.div_lt_upper_bound; [lia|].
  rewrite <-Z.pow_succ_r, <-Nat2Z.inj_succ by lia. lia.
Qed.

Lemma show_base_first base n :
  2 ≤ base ≤ 16 → 0 ≤ n →
  ∃ d s, show_base base n = String (digit_char d) s ∧ 0 ≤ d < base ∧
         (d = 0 → n = 0 ∧ s = EmptyString).
Proof.
  intros Hb Hn. destruct (show_digits_first (S (Z.to_nat (Z.log2 n))) base n EmptyString)
    as (d & s & He & Hd & H0); [done..|lia|].
  exists d, s. split; [done|]. split; [done|]. apply H0.
  destruct (Z.eq_dec n 0) as [->|]; [apply Z.pow_pos_nonneg; lia|].
  pose proof (Z.log2_nonneg n). rewrite Nat2Z.inj_succ, Z2Nat.id by done.
  apply Z.lt_le_trans with (2 ^ Z.succ (Z.log2 n)); [apply Z.log2_spec; lia|].
  apply Z.pow_le_mono_l. lia.
Qed.

(** ** Strings as bytes *)

Lemma b_cons c s : b (String c s) = code c :: b s.
Proof. done. Qed.

Lemma b_app s t : b (s +:+ t)%string = b s ++ b t.
Proof. induction s as [|c s IH]; [done|]. change (String c s +:+ t)%string with (String c (s +:+ t)). by rewrite !b_cons, IH. Qed.

Lemma length_b s : length (b s) = String.length s.
Proof. induction s as [|c s IH]; [done|]. rewrite b_cons. simpl. by rewrite IH. Qed.

Lemma b_of_list l : b (String.string_of_list_ascii l) = code <$> l.
Proof. induction l as [|c l IH]; [done|]. cbn [String.string_of_list_ascii fmap list_fmap]. by rewrite b_cons, IH. Qed.

Lemma code_byte c : is_byte (code c) = true.
Proof. by destruct c as [[] [] [] [] [] [] [] []]. Qed.

Lemma b_Bytes s : Bytes (b s).
Proof. induction s as [|c s IH]; [constructor|]. rewrite b_cons. constructor; [apply code_byte|done]. Qed.

Lemma b_take n s : b (str_take n s) = take n (b s).
Proof.
  revert s. induction n as [|n IH]; intros [|c s]; [done..|].
  unfold str_take in *. cbn [String.substring]. rewrite !b_cons, IH. done.
Qed.

Lemma b_ljust s n c : b (str_ljust s n c) = ljust (b s) (Z.of_nat n) (code c).
Proof.
  unfold str_ljust, ljust. rewrite b_app, b_of_list, fmap_replicate, length_b.
  do 2 f_equal. lia.
Qed.

Lemma length_ljust {A} (l : list A) n x : 0 ≤ n → len (ljust l n x) = Z.max n (len l).
Proof. unfold ljust. list_lia. Qed.

Lemma b_inj s t : b s = b t → s = t.
Proof.
  revert t. induction s as [|c s IH]; intros [|d t]; rewrite ?b_cons; [done..|].
  intros [= Hc Hs]. f_equal; [|by apply IH].
  rewrite <-(ascii_N_embedding c), <-(ascii_N_embedding d). f_equal. unfold code in Hc. lia.
Qed.
