(* ===== verification/Layout.v ===== *)
(** * The memory and disk layout: [tools/common/qizolayout.py]

    [parse] reads [boot/qizoboot.inc] line by line: the pattern of a [.set] line,
    [int(expr, 0)], and [eval] over the symbols read so far.  [INC_TEXT] is the
    text of that file; the module level constants of the tool are its values,
    and [layout_constants] shows that each one is what [parse] gives. *)

From S2P Require Export PyText.

#[local] Arguments String.append : simpl nomatch.

Module LY.

(** ** The parser *)

(** The group [(.+?)] of the pattern and the [\s*$] after it, on the text after
    the comma.  When only blanks follow the comma the group is the last one. *)
Definition value_group (s : string) : option string :=
  match lstrip s with
  | EmptyString =>
      match rev (filter (λ c, c ≠ NL) (String.list_ascii_of_string s)) with
      | [] => None
      | c :: _ => Some (String c EmptyString)
      end
  | body => Some (rstrip body)
  end.

(** [_pat.match(line)] with
    [_pat = re.compile(r"^\s*\.set\s+(\w+)\s*,\s*(.+?)\s*$")] *)
Definition match_set (line : string) : option (string * string) :=
  s ← after ".set" (lstrip line);
  match s with
  | String c _ =>
      if is_space c then
        let '(name, s) := str_span is_word (lstrip s) in
        match name, lstrip s with
        | String _ _, String "," s => (λ v, (name, v)) <$> value_group s
        | _, _ => None
        end
      else None
  | EmptyString => None
  end.

(** The body of the loop of [parse]. *)
Definition parse_line (line : string) (vals : gmap string Z) : res (ctl (gmap string Z)) :=
  match match_set line with
  | None => Ok (Next vals)
  | Some (name, expr) =>
      let expr := strip expr in
      match int0 expr with
      | Some v => Ok (Next (<[name := v]> vals))
      | None =>
          match eval vals expr with
          | Some v => Ok (Next (<[name := v]> vals))
          | None =>
              Raise (SystemExit ("qizo: cannot evaluate layout symbol " +:+ name))
          end
      end
  end.

(** [parse(path)], given the text of the file *)
Definition parse (text : string) : res (gmap string Z) :=
  for_each parse_line (file_lines text) ∅.

(** ** The layout *)

(** [boot/qizoboot.inc] *)
Definition INC_TEXT : string := ".set QIZO_PART_LBA, 16
.set QIZO_STAGE2_SECTORS, 8
.set QIZO_STAGE2_BYTES, 0x1000
.set QIZO_BLOB_LBA, 24
.set QIZO_BLOB_MAX, 248 * 512
.set QIZO_BIOS_ARG, 0x7DD0
.set QIZO_ARG_ADDR, 0x7DD0
.set QIZO_DAP_ADDR, 0x7E00
.set QIZO_ARG_DRIVE, 0
.set QIZO_ARG_LBA, 4
.set QIZO_ARG_TOTAL, 8
.set QIZO_ARG_CRC, 12
.set QIZO_ARG_ERR, 16
.set QIZO_ARG_BOOTDRIVE, 1
.set QIZO_ARG_TRY, 2
.set QIZO_ARG_SIZE, 20

.set QIZO_STAGE2, 0x20000
.set QIZO_STAGE2_SEG, 0x2000
.set QIZO_BLOB_PHYS, 0x21000
.set QIZO_E820_SEG, 0x4100
.set QIZO_E820_BUF, 0x41000
.set QIZO_E820_CNT, 0x41300
.set QIZO_E820_OFS, 0
.set QIZO_E820_CNT_OFS, 0x300
.set QIZO_PM_STACK, 0x44000
.set QIZO_BOOTINFO, 0x10000
.set QIZO_BOOTINFO_SEG, 0x1000
.set QIZO_SCRATCH, 0x180000
.set QIZO_KTEXT, 0x100000
.set QIZO_PAGE_PML4, 0x300000
.set QIZO_PAGE_PDPT, 0x301000
.set QIZO_PAGE_PDT, 0x302000
.set QIZO_IDT_BOOT, 0x307000
.set QIZO_PT_PAGE, 0x83
.set QIZO_PT_DIR, 0x03

.set QIZO_BI_MAGIC, 0
.set QIZO_BI_DRIVE, 4
.set QIZO_BI_MODE, 5
.set QIZO_BI_ERR, 6
.set QIZO_BI_BLOB_LBA, 8
.set QIZO_BI_BLOB_SECTORS, 12
.set QIZO_BI_BLOB_CRC, 16
.set QIZO_BI_BLOB_PHYS, 20
.set QIZO_BI_BLOB_SIZE, 24
.set QIZO_BI_SCRATCH, 28
.set QIZO_BI_KTEXT, 0x30
.set QIZO_BI_KERNEL_SIZE, 0x34
.set QIZO_BI_KERNEL_ENTRY, 0x38
.set QIZO_BI_KERNEL_TOTAL, 0x3C
.set QIZO_BI_KERNEL_BSS, 0x40
.set QIZO_BI_FLAGS, 0x44
.set QIZO_BI_CPUS, 0x50
.set QIZO_BI_CPUID_MAX, 0x54
.set QIZO_BI_LONGMODE, 0x58
.set QIZO_BI_A20, 0x59
.set QIZO_BI_E820, 0x100
.set QIZO_BI_E820_N, 0x400
.set QIZO_BI_VENDOR, 0x600
.set QIZO_BI_BRAND, 0x610
.set QIZO_BI_TOTAL_RAM, 0x670
.set QIZO_BI_SIZE, 0x700

.set QIZO_LZSS_MAGIC, 0x51495A4C
.set QIZO_QIZOK_MAGIC, 0x4B4F5A49
.set QIZO_QIZOK_HDR, 64
.set QIZO_E820_ENT, 24
.set QIZO_E820_MAX, 32
.set QIZO_KERNEL_MAX, 0x80000

.set QIZO_BLOB_SECTORS_MAX, 248

.set QIZO_COM1, 0x3F8
.set QIZO_BOOT_TRACE, 1
.set QIZO_BOOTVER, 0x0100
".

Definition LAYOUT : res (gmap string Z) := parse INC_TEXT.

(** [LAYOUT[name]] *)
Definition g (name : string) : res Z :=
  vals ← LAYOUT;
  or_raise (KeyError name) (vals !! name).

(** The value of a symbol that is known to be defined. *)
Definition value_of (name : string) : Z := match g name with Ok v => v | _ => 0 end.

Definition SECTOR : Z := 512.
Definition STAGE1_ARGS_OFF : Z := Eval vm_compute in value_of "QIZO_BIOS_ARG" - 0x7C00.
Definition QIZOK_MAGIC : Z := Eval vm_compute in value_of "QIZO_QIZOK_MAGIC".
Definition LZSS_MAGIC : Z := Eval vm_compute in value_of "QIZO_LZSS_MAGIC".
Definition PART_LBA : Z := Eval vm_compute in value_of "QIZO_PART_LBA".
Definition BLOB_LBA : Z := Eval vm_compute in value_of "QIZO_BLOB_LBA".
Definition BLOB_MAX : Z := Eval vm_compute in value_of "QIZO_BLOB_MAX".
Definition BLOB_PHYS : Z := Eval vm_compute in value_of "QIZO_BLOB_PHYS".
Definition STAGE2 : Z := Eval vm_compute in value_of "QIZO_STAGE2".
Definition STAGE2_BYTES : Z := Eval vm_compute in value_of "QIZO_STAGE2_BYTES".
Definition STAGE2_SECTORS : Z := Eval vm_compute in value_of "QIZO_STAGE2_SECTORS".
Definition KTEXT : Z := Eval vm_compute in value_of "QIZO_KTEXT".
Definition SCRATCH : Z := Eval vm_compute in value_of "QIZO_SCRATCH".
Definition E820_BUF : Z := Eval vm_compute in value_of "QIZO_E820_BUF".
Definition PM_STACK : Z := Eval vm_compute in value_of "QIZO_PM_STACK".
Definition PAGE_PML4 : Z := Eval vm_compute in value_of "QIZO_PAGE_PML4".
Definition PAGE_PDPT : Z := Eval vm_compute in value_of "QIZO_PAGE_PDPT".
Definition PAGE_PDT : Z := Eval vm_compute in value_of "QIZO_PAGE_PDT".
Definition IDT_BOOT : Z := Eval vm_compute in value_of "QIZO_IDT_BOOT".
Definition PT_PAGE : Z := Eval vm_compute in value_of "QIZO_PT_PAGE".
Definition PT_DIR : Z := Eval vm_compute in value_of "QIZO_PT_DIR".
Definition BOOTINFO : Z := Eval vm_compute in value_of "QIZO_BOOTINFO".
Definition BOOTINFO_SIZE : Z := Eval vm_compute in value_of "QIZO_BI_SIZE".
Definition KERNEL_MAX : Z := Eval vm_compute in value_of "QIZO_KERNEL_MAX".
Definition E820_MAX : Z := Eval vm_compute in value_of "QIZO_E820_MAX".
Definition E820_ENT : Z := Eval vm_compute in value_of "QIZO_E820_ENT".
Definition QIZOK_HDR : Z := Eval vm_compute in value_of "QIZO_QIZOK_HDR".
Definition CHUNK : Z := 64.

(** [BI = {k: LAYOUT[k] for k in LAYOUT if k.startswith("QIZO_BI_")}] *)
Definition BI : res (gmap string Z) :=
  vals ← LAYOUT;
  Ok (filter (λ kv, is_Some (after "QIZO_BI_" kv.1)) vals).

Example layout_size : (size <$> (match LAYOUT with Ok m => Some m | _ => None end)) = Some 71%nat.
Proof. by vm_compute. Qed.

(** ** Lemmas *)

(** The constants and the symbols they are read from. *)
Definition constants : list (string * Z) :=
  [("QIZO_BIOS_ARG", STAGE1_ARGS_OFF + 0x7C00); ("QIZO_QIZOK_MAGIC", QIZOK_MAGIC); ("QIZO_LZSS_MAGIC", LZSS_MAGIC); ("QIZO_PART_LBA", PART_LBA); ("QIZO_BLOB_LBA", BLOB_LBA); ("QIZO_BLOB_MAX", BLOB_MAX); ("QIZO_BLOB_PHYS", BLOB_PHYS); ("QIZO_STAGE2", STAGE2); ("QIZO_STAGE2_BYTES", STAGE2_BYTES); ("QIZO_STAGE2_SECTORS", STAGE2_SECTORS); ("QIZO_KTEXT", KTEXT); ("QIZO_SCRATCH", SCRATCH); ("QIZO_E820_BUF", E820_BUF); ("QIZO_PM_STACK", PM_STACK); ("QIZO_PAGE_PML4", PAGE_PML4); ("QIZO_PAGE_PDPT", PAGE_PDPT); ("QIZO_PAGE_PDT", PAGE_PDT); ("QIZO_IDT_BOOT", IDT_BOOT); ("QIZO_PT_PAGE", PT_PAGE); ("QIZO_PT_DIR", PT_DIR); ("QIZO_BOOTINFO", BOOTINFO); ("QIZO_BI_SIZE", BOOTINFO_SIZE); ("QIZO_KERNEL_MAX", KERNEL_MAX); ("QIZO_E820_MAX", E820_MAX); ("QIZO_E820_ENT", E820_ENT); ("QIZO_QIZOK_HDR", QIZOK_HDR)]%string.

(** Printed [.set] lines. *)
Definition set_line (kv : string * Z) : string :=
  (".set " +:+ kv.1 +:+ ", 0x" +:+ show_base 16 kv.2)%string.

Definition render (kvs : list (string * Z)) : string :=
  String.concat EmptyString ((λ kv, set_line kv +:+ String NL EmptyString)%string <$> kvs).

(** A name the pattern accepts: not empty, word characters only. *)
Definition valid_name (s : string) : bool :=
  all_chars is_word s && negb (bool_decide (s = EmptyString)).

Lemma str_span_app p s t :
  all_chars p s = true →
  (∀ c t', t = String c t' → p c = false) → str_span p (s +:+ t) = (s, t).
Proof.
  intros Hs Ht. induction s as [|c s IH]; cbn [String.append all_chars] in *.
  - destruct t as [|c t]; [done|]. simpl. by rewrite (Ht c t).
  - apply andb_true_iff in Hs as [Hc Hs]. cbn [str_span]. by rewrite Hc, IH.
Qed.

Lemma word_not_space c : is_word c = true → is_space c = false ∧ (c =? NL)%char = false.
Proof.
  destruct c as [[] [] [] [] [] [] [] []]; vm_compute; done.
Qed.

(** Strings without blanks are not changed by stripping. *)
Definition no_space (s : string) : bool := all_chars (λ c, negb (is_space c)) s.

Lemma rstrip_no_space s : no_space s = true → rstrip s = s.
Proof.
  unfold no_space. induction s as [|c s IH]; [done|]. cbn [all_chars rstrip].
  intros [Hc Hs]%andb_true_iff. rewrite IH by done. apply negb_true_iff in Hc. rewrite Hc.
  by destruct s.
Qed.

Lemma lstrip_no_space s : no_space s = true → lstrip s = s.
Proof.
  unfold no_space. destruct s as [|c s]; [done|]. cbn [all_chars lstrip].
  intros [Hc _]%andb_true_iff. apply negb_true_iff in Hc. by rewrite Hc.
Qed.

Lemma digit_char_word d : 0 ≤ d < 16 → is_word (digit_char d) = true.
Proof.
  intros Hd.
  assert (Forall (λ d, is_word (digit_char d) = true) (seqZ 0 16)) as H
    by (apply (bool_decide_unpack _); by vm_compute).
  rewrite Forall_lookup in H. apply (H (Z.to_nat d)). rewrite lookup_seqZ_lt by lia. f_equal. lia.
Qed.

Lemma show_digits_word fuel base n s :
  2 ≤ base ≤ 16 → all_chars is_word s = true → all_chars is_word (show_digits fuel base n s) = true.
Proof.
  intros Hb. revert n s. induction fuel as [|fuel IH]; intros n s Hs; [done|]. cbn [show_digits].
  assert (all_chars is_word (String (digit_char (n mod base)) s) = true).
  { cbn [all_chars]. rewrite Hs, digit_char_word; [done|].
    pose proof (Z.mod_pos_bound n base). lia. }
  case_bool; [done|by apply IH].
Qed.

Lemma all_chars_impl (p q : ascii → bool) s :
  (∀ c, p c = true → q c = true) → all_chars p s = true → all_chars q s = true.
Proof.
  intros Hpq. induction s as [|c s IH]; [done|]. cbn [all_chars].
  intros [? ?]%andb_true_iff. rewrite Hpq, IH by done. done.
Qed.

Lemma word_no_space s : all_chars is_word s = true → no_space s = true.
Proof. apply all_chars_impl. intros c [-> _]%word_not_space. done. Qed.

(** The lines of a concatenation of terminated lines. *)
Lemma split_on_line s t :
  all_chars (λ c, negb (c =? NL)%char) s = true →
  split_on NL (s +:+ String NL t) = s :: split_on NL t.
Proof.
  induction s as [|c s IH]; cbn [String.append all_chars split_on].
  - intros _. by rewrite Ascii.eqb_refl.
  - intros [Hc Hs]%andb_true_iff. apply negb_true_iff in Hc. by rewrite Hc, IH.
Qed.

Lemma append_assoc (s t u : string) : ((s +:+ t) +:+ u = s +:+ (t +:+ u))%string.
Proof. induction s as [|c s IH]; cbn [String.append]; [done|]. by rewrite IH. Qed.

Lemma concat_cons s l : String.concat EmptyString (s :: l) = (s +:+ String.concat EmptyString l)%string.
Proof.
  destruct l; [|done]. cbn [String.concat]. symmetry.
  induction s as [|c s IH]; cbn [String.append]; [done|]. by rewrite IH.
Qed.

Lemma file_lines_terminated ls :
  Forall (λ s, all_chars (λ c, negb (c =? NL)%char) s = true) ls →
  file_lines (String.concat EmptyString ((λ s, s +:+ String NL EmptyString)%string <$> ls)) = ls.
Proof.
  intros H.
  assert (split_on NL (String.concat EmptyString ((λ s, s +:+ String NL EmptyString)%string <$> ls))
    = ls ++ [EmptyString]) as Hs.
  { induction H as [|s ls Hs Hls IH]; [done|]. cbn [fmap list_fmap]. rewrite concat_cons, append_assoc.
    cbn [String.append]. rewrite split_on_line by done. cbn [app]. by f_equal. }
  unfold file_lines. rewrite Hs, rev_app_distr. cbn [rev app]. apply rev_involutive.
Qed.

Lemma value_group_no_space c s :
  no_space (String c s) = true → value_group (String " " (String c s)) = Some (String c s).
Proof.
  intros Hs. unfold value_group.
  assert (lstrip (String " " (String c s)) = String c s) as ->.
  { change (lstrip (String " " (String c s))) with (lstrip (String c s)). by apply lstrip_no_space. }
  by rewrite rstrip_no_space.
Qed.

Lemma hex_no_space v : no_space ("0x" +:+ show_base 16 v)%string = true.
Proof. apply word_no_space. cbn [String.append all_chars]. by apply show_digits_word. Qed.

(** Reading a printed literal. *)
Lemma int0_hex v : 0 ≤ v → int0 ("0x" +:+ show_base 16 v)%string = Some v.
Proof.
  intros Hv. pose proof (hex_no_space v) as Hs. unfold int0, strip.
  rewrite lstrip_no_space, rstrip_no_space by (try rewrite lstrip_no_space; done).
  cbn [String.append read_literal]. destruct (show_base_first 16 v) as (d & s & Hsb & Hd & _); [lia..|].
  pose proof (read_show_base 16 v true ltac:(lia) Hv) as Hr.
  unfold read_prefixed. destruct (digit_value_char d Hd) as [_ Hus%Ascii.eqb_neq].
  rewrite Hsb in *. revert Hr Hus. generalize (digit_char d). intros c Hr Hus.
  destruct c as [[] [] [] [] [] [] [] []]; done.
Qed.

Lemma match_set_line name v :
  valid_name name = true → 0 ≤ v →
  match_set (set_line (name, v)) = Some (name, ("0x" +:+ show_base 16 v)%string).
Proof.
  intros [Hw Hne]%andb_true_iff Hv. unfold set_line. cbn [fst snd].
  destruct name as [|c name]; [done|].
  pose proof Hw as [Hc _]%andb_true_iff. destruct (word_not_space c Hc) as [Hsp _].
  set (rest := (", 0x" +:+ show_base 16 v)%string). unfold match_set.
  assert (after ".set" (lstrip (".set " +:+ String c name +:+ rest))
    = Some (" " +:+ String c name +:+ rest)%string) as -> by done.
  cbn [mbind option_bind String.append]. change (is_space " ") with true. cbn match.
  cbn [lstrip]. change (is_space " ") with true. cbn match. rewrite Hsp.
  change (String c (name +:+ rest)) with (String c name +:+ rest)%string.
  rewrite str_span_app by (done || by intros ? ? [= <- _]).
  change (lstrip rest) with rest. unfold rest. cbn [String.append].
  rewrite value_group_no_space; [done|apply hex_no_space].
Qed.

Lemma parse_set_line name v vals :
  valid_name name = true → 0 ≤ v →
  parse_line (set_line (name, v)) vals = Ok (Next (<[name := v]> vals)).
Proof.
  intros Hn Hv. unfold parse_line. rewrite match_set_line by done.
  pose proof (hex_no_space v) as Hs.
  assert (strip ("0x" +:+ show_base 16 v)%string = ("0x" +:+ show_base 16 v)%string) as ->.
  { unfold strip. by rewrite lstrip_no_space, rstrip_no_space by (try rewrite lstrip_no_space; done). }
  by rewrite int0_hex.
Qed.

Lemma set_line_no_newline name v :
  valid_name name = true → all_chars (λ c, negb (c =? NL)%char) (set_line (name, v)) = true.
Proof.
  intros [Hw _]%andb_true_iff. unfold set_line. cbn [fst snd String.append all_chars].
  repeat (apply andb_true_iff; split; [done|]).
  induction name as [|c name IH].
  - cbn [String.append all_chars]. repeat (apply andb_true_iff; split; [done|]).
    eapply all_chars_impl; [|by apply (show_digits_word _ 16 v EmptyString)].
    intros c Hc. by apply word_not_space in Hc as [_ ->].
  - cbn [all_chars] in Hw. apply andb_true_iff in Hw as [Hc Hw]. cbn [String.append all_chars].
    apply word_not_space in Hc as [_ ->]. by apply IH.
Qed.

(** ** Theorems *)

(** The layout file parses, and every module level constant of the tools
    is the value of its symbol. *)
Theorem layout_constants :
  is_Some (match LAYOUT with Ok m => Some m | _ => None end) ∧
  Forall (λ kv, g kv.1 = Ok kv.2) constants.
Proof. split; [by eexists|]. apply (bool_decide_unpack _). by vm_compute. Qed.

(** Round trip: printing any list of symbols as [.set] lines and parsing
    the text gives the map in which the last definition of a name wins. *)
Theorem parse_render kvs :
  Forall (λ kv, valid_name kv.1 = true ∧ 0 ≤ kv.2) kvs →
  parse (render kvs) = Ok (fold_left (λ m kv, <[kv.1 := kv.2]> m) kvs ∅).
Proof.
  intros H. unfold parse, render.
  assert ((λ kv, set_line kv +:+ String NL EmptyString)%string <$> kvs
    = (λ s, s +:+ String NL EmptyString)%string <$> (set_line <$> kvs)) as ->
    by by rewrite <-list_fmap_compose.
  rewrite file_lines_terminated.
  - generalize (∅ : gmap string Z). induction H as [|[k v] kvs [Hk Hv] Hkvs IH]; intros m; [done|].
    cbn [fmap list_fmap]. cbn [fst snd] in *. rewrite for_each_cons, parse_set_line by done. ok_bind. apply IH.
  - apply Forall_fmap. eapply Forall_impl; [|done]. intros [k v] [? ?]. by apply set_line_no_newline.
Qed.

Lemma parse_render_witness :
  parse (render [("A", 16); ("B_2", 0x7C00); ("A", 3)]%string) =
    Ok (<["A" := 3]> (<["B_2" := 0x7C00]> (<["A" := 16]> ∅)))%string.
Proof.
  apply (parse_render [("A", 16); ("B_2", 0x7C00); ("A", 3)]%string). by repeat constructor.
Defined.

(** Parsing always ends, and the only failure is the exit naming a symbol
    whose expression cannot be evaluated. *)
Theorem parse_total text :
  runs (parse text) (λ _, True)
    (λ e, ∃ line name expr, line ∈ file_lines text ∧ match_set line = Some (name, expr) ∧
       int0 (strip expr) = None ∧
       e = SystemExit ("qizo: cannot evaluate layout symbol " +:+ name)).
Proof.
  unfold parse. eapply (runs_for_each (λ _ _, True)); [|done..].
  intros done_ line rest vals Hl _. unfold parse_line.
  destruct (match_set line) as [[name expr]|] eqn:Hm; [|done].
  destruct (int0 (strip expr)) eqn:Hi; [done|]. destruct (eval vals (strip expr)); [done|]. simpl.
  exists line, name, expr. split_and!; [|done..]. rewrite Hl. set_solver.
Qed.

End LY.
