(* ===== verification/PyFloat.v ===== *)
(** * Floating point numbers

    The tools print sizes and ratios with "%.1f".  A [float] is an IEEE 754
    binary64 number, as [SpecFloat] defines it; the format rounds the exact value
    of the number to one decimal, ties to even. *)

From S2P Require Export PyText.
From Stdlib Require Export SpecFloat.

Definition prec : Z := 53.
Definition emax : Z := 1024.

(** [float(n)] *)
Definition float_of_int (n : Z) : spec_float := binary_normalize prec emax n 0 false.

(** [x * y] and [x / y] *)
Definition fmul (x y : spec_float) : spec_float := SFmul prec emax x y.
Definition fdiv (x y : spec_float) : spec_float := SFdiv prec emax x y.

(** [x >= y] *)
Definition fge (x y : spec_float) : bool := SFleb y x.

(** Nearest integer to [n / d], ties to even. *)
Definition round_half_even (n d : Z) : Z :=
  let q := n / d in
  let r := n mod d in
  if 2 * r <? d then q
  else if d <? 2 * r then q + 1
  else if Z.even q then q else q + 1.

Definition fmt_tenths (neg : bool) (t : Z) : string :=
  ((if neg then "-" else "") +:+ fmt_d (t / 10) +:+ "." +:+ fmt_d (t mod 10))%string.

(** ["%.1f" % x] *)
Definition fmt_1f (x : spec_float) : string :=
  match x with
  | S754_zero s => fmt_tenths s 0
  | S754_infinity s => if s then "-inf"%string else "inf"%string
  | S754_nan => "nan"%string
  | S754_finite s m e =>
      fmt_tenths s
        (if 0 <=? e then 10 * Z.pos m * 2 ^ e else round_half_even (10 * Z.pos m) (2 ^ (- e)))
  end.

Example fmt_1f_ex :
  fmt_1f (fdiv (fmul (float_of_int 100) (float_of_int 17408)) (float_of_int 33856)) = "51.4"%string ∧
  fmt_1f (fdiv (float_of_int 1) (float_of_int 4)) = "0.2"%string ∧
  fmt_1f (fdiv (float_of_int 3) (float_of_int 4)) = "0.8"%string ∧
  fmt_1f (float_of_int 2048) = "2048.0"%string.
Proof. by vm_compute. Qed.

Lemma round_half_even_near n d :
  0 < d → 2 * Z.abs (n - d * round_half_even n d) ≤ d.
Proof.
  intros Hd. unfold round_half_even.
  pose proof (Z.div_mod n d ltac:(lia)). pose proof (Z.mod_pos_bound n d Hd).
  case_bool; [lia|lia|]. destruct (Z.even (n / d)); lia.
Qed.
