(* ===== verification/Artifacts.v ===== *)
(** * Shared helpers and size budgets: [tools/qizoartifacts/qizoartifacts.py] and
    [tools/ci/qizosize.py]

    The symbol table read from the output of [nm], the human readable sizes, how
    a failed command ends, and the budget report.  What commands print and the
    sizes of files are inputs. *)

From S2P Require Export PyFloat Layout.

Module ART.

(** [line.split()]: the maximal runs of characters that are not blanks *)
Fixpoint words (fuel : nat) (s : string) : list string :=
  match fuel with
  | O => []
  | S fuel =>
      match lstrip s with
      | EmptyString => []
      | s =>
          let '(w, rest) := str_span (λ c, negb (is_space c)) s in
          w :: words fuel rest
      end
  end.
Definition split_words (s : string) : list string := words (S (String.length s)) s.

(** One line of [nm]: a symbol and its address; lines with fewer than three
    words or without a hexadecimal address are skipped. *)
Definition nm_line (table : gmap string Z) (line : string) : gmap string Z :=
  let parts := split_words line in
  if (length parts <? 3)%nat then table
  else
    match int16 (hd EmptyString parts) with
    | None => table
    | Some value => <[List.last parts EmptyString := value]> table
    end.

(** [nm(elfpath)], given what the command printed; the empty lines of
    [splitlines] have no words and are skipped. *)
Definition nm (text : string) : gmap string Z :=
  fold_left nm_line (nonempty_lines text) ∅.

Definition units : list string := ["B"; "KiB"; "MiB"; "GiB"]%string.

(** The loop of [human]: divide by 1024 while a larger unit is left. *)
Fixpoint human_scale (fuel : nat) (v : spec_float) (i : Z) : spec_float * Z :=
  match fuel with
  | O => (v, i)
  | S fuel =>
      if fge v (float_of_int 1024) && (i <? len units - 1)
      then human_scale fuel (fdiv v (float_of_int 1024)) (i + 1)
      else (v, i)
  end.

(** [human(n)] *)
Definition human (n : Z) : string :=
  let '(v, i) := human_scale (length units) (float_of_int n) 0 in
  if i =? 0 then (fmt_d n +:+ " B")%string
  else (fmt_1f v +:+ " " +:+ default EmptyString (units !! Z.to_nat i))%string.

(** [percent(a, b)] *)
Definition percent (a b : Z) : string :=
  if b =? 0 then "0%"%string
  else (fmt_1f (fdiv (fmul (float_of_int 100) (float_of_int a)) (float_of_int b)) +:+ "%")%string.

(** How a command ended: its exit code and what it printed. *)
Record completed := Completed { returncode : Z; stdout : string }.

(** [run(cmd, capture)]: what is written to the error output, and the captured
    text; a command that fails ends the program with status 2. *)
Definition run (cmd : list string) (capture : bool) (r : completed) : list string * res (option string) :=
  let out := if capture then Some (stdout r) else None in
  if negb (returncode r =? 0) then
    let text := default EmptyString out in
    (("qizo: command failed: " +:+ join " " cmd +:+ String NL EmptyString)%string ::
       (if bool_decide (text = EmptyString) then [] else [text]),
     Raise (SystemExit "2"))
  else ([], Ok out).

End ART.

(** ** [qizosize.py] *)

Module Size.

(** [human(n)] of the size report: a loop over the units that divides by 1024
    on the way. *)
Fixpoint human_loop (us : list string) (n : spec_float) (exact : Z) : string :=
  match us with
  | [] => EmptyString
  | unit :: us =>
      if negb (fge n (float_of_int 1024)) || bool_decide (unit = "GiB")%string then
        if bool_decide (unit = "B")%string then (fmt_d exact +:+ " B")%string
        else (fmt_1f n +:+ " " +:+ unit)%string
      else human_loop us (fdiv n (float_of_int 1024)) exact
  end.
Definition human (n : Z) : string := human_loop ART.units (float_of_int n) n.

(** [size(path)], given the size of the file if it exists *)
Definition size (o : option Z) : Z := match o with Some n => n | None => -1 end.

Record sizes := Sizes {
  img : option Z; img_xz : option Z; iso : option Z; iso_xz : option Z;
  kernel_bin : option Z; stage1_bin : option Z; stage2_bin : option Z;
}.

(** The rows [(name, got, limit)]. *)
Definition checks (s : sizes) : list (string * Z * Z) := [
  ("qizo.img", size (img s), Z.shiftl 4 20);
  ("qizo.img.xz", size (img_xz s), Z.shiftl 64 10);
  ("qizo.iso", size (iso s), Z.shiftl 4 20);
  ("qizo.iso.xz", size (iso_xz s), Z.shiftl 64 10);
  ("kernel flat image", size (kernel_bin s), LY.KERNEL_MAX);
  ("stage1", size (stage1_bin s), 512);
  ("stage2", size (stage2_bin s), LY.STAGE2_BYTES)
]%string.

(** One row of the report: the complaint, if there is one, and the line printed. *)
Definition check_row (r : string * Z * Z) (bad out : list string) : list string * list string :=
  let '(name, got, limit) := r in
  let col s n := str_ljust s n " "%char in
  if got <? 0 then
    (bad ++ [name +:+ " missing"]%string,
     out ++ [col name 18%nat +:+ " missing   budget " +:+ human limit]%string)
  else
    let state := if got <=? limit then "ok"%string else "OVER"%string in
    let bad := if limit <? got
               then bad ++ [name +:+ " is " +:+ human got +:+ ", budget " +:+ human limit]%string else bad in
    (bad, out ++ [col name 18%nat +:+ " " +:+ col (human got) 9%nat +:+ " budget " +:+
                  col (human limit) 9%nat +:+ " " +:+ state]%string).

(** A file that is missing or larger than its budget. *)
Definition over_budget (r : string * Z * Z) : bool := negb ((0 <=? r.1.2) && (r.1.2 <=? r.2)).

Definition check_rows (rows : list (string * Z * Z)) : list string * list string :=
  fold_left (λ s r, check_row r s.1 s.2) rows ([], []).

(** [main()]: the lines it prints and its exit status, given the sizes of the
    files and, when the kernel's ELF file exists, what [size -A] prints for it. *)
Definition main (s : sizes) (elf : option string) : list string * Z :=
  let '(bad, out) := check_rows (checks s) in
  let out := (match elf with Some text => out ++ [EmptyString; strip text] | None => out end) in
  match bad with
  | [] => (out ++ [""; "qizo: inside every size budget"]%string, 0)
  | _ => (out ++ [""; "qizo: bloat check failed:"]%string ++ (String.append "  " <$> bad), 1)
  end.

End Size.

Example human_ex :
  ART.human 512 = "512 B"%string ∧ ART.human 2293760 = "2.2 MiB"%string ∧
  Size.human 1023 = "1023 B"%string ∧ Size.human 65536 = "64.0 KiB"%string ∧
  ART.percent 1 3 = "33.3%"%string.
Proof. by vm_compute. Qed.

Example nm_ex :
  ART.nm "0000000000100000 T __qizo_phys_base
         U undefined
0000000000100040 T qizo_kernel_entry
" = {[ "__qizo_phys_base" := 0x100000; "qizo_kernel_entry" := 0x100040 ]}%string.
Proof. apply (bool_decide_unpack _). by vm_compute. Qed.

(** ** The report *)

Lemma size_main_spec s elf :
  let failed := List.filter Size.over_budget (Size.checks s) in
  ((Size.main s elf).2 = 0 ↔ failed = []) ∧
  length (Size.main s elf).1 =
    (7 + match elf with Some _ => 2 | None => 0 end + 2 + length failed)%nat.
Proof.
  cbv zeta. unfold Size.main, Size.check_rows. set (over := Size.over_budget).
  assert (∀ rows bad out,
    length (fold_left (λ s r, Size.check_row r s.1 s.2) rows (bad, out)).1 =
      (length bad + length (List.filter over rows))%nat ∧
    length (fold_left (λ s r, Size.check_row r s.1 s.2) rows (bad, out)).2 = (length out + length rows)%nat) as Hrows.
  { induction rows as [|[[name got] limit] rows IH]; intros bad out; cbn [fold_left List.filter length fst snd]; [lia|].
    destruct (Size.check_row (name, got, limit) bad out) as [bad' out'] eqn:E.
    destruct (IH bad' out') as [-> ->]. unfold Size.check_row in E.
    destruct (got <? 0) eqn:E1, (limit <? got) eqn:E2, (0 <=? got) eqn:E3, (got <=? limit) eqn:E4; try lia;
      injection E as <- <-; unfold over, Size.over_budget; cbn [fst snd]; rewrite ?E3, ?E4, ?length_app; cbn [length andb negb]; lia. }
  pose proof (Hrows (Size.checks s) [] []) as [H1 H2]. change (length (Size.checks s)) with 7%nat in H2.
  destruct (fold_left _ _ _) as [bad out]. cbn [fst snd length] in H1, H2.
  destruct bad as [|m bad]; destruct (List.filter _ _); try discriminate;
    destruct elf; cbn [fst snd]; rewrite ?length_app, ?length_fmap; cbn [length] in *; rewrite ?length_fmap; split;
    (split; discriminate || done) || lia.
Qed.

(** ** Theorems *)

(** The image tools and the size report print every size alike: the two
    versions of [human] agree. *)
Theorem human_agree n : ART.human n = Size.human n.
Proof.
  unfold ART.human, Size.human, ART.units. cbn [length ART.human_scale Size.human_loop].
  generalize (float_of_int n). intros v. change (len ["B"; "KiB"; "MiB"; "GiB"]%string - 1) with 3.
  destruct (fge v (float_of_int 1024)); [|done]. cbn [andb negb orb].
  destruct (fge (fdiv v (float_of_int 1024)) (float_of_int 1024)); [|done]. cbn [andb negb orb].
  destruct (fge (fdiv (fdiv v (float_of_int 1024)) (float_of_int 1024)) (float_of_int 1024)); [|done].
  cbn [andb negb orb]. by destruct (fge (fdiv (fdiv (fdiv v _) _) _) _).
Qed.

(** The size check succeeds exactly when every file exists and none is
    larger than its budget; it prints a line for every file, and one for every
    file that failed. *)
Theorem size_main_correct s elf :
  let failed := List.filter Size.over_budget (Size.checks s) in
  ((Size.main s elf).2 = 0 ↔ failed = []) ∧
  length (Size.main s elf).1 =
    (7 + match elf with Some _ => 2 | None => 0 end + 2 + length failed)%nat.
Proof. apply size_main_spec. Qed.

Example size_main_ex :
  (Size.main (Size.Sizes (Some 2293760) (Some 20000) None (Some 20000) (Some 600000) (Some 512) (Some 9999)) None).2 = 1.
Proof. by vm_compute. Qed.
