(* ===== verification/Font.v ===== *)
(** * The font: [tools/common/qizofont.py] and [tools/qizoartifacts/qizofontgen.py]

    The glyph table (five columns per glyph, bit [y] of a column is row [y]), the
    bitmaps made from it, and the C array and PSF file the generator writes. *)

From S2P Require Export Artifacts.

(** ** [qizofont.py] *)

Module QFont.

Definition W : Z := 5.
Definition H : Z := 7.
Definition FIRST : Z := 32.
Definition LAST : Z := 126.

Definition GLYPHS : gmap Z (list Z) := list_to_map [
  (32, [0x00; 0x00; 0x00; 0x00; 0x00]);
  (33, [0x00; 0x58; 0x00; 0x00; 0x00]);
  (34, [0x06; 0x09; 0x06; 0x00; 0x00]);
  (35, [0x14; 0x7F; 0x14; 0x7F; 0x14]);
  (36, [0x22; 0x7F; 0x25; 0x29; 0x12]);
  (37, [0x63; 0x14; 0x08; 0x14; 0x62]);
  (38, [0x36; 0x49; 0x56; 0x20; 0x50]);
  (39, [0x02; 0x02; 0x04; 0x00; 0x00]);
  (40, [0x08; 0x10; 0x20; 0x20; 0x20]);
  (41, [0x20; 0x10; 0x08; 0x08; 0x08]);
  (42, [0x08; 0x08; 0x2A; 0x1C; 0x08]);
  (43, [0x08; 0x08; 0x1C; 0x08; 0x08]);
  (44, [0x00; 0x70; 0x20; 0x00; 0x00]);
  (45, [0x08; 0x08; 0x08; 0x08; 0x00]);
  (46, [0x00; 0x60; 0x60; 0x00; 0x00]);
  (47, [0x60; 0x10; 0x08; 0x04; 0x03]);
  (48, [0x3C; 0x42; 0x42; 0x42; 0x3C]);
  (49, [0x00; 0x44; 0x7E; 0x40; 0x00]);
  (50, [0x46; 0x62; 0x52; 0x4A; 0x46]);
  (51, [0x21; 0x41; 0x45; 0x4A; 0x34]);
  (52, [0x10; 0x18; 0x14; 0x7F; 0x10]);
  (53, [0x27; 0x45; 0x45; 0x45; 0x39]);
  (54, [0x3C; 0x4A; 0x49; 0x49; 0x30]);
  (55, [0x03; 0x01; 0x79; 0x05; 0x03]);
  (56, [0x36; 0x49; 0x49; 0x49; 0x36]);
  (57, [0x06; 0x49; 0x49; 0x29; 0x1E]);
  (58, [0x00; 0x18; 0x18; 0x00; 0x00]);
  (59, [0x00; 0x19; 0x18; 0x00; 0x00]);
  (60, [0x10; 0x20; 0x40; 0x20; 0x10]);
  (61, [0x14; 0x14; 0x14; 0x14; 0x14]);
  (62, [0x04; 0x02; 0x01; 0x02; 0x04]);
  (63, [0x02; 0x01; 0x51; 0x09; 0x06]);
  (64, [0x1E; 0x21; 0x4D; 0x4B; 0x34]);
  (65, [0x7E; 0x11; 0x11; 0x11; 0x7E]);
  (66, [0x7F; 0x09; 0x09; 0x09; 0x06]);
  (67, [0x3E; 0x41; 0x41; 0x41; 0x22]);
  (68, [0x7F; 0x41; 0x41; 0x22; 0x1C]);
  (69, [0x7F; 0x49; 0x49; 0x49; 0x41]);
  (70, [0x7F; 0x09; 0x09; 0x01; 0x01]);
  (71, [0x3E; 0x41; 0x49; 0x45; 0x3C]);
  (72, [0x7F; 0x08; 0x08; 0x08; 0x7F]);
  (73, [0x00; 0x41; 0x7F; 0x41; 0x00]);
  (74, [0x20; 0x40; 0x41; 0x3F; 0x01]);
  (75, [0x7F; 0x08; 0x14; 0x22; 0x41]);
  (76, [0x7F; 0x40; 0x40; 0x40; 0x40]);
  (77, [0x7F; 0x01; 0x06; 0x01; 0x7F]);
  (78, [0x7F; 0x01; 0x06; 0x38; 0x7F]);
  (79, [0x3E; 0x41; 0x41; 0x41; 0x3E]);
  (80, [0x7F; 0x09; 0x09; 0x09; 0x06]);
  (81, [0x3E; 0x41; 0x41; 0x45; 0x3A]);
  (82, [0x7F; 0x09; 0x19; 0x29; 0x46]);
  (83, [0x46; 0x49; 0x49; 0x49; 0x31]);
  (84, [0x01; 0x01; 0x7F; 0x01; 0x01]);
  (85, [0x3F; 0x40; 0x40; 0x40; 0x3F]);
  (86, [0x1F; 0x20; 0x40; 0x20; 0x1F]);
  (87, [0x7F; 0x20; 0x18; 0x20; 0x7F]);
  (88, [0x63; 0x14; 0x08; 0x14; 0x63]);
  (89, [0x03; 0x04; 0x78; 0x04; 0x03]);
  (90, [0x61; 0x51; 0x49; 0x45; 0x43]);
  (91, [0x0E; 0x10; 0x10; 0x10; 0x10]);
  (92, [0x03; 0x04; 0x08; 0x10; 0x20]);
  (93, [0x10; 0x10; 0x10; 0x10; 0x0E]);
  (94, [0x04; 0x02; 0x01; 0x00; 0x00]);
  (95, [0x80; 0x80; 0x80; 0x80; 0x80]);
  (96, [0x02; 0x04; 0x00; 0x00; 0x00]);
  (97, [0x26; 0x49; 0x49; 0x49; 0x3E]);
  (98, [0x7F; 0x11; 0x21; 0x21; 0x1E]);
  (99, [0x1E; 0x21; 0x41; 0x41; 0x22]);
  (100, [0x3E; 0x41; 0x11; 0x11; 0x7F]);
  (101, [0x1E; 0x21; 0x31; 0x21; 0x12]);
  (102, [0x06; 0x79; 0x01; 0x01; 0x02]);
  (103, [0x36; 0x49; 0x49; 0x49; 0x3E]);
  (104, [0x7F; 0x08; 0x14; 0x24; 0x44]);
  (105, [0x00; 0x4D; 0x7F; 0x40; 0x00]);
  (106, [0x30; 0x40; 0x4D; 0x7F; 0x40]);
  (107, [0x7F; 0x10; 0x28; 0x48; 0x30]);
  (108, [0x00; 0x7F; 0x40; 0x00; 0x00]);
  (109, [0x7E; 0x01; 0x06; 0x01; 0x7E]);
  (110, [0x7E; 0x08; 0x14; 0x24; 0x44]);
  (111, [0x1C; 0x22; 0x41; 0x22; 0x1C]);
  (112, [0x7F; 0x11; 0x21; 0x21; 0x1E]);
  (113, [0x3E; 0x41; 0x11; 0x11; 0x7F]);
  (114, [0x7E; 0x09; 0x01; 0x01; 0x02]);
  (115, [0x47; 0x44; 0x54; 0x28; 0x18]);
  (116, [0x04; 0x7E; 0x44; 0x40; 0x00]);
  (117, [0x3C; 0x40; 0x40; 0x20; 0x7C]);
  (118, [0x1C; 0x20; 0x40; 0x20; 0x1C]);
  (119, [0x3F; 0x40; 0x30; 0x40; 0x3F]);
  (120, [0x44; 0x28; 0x10; 0x28; 0x44]);
  (121, [0x4C; 0x50; 0x50; 0x50; 0x3E]);
  (122, [0x62; 0x52; 0x49; 0x25; 0x23]);
  (123, [0x10; 0x20; 0x4C; 0x20; 0x10]);
  (124, [0x00; 0x00; 0x7F; 0x00; 0x00]);
  (125, [0x10; 0x20; 0x4C; 0x20; 0x10]);
  (126, [0x08; 0x14; 0x22; 0x00; 0x00])
].

(** [GLYPHS.get(ch)] *)
Definition glyph_get (ch : Z) : option (list Z) := GLYPHS !! ch.

Definition pixel (ch x y : Z) : res bool :=
  cols ← match glyph_get ch with
         | Some cols => Ok cols
         | None => or_raise (KeyError "63") (glyph_get 63)
         end;
  col ← bget cols x;
  Ok (negb (Z.land col (Z.shiftl 1 y) =? 0)).

(** The inner loop of [bitmap]: row [y] of a glyph, leftmost pixel in bit 7. *)
Definition bitmap_row (ch y : Z) : res Z :=
  for_each (λ x v,
    p ← pixel ch x y;
    Ok (Next match p with true => Z.lor v (Z.shiftl 1 (7 - x)) | false => v end)) (range 0 W) 0.

Definition bitmap (ch : Z) : res (list Z) :=
  for_each (λ y (rows : list Z),
    v ← bitmap_row ch y;
    Ok (Next (rows ++ [v]))) (range 0 H) [].

(** The rows of one character of [psf1]: [src] is [None] for a character past
    the table. *)
Definition psf1_char (ch : Z) (data : bytes) : res (ctl bytes) :=
  src ← (if ch <? LAST - FIRST + 1 then rows ← bitmap (ch + FIRST); Ok (Some rows) else Ok None);
  data ← for_each (λ y (data : bytes),
    match src with
    | None => Raise TypeError
    | Some src =>
        v ← bget src y;
        data ← bappend data v;
        Ok (Next data)
    end) (range 0 H) data;
  data ← for_each (λ (_ : Z) (data : bytes), data ← bappend data 0; Ok (Next data)) (range H 16) data;
  Ok (Next data).

(** [psf1(path)]: the bytes it writes *)
Definition psf1 : res bytes :=
  for_each psf1_char (range 0 256) ([0x72; 0xb5; 0x4a; 0x86] ++ [0; W; H; 0]).

(** The sample sheet printed when the module is run as a program: the lines it
    builds, before [print] turns dots into spaces. *)
Definition sheet_line (chunk : list Z) (y : Z) : res string :=
  for_each (λ ch (line : string),
    rows ← bitmap ch;
    bits ← bget rows y;
    let cells := (λ x, if negb (Z.land bits (Z.shiftl 1 (7 - x)) =? 0) then "#"%string else "."%string)
                 <$> range 0 W in
    Ok (Next (line +:+ join "" cells +:+ ".")%string)) chunk EmptyString.

Definition sheet : res (list string) :=
  let text := range FIRST (LAST + 1) in
  for_each (λ start (rows : list string),
    let chunk := slice text start (start + 96) in
    rows ← for_each (λ y (rows : list string), line ← sheet_line chunk y; Ok (Next (rows ++ [line]))) (range 0 H) rows;
    Ok (Next (rows ++ [EmptyString]))) (range_step 0 (len text) 96) [].

(** The lines printed. *)
Definition printed_sheet : res (list string) :=
  rows ← sheet;
  Ok ((λ l, replace_all "." " " l) <$> rows : list string)%string.

End QFont.

(** ** [qizofontgen.py] *)

Module FontGen.
Import QFont.

(** One of the 16 rows of a character cell. *)
Definition glyph_row (ch row : Z) : res Z :=
  let gy := row / 2 - 2 in
  if (0 <=? gy) && (gy <? H) then
    for_each (λ col v,
      let gx := col - 1 in
      if (0 <=? gx) && (gx <? W) then
        p ← pixel ch gx gy;
        Ok (Next match p with true => Z.lor v (Z.shiftl 1 (7 - col)) | false => v end)
      else Ok (Next v)) (range 0 8) 0
  else Ok 0.

Definition glyph_rows (ch : Z) : res (list Z) :=
  for_each (λ row (out : list Z),
    v ← glyph_row ch row;
    Ok (Next (out ++ [v]))) (range 0 16) [].

(** The rows of table entry [ch]. *)
Definition entry_rows (ch : Z) : res (list Z) :=
  let src := ch + FIRST in
  if (FIRST <=? src) && (src <=? LAST) then glyph_rows src else Ok (replicate 16 0).

(** The rows [emit_array] writes. *)
Definition array_rows : res (list Z) :=
  for_each (λ ch (rows : list Z), data ← entry_rows ch; Ok (Next (rows ++ data))) (range 0 256) [].

(** The text [emit_array] writes. *)
Definition emit_array : res string :=
  rows ← array_rows;
  let body := (λ i, (String (chr 9) EmptyString
      +:+ join "," ((λ v, "0x" +:+ fmt_02x v)%string <$> slice rows i (i + 16))
      +:+ "," +:+ String NL EmptyString)%string) <$> range_step 0 (len rows) 16 in
  Ok ("#pragma once" +:+ String NL EmptyString
      +:+ "static const unsigned char qizo_font_data[256 * 16] = {" +:+ String NL EmptyString
      +:+ join "" body +:+ "};" +:+ String NL EmptyString)%string.

(** The bytes [emit_psf1] writes. *)
Definition emit_psf1 : res bytes :=
  for_each (λ ch (data : bytes), rows ← entry_rows ch; Ok (Next (data ++ rows))) (range 0 256)
    [0x72; 0xb5; 0x4a; 0x86; 0x00; 0x08; 0x10; 0x00].

(** The program: the files it writes and the line it prints, given its
    arguments. *)
Definition main (argv : list string) : res (list (string * bytes) * string) :=
  out ← or_raise IndexError (argv !! 1%nat);
  text ← emit_array;
  rows ← array_rows;
  let n1 := len rows in
  match argv !! 2%nat with
  | Some path =>
      data ← emit_psf1;
      let n2 := len data in
      Ok ([(out, encode_utf8 text); (path, data)],
          "font: array rows " +:+ fmt_d n1 +:+ ", psf1 " +:+ ART.human n2)%string
  | None => Ok ([(out, encode_utf8 text)], "font: array rows " +:+ fmt_d n1)%string
  end.

End FontGen.

Example main_ex :
  (r ← FontGen.main ["qizofontgen.py"; "font.h"; "font.psf"]%string; Ok r.2) =
    Ok "font: array rows 4096, psf1 4.0 KiB"%string.
Proof. by vm_compute. Qed.

Example pixel_A : QFont.pixel 65 0 0 = Ok false ∧ QFont.pixel 65 1 0 = Ok true.
Proof. by vm_compute. Qed.

Example bitmap_A : QFont.bitmap 65 = Ok [0x70; 0x88; 0x88; 0x88; 0xF8; 0x88; 0x88].
Proof. by vm_compute. Qed.

(** ** Lemmas *)

Section table.
Import QFont FontGen.

(** The table entry a code point is drawn from. *)
Definition canon (ch : Z) : Z := if (FIRST <=? ch) && (ch <=? LAST) then ch else 63.

Lemma glyph_get_canon ch :
  match glyph_get ch with Some cols => Ok cols | None => or_raise (KeyError "63") (glyph_get 63) end
  = match glyph_get (canon ch) with
    | Some cols => Ok cols | None => or_raise (KeyError "63") (glyph_get 63) end.
Proof.
  unfold canon. destruct ((FIRST <=? ch) && (ch <=? LAST)) eqn:Hc; [done|].
  assert (glyph_get ch = None) as ->; [|done].
  unfold glyph_get. destruct (GLYPHS !! ch) eqn:Hg; [|done].
  assert (map_Forall (λ k _, ((FIRST <=? k) && (k <=? LAST)) = true) GLYPHS) as Hall
    by (apply (bool_decide_unpack _); by vm_compute).
  apply Hall in Hg. congruence.
Qed.

Lemma pixel_canon ch x y : pixel ch x y = pixel (canon ch) x y.
Proof. unfold pixel. by rewrite glyph_get_canon. Qed.

Lemma bitmap_row_canon ch y : bitmap_row ch y = bitmap_row (canon ch) y.
Proof. apply for_each_ext. intros x v _. by rewrite pixel_canon. Qed.

Lemma bitmap_canon ch : bitmap ch = bitmap (canon ch).
Proof. apply for_each_ext. intros y rows _. by rewrite bitmap_row_canon. Qed.

Lemma glyph_rows_canon ch : glyph_rows ch = glyph_rows (canon ch).
Proof.
  apply for_each_ext. intros row out _. f_equal. unfold glyph_row. case_match; [|done].
  apply for_each_ext. intros col v _. case_match; [|done]. by rewrite pixel_canon.
Qed.

Lemma canon_range ch : FIRST ≤ canon ch ≤ LAST.
Proof. unfold canon, FIRST, LAST. case_bool; simpl; lia. Qed.

(** A decidable property of all glyphs can be checked on the table. *)
Lemma all_glyphs (P : Z → Prop) `{∀ ch, Decision (P ch)} ch :
  bool_decide (Forall P (range FIRST (LAST + 1))) = true → P (canon ch).
Proof.
  intros Hall%bool_decide_eq_true. rewrite Forall_lookup in Hall. pose proof (canon_range ch).
  apply (Hall (Z.to_nat (canon ch - FIRST))). unfold range, FIRST, LAST in *.
  rewrite lookup_seqZ_lt by lia. f_equal. lia.
Qed.

(** Row [v] of a bitmap shows the pixels of row [y]. *)
Definition shows_row (ch y v : Z) : Prop :=
  0 ≤ v < 256 ∧ Z.land v 7 = 0 ∧
  Forall (λ x, pixel ch x y = Ok (Z.testbit v (7 - x))) (range 0 W).

#[export] Instance shows_row_dec ch y v : Decision (shows_row ch y v).
Proof. unfold shows_row. solve_decision. Defined.

Definition bitmap_ok (ch : Z) : bool :=
  match bitmap ch with
  | Ok rows => bool_decide (Forall2 (shows_row ch) (range 0 H) rows)
  | _ => false
  end.

(** Each bitmap row twice, one pixel to the right, and the last row not at all. *)
Definition cell_of (rows : list Z) : list Z :=
  [0; 0; 0; 0] ++ (take 6 rows ≫= λ v, [Z.shiftr v 1; Z.shiftr v 1]).

Definition cell_ok (ch : Z) : bool :=
  match bitmap ch, glyph_rows ch with
  | Ok rows, Ok cells => bool_decide (cells = cell_of rows ∧ length cells = 16%nat ∧ Bytes cells)
  | _, _ => false
  end.

Lemma cell_of_glyph ch :
  ∃ rows, bitmap ch = Ok rows ∧ glyph_rows ch = Ok (cell_of rows) ∧
    length (cell_of rows) = 16%nat ∧ Bytes (cell_of rows).
Proof.
  rewrite bitmap_canon, glyph_rows_canon.
  assert (cell_ok (canon ch) = true) as Hok by (apply (all_glyphs (λ c, cell_ok c = true)); by vm_compute).
  unfold cell_ok in Hok. destruct (bitmap (canon ch)) as [rows| |]; [|done..].
  destruct (glyph_rows (canon ch)) as [cells| |]; [|done..].
  apply bool_decide_eq_true in Hok as (-> & ? & ?). eauto.
Qed.

Lemma entry_rows_ok ch :
  ∃ rows, entry_rows ch = Ok rows ∧ length rows = 16%nat ∧ Bytes rows.
Proof.
  unfold entry_rows. case_match.
  - destruct (cell_of_glyph (ch + FIRST)) as (rows & _ & -> & ? & ?). eauto.
  - exists (replicate 16 0). split_and!; [done|done|by apply Forall_replicate].
Qed.

(** A sequence of table entries: 16 bytes for each. *)
Lemma entries_ok l :
  ∃ data, for_each (λ ch (data : bytes), rows ← entry_rows ch; Ok (Next (data ++ rows))) l [] = Ok data ∧
    len data = 16 * len l ∧ Bytes data ∧
    ∀ i ch, l !! i = Some ch →
      entry_rows ch = Ok (slice data (16 * Z.of_nat i) (16 * Z.of_nat i + 16)).
Proof.
  induction l as [|x l (data & Hd & Hl & Hb & Hs)]; [by exists []|].
  destruct (entry_rows_ok x) as (rows & Hr & Hrl & Hrb). exists (rows ++ data).
  rewrite for_each_cons, Hr. cbn [mbind res_bind app].
  rewrite (for_each_append entry_rows), Hd. split; [done|]. split; [list_lia|].
  split; [by apply Forall_app|]. intros [|i] ch.
  - intros [= <-]. rewrite slice_app_l, slice_all' by lia. done.
  - intros Hi. cbn in Hi. pose proof (lookup_lt_Some _ _ _ Hi).
    rewrite slice_app_r by lia. rewrite (Hs i ch Hi). do 2 f_equal; lia.
Qed.

Lemma array_is_entries : array_rows = for_each (λ ch (data : bytes), rows ← entry_rows ch; Ok (Next (data ++ rows))) (range 0 256) [].
Proof. done. Qed.
End table.

(** ** Theorems *)

(** For every code point [bitmap] returns seven rows, one byte each with
    the three low bits clear, in which bit [7 - x] of row [y] is the pixel [(x, y)]. *)
Theorem bitmap_correct ch :
  ∃ rows, QFont.bitmap ch = Ok rows ∧ Forall2 (shows_row ch) (range 0 QFont.H) rows.
Proof.
  assert (bitmap_ok (canon ch) = true) as Hok by (apply (all_glyphs (λ c, bitmap_ok c = true)); by vm_compute).
  rewrite bitmap_canon. unfold bitmap_ok in Hok.
  destruct (QFont.bitmap (canon ch)) as [rows| |]; [|done..]. exists rows. split; [done|].
  apply bool_decide_eq_true in Hok. eapply Forall2_impl; [|done].
  intros y v (? & ? & Hp). split; [done|]. split; [done|].
  eapply Forall_impl; [|exact Hp]. intros x Hx. by rewrite pixel_canon.
Qed.

(** A generated character cell is the bitmap with each of its first six
    rows doubled and moved one pixel to the right under four blank rows: the
    seventh row of the font is never drawn. *)
Theorem glyph_rows_correct ch :
  ∃ rows, QFont.bitmap ch = Ok rows ∧ FontGen.glyph_rows ch = Ok (cell_of rows).
Proof. destruct (cell_of_glyph ch) as (rows & ? & ? & _). eauto. Qed.

(** The generated PSF file is its eight byte header and 256 cells of 16
    bytes, and cell [ch] is the glyph of code point [ch + 32]. *)
Theorem emit_psf1_cells :
  ∃ data, FontGen.emit_psf1 = Ok data ∧ len data = 8 + 256 * 16 ∧ Bytes data ∧
    ∀ ch, 0 ≤ ch < 256 → FontGen.entry_rows ch = Ok (slice data (8 + 16 * ch) (8 + 16 * ch + 16)).
Proof.
  destruct (entries_ok (range 0 256)) as (data & Hd & Hl & Hb & Hs).
  set (hdr := [0x72; 0xb5; 0x4a; 0x86; 0x00; 0x08; 0x10; 0x00]).
  exists (hdr ++ data). assert (length hdr = 8%nat) as Hh by done. rewrite range_length in Hl.
  unfold FontGen.emit_psf1. fold hdr. rewrite (for_each_append FontGen.entry_rows), Hd.
  split_and!; [done|list_lia|apply Forall_app; split; [by repeat constructor|done]|].
  intros ch Hch. rewrite slice_app_r by lia.
  rewrite (Hs (Z.to_nat ch) ch) by (unfold range; rewrite lookup_seqZ_lt by lia; f_equal; lia).
  do 2 f_equal; lia.
Qed.

(** [qizofont.psf1] never writes a file: it indexes [None] at the first
    code past the table and raises [TypeError]. *)
Theorem psf1_raises : QFont.psf1 = Raise TypeError.
Proof. by vm_compute. Qed.

(** Several different characters are drawn alike, the letters B and P
    among them, and the underscore is drawn blank like the space. *)
Theorem glyph_collisions :
  filter (λ p, QFont.bitmap p.1 = QFont.bitmap p.2)
    (p ← range QFont.FIRST (QFont.LAST + 1); q ← range (p + 1) (QFont.LAST + 1); [(p, q)]) =
  [(32, 95); (66, 80); (98, 112); (100, 113); (123, 125)].
Proof. by vm_compute. Qed.
