(* ===== verification/Tests.v ===== *)
(** * The host tests: [tools/qizocheck/qizotest.py]

    The test program as a suite with the list of failures it collects and the
    lines it prints.  The random inputs are whatever the generator returns: the
    theorem holds for every generator, not for the sequences of two seeds. *)

From S2P Require Export Greedy Adler Font.

Module QT.
Local Open Scope string_scope.
Local Open Scope list_scope.
Local Open Scope Z_scope.

(** The global [fails] and what has been printed. *)
Record suite := Suite { fails : list string; printed : list string }.

Definition check (name : string) (cond : bool) (s : suite) : suite :=
  if cond then Suite (fails s) (printed s ++ ["ok   " +:+ name])
  else Suite (fails s ++ [name]) (printed s ++ ["FAIL " +:+ name]).

(** [l * k] *)
Definition repeat_bytes (l : bytes) (k : Z) : bytes := mjoin (replicate (Z.to_nat k) l).

(** ** Random numbers *)

(** A generator: its seed and how many numbers it has returned. *)
Record rng := Rng { seed : Z; drawn : Z }.

Section random.
(** [randbelow seed k n] is the [k]th number of the generator, below [n]. *)
Variable randbelow : Z → Z → Z → Z.

(** [bytes(rnd.randrange(256) for _ in range(n))] *)
Definition randranges (n : Z) (r : rng) : bytes * rng :=
  ((λ k, randbelow (seed r) (drawn r + k) 256) <$> range 0 n, Rng (seed r) (drawn r + n)).

(** [bytes(rnd.choice(seq) for _ in range(n))] *)
Definition choices (seq : bytes) (n : Z) (r : rng) : res (bytes * rng) :=
  l ← for_each (λ k (out : bytes),
        x ← bget seq (randbelow (seed r) (drawn r + k) (len seq)); Ok (Next (out ++ [x])))
      (range 0 n) [];
  Ok (l, Rng (seed r) (drawn r + n)).

(** ** The tests *)

Definition test_checksum (s : suite) : res suite :=
  let data := repeat_bytes (range 0 251) 40 ++ b "qizo" in
  let s := check "adler matches the hand loop" (checksum data =? hand_adler data) s in
  let s := check "adler of empty" (checksum [] =? 1) s in
  '(s, _) ← for_each (λ i '(s, rnd),
      let '(blob, rnd) := randranges (1 + i * 977) rnd in
      Ok (Next (check ("adler stable for random blob " +:+ fmt_d i) (checksum blob =? hand_adler blob) s, rnd)))
    (range 0 4) (s, Rng 7 0);
  Ok s.

(** One of the round trips. *)
Definition lzss_case (s : suite) (i : Z) (src : bytes) : res suite :=
  blob ← compress src;
  back ← decompress blob;
  let s := check ("lzss roundtrip " +:+ fmt_d i +:+ " (" +:+ fmt_d (len src) +:+ " bytes)") (bool_decide (back = src)) s in
  magic ← unpack_le 4 blob 0;
  Ok (check ("lzss header " +:+ fmt_d i) (magic =? 0x51495A4C) s).

Definition lzss_cases (rnd : rng) : res (list bytes * rng) :=
  let '(noise, rnd) := randranges 9000 rnd in
  let cases := [[]; b "a"; b "ab"; zeros 5000; range 0 256; repeat_bytes (b "qizo") 4000; noise] in
  for_each (λ (_ : Z) '(cases, rnd),
      '(chunk, rnd) ← choices (b "ACGT") 4000 rnd;
      Ok (Next (cases ++ [chunk ++ slice chunk 0 200 ++ chunk], rnd)))
    (range 0 6) (cases, rnd).

Definition test_lzss (s : suite) : res suite :=
  '(cases, rnd) ← lzss_cases (Rng 1234 0);
  s ← for_each (λ '(i, src) s, s ← lzss_case s i src; Ok (Next s)) (zip (range 0 (len cases)) cases) s;
  let '(worst, _) := randranges 20000 rnd in
  blob ← compress worst;
  Ok (check "lzss never explodes past the 16-bit window" (len blob <? len worst + 20000 / 8 * 2 + 16) s).

End random.

Definition test_match_window (s : suite) : res suite :=
  let src := repeat_bytes (b "qizo") 5000 in
  blob ← compress src;
  Ok (check "lzss shrinks repetitive input" (len blob * 3 <? len src * 2) s).

(** [sorted(LY.BI, key=LY.BI.get)] *)
Definition sorted_fields (BI : gmap string Z) : list string :=
  sort_by (λ a c, default 0 (BI !! a) <=? default 0 (BI !! c)) (map_to_list BI).*1.
Definition fields_ascend (BI : gmap string Z) : bool :=
  let l := sorted_fields BI in
  forallb (λ ac, default 0 (BI !! ac.1) <? default 0 (BI !! ac.2)) (zip l (drop 1 l)).

Definition test_layout (s : suite) : res suite :=
  let s := check "stage2 base below the blob" (LY.STAGE2 <? LY.BLOB_PHYS) s in
  let s := check "blob fits its span" (LY.BLOB_PHYS + LY.BLOB_MAX <=? LY.E820_BUF) s in
  let s := check "kernel plus bss below scratch" (LY.KTEXT + LY.KERNEL_MAX <=? LY.SCRATCH) s in
  let s := check "page tables above scratch" (LY.SCRATCH + LY.KERNEL_MAX + LY.QIZOK_HDR <=? LY.PAGE_PML4) s in
  let s := check "bootinfo clear of the stack" (LY.BOOTINFO + LY.BOOTINFO_SIZE <=? LY.E820_BUF) s in
  BI ← LY.BI;
  let s := check "bootinfo field offsets ascend" (fields_ascend BI) s in
  Ok (check "blob chunking covers the span" ((LY.BLOB_MAX + 511) / 512 <=? 256) s).

Definition test_boot_tables (s : suite) : res suite :=
  let s := check "page tables occupy six pages" (LY.PAGE_PDT + 4 * 0x1000 =? LY.PAGE_PML4 + 0x6000) s in
  let s := check "leaf entries carry the page size bit" (negb (Z.land LY.PT_PAGE 0x80 =? 0)) s in
  let s := check "directory entries do not" (Z.land LY.PT_DIR 0x80 =? 0) s in
  let s := check "boot fault idt sits above the page tables" (LY.PAGE_PML4 + 0x6000 <=? LY.IDT_BOOT) s in
  let s := check "boot fault idt holds 32 gates" (LY.IDT_BOOT + 32 * 16 <=? 0x40000000) s in
  Ok (check "page tables are identity mapped by the boot"
    ((LY.PAGE_PML4 / 0x200000 <? 2048) && (LY.IDT_BOOT / 0x200000 <? 2048)) s).

Definition test_font (s : suite) : res suite :=
  rows ← QFont.bitmap 65;
  let s := check "font glyph rows" (len rows =? QFont.H) s in
  let s := check "font has A" (existsb (λ v, negb (v =? 0)) rows) s in
  blank ← QFont.bitmap 32;
  Ok (check "font blank space" (bool_decide (blank = replicate (Z.to_nat QFont.H) 0)) s).

(** ** The tests that read sources *)

(** [re.findall]: [here] tries the pattern at a position, told whether it is the
    start of a line, and returns the group and what follows the match. *)
Fixpoint findall (fuel : nat) (here : bool → string → option (string * string)) (bol : bool) (s : string) : list string :=
  match fuel with
  | O => []
  | S fuel =>
      match here bol s with
      | Some (found, rest) => found :: findall fuel here false rest
      | None => match s with EmptyString => [] | String c s => findall fuel here (c =? NL)%char s end
      end
  end.

(** [\.qizo_[A-Za-z0-9_]+] *)
Definition section_name (s : string) : option (string * string) :=
  s ← after ".qizo_" s;
  let '(w, rest) := str_span is_word s in
  if bool_decide (w = "") then None else Some (".qizo_" +:+ w, rest).

(** [\.section\s+(\.qizo_[A-Za-z0-9_]+)] *)
Definition section_here (bol : bool) (s : string) : option (string * string) :=
  s ← after ".section" s;
  let '(ws, s) := str_span is_space s in
  if bool_decide (ws = "") then None else section_name s.

(** [^\s*(\.qizo_[A-Za-z0-9_]+)\s*:\s*\{] in multiline mode *)
Definition placed_here (bol : bool) (s : string) : option (string * string) :=
  if negb bol then None
  else
    '(name, s) ← section_name (str_span is_space s).2;
    s ← after ":" (str_span is_space s).2;
    s ← after "{" (str_span is_space s).2;
    Some (name, s).

Definition sections_used (src : string) : list string := findall (S (String.length src)) section_here true src.
Definition sections_placed (lds : string) : list string := findall (S (String.length lds)) placed_here true lds.
(** [sorted(used - placed)] *)
Definition orphans (src lds : string) : list string :=
  let placed := sections_placed lds in
  sort_by String.leb (remove_dups (List.filter (λ x, negb (bool_decide (x ∈ placed))) (sections_used src))).

(** [s.count(t)] for a non-empty [t] *)
Fixpoint count_fuel (fuel : nat) (t s : string) : Z :=
  match fuel with
  | O => 0
  | S fuel =>
      match after t s with
      | Some s => 1 + count_fuel fuel t s
      | None => match s with EmptyString => 0 | String _ s => count_fuel fuel t s end
      end
  end.
Definition count (t s : string) : Z := count_fuel (S (String.length s)) t s.

Section files.
(** [open(os.path.join(LY.ROOT, path)).read()] *)
Variable open_ : string → res string.

Definition boot_section_case (base : string) (s : suite) : res (ctl suite) :=
  src ← open_ ("boot/" +:+ base +:+ ".S");
  lds ← open_ ("boot/" +:+ base +:+ ".ld");
  let missing := join ", " (orphans src lds) in
  Ok (Next (check (base +:+ " places every section it emits (" +:+
      (if bool_decide (missing = "") then "none orphaned" else missing) +:+ ")")
    (forallb (λ x, bool_decide (x ∈ sections_placed lds)) (sections_used src)) s)).

Definition test_boot_sections (s : suite) : res suite :=
  for_each boot_section_case ["stage1"; "stage2"] s.

Definition test_boot_once_routines (s : suite) : res suite :=
  main ← open_ "kernel/main.c";
  let s := check "kernel main does not rebuild the live page tables" (negb (contains "qizo_paging_setup" main)) s in
  head ← open_ "kernel/boot64.S";
  Ok (check "the entry code builds them once" (count "call qizo_paging_setup" head =? 1) s).

Definition all_tests (randbelow : Z → Z → Z → Z) (s : suite) : res suite :=
  s ← test_checksum randbelow s;
  s ← test_lzss randbelow s;
  s ← test_match_window s;
  s ← test_layout s;
  s ← test_boot_sections s;
  s ← test_boot_tables s;
  s ← test_boot_once_routines s;
  test_font s.

(** The program: what it prints and its exit status. *)
Definition main (randbelow : Z → Z → Z → Z) : res (list string * Z) :=
  s ← all_tests randbelow (Suite [] []);
  match fails s with
  | [] => Ok (printed s ++ ["qizo: all tests pass"], 0)
  | fs => Ok (printed s ++ ["qizo: " +:+ fmt_d (len fs) +:+ " test(s) failed: " +:+ join ", " fs], 1)
  end.
End files.

Example sections_ex :
  orphans "	.section .qizo_boot,42
	.section .qizo_aux
	.section	.qizo_boot" "SECTIONS {
	.qizo_boot : { *(.qizo_boot) }
	. = 4; .qizo_aux : { }
}" = [".qizo_aux"].
Proof. by vm_compute. Qed.

Example layout_ex : test_layout (Suite [] []) ≫= (λ s, Ok (fails s)) = Ok [].
Proof. by vm_compute. Qed.

(** ** Lemmas *)

(** A test adds failures to those there are, none exactly when [P] holds. *)
Definition grades (t : suite → res suite) (P : Prop) : Prop :=
  ∀ s, ∃ s' new, t s = Ok s' ∧ fails s' = fails s ++ new ∧ (new = [] ↔ P).

Definition same_fails (s s' : suite) : Prop := fails s' = fails s.

Lemma grades_bind t u P Q : grades t P → grades u Q → grades (λ s, s ← t s; u s) (P ∧ Q).
Proof.
  intros Ht Hu s. destruct (Ht s) as (s1 & new1 & -> & Hf1 & HP), (Hu s1) as (s2 & new2 & H2 & Hf2 & HQ).
  exists s2, (new1 ++ new2). split_and!; [done|by rewrite Hf2, Hf1, (assoc_L (++))|].
  rewrite <-HP, <-HQ. apply app_nil.
Qed.

Lemma grades_iff t P Q : P ↔ Q → grades t P → grades t Q.
Proof. intros HPQ Ht s. destruct (Ht s) as (s' & new & ? & ? & ?). exists s', new. by rewrite <-HPQ. Qed.

Lemma grades_passes t : (∀ s, ∃ s', t s = Ok s' ∧ same_fails s s') → grades t True.
Proof.
  intros Ht s. destruct (Ht s) as (s' & H & Hf). exists s', []. by rewrite (right_id_L [] (++)).
Qed.

Lemma check_fails name c s : fails (check name c s) = fails s ++ (if c then [] else [name]).
Proof. destruct c; simpl; by rewrite ?(right_id_L [] (++)). Qed.

Lemma check_passes name c s0 s : same_fails s0 s → c = true → same_fails s0 (check name c s).
Proof. intros H ->. done. Qed.

Lemma repeat_S l k : 0 ≤ k → repeat_bytes l (Z.succ k) = l ++ repeat_bytes l k.
Proof. intros. unfold repeat_bytes. by rewrite Z2Nat.inj_succ by lia. Qed.

Lemma length_repeat l k : 0 ≤ k → len (repeat_bytes l k) = k * len l.
Proof.
  intros Hk. pattern k. apply natlike_ind; [done| |done]. clear k Hk. intros k Hk IH.
  rewrite repeat_S, length_app by done. lia.
Qed.

Lemma repeat_Bytes l k : Bytes l → Bytes (repeat_bytes l k).
Proof.
  intros Hl. unfold repeat_bytes. induction (Z.to_nat k) as [|n IH]; [constructor|]. cbn. by apply Forall_app.
Qed.

Lemma repeat_periodic l k : 0 ≤ k → periodic (len l) (repeat_bytes l k).
Proof.
  intros Hk. pattern k. apply natlike_ind; [| |done]; clear k Hk.
  - intros i Hi. change (repeat_bytes l 0) with (@nil Z). cbn [length]. lia.
  - intros k Hk IH i Hi. rewrite repeat_S, length_app, Nat2Z.inj_add by done. intros Hlt.
    rewrite (lookup_app_r _ _ (Z.to_nat (i + len l))) by lia.
    replace (Z.to_nat (i + len l) - length l)%nat with (Z.to_nat i) by lia.
    destruct (Z.lt_ge_cases i (len l)) as [Hil|Hil].
    + rewrite lookup_app_l by lia. assert (0 < k) as Hk' by (rewrite length_repeat in Hlt by done; nia).
      replace k with (Z.succ (k - 1)) by lia. rewrite repeat_S, lookup_app_l by lia. done.
    + rewrite lookup_app_r by lia. replace (Z.to_nat i - length l)%nat with (Z.to_nat (i - len l)) by lia.
      rewrite IH by lia. f_equal. lia.
Qed.

Section generator.
Variable randbelow : Z → Z → Z → Z.
Hypothesis in_range : ∀ seed k n, 0 < n → 0 ≤ randbelow seed k n < n.

Lemma randranges_ok n r : 0 ≤ n →
  Bytes (randranges randbelow n r).1 ∧ len (randranges randbelow n r).1 = n.
Proof.
  intros Hn. cbn [randranges fst]. rewrite length_fmap, range_length. split; [|lia].
  apply Forall_fmap, Forall_forall. intros k _. apply is_byte_spec, (in_range _ _ 256). lia.
Qed.

Lemma choices_ok seq n r :
  Bytes seq → seq ≠ [] → 0 ≤ n → ∃ l r', choices randbelow seq n r = Ok (l, r') ∧ Bytes l ∧ len l = n.
Proof.
  intros Hs Hne Hn. unfold choices.
  assert (0 < len seq) by (destruct seq; [done|cbn [length]; lia]).
  match goal with |- context [for_each ?f ?r ?s] =>
    assert (runs (for_each f r s) (λ l, Bytes l ∧ len l = n) no_exc) as (l & -> & Hl)%runs_total end.
  { eapply (runs_for_range (λ k l, Bytes l ∧ len l = k)); [done| |by split].
    intros k out Hk [Hb Hlen]. pose proof (in_range (seed r) (drawn r + k) (len seq) ltac:(lia)).
    destruct (bget_ok seq (randbelow (seed r) (drawn r + k) (len seq))) as (x & Hx & ->); [lia|].
    cbn [mbind res_bind runs step_to]. split; [|list_lia]. apply Forall_app. split; [done|].
    constructor; [exact (Bytes_lookup seq _ x Hs Hx)|constructor]. }
  cbn [mbind res_bind]. eauto.
Qed.

(** *** The tests of the codec *)

Definition codable (src : bytes) : Prop := Bytes src ∧ len src < 2 ^ 32.

Lemma lzss_case_passes s0 s i src :
  codable src → same_fails s0 s → ∃ s', lzss_case s i src = Ok s' ∧ same_fails s0 s'.
Proof.
  intros [Hsrc Hlen] Hs. unfold lzss_case. assert (fits 4 (len src) = true) as Hfit by (apply fits_spec; lia).
  destruct (codec_encodes src Hsrc Hfit) as (blob & Hc & _).
  pose proof (codec_decodes src blob [] Hsrc Hfit Hc) as Hd. pose proof (codec_header src blob [] Hsrc Hfit Hc) as (_ & Hm & _).
  rewrite (right_id_L [] (++)) in Hd, Hm. rewrite Hc. ok_bind. rewrite Hd. ok_bind. rewrite Hm. ok_bind.
  eexists. split; [done|]. apply check_passes; [|done]. apply check_passes; [done|]. by rewrite bool_decide_true.
Qed.

Lemma lzss_cases_codable r : ∃ cases r', lzss_cases randbelow r = Ok (cases, r') ∧ Forall codable cases.
Proof.
  unfold lzss_cases. destruct (randranges_ok 9000 r ltac:(lia)) as [Hn Hl].
  destruct (randranges randbelow 9000 r) as [noise r1]. cbn [fst] in *.
  match goal with |- context [for_each ?f ?l ?init] =>
    destruct (for_each_keeps (λ st : list bytes * rng, Forall codable st.1) f l init) as ([cases r'] & -> & H) end; [| |eauto].
  - intros x [cases r2] _ Hc. cbn [fst] in Hc.
    destruct (choices_ok (b "ACGT") 4000 r2) as (chunk & r3 & -> & Hb & Hlen); [by repeat constructor|done|lia|].
    eexists. split; [reflexivity|]. cbn [fst]. apply Forall_app. split; [done|]. constructor; [|constructor].
    split; [by repeat (apply Forall_app; split); try apply slice_Bytes|].
    rewrite !length_app, length_slice by lia. lia.
  - cbn [fst]. assert (len noise < 2 ^ 32) by lia. repeat match goal with |- Forall codable _ => constructor end; split.
    all: match goal with
         | |- Bytes (b _) => by repeat constructor
         | |- Bytes (zeros _) => apply zeros_Bytes
         | |- Bytes (repeat_bytes _ _) => apply repeat_Bytes; by repeat constructor
         | |- Bytes (range _ _) => apply Forall_forall; intros x Hx%list_elem_of_In%elem_of_range; apply is_byte_spec; lia
         | |- Bytes _ => done || constructor
         | |- len (zeros _) < _ => rewrite length_zeros; lia
         | |- len (range _ _) < _ => rewrite range_length; lia
         | |- len (repeat_bytes _ _) < _ => rewrite length_repeat by lia; change (len (b "qizo")) with 4; lia
         | _ => done
         end.
Qed.

Lemma test_checksum_passes : grades (test_checksum randbelow) True.
Proof.
  apply grades_passes. intros s. unfold test_checksum.
  match goal with |- context [for_each ?f ?l ?s0] =>
    destruct (for_each_keeps (λ st : suite * rng, same_fails s st.1) f l s0) as ([s' r'] & -> & H) end; [| |eauto].
  - intros i [s1 r1] _ H1. cbn [fst] in H1. destruct (randranges randbelow _ r1) as [blob r2].
    eexists. split; [reflexivity|]. cbn [fst]. apply check_passes; [done|]. rewrite checksum_loop. apply Z.eqb_refl.
  - cbn [fst]. apply check_passes; [|by vm_compute]. apply check_passes; [done|]. rewrite checksum_loop. apply Z.eqb_refl.
Qed.

Lemma test_lzss_passes : grades (test_lzss randbelow) True.
Proof.
  apply grades_passes. intros s. unfold test_lzss.
  destruct (lzss_cases_codable (Rng 1234 0)) as (cases & r & -> & Hc). ok_bind.
  match goal with |- context [for_each ?f ?l ?s0] =>
    destruct (for_each_keeps (same_fails s) f l s0) as (s1 & -> & H) end; [|done|].
  - intros [i src] s1 Hin H1. apply list_elem_of_lookup in Hin as [k Hk].
    apply lookup_zip_with_Some in Hk as (? & ? & [= <- <-] & _ & Hk).
    destruct (lzss_case_passes s s1 i src) as (s2 & -> & H2); [by eapply Forall_lookup|done|]. eauto.
  - ok_bind. destruct (randranges_ok 20000 r ltac:(lia)) as [Hb Hl].
    destruct (randranges randbelow 20000 r) as [worst r']. cbn [fst] in *.
    destruct (compress_returns worst Hb ltac:(lia)) as (blob & Hcomp & _). rewrite Hcomp. ok_bind.
    eexists. split; [done|]. apply check_passes; [done|].
    pose proof (compress_size worst blob Hb ltac:(lia) Hcomp) as Hsz. apply Z.ltb_lt. rewrite Hl in *.
    change ((20000 + 7) / 8) with 2500 in Hsz. change (20000 / 8) with 2500. lia.
Qed.
End generator.

Lemma test_match_window_passes : grades test_match_window True.
Proof.
  apply grades_passes. intros s. unfold test_match_window. cbv zeta.
  pose proof (length_repeat (b "qizo") 5000 ltac:(lia)) as Hl. change (5000 * len (b "qizo")) with 20000 in Hl.
  pose proof (repeat_Bytes (b "qizo") 5000 ltac:(by repeat constructor)) as Hb.
  pose proof (repeat_periodic (b "qizo") 5000 ltac:(lia)) as Hp. change (len (b "qizo")) with 4 in Hp.
  destruct (compress_returns (repeat_bytes (b "qizo") 5000) Hb ltac:(lia)) as (blob & Hc & _). rewrite Hc. ok_bind.
  eexists. split; [done|]. apply check_passes; [done|].
  pose proof (periodic_size _ 4 blob Hb ltac:(lia) ltac:(unfold WINDOW; lia) Hp Hc) as Hsz.
  cbv zeta in Hsz. rewrite Hl in *. change (20000 / 18) with 1111 in Hsz.
  change ((4 + 1111 + 2 + 7) / 8) with 140 in Hsz. apply Z.ltb_lt. lia.
Qed.

(** *** The tests of constants and of the font *)

Ltac computed_checks :=
  repeat (apply check_passes; [|vm_compute; reflexivity]); reflexivity.

Lemma test_layout_passes : grades test_layout True.
Proof.
  apply grades_passes. intros s. unfold test_layout. cbv zeta.
  assert (match LY.BI with Ok BI => fields_ascend BI | _ => false end = true) as Hf by (vm_compute; reflexivity).
  revert Hf. generalize LY.BI. intros [BI|e|] Hf; [|discriminate..]. cbn [mbind res_bind].
  eexists. split; [reflexivity|]. do 2 (apply check_passes; [|first [exact Hf|vm_compute; reflexivity]]). computed_checks.
Qed.

Lemma test_boot_tables_passes : grades test_boot_tables True.
Proof. apply grades_passes. intros s. eexists. split; [reflexivity|]. unfold test_boot_tables. computed_checks. Qed.

Lemma test_font_passes : grades test_font True.
Proof.
  apply grades_passes. intros s. unfold test_font.
  replace (QFont.bitmap 65) with (Ok [0x70; 0x88; 0x88; 0x88; 0xF8; 0x88; 0x88]) by (vm_compute; reflexivity).
  replace (QFont.bitmap 32) with (Ok (replicate 7 0)) by (vm_compute; reflexivity). cbn [mbind res_bind].
  eexists. split; [reflexivity|]. computed_checks.
Qed.

(** *** The tests of the sources *)

(** Every section the source uses is placed by the linker script. *)
Definition places_all (src lds : string) : Prop := ∀ x, x ∈ sections_used src → x ∈ sections_placed lds.

Lemma check_grades name c P : (c = true ↔ P) → grades (λ s, Ok (check name c s)) P.
Proof.
  intros HP s. eexists _, (if c then [] else [name]). split_and!; [done|by rewrite check_fails|].
  rewrite <-HP. by destruct c.
Qed.

Section files.
Variables (open_ : string → res string).

Lemma boot_section_case_grades base src lds :
  open_ ("boot/" +:+ base +:+ ".S") = Ok src → open_ ("boot/" +:+ base +:+ ".ld") = Ok lds →
  ∃ name c, boot_section_case open_ base = (λ s, Ok (Next (check name c s))) ∧ (c = true ↔ places_all src lds).
Proof.
  intros Hs Hl. unfold boot_section_case. rewrite Hs, Hl. cbn [mbind res_bind]. eexists _, _. split; [reflexivity|].
  rewrite forallb_forall. unfold places_all. split; intros H x Hx.
  - apply list_elem_of_In, H, bool_decide_eq_true in Hx. done.
  - by apply bool_decide_eq_true, H, list_elem_of_In.
Qed.

Lemma test_boot_sections_grades src1 lds1 src2 lds2 :
  open_ "boot/stage1.S" = Ok src1 → open_ "boot/stage1.ld" = Ok lds1 →
  open_ "boot/stage2.S" = Ok src2 → open_ "boot/stage2.ld" = Ok lds2 →
  grades (test_boot_sections open_) (places_all src1 lds1 ∧ places_all src2 lds2).
Proof.
  intros H1 H2 H3 H4.
  destruct (boot_section_case_grades "stage1" src1 lds1 H1 H2) as (n1 & c1 & E1 & HP1).
  destruct (boot_section_case_grades "stage2" src2 lds2 H3 H4) as (n2 & c2 & E2 & HP2).
  intros s. unfold test_boot_sections. rewrite for_each_cons, E1. cbn [mbind res_bind].
  rewrite for_each_cons, E2. cbn [mbind res_bind for_each].
  eapply (grades_bind _ _ _ _ (check_grades n1 c1 _ HP1) (check_grades n2 c2 _ HP2)).
Qed.

Lemma test_boot_once_grades main_c boot64 :
  open_ "kernel/main.c" = Ok main_c → open_ "kernel/boot64.S" = Ok boot64 →
  grades (test_boot_once_routines open_)
    (contains "qizo_paging_setup" main_c = false ∧ count "call qizo_paging_setup" boot64 = 1).
Proof.
  intros H1 H2 s. unfold test_boot_once_routines. rewrite H1, H2. cbn [mbind res_bind].
  eapply (grades_bind _ _ _ _ (check_grades _ _ _ (negb_true_iff _)) (check_grades _ _ _ (Z.eqb_eq _ _))).
Qed.
End files.

(** ** Theorem *)

(** C40 - The test program runs to its end whatever numbers the generator returns.
    Its tests of the codec, of the layout constants and of the font never fail:
    its status is 0 exactly when both linker scripts place every section their
    source uses, [kernel/main.c] does not mention the paging routine and the
    entry code calls it once. *)
Theorem tests_pass open_ randbelow src1 lds1 src2 lds2 main_c boot64 :
  (∀ seed k n, 0 < n → 0 ≤ randbelow seed k n < n) →
  open_ "boot/stage1.S" = Ok src1 → open_ "boot/stage1.ld" = Ok lds1 →
  open_ "boot/stage2.S" = Ok src2 → open_ "boot/stage2.ld" = Ok lds2 →
  open_ "kernel/main.c" = Ok main_c → open_ "kernel/boot64.S" = Ok boot64 →
  ∃ out status, main open_ randbelow = Ok (out, status) ∧
    (status = 0 ↔ places_all src1 lds1 ∧ places_all src2 lds2 ∧
      contains "qizo_paging_setup" main_c = false ∧ count "call qizo_paging_setup" boot64 = 1).
Proof.
  intros Hr H1 H2 H3 H4 H5 H6. unfold main.
  pose proof (test_checksum_passes randbelow) as T1. pose proof (test_lzss_passes randbelow Hr) as T2.
  pose proof test_match_window_passes as T3. pose proof test_layout_passes as T4.
  pose proof (test_boot_sections_grades open_ _ _ _ _ H1 H2 H3 H4) as T5.
  pose proof test_boot_tables_passes as T6. pose proof (test_boot_once_grades open_ _ _ H5 H6) as T7.
  pose proof test_font_passes as T8.
  pose proof (grades_bind _ _ _ _ T1 (grades_bind _ _ _ _ T2 (grades_bind _ _ _ _ T3 (grades_bind _ _ _ _ T4
    (grades_bind _ _ _ _ T5 (grades_bind _ _ _ _ T6 (grades_bind _ _ _ _ T7 T8))))))) as Hall.
  destruct (Hall (Suite [] [])) as (s & new & Hrun & Hf & HP). cbn [fails app] in Hf.
  assert (new = [] ↔ places_all src1 lds1 ∧ places_all src2 lds2 ∧
    contains "qizo_paging_setup" main_c = false ∧ count "call qizo_paging_setup" boot64 = 1) as HP' by tauto.
  assert (all_tests open_ randbelow (Suite [] []) = Ok s) as -> by exact Hrun. cbn [mbind res_bind].
  rewrite Hf. destruct new; eexists _, _; (split; [reflexivity|]); rewrite <-!HP'; split; done.
Qed.

Lemma tests_pass_witness :
  let file path := Ok (match path with
    | "boot/stage1.S" => "	.section .qizo_boot,64"
    | "boot/stage1.ld" => "	.qizo_boot : { *(.qizo_boot) }"
    | "boot/stage2.S" => "	.section .qizo_pm32,64"
    | "boot/stage2.ld" => "	.qizo_boot : { *(.qizo_boot) }"
    | "kernel/main.c" => "int main(void);"
    | _ => "	call qizo_paging_setup"
    end) in
  ∃ out status, main file (λ seed k n, (seed + k) mod n) = Ok (out, status) ∧
    (status = 0 ↔ places_all "	.section .qizo_boot,64" "	.qizo_boot : { *(.qizo_boot) }" ∧
      places_all "	.section .qizo_pm32,64" "	.qizo_boot : { *(.qizo_boot) }" ∧
      contains "qizo_paging_setup" "int main(void);" = false ∧
      count "call qizo_paging_setup" "	call qizo_paging_setup" = 1).
Proof.
  intros file. apply (tests_pass file (λ seed k n, (seed + k) mod n)); [|reflexivity..].
  intros seed k n Hn. by apply Z.mod_pos_bound.
Defined.
End QT.
