(* ===== verification/BootInfo.v ===== *)
(** * The boot information header: [tools/qizoartifacts/qizobootinfo.py]

    The generator turns the symbols of [boot/qizoboot.inc] into a C header: a
    macro per symbol, the packed structs the kernel reads the boot information
    with, and assertions on their offsets.  The second half reads the members
    of such a struct as a C compiler does, and shows that the struct has every
    field at the offset its symbol says. *)

From S2P Require Export Layout.

Module BI.
Local Open Scope string_scope.
Local Open Scope list_scope.
Local Open Scope Z_scope.

(** ** The tables *)

Definition FIELDS : list (string * string * string) := [
  ("u32", "magic", "QIZO_BI_MAGIC");
  ("u8", "drive", "QIZO_BI_DRIVE");
  ("u8", "mode", "QIZO_BI_MODE");
  ("u8", "err", "QIZO_BI_ERR");
  ("u32", "blob_lba", "QIZO_BI_BLOB_LBA");
  ("u32", "blob_sectors", "QIZO_BI_BLOB_SECTORS");
  ("u32", "blob_crc", "QIZO_BI_BLOB_CRC");
  ("u32", "blob_phys", "QIZO_BI_BLOB_PHYS");
  ("u32", "blob_size", "QIZO_BI_BLOB_SIZE");
  ("u32", "scratch", "QIZO_BI_SCRATCH");
  ("u32", "ktext", "QIZO_BI_KTEXT");
  ("u32", "kernel_size", "QIZO_BI_KERNEL_SIZE");
  ("u32", "kernel_entry", "QIZO_BI_KERNEL_ENTRY");
  ("u32", "kernel_total", "QIZO_BI_KERNEL_TOTAL");
  ("u32", "kernel_bss", "QIZO_BI_KERNEL_BSS");
  ("u32", "flags", "QIZO_BI_FLAGS");
  ("u32", "cpus", "QIZO_BI_CPUS");
  ("u32", "cpuid_max", "QIZO_BI_CPUID_MAX");
  ("u8", "longmode", "QIZO_BI_LONGMODE");
  ("u8", "a20", "QIZO_BI_A20");
  ("e820arr", "map", "QIZO_BI_E820");
  ("u32", "map_count", "QIZO_BI_E820_N");
  ("u8arr16", "vendor", "QIZO_BI_VENDOR");
  ("u8arr80", "brand", "QIZO_BI_BRAND");
  ("u64", "total_ram", "QIZO_BI_TOTAL_RAM")
].

Definition E820 : list (string * string * Z) :=
  [("u64", "base", 0); ("u64", "size", 8); ("u32", "type", 16); ("u32", "acpi", 20)].

Definition SIZES : gmap string Z :=
  list_to_map [("u8", 1); ("u32", 4); ("u64", 8); ("u8arr16", 16); ("u8arr80", 80)].
Definition ARRS : gmap string (string * Z) :=
  list_to_map [("u8arr16", ("u8", 16)); ("u8arr80", ("u8", 80))].

(** ** The symbols *)

(** A symbol whose expression cannot be evaluated is kept, as [None]. *)
Abbreviation symbols := (gmap string (option Z)).

(** The body of the loop of [parse_inc].  A [None] in the dictionary makes every
    expression that uses it fail. *)
Definition parse_inc_line (line : string) (vals : symbols) : symbols :=
  match LY.match_set line with
  | None => vals
  | Some (name, expr) => <[name := eval (omap id vals) expr]> vals
  end.

(** [parse_inc(path)], given the text of the file *)
Definition parse_inc (text : string) : symbols :=
  fold_left (λ vals line, parse_inc_line line vals) (file_lines text) ∅.

(** [v[name]] where the code computes with it *)
Definition sym (v : symbols) (name : string) : res Z :=
  o ← or_raise (KeyError name) (v !! name);
  or_raise TypeError o.

(** [v.get(name) is None] *)
Definition unresolved (v : symbols) (name : string) : bool :=
  match v !! name with Some (Some _) => false | _ => true end.

(** ** The header *)

Definition TAB : ascii := chr 9.
Definition DQ : ascii := chr 34.

Definition decl (t name : string) (v : symbols) : res string :=
  if bool_decide (t = "e820arr") then
    n ← sym v "QIZO_E820_MAX";
    Ok ("struct qizo_e820 " +:+ name +:+ "[" +:+ fmt_d n +:+ "];")
  else
    match ARRS !! t with
    | Some (base, n) => Ok (base +:+ " " +:+ name +:+ "[" +:+ fmt_d n +:+ "];")
    | None => Ok (t +:+ " " +:+ name +:+ ";")
    end.

(** The symbols that are asked for and missing. *)
Definition extras : list string :=
  ["QIZO_BI_E820"; "QIZO_BI_SIZE"; "QIZO_E820_MAX"; "QIZO_E820_ENT";
   "QIZO_KTEXT"; "QIZO_BOOTINFO"; "QIZO_SCRATCH"; "QIZO_BLOB_MAX"].
Definition missing (v : symbols) : list string :=
  List.filter (unresolved v) (FIELDS.*2) ++ List.filter (unresolved v) extras.

(** The macros, one for each resolved symbol, in alphabetical order. *)
Definition sorted_symbols (v : symbols) : list string :=
  sort_by String.leb (List.filter (starts "QIZO_") (map_to_list v).*1).
Definition define_line (v : symbols) (name : string) : list string :=
  match v !! name with
  | Some (Some z) => ["#define " +:+ name +:+ " 0x" +:+ fmt_X z]
  | _ => []
  end.

(** The struct of one entry of the memory map, and its assertions. *)
Definition e820_lines : list string :=
  ["struct qizo_e820 {"] ++
  ((λ f : string * string * Z, String TAB (f.1.1 +:+ " " +:+ f.1.2 +:+ ";")) <$> E820) ++
  ["} __attribute__((packed));"] ++
  ((λ f : string * string * Z,
      "_Static_assert(__builtin_offsetof(struct qizo_e820, " +:+ f.1.2 +:+ ") == " +:+ fmt_d f.2 +:+
      ", " +:+ String DQ ("e820 " +:+ f.1.2 +:+ String DQ ");")) <$> E820) ++
  ["_Static_assert(sizeof(struct qizo_e820) == QIZO_E820_ENT, " +:+
     String DQ ("e820 size" +:+ String DQ ");")].

(** One field of the boot information, on the lines so far and the offset of
    their end. *)
Definition emit_field (v : symbols) (f : string * string * string) (s : list string * Z)
    : res (ctl (list string * Z)) :=
  let '(t, name, symbol) := f in
  let '(lines, cur) := s in
  off ← sym v symbol;
  _ ← raise_if (off <? cur)
    (SystemExit ("qizo: bootinfo field " +:+ name +:+ " overlaps previous field"));
  let lines := if cur <? off
               then lines ++ [String TAB ("u8 pad_" +:+ name +:+ "[" +:+ fmt_d (off - cur) +:+ "];")]
               else lines in
  d ← decl t name v;
  let lines := lines ++ [String TAB d] in
  cur ← (if bool_decide (t = "e820arr") then
           ent ← sym v "QIZO_E820_ENT"; n ← sym v "QIZO_E820_MAX"; Ok (off + ent * n)
         else size ← or_raise (KeyError t) (SIZES !! t); Ok (off + size));
  Ok (Next (lines, cur)).

Definition offset_assert (f : string * string * string) : string :=
  let '(_, name, symbol) := f in
  "_Static_assert(__builtin_offsetof(struct qizo_bootinfo, " +:+ name +:+ ") == " +:+ symbol +:+
  ", " +:+ String DQ (name +:+ String DQ ");").

(** [emit]: the lines of the header, and the text that is written *)
Definition emit_lines (v : symbols) : res (list string) :=
  _ ← raise_if (negb (bool_decide (missing v = [])))
    (SystemExit ("qizo: unresolved bootinfo symbols: " +:+ join ", " (missing v)));
  let head := ["#pragma once";
    "/* generated by tools/qizoartifacts/qizobootinfo.py from boot/qizoboot.inc */"] ++
    (sorted_symbols v ≫= define_line v) ++ [""] ++ e820_lines ++ [""] ++ ["struct qizo_bootinfo {"] in
  s ← for_each (emit_field v) FIELDS ([], 0);
  Ok (head ++ s.1 ++ ["} __attribute__((packed));"] ++ (offset_assert <$> FIELDS) ++
    ["_Static_assert(sizeof(struct qizo_bootinfo) <= QIZO_BI_SIZE, " +:+
       String DQ ("bootinfo size" +:+ String DQ ");")]).

Definition emit (inc_text : string) : res (string * Z) :=
  lines ← emit_lines (parse_inc inc_text);
  Ok (join (String NL "") lines +:+ String NL "", len lines).

(** The program: the file it writes and the line it prints, given its arguments
    and the contents of the file the first one names. *)
Definition main (argv : list string) (open_ : string → res string) : res (string * string * string) :=
  inc ← or_raise IndexError (argv !! 1%nat);
  out ← or_raise IndexError (argv !! 2%nat);
  inc_text ← open_ inc;
  '(text, n) ← emit inc_text;
  Ok (out, text, "bootinfo header: " +:+ fmt_d n +:+ " lines from " +:+ last_field "/"%char inc).

(** ** Reading the struct as a C compiler does *)

Definition type_size (t : string) : option Z :=
  if bool_decide (t = "u8") then Some 1
  else if bool_decide (t = "u32") then Some 4
  else if bool_decide (t = "u64") then Some 8
  else if bool_decide (t = "struct qizo_e820") then Some 24
  else None.

(** A member of a packed struct: its name and its size. *)
Definition read_member (line : string) : option (string * Z) :=
  s ← after (String TAB "") line;
  td ← rsplit1 " " s;
  size ← type_size td.1;
  let '(name, rest) := str_span is_word td.2 in
  match rest with
  | String "[" rest =>
      let '(num, rest) := str_span is_digit rest in
      n ← read_digits 10 true 0 num;
      if bool_decide (rest = "];") then Some (name, size * n) else None
  | _ => if bool_decide (rest = ";") then Some (name, size) else None
  end.

(** The lines between the opening line of a struct and its closing line. *)
Fixpoint take_until (stop : string) (lines : list string) : option (list string) :=
  match lines with
  | [] => None
  | l :: lines => if bool_decide (l = stop) then Some [] else cons l <$> take_until stop lines
  end.
Fixpoint struct_body (tag : string) (lines : list string) : option (list string) :=
  match lines with
  | [] => None
  | l :: lines =>
      if bool_decide (l = "struct " +:+ tag +:+ " {")
      then take_until "} __attribute__((packed));" lines
      else struct_body tag lines
  end.

(** Members of a packed struct follow each other without gaps. *)
Definition sizeof (ms : list (string * Z)) : Z := foldr (λ m n, m.2 + n) 0 ms.
Fixpoint offsetof (name : string) (ms : list (string * Z)) : option Z :=
  match ms with
  | [] => None
  | (m, size) :: ms => if bool_decide (m = name) then Some 0 else Z.add size <$> offsetof name ms
  end.

(** The members of the struct [tag] declared in [lines]. *)
Definition members (lines : list string) (tag : string) : option (list (string * Z)) :=
  struct_body tag lines ≫= mapM read_member.

(** ** Members *)

Lemma rsplit1_last sep u v :
  all_chars (λ c, negb (c =? sep)%char) v = true → rsplit1 sep (u +:+ String sep v) = Some (u, v).
Proof.
  intros Hv. assert (rsplit1 sep v = None) as Hn.
  { induction v as [|c v IH]; [done|]. cbn [all_chars rsplit1] in *.
    apply andb_true_iff in Hv as [Hc Hv]. rewrite (IH Hv). by destruct (c =? sep)%char. }
  induction u as [|c u IH]; simpl; [by rewrite Hn, Ascii.eqb_refl|by rewrite IH].
Qed.

Lemma all_chars_app p s t : all_chars p (s +:+ t) = all_chars p s && all_chars p t.
Proof. induction s as [|c s IH]; simpl; [done|]. by rewrite IH, andb_assoc. Qed.

Lemma show_digits_decimal fuel n s :
  all_chars is_digit s = true → all_chars is_digit (show_digits fuel 10 n s) = true.
Proof.
  revert n s. induction fuel as [|fuel IH]; intros n s Hs; [done|]. cbn [show_digits].
  assert (all_chars is_digit (String (digit_char (n mod 10)) s) = true) as H.
  { cbn [all_chars]. rewrite Hs, andb_true_r. pose proof (Z.mod_pos_bound n 10 ltac:(lia)).
    generalize dependent (n mod 10). intros d Hd.
    assert (d ∈ seqZ 0 10) as Hin by (apply elem_of_seqZ; lia).
    repeat (apply elem_of_cons in Hin as [->|Hin]; [done|]). by apply not_elem_of_nil in Hin. }
  case_match; [done|by apply IH].
Qed.

(** A printed size is read back. *)
Lemma fmt_d_digits n : 0 ≤ n → all_chars is_digit (fmt_d n) = true ∧ read_digits 10 true 0 (fmt_d n) = Some n.
Proof.
  intros. unfold fmt_d. rw_bool. split; [by apply show_digits_decimal|by apply read_show_base].
Qed.

Lemma word_not_blank c : is_word c = true → negb (c =? " ")%char = true.
Proof. by destruct c as [[] [] [] [] [] [] [] []]. Qed.
Lemma digit_not_blank c : is_digit c = true → negb (c =? " ")%char = true.
Proof. by destruct c as [[] [] [] [] [] [] [] []]. Qed.

Lemma read_scalar t size name :
  type_size t = Some size → all_chars is_word name = true →
  read_member (String TAB (t +:+ " " +:+ name +:+ ";")) = Some (name, size).
Proof.
  intros Ht Hn. unfold read_member.
  change (after (String TAB "") (String TAB ?s)) with (Some s). cbn [mbind option_bind].
  change (" " +:+ name +:+ ";") with (String " " (name +:+ ";")). rewrite rsplit1_last.
  2: { rewrite all_chars_app. by rewrite (LY.all_chars_impl is_word _ name) by (done || apply word_not_blank). }
  cbn [mbind option_bind fst snd]. rewrite Ht. cbn [mbind option_bind].
  rewrite LY.str_span_app by (done || by intros ?? [= <- _]). done.
Qed.

Lemma read_array t size name n :
  type_size t = Some size → all_chars is_word name = true → 0 ≤ n →
  read_member (String TAB (t +:+ " " +:+ name +:+ "[" +:+ fmt_d n +:+ "];")) = Some (name, size * n).
Proof.
  intros Ht Hn H0. destruct (fmt_d_digits n H0) as [Hd Hr]. unfold read_member.
  change (after (String TAB "") (String TAB ?s)) with (Some s). cbn [mbind option_bind].
  change (" " +:+ name +:+ ?s) with (String " " (name +:+ s)). rewrite rsplit1_last.
  2: { rewrite !all_chars_app. rewrite (LY.all_chars_impl is_word _ name) by (done || apply word_not_blank).
       by rewrite (LY.all_chars_impl is_digit _ (fmt_d n)) by (done || apply digit_not_blank). }
  cbn [mbind option_bind fst snd]. rewrite Ht. cbn [mbind option_bind].
  rewrite LY.str_span_app by (done || by intros ?? [= <- _]).
  change ("[" +:+ ?s) with (String "[" s). cbv iota.
  rewrite LY.str_span_app by (done || by intros ?? [= <- _]).
  rewrite Hr. by rewrite bool_decide_true.
Qed.

(** ** The fields *)

(** The size of a field, given the length of the memory map. *)
Definition field_size (max : Z) (t : string) : option Z :=
  if bool_decide (t = "e820arr") then Some (24 * max) else SIZES !! t.

Section fields.
Variables (v : symbols) (max : Z).
Hypothesis Hent : sym v "QIZO_E820_ENT" = Ok 24.
Hypothesis Hmax : sym v "QIZO_E820_MAX" = Ok max.
Hypothesis Hpos : 0 ≤ max.

Lemma decl_member t name size d :
  field_size max t = Some size → all_chars is_word name = true → decl t name v = Ok d →
  read_member (String TAB d) = Some (name, size).
Proof.
  unfold field_size, decl. intros Hs Hn. case_bool_decide as Ht.
  - rewrite Hmax. cbn [mbind res_bind]. intros [= <-]. injection Hs as <-. by apply (read_array "struct qizo_e820" 24).
  - assert (t ∈ ["u8"; "u32"; "u64"; "u8arr16"; "u8arr80"]) as Hin.
    { apply elem_of_list_to_map_2 in Hs. repeat (apply elem_of_cons in Hs as [[= -> _]|Hs]; [set_solver|]).
      by apply not_elem_of_nil in Hs. }
    repeat (apply elem_of_cons in Hin as [->|Hin]).
    1-3: vm_compute in Hs; injection Hs as <-; intros [= <-]; by apply read_scalar.
    1-2: vm_compute in Hs; injection Hs as <-; intros [= <-]; by apply (read_array "u8" 1).
    by apply not_elem_of_nil in Hin.
Qed.

Definition pad_name (name : string) : string := "pad_" +:+ name.

Lemma pad_name_ne name : pad_name name ≠ name.
Proof.
  intros H%(f_equal String.length). unfold pad_name in H. rewrite <-!length_b, b_app, length_app in H.
  change (length (b "pad_")) with 4%nat in H. lia.
Qed.

(** What one field adds. *)
Lemma emit_field_spec t name symbol lines cur s size :
  field_size max t = Some size → all_chars is_word name = true →
  emit_field v (t, name, symbol) (lines, cur) = Ok (Next s) →
  ∃ off new ms, sym v symbol = Ok off ∧ cur ≤ off ∧ s = (lines ++ new, off + size) ∧
    mapM read_member new = Some (ms ++ [(name, size)]) ∧ sizeof ms = off - cur ∧
    Forall (λ m, m.1 = pad_name name) ms ∧ Forall (λ l, l ≠ "} __attribute__((packed));") new.
Proof.
  intros Hs Hn. unfold emit_field. intros (off & Hoff & H)%bind_Ok. apply bind_Ok in H as ([] & Hover & H).
  unfold raise_if in Hover. destruct (Z.ltb_spec off cur); [done|].
  apply bind_Ok in H as (d & Hd & H). apply bind_Ok in H as (cur' & Hcur & H).
  assert (cur' = off + size) as ->.
  { unfold field_size in Hs. case_bool_decide.
    - rewrite Hent, Hmax in Hcur. cbn in Hcur. injection Hcur as <-. injection Hs as <-. done.
    - rewrite Hs in Hcur. by injection Hcur as <-. }
  apply Ok_inj in H. injection H as <-. pose proof (decl_member _ _ _ _ Hs Hn Hd) as Hm.
  destruct (Z.ltb_spec cur off).
  - exists off, [String TAB ("u8 pad_" +:+ name +:+ "[" +:+ fmt_d (off - cur) +:+ "];"); String TAB d],
      [(pad_name name, off - cur)].
    split_and!; [done|lia|by rewrite <-(assoc_L (++))| | |by repeat constructor|by repeat constructor].
    + cbn [mapM mbind option_bind]. rewrite Hm.
      pose proof (read_array "u8" 1 (pad_name name) (off - cur) eq_refl) as Hr.
      rewrite Z.mul_1_l in Hr. cbn [pad_name] in Hr. unfold pad_name in Hr at 2.
      change ("u8" +:+ " " +:+ ("pad_" +:+ name) +:+ ?s) with ("u8 pad_" +:+ name +:+ s) in Hr.
      rewrite Hr; [done| |lia]. unfold pad_name. by rewrite all_chars_app, Hn.
    + cbn [sizeof foldr snd]. lia.
  - exists off, [String TAB d], []. split_and!; [done|lia|done| |cbn; lia|done|by repeat constructor].
    cbn [mapM mbind option_bind]. by rewrite Hm.
Qed.

Lemma mapM_app_Some {A B} (f : A → option B) l1 l2 k1 k2 :
  mapM f l1 = Some k1 → mapM f l2 = Some k2 → mapM f (l1 ++ l2) = Some (k1 ++ k2).
Proof.
  rewrite !mapM_Some. intros H1 H2. by apply Forall2_app.
Qed.

Lemma offsetof_app name ms ms' :
  Forall (λ m, m.1 ≠ name) ms → offsetof name (ms ++ ms') = Z.add (sizeof ms) <$> offsetof name ms'.
Proof.
  induction 1 as [|[m size] ms Hm Hms IH]; cbn [app offsetof sizeof foldr snd].
  - by destruct (offsetof name ms').
  - cbn [fst] in Hm. rewrite bool_decide_false, IH by done. unfold sizeof.
    destruct (offsetof name ms'); [|done]. cbn. f_equal. lia.
Qed.

Lemma sizeof_app ms ms' : sizeof (ms ++ ms') = sizeof ms + sizeof ms'.
Proof. unfold sizeof. induction ms as [|m ms IH]; [done|]. cbn [app foldr]. lia. Qed.

(** The whole loop: the members it declares, in order, have the offsets of the
    symbols. *)
Lemma emit_fields_spec fs lines cur s :
  Forall (λ f, is_Some (field_size max f.1.1) ∧ all_chars is_word f.1.2 = true) fs →
  NoDup fs.*1.*2 → (∀ a c, a ∈ fs.*1.*2 → c ∈ fs.*1.*2 → c ≠ pad_name a) →
  for_each (emit_field v) fs (lines, cur) = Ok s →
  ∃ new ms, s = (lines ++ new, cur + sizeof ms) ∧ mapM read_member new = Some ms ∧
    Forall (λ l, l ≠ "} __attribute__((packed));") new ∧
    ∀ f, f ∈ fs → ∃ off, sym v f.2 = Ok off ∧ offsetof f.1.2 ms = Some (off - cur).
Proof.
  intros Hok. revert lines cur. induction Hok as [|[[t name] symbol] fs [[size Hsize] Hname] Hok IH]; intros lines cur Hnd Hpad.
  { intros [= <-]. exists [], []. rewrite (right_id_L [] (++)). cbn [sizeof foldr].
    split_and!; [f_equal; lia|done|done|]. by intros f ?%not_elem_of_nil. }
  rewrite for_each_cons. intros (c & Hc & H)%bind_Ok. cbn [fmap list_fmap fst snd] in *.
  apply list.NoDup_cons in Hnd as [Hnew Hnd].
  destruct c as [[l1 c1]|?].
  2: { exfalso. unfold emit_field in Hc. apply bind_Ok in Hc as (? & _ & Hc).
       do 3 (apply bind_Ok in Hc as (? & _ & Hc)). done. }
  apply (emit_field_spec _ _ _ _ _ _ size) in Hc as (off & new1 & ms1 & Hoff & Hle & [= -> ->] & Hm1 & Hs1 & Hp1 & Hne1);
    [|done..].
  apply IH in H as (new2 & ms2 & -> & Hm2 & Hne2 & Hf2);
    [|done|intros a c Ha Hc; apply Hpad; apply elem_of_cons; by right].
  exists (new1 ++ new2), ((ms1 ++ [(name, size)]) ++ ms2). split_and!.
  - rewrite (assoc_L (++)), !sizeof_app. cbn [sizeof foldr snd]. f_equal. lia.
  - by apply mapM_app_Some.
  - by apply Forall_app.
  - rewrite <-(assoc_L (++)). intros f [->|Hf]%elem_of_cons; cbn [fst snd].
    + exists off. split; [done|]. rewrite offsetof_app.
      2: { eapply Forall_impl; [|exact Hp1]. intros [m z]. cbn [fst]. intros ->. apply pad_name_ne. }
      cbn [app offsetof]. rewrite bool_decide_true by done. cbn. f_equal. lia.
    + destruct (Hf2 f Hf) as (off' & Ho' & Hoff'). exists off'. split; [done|].
      assert (f.1.2 ∈ fs.*1.*2) as Hin by (apply list_elem_of_fmap_2, list_elem_of_fmap_2, Hf).
      rewrite offsetof_app.
      2: { eapply Forall_impl; [|exact Hp1]. intros [m z]. cbn [fst]. intros ->. intros E.
           apply (Hpad name f.1.2); [apply elem_of_cons; by left|apply elem_of_cons; by right|done]. }
      cbn [app offsetof]. rewrite bool_decide_false by (intros ->; done). rewrite Hoff'. cbn. f_equal. lia.
Qed.
End fields.

(** ** The header *)

Lemma struct_body_app tag pre lines :
  Forall (λ l, l ≠ "struct " +:+ tag +:+ " {") pre → struct_body tag (pre ++ lines) = struct_body tag lines.
Proof. induction 1 as [|l pre Hl Hpre IH]; [done|]. cbn [app struct_body]. by rewrite bool_decide_false. Qed.

Lemma take_until_app stop body lines :
  Forall (λ l, l ≠ stop) body → take_until stop (body ++ stop :: lines) = Some body.
Proof.
  induction 1 as [|l body Hl Hb IH]; cbn [app take_until]; [by rewrite bool_decide_true|].
  by rewrite bool_decide_false, IH.
Qed.

Lemma define_line_ne v names tag :
  Forall (λ l, l ≠ "struct " +:+ tag +:+ " {") (names ≫= define_line v).
Proof.
  induction names as [|n names IH]; [constructor|]. cbn [mbind list_bind]. apply Forall_app. split; [|done].
  unfold define_line. repeat case_match; by repeat constructor.
Qed.

(** The fields have known types, plain names that differ, and no name is the
    name of a gap. *)
Lemma FIELDS_ok max :
  Forall (λ f, is_Some (field_size max f.1.1) ∧ all_chars is_word f.1.2 = true) FIELDS ∧
  NoDup FIELDS.*1.*2 ∧ ∀ a c, a ∈ FIELDS.*1.*2 → c ∈ FIELDS.*1.*2 → c ≠ pad_name a.
Proof.
  split_and!.
  - unfold FIELDS. repeat (apply Forall_cons_iff; split; [split; [by eexists|done]|]). constructor.
  - apply (bool_decide_unpack _). by vm_compute.
  - assert (Forall (λ a, Forall (λ c, c ≠ pad_name a) FIELDS.*1.*2) FIELDS.*1.*2) as H
      by (apply (bool_decide_unpack _); by vm_compute).
    intros a c Ha Hc. rewrite !List.Forall_forall in H. apply list_elem_of_In in Ha.
    specialize (H a Ha). rewrite List.Forall_forall in H. by apply H, list_elem_of_In.
Qed.

(** ** Theorems *)


Definition inc_lines : list string :=
  match emit_lines (parse_inc LY.INC_TEXT) with Ok lines => lines | _ => [] end.


(** The header of the repository: both readers of the layout file find the
    same symbols, the macros are exactly those symbols, and the struct the
    kernel is compiled with has 0x678 bytes, within the 0x700 reserved for it,
    with 32 entries of 24 bytes in its memory map. *)
Theorem emit_inc :
  (∃ vals, LY.LAYOUT = Ok vals ∧ parse_inc LY.INC_TEXT = Some <$> vals) ∧
  emit_lines (parse_inc LY.INC_TEXT) = Ok inc_lines ∧
  (∃ ms, members inc_lines "qizo_bootinfo" = Some ms ∧ sizeof ms = 0x678 ∧ sizeof ms ≤ LY.BOOTINFO_SIZE ∧
     offsetof "map" ms = Some 0x100 ∧ offsetof "map_count" ms = Some (0x100 + 32 * 24)) ∧
  (∃ ms, members inc_lines "qizo_e820" = Some ms ∧ sizeof ms = LY.E820_ENT ∧
     Forall (λ f, offsetof f.1.2 ms = Some f.2) E820).
Proof.
  split_and!.
  - exists (match LY.LAYOUT with Ok m => m | _ => ∅ end). apply (bool_decide_unpack _). by vm_compute.
  - by vm_compute.
  - exists (default [] (members inc_lines "qizo_bootinfo")). apply (bool_decide_unpack _). by vm_compute.
  - exists (default [] (members inc_lines "qizo_e820")). apply (bool_decide_unpack _). by vm_compute.
Qed.

(** Nothing is generated when a symbol the header needs is missing or has
    no value: the exit names all of them, in the order they are looked for. *)
Theorem emit_missing v :
  missing v ≠ [] →
  emit_lines v = Raise (SystemExit ("qizo: unresolved bootinfo symbols: " +:+ join ", " (missing v))).
Proof. intros H. unfold emit_lines. by rewrite bool_decide_false. Qed.

End BI.
