(* ===== verification/PageTables.v ===== *)
(** * The page tables of the boot: [check_tables] of [tools/qizoasm/qizoasmrun.py]

    [check_tables] inspects the six pages the 32 bit boot code fills in.  The
    second half is the translation a processor in long mode does with them, and
    the theorem that tables that pass map every address below 4 GiB to itself. *)

From S2P Require Export PyBytes Layout.

(** Let [lia] reason about quotients and remainders by constants. *)
#[local] Ltac Zify.zify_post_hook ::= Z.to_euclidean_division_equations.

Module PT.

Definition PRESENT : Z := 0x01.
Definition WRITABLE : Z := 0x02.
Definition PS : Z := 0x80.

(** [x & ~0xFFF] and [x & ~0x1FFFFF] *)
Definition page_of (x : Z) : Z := Z.land x (Z.lnot 0xFFF).
Definition large_page_of (x : Z) : Z := Z.land x (Z.lnot 0x1FFFFF).

(** [bool(x)] *)
Definition nonzero (x : Z) : bool := negb (x =? 0).

(** The entry [idx] of page [page], as two words. *)
Definition ent (tables : bytes) (page idx : Z) : res (Z * Z) :=
  let off := page * 0x1000 + idx * 8 in
  lo ← unpack_le 4 tables off;
  hi ← unpack_le 4 tables (off + 4);
  Ok (lo, hi).

(** [if c: bad.append(msg)] *)
Definition add_if (c : bool) (msg : string) (bad : list string) : list string :=
  if c then bad ++ [msg] else bad.

Definition dir_entry (tables : bytes) (base : Z) (where_ : string) (page idx want : Z)
    (bad : list string) : res (list string) :=
  e ← ent tables page idx;
  let '(lo, hi) := e in
  let bad := add_if (negb (nonzero (Z.land lo PRESENT))) (where_ +:+ " not present") bad in
  let bad := add_if (nonzero (Z.land lo PS))
    (where_ +:+ " sets the page size bit in a non leaf entry") bad in
  let bad := add_if (nonzero (Z.land lo 0x300))
    (where_ +:+ " sets reserved flag bits in a non leaf entry") bad in
  let bad := add_if (nonzero hi) (where_ +:+ " points above 4 GiB") bad in
  Ok (add_if (negb (page_of lo - base =? want))
    (where_ +:+ " points at offset 0x" +:+ fmt_x (page_of lo - base) +:+
     " in the table block, expected 0x" +:+ fmt_x want) bad).

(** The loops over the entries that must be clear: the first one that is not is
    reported. *)
Definition clear_entry (tables : bytes) (page : Z) (msg : Z → string) (idx : Z) (bad : list string)
    : res (ctl (list string)) :=
  e ← ent tables page idx;
  let '(lo, hi) := e in
  if nonzero lo || nonzero hi then Ok (Break (bad ++ [msg idx])) else Ok (Next bad).

(** The 2 MiB pages. *)
Definition leaf_entry (tables : bytes) (slot : Z) (bad : list string) : res (ctl (list string)) :=
  e ← ent tables (2 + (slot * 8) / 0x1000) ((slot * 8) mod 0x1000 / 8);
  let '(lo, hi) := e in
  let want := Z.lor (slot * 0x200000) LY.PT_PAGE in
  if negb (lo =? want) || nonzero hi then
    Ok (Break (bad ++ ["PDT entry " +:+ fmt_d slot +:+ " is " +:+ fmt_08x lo +:+ " " +:+ fmt_08x hi +:+
      ", expected identity map at " +:+ fmt_08x (Z.land want 0xFFFFFFFF) +:+ " " +:+
      fmt_08x (Z.shiftr want 32)]%string))
  else Ok (Next bad).

(** The addresses that are looked up at the end. *)
Definition probes : list Z :=
  [0x4000; 0x10000; 0x44000; 0x100000; 0x126000; 0x180000; 0x300000; 0x305FF8; 0xFFE00000].

Definition probe (tables : bytes) (la : Z) (bad : list string) : res (ctl (list string)) :=
  let slot := Z.lor (Z.land (Z.shiftr la 21) 0x1FF) (Z.shiftl (Z.land (Z.shiftr la 30) 3) 9) in
  let page := 2 + slot / 512 in
  e ← ent tables page (slot mod 512);
  let '(lo, hi) := e in
  Ok (Next (add_if (negb (nonzero (Z.land lo PRESENT)) || negb (page_of lo =? large_page_of la))
    ("linear 0x" +:+ fmt_x la +:+ " has no identity mapping") bad)).

(** Where the block of tables is, judging by the first entry. *)
Definition table_base (tables : bytes) : res Z :=
  e ← ent tables 0 0; Ok (page_of e.1 - 0x1000).

Definition check_tables (tables : bytes) : res (list string) :=
  base ← table_base tables;
  bad ← dir_entry tables base "PML4[0]" 0 0 0x1000 [];
  bad ← for_each (clear_entry tables 0 (λ idx, "PML4[" +:+ fmt_d idx +:+ "] is set but nothing maps that range"))
    (range 1 512) bad;
  bad ← for_each (λ idx bad,
      bad ← dir_entry tables base ("PDPT[" +:+ fmt_d idx +:+ "]") 1 idx (0x2000 + idx * 0x1000) bad;
      Ok (Next bad)) (range 0 4) bad;
  bad ← for_each (clear_entry tables 1 (λ idx, "PDPT[" +:+ fmt_d idx +:+ "] maps past 4 GiB without a table"))
    (range 4 512) bad;
  bad ← for_each (leaf_entry tables) (range 0 2048) bad;
  for_each (probe tables) probes bad.

(** ** Loops that report *)

(** A loop that only adds to the list of problems and adds one when it stops. *)
Definition reports {A} (body : A → list string → res (ctl (list string))) : Prop :=
  ∀ x bad c, body x bad = Ok c →
    match c with Next bad' => ∃ k, bad' = bad ++ k | Break bad' => ∃ k m, bad' = bad ++ m :: k end.

Lemma reports_grows {A} (body : A → list string → res (ctl (list string))) l bad bad' :
  reports body → for_each body l bad = Ok bad' → ∃ k, bad' = bad ++ k.
Proof.
  intros Hb. revert bad. induction l as [|x l IH]; intros bad.
  - intros [= <-]. exists []. by rewrite (right_id_L [] (++)).
  - rewrite for_each_cons. intros (c & Hc & H)%bind_Ok. apply Hb in Hc as Hc'. destruct c as [s|s].
    + destruct Hc' as [k ->]. apply IH in H as [k' ->]. exists (k ++ k'). by rewrite (assoc_L (++)).
    + destruct Hc' as (k & m & ->). injection H as <-. by exists (m :: k).
Qed.

(** When nothing was reported, no round reported anything. *)
Lemma reports_nothing {A} (body : A → list string → res (ctl (list string))) l bad :
  reports body → for_each body l bad = Ok [] → bad = [] ∧ ∀ x, x ∈ l → body x [] = Ok (Next []).
Proof.
  intros Hb. revert bad. induction l as [|x l IH]; intros bad.
  - intros [= ->]. split; [done|]. by intros x ?%not_elem_of_nil.
  - rewrite for_each_cons. intros (c & Hc & H)%bind_Ok. apply Hb in Hc as Hc'. destruct c as [s|s].
    + apply IH in H as [-> H]. destruct Hc' as [k Hk]. symmetry in Hk. apply app_eq_nil in Hk as [-> ->].
      split; [done|]. intros y [->|Hy]%elem_of_cons; [done|by apply H].
    + destruct Hc' as (k & m & Hk). injection H as ->. symmetry in Hk. by apply app_eq_nil in Hk as [_ ?].
Qed.

Lemma add_if_grows c msg bad : ∃ k, add_if c msg bad = bad ++ k.
Proof. destruct c; [by exists [msg]|]. exists []. by rewrite (right_id_L [] (++)). Qed.

Lemma add_if_nil c msg bad : add_if c msg bad = [] → bad = [] ∧ c = false.
Proof. destruct c; simpl; [by intros [_ ?]%app_eq_nil|done]. Qed.

Lemma clear_entry_reports tables page msg : reports (clear_entry tables page msg).
Proof.
  intros idx bad c. unfold clear_entry. intros ([lo hi] & _ & H)%bind_Ok.
  case_match; injection H as <-; [by exists [], (msg idx)|]. exists []. by rewrite (right_id_L [] (++)).
Qed.

Lemma leaf_entry_reports tables : reports (leaf_entry tables).
Proof.
  intros slot bad c. unfold leaf_entry. intros ([lo hi] & _ & H)%bind_Ok.
  case_match; injection H as <-; [by eexists [], _|]. exists []. by rewrite (right_id_L [] (++)).
Qed.

Lemma probe_reports tables : reports (probe tables).
Proof.
  intros la bad c. unfold probe. intros ([lo hi] & _ & H)%bind_Ok. injection H as <-. apply add_if_grows.
Qed.

(** An entry of the upper levels that passes. *)
Definition points_to (tables : bytes) (page idx target : Z) : Prop :=
  ∃ lo, ent tables page idx = Ok (lo, 0) ∧ Z.land lo PRESENT ≠ 0 ∧ Z.land lo PS = 0 ∧
    Z.land lo 0x300 = 0 ∧ page_of lo = target.

Lemma dir_entry_grows tables base w page idx want bad bad' :
  dir_entry tables base w page idx want bad = Ok bad' → ∃ k, bad' = bad ++ k.
Proof.
  unfold dir_entry. intros ([lo hi] & _ & H)%bind_Ok. injection H as <-.
  repeat match goal with |- context [add_if ?c ?m ?b] =>
    lazymatch b with bad => destruct (add_if_grows c m b) as [? ->] end end.
  repeat match goal with |- context [add_if ?c ?m (bad ++ ?k)] =>
    destruct (add_if_grows c m (bad ++ k)) as [? ->]; rewrite <-(assoc_L (++)) end.
  by eexists.
Qed.

Lemma dir_entry_nothing tables base w page idx want bad :
  dir_entry tables base w page idx want bad = Ok [] → bad = [] ∧ points_to tables page idx (base + want).
Proof.
  unfold dir_entry. intros ([lo hi] & He & H)%bind_Ok. apply Ok_inj in H.
  apply add_if_nil in H as [H H1]. apply add_if_nil in H as [H H2]. apply add_if_nil in H as [H H3].
  apply add_if_nil in H as [H H4]. apply add_if_nil in H as [H H5]. split; [done|].
  unfold nonzero in *. rewrite !negb_false_iff in *. rewrite negb_true_iff, Z.eqb_neq in H5.
  rewrite !Z.eqb_eq in *. subst hi. exists lo. split_and!; [done|done|done|done|lia].
Qed.

Lemma pdpt_reports tables base :
  reports (λ idx bad, bad ← dir_entry tables base ("PDPT[" +:+ fmt_d idx +:+ "]") 1 idx (0x2000 + idx * 0x1000) bad;
    Ok (Next bad)).
Proof.
  intros idx bad c. intros (bad' & H & Hc)%bind_Ok. injection Hc as <-. by apply dir_entry_grows in H.
Qed.

(** ** Translation

    What a processor in long mode does with an address of 48 bits when the
    tables lie at [base]: the levels are selected by bits 39, 30 and 21, an
    entry counts when its present bit is set, and the third level has pages of
    2 MiB.  [None] is a fault (or a page size these tables do not use). *)

Definition frame_of (e : Z) : Z := Z.land e 0x000FFFFFFFFFF000.
Definition large_frame_of (e : Z) : Z := Z.land e 0x000FFFFFFFE00000.

Definition pte (tables : bytes) (base p : Z) : option Z :=
  let off := p - base in
  if (0 <=? off) && (off + 8 <=? len tables) then Some (le_val (slice tables off (off + 8))) else None.

(** One level: the entry, if present. *)
Definition level (tables : bytes) (base table la shift : Z) : option Z :=
  e ← pte tables base (table + 8 * (Z.shiftr la shift mod 512));
  if nonzero (Z.land e PRESENT) then Some e else None.

Definition walk (tables : bytes) (base la : Z) : option Z :=
  e4 ← level tables base base la 39;
  e3 ← level tables base (frame_of e4) la 30;
  if nonzero (Z.land e3 PS) then None
  else
    e2 ← level tables base (frame_of e3) la 21;
    if nonzero (Z.land e2 PS) then Some (large_frame_of e2 + la mod 0x200000) else None.

(** Masks as arithmetic. *)
Lemma ldiff_ones x n : 0 ≤ n → Z.ldiff x (Z.ones n) = 2 ^ n * (x / 2 ^ n).
Proof. intros. rewrite Z.ldiff_ones_r, Z.shiftl_mul_pow2, Z.shiftr_div_pow2 by done. lia. Qed.

Lemma page_of_eq x : page_of x = 4096 * (x / 4096).
Proof. exact (ldiff_ones x 12 ltac:(lia)). Qed.

Lemma mask_frame x n : 0 ≤ n → 0 ≤ x < 2 ^ 52 → Z.land x (Z.ldiff (Z.ones 52) (Z.ones n)) = 2 ^ n * (x / 2 ^ n).
Proof.
  intros Hn Hx. rewrite <-ldiff_ones by done. apply Z.bits_inj'. intros i Hi.
  rewrite Z.land_spec, !Z.ldiff_spec. destruct (Z.ltb_spec i 52).
  - rewrite (Z.ones_spec_low 52) by lia. done.
  - assert (Z.testbit x i = false) as ->; [|done].
    destruct (Z.eq_dec x 0) as [->|]; [apply Z.bits_0|].
    apply Z.bits_above_log2; [lia|]. assert (Z.log2 x < 52) by (apply Z.log2_lt_pow2; lia). lia.
Qed.

Lemma frame_of_eq x : 0 ≤ x < 2 ^ 52 → frame_of x = page_of x.
Proof. intros. rewrite page_of_eq. exact (mask_frame x 12 ltac:(lia) ltac:(done)). Qed.

Lemma large_frame_of_eq x : 0 ≤ x < 2 ^ 52 → large_frame_of x = 0x200000 * (x / 0x200000).
Proof. intros. exact (mask_frame x 21 ltac:(lia) ltac:(done)). Qed.

(** Reading an entry as one integer. *)
Lemma ent_pte tables base page idx lo :
  Bytes tables → 0 ≤ page → 0 ≤ idx → ent tables page idx = Ok (lo, 0) →
  pte tables base (base + page * 0x1000 + 8 * idx) = Some lo ∧ 0 ≤ lo < 4294967296.
Proof.
  intros Hb Hp Hi. unfold ent. cbv zeta. intros (l & Hl & H)%bind_Ok. apply bind_Ok in H as (h & Hh & [= -> ->]).
  apply unpack_le_Ok_inv in Hl as [_ ->]; [|lia]. apply unpack_le_Ok_inv in Hh as [Hlen Hz]; [|lia].
  unfold pte. replace (base + page * 0x1000 + 8 * idx - base) with (page * 4096 + idx * 8) by lia.
  set (o := page * 4096 + idx * 8) in *. change (Z.of_nat 4) with 4 in *. cbv zeta. rw_bool. cbn [andb].
  pose proof (slice_Bytes tables o (o + 4) Hb) as Hs. pose proof (le_val_bounds _ Hs) as Hr.
  rewrite length_slice in Hr by lia. replace (Z.of_nat (Z.to_nat (o + 4 - o))) with 4 in Hr by lia.
  split; [|exact Hr]. f_equal. rewrite (slice_split _ o (o + 4)) by lia.
  replace (o + 8) with (o + 4 + 4) by lia.
  generalize dependent (slice tables (o + 4) (o + 4 + 4)). intros hi Hz. clear -Hz.
  generalize (slice tables o (o + 4)). intros l. induction l as [|x l IH]; [by cbn|]. cbn [app le_val]. lia.
Qed.

Lemma level_ok tables base page la shift lo :
  Bytes tables → 0 ≤ page → 0 ≤ la → ent tables page (Z.shiftr la shift mod 512) = Ok (lo, 0) →
  level tables base (base + page * 0x1000) la shift = (if nonzero (Z.land lo PRESENT) then Some lo else None) ∧
  0 ≤ lo < 4294967296.
Proof.
  intros Hb Hp Hla He. pose proof (Z.mod_pos_bound (Z.shiftr la shift) 512 ltac:(lia)).
  destruct (ent_pte tables base page _ lo Hb Hp (proj1 H) He) as [Hpte Hr]. unfold level.
  by rewrite Hpte.
Qed.

(** A low byte that is known. *)
Lemma land_low x c n : 0 ≤ n → 0 ≤ c < 2 ^ n → Z.land x c = Z.land (x mod 2 ^ n) c.
Proof.
  intros Hn Hc. rewrite <-Z.land_ones by done. rewrite <-Z.land_assoc, (Z.land_comm (Z.ones n)).
  rewrite Z.land_ones, Z.mod_small by lia. done.
Qed.

(** The conditions [check_tables] stands for. *)
Record mapped (tables : bytes) (base : Z) : Prop := {
  mp_top : points_to tables 0 0 (base + 0x1000);
  mp_top_rest : ∀ idx, 1 ≤ idx < 512 → ent tables 0 idx = Ok (0, 0);
  mp_dir : ∀ idx, 0 ≤ idx < 4 → points_to tables 1 idx (base + (0x2000 + idx * 0x1000));
  mp_dir_rest : ∀ idx, 4 ≤ idx < 512 → ent tables 1 idx = Ok (0, 0);
  mp_leaf : ∀ slot, 0 ≤ slot < 2048 →
    ent tables (2 + slot / 512) (slot mod 512) = Ok (slot * 0x200000 + 0x83, 0);
}.

Lemma clear_entry_nothing tables page msg idx :
  clear_entry tables page msg idx [] = Ok (Next []) → ent tables page idx = Ok (0, 0).
Proof.
  unfold clear_entry. intros ([lo hi] & He & H)%bind_Ok. rewrite He. unfold nonzero in H.
  destruct (Z.eqb_spec lo 0) as [Hlo|], (Z.eqb_spec hi 0) as [Hhi|]; [by rewrite Hlo, Hhi|done..].
Qed.

Lemma leaf_value slot : 0 ≤ slot → Z.lor (slot * 0x200000) LY.PT_PAGE = slot * 0x200000 + 0x83.
Proof.
  intros. change LY.PT_PAGE with 0x83. replace (slot * 0x200000) with (Z.shiftl slot 21) by (rewrite Z.shiftl_mul_pow2; lia).
  rewrite lor_shiftl_add by (simpl; lia). rewrite Z.shiftl_mul_pow2 by lia. change (2 ^ 21) with 0x200000. lia.
Qed.

Lemma leaf_place slot : 2 + slot * 8 / 0x1000 = 2 + slot / 512 ∧ (slot * 8) mod 0x1000 / 8 = slot mod 512.
Proof.
  replace (slot * 8) with (8 * slot) by lia. change 0x1000 with (8 * 512). split.
  - by rewrite Z.div_mul_cancel_l by lia.
  - by rewrite Zmult_mod_distr_l, Z.mul_comm, Z.div_mul by lia.
Qed.

Lemma leaf_entry_nothing tables slot :
  0 ≤ slot → leaf_entry tables slot [] = Ok (Next []) →
  ent tables (2 + slot / 512) (slot mod 512) = Ok (slot * 0x200000 + 0x83, 0).
Proof.
  intros Hs. unfold leaf_entry. intros ([lo hi] & He & H)%bind_Ok. unfold nonzero in H.
  rewrite leaf_value in H by done. destruct (Z.eqb_spec lo (slot * 0x200000 + 0x83)) as [Hlo|]; [|done].
  destruct (Z.eqb_spec hi 0) as [Hhi|]; [|done]. rewrite Hlo, Hhi in He. rewrite <-He. by destruct (leaf_place slot) as [-> ->].
Qed.

Lemma check_tables_mapped tables base :
  table_base tables = Ok base → check_tables tables = Ok [] → mapped tables base.
Proof.
  intros Hb. unfold check_tables. rewrite Hb. ok_bind. intros (b1 & H1 & H)%bind_Ok.
  apply bind_Ok in H as (b2 & H2 & H). apply bind_Ok in H as (b3 & H3 & H).
  apply bind_Ok in H as (b4 & H4 & H). apply bind_Ok in H as (b5 & H5 & H6).
  apply reports_nothing in H6 as [-> _]; [|apply probe_reports].
  apply reports_nothing in H5 as [-> Hleaf]; [|apply leaf_entry_reports].
  apply reports_nothing in H4 as [-> Hdr]; [|apply clear_entry_reports].
  apply reports_nothing in H3 as [-> Hd]; [|apply pdpt_reports].
  apply reports_nothing in H2 as [-> Htr]; [|apply clear_entry_reports].
  apply dir_entry_nothing in H1 as [_ Ht]. split; [done|..].
  - intros idx Hi. eapply clear_entry_nothing, Htr, elem_of_range. lia.
  - intros idx Hi. specialize (Hd idx (proj2 (elem_of_range 0 4 idx) Hi)).
    apply bind_Ok in Hd as (bad & Hd & [= ->]). by apply dir_entry_nothing in Hd as [_ ?].
  - intros idx Hi. eapply clear_entry_nothing, Hdr, elem_of_range. lia.
  - intros slot Hs. apply leaf_entry_nothing; [lia|]. apply Hleaf, elem_of_range. lia.
Qed.

(** Through a level that points to the page [next]. *)
Lemma level_points tables base page next la shift :
  Bytes tables → 0 ≤ page → 0 ≤ la → points_to tables page (Z.shiftr la shift mod 512) (base + next * 0x1000) →
  ∃ e, level tables base (base + page * 0x1000) la shift = Some e ∧ Z.land e PS = 0 ∧
    frame_of e = base + next * 0x1000.
Proof.
  intros Hb Hp Hla (lo & He & Hpr & Hps & _ & Hf).
  destruct (level_ok tables base page la shift lo Hb Hp Hla He) as [-> Hr]. exists lo.
  unfold nonzero. rewrite (proj2 (Z.eqb_neq _ _) Hpr). split_and!; [done|done|].
  rewrite frame_of_eq by (change (2 ^ 52) with 4503599627370496; lia). done.
Qed.

Lemma level_clear tables base page la shift :
  Bytes tables → 0 ≤ page → 0 ≤ la → ent tables page (Z.shiftr la shift mod 512) = Ok (0, 0) →
  level tables base (base + page * 0x1000) la shift = None.
Proof. intros Hb Hp Hla He. by destruct (level_ok tables base page la shift 0 Hb Hp Hla He) as [-> _]. Qed.

Lemma walk_mapped tables base la :
  Bytes tables → mapped tables base → 0 ≤ la < 2 ^ 48 →
  walk tables base la = if la <? 2 ^ 32 then Some la else None.
Proof.
  intros Hb [Htop Htr Hdir Hdr Hleaf] Hla. change (2 ^ 48) with 281474976710656 in Hla. change (2 ^ 32) with 4294967296.
  unfold walk. replace (level tables base base la 39) with (level tables base (base + 0 * 0x1000) la 39) by (f_equal; lia).
  set (i4 := Z.shiftr la 39 mod 512). assert (i4 = la / 549755813888) as Hi4.
  { unfold i4. rewrite Z.shiftr_div_pow2 by lia. change (2 ^ 39) with 549755813888. apply Z.mod_small.
    split; [apply Z.div_pos; lia|apply Z.div_lt_upper_bound; lia]. }
  destruct (Z.ltb_spec la 549755813888) as [Hlow|Hhigh].
  2: { rewrite level_clear by (done || lia || (apply Htr; fold i4; lia)). cbn. by rw_bool. }
  destruct (level_points tables base 0 1 la 39) as (e4 & -> & _ & Hf4);
    [done|lia|lia|fold i4; replace i4 with 0 by lia; exact Htop|].
  cbn [mbind option_bind]. rewrite Hf4.
  set (i3 := Z.shiftr la 30 mod 512). assert (i3 = la / 1073741824) as Hi3.
  { unfold i3. rewrite Z.shiftr_div_pow2 by lia. change (2 ^ 30) with 1073741824. apply Z.mod_small.
    split; [apply Z.div_pos; lia|apply Z.div_lt_upper_bound; lia]. }
  destruct (Z.ltb_spec la 4294967296) as [Hlt|Hge].
  2: { by rewrite level_clear by (done || lia || (apply Hdr; fold i3; lia)). }
  destruct (level_points tables base 1 (2 + i3) la 30) as (e3 & -> & Hps3 & Hf3);
    [done|lia|lia|fold i3; replace (base + (2 + i3) * 0x1000) with (base + (0x2000 + i3 * 0x1000)) by lia; apply Hdir; lia|].
  cbn [mbind option_bind]. rewrite Hps3, Hf3. cbn [nonzero Z.eqb negb].
  set (slot := la / 2097152). pose proof (Hleaf slot ltac:(lia)) as He.
  replace (2 + slot / 512) with (2 + i3) in He
    by (unfold slot; rewrite Z.div_div by lia; change (2097152 * 512) with 1073741824; lia).
  replace (slot mod 512) with (Z.shiftr la 21 mod 512) in He by (rewrite Z.shiftr_div_pow2 by lia; done).
  destruct (level_ok tables base (2 + i3) la 21 _ Hb ltac:(lia) ltac:(lia) He) as [-> Hr].
  set (e := slot * 2097152 + 131) in *. assert (e mod 2 ^ 8 = 131) as Hm.
  { unfold e. change (2 ^ 8) with 256. lia. }
  rewrite (land_low e PRESENT 8), Hm by done. change (nonzero (Z.land 131 PRESENT)) with true. cbn [mbind option_bind].
  rewrite (land_low e PS 8), Hm by done. change (nonzero (Z.land 131 PS)) with true. cbv iota. f_equal.
  rewrite large_frame_of_eq by (change (2 ^ 52) with 4503599627370496; lia). unfold e, slot. lia.
Qed.

(** ** The other direction *)

Lemma for_each_quiet {A} (body : A → list string → res (ctl (list string))) l :
  (∀ x, x ∈ l → body x [] = Ok (Next [])) → for_each body l [] = Ok [].
Proof.
  induction l as [|x l IH]; intros H; [done|]. rewrite for_each_cons, (H x) by apply list_elem_of_here.
  ok_bind. apply IH. intros y Hy. by apply H, list_elem_of_further.
Qed.

Lemma dir_entry_quiet tables base w page idx want :
  points_to tables page idx (base + want) → dir_entry tables base w page idx want [] = Ok [].
Proof.
  intros (lo & He & H1 & H2 & H3 & H4). unfold dir_entry, nonzero. rewrite He. ok_bind.
  rewrite (proj2 (Z.eqb_neq _ _) H1), H2, H3, H4.
  by replace (base + want - base =? want) with true by (symmetry; apply Z.eqb_eq; lia).
Qed.

Lemma clear_entry_quiet tables page msg idx :
  ent tables page idx = Ok (0, 0) → clear_entry tables page msg idx [] = Ok (Next []).
Proof. intros He. unfold clear_entry. by rewrite He. Qed.

Lemma leaf_entry_quiet tables slot :
  0 ≤ slot → ent tables (2 + slot / 512) (slot mod 512) = Ok (slot * 0x200000 + 0x83, 0) →
  leaf_entry tables slot [] = Ok (Next []).
Proof.
  intros Hs He. unfold leaf_entry. destruct (leaf_place slot) as [-> ->]. rewrite He. ok_bind. cbv zeta.
  rewrite leaf_value by done. by rewrite Z.eqb_refl.
Qed.

Lemma probe_quiet tables la :
  0 ≤ la < 4294967296 →
  (let slot := la / 0x200000 in ent tables (2 + slot / 512) (slot mod 512) = Ok (slot * 0x200000 + 0x83, 0)) →
  probe tables la [] = Ok (Next []).
Proof.
  cbv zeta. intros Hla He. unfold probe. cbv zeta.
  assert (Z.lor (Z.land (Z.shiftr la 21) 0x1FF) (Z.shiftl (Z.land (Z.shiftr la 30) 3) 9) = la / 0x200000) as ->.
  { change 0x1FF with (Z.ones 9). change 3 with (Z.ones 2). rewrite !Z.land_ones, !Z.shiftr_div_pow2 by lia.
    rewrite Z.lor_comm, lor_shiftl_add by (done || (apply Z.mod_pos_bound; done)).
    change (2 ^ 30) with 1073741824. change (2 ^ 21) with 2097152. change (2 ^ 9) with 512. change (2 ^ 2) with 4. lia. }
  rewrite He. ok_bind. unfold nonzero, large_page_of. set (e := la / 0x200000 * 0x200000 + 0x83).
  assert (e mod 2 ^ 8 = 131) as Hm by (unfold e; change (2 ^ 8) with 256; lia).
  rewrite (land_low e PRESENT 8), Hm by done. change (Z.land 131 PRESENT =? 0) with false.
  rewrite page_of_eq. change 0x1FFFFF with (Z.ones 21). change (Z.land la (Z.lnot (Z.ones 21))) with (Z.ldiff la (Z.ones 21)).
  rewrite ldiff_ones by lia. change (2 ^ 21) with 0x200000.
  replace (4096 * (e / 4096) =? 0x200000 * (la / 0x200000)) with true; [done|].
  symmetry. apply Z.eqb_eq. unfold e. lia.
Qed.

Lemma mapped_check tables base : table_base tables = Ok base → mapped tables base → check_tables tables = Ok [].
Proof.
  intros Hb [Htop Htr Hdir Hdr Hleaf]. unfold check_tables. rewrite Hb. ok_bind.
  rewrite dir_entry_quiet by done. ok_bind.
  rewrite for_each_quiet by (intros idx ?%elem_of_range; apply clear_entry_quiet, Htr; lia). ok_bind.
  rewrite for_each_quiet by (intros idx ?%elem_of_range; by rewrite dir_entry_quiet by (apply Hdir; lia)). ok_bind.
  rewrite for_each_quiet by (intros idx ?%elem_of_range; apply clear_entry_quiet, Hdr; lia). ok_bind.
  rewrite for_each_quiet by (intros idx ?%elem_of_range; apply leaf_entry_quiet; [lia|apply Hleaf; lia]). ok_bind.
  apply for_each_quiet. intros la Hin. unfold probes in Hin.
  repeat (apply elem_of_cons in Hin as [->|Hin]; [apply probe_quiet; [lia|apply Hleaf; vm_compute; by split]|]).
  by apply not_elem_of_nil in Hin.
Qed.

(** The tables of a boot, for the block at [base]: six pages of entries. *)
Definition entry_at (base k : Z) : Z :=
  if k =? 0 then base + 0x1003
  else if k <? 512 then 0
  else if k <? 516 then base + 0x2003 + (k - 512) * 0x1000
  else if k <? 1024 then 0
  else (k - 1024) * 0x200000 + 0x83.
Definition entry_bytes (e : Z) : bytes := le_bytes 4 e ++ zeros 4.
Definition built (base : Z) : bytes := seqZ 0 3072 ≫= λ k, entry_bytes (entry_at base k).

Lemma length_entries (f : Z → Z) a n : 0 ≤ n → len (seqZ a n ≫= λ k, entry_bytes (f k)) = 8 * n.
Proof.
  intros Hn. remember (Z.to_nat n) as m eqn:Hm. revert a n Hn Hm. induction m as [|m IH]; intros a n Hn Hm.
  - replace n with 0 by lia. done.
  - rewrite seqZ_cons by lia. cbn [mbind list_bind]. rewrite length_app, Nat2Z.inj_add.
    rewrite (IH (Z.succ a) (Z.pred n)) by lia. change (len (entry_bytes (f a))) with 8. lia.
Qed.

Lemma ent_entries (f : Z → Z) n page idx :
  0 ≤ page → 0 ≤ idx < 512 → page * 512 + idx < n → fits 4 (f (page * 512 + idx)) = true →
  ent (seqZ 0 n ≫= λ k, entry_bytes (f k)) page idx = Ok (f (page * 512 + idx), 0).
Proof.
  intros Hp Hi Hn Hf. set (k := page * 512 + idx) in *. set (l := seqZ 0 n ≫= _).
  assert (has l (8 * k) (entry_bytes (f k))) as H.
  { assert (l = (seqZ 0 k ≫= λ k, entry_bytes (f k)) ++ entry_bytes (f k) ++ (seqZ (k + 1) (n - k - 1) ≫= λ k, entry_bytes (f k))) as ->.
    { unfold l. replace n with (k + (1 + (n - k - 1))) at 1 by lia. rewrite seqZ_app by lia. rewrite bind_app. f_equal.
      rewrite Z.add_0_l, seqZ_cons by lia. cbn [mbind list_bind]. do 3 f_equal; lia. }
    pose proof (has_all ((seqZ 0 k ≫= λ k, entry_bytes (f k)) ++ entry_bytes (f k) ++ (seqZ (k + 1) (n - k - 1) ≫= λ k, entry_bytes (f k)))) as Ha.
    apply has_app in Ha as [_ Ha]. apply has_app in Ha as [Ha _].
    by rewrite length_entries, Z.add_0_l in Ha by lia. }
  apply has_app in H as [H0 H4]. unfold ent. replace (page * 0x1000 + idx * 8) with (8 * k) by lia. cbv zeta.
  rewrite (has_unpack _ _ _ _ H0) by done. ok_bind. rewrite length_le_bytes in H4.
  change (Z.of_nat 4) with 4 in H4. by rewrite (has_unpack _ _ 4 0 H4).
Qed.

Lemma built_mapped base : base mod 4096 = 0 → 0 ≤ base → base + 0x6000 < 4294967296 → mapped (built base) base ∧ table_base (built base) = Ok base.
Proof.
  intros Ha H0 Hmax.
  assert (∀ page idx, 0 ≤ page → 0 ≤ idx < 512 → page * 512 + idx < 3072 →
    ent (built base) page idx = Ok (entry_at base (page * 512 + idx), 0)) as He.
  { intros page idx ???. apply ent_entries; [done..|]. apply fits_spec. change (256 ^ Z.of_nat 4) with 4294967296.
    unfold entry_at. case_bool; lia. }
  assert (∀ x, 0 ≤ x → x mod 4096 = 0 → Z.land (x + 3) PRESENT ≠ 0 ∧ Z.land (x + 3) PS = 0 ∧ Z.land (x + 3) 0x300 = 0 ∧ page_of (x + 3) = x) as Hbits.
  { intros x ? Hx. assert ((x + 3) mod 2 ^ 12 = 3) as Hm by (change (2 ^ 12) with 4096; lia).
    rewrite !(land_low (x + 3) _ 12), Hm by done. split_and!; [done..|]. rewrite page_of_eq. lia. }
  split; [split|].
  - destruct (Hbits (base + 0x1000)) as (? & ? & ? & ?); [lia|lia|]. exists (base + 0x1000 + 3).
    rewrite He by lia. change (0 * 512 + 0) with 0. split_and!; [|done..]. unfold entry_at. rw_bool. do 2 f_equal. lia.
  - intros idx ?. rewrite He by lia. unfold entry_at. by rw_bool.
  - intros idx ?. destruct (Hbits (base + 0x2000 + idx * 0x1000)) as (? & ? & ? & ?); [lia|lia|].
    exists (base + 0x2000 + idx * 0x1000 + 3). rewrite He by lia. split_and!; [|done|done|done|lia].
    unfold entry_at. rw_bool. do 2 f_equal. lia.
  - intros idx ?. rewrite He by lia. unfold entry_at. by rw_bool.
  - intros slot ?. rewrite He by lia. unfold entry_at. rw_bool. do 2 f_equal. lia.
  - unfold table_base. rewrite He by lia. ok_bind. cbn [fst]. f_equal.
    destruct (Hbits (base + 0x1000)) as (_ & _ & _ & Hp); [lia|lia|]. change (0 * 512 + 0) with 0.
    change (entry_at base 0) with (base + 0x1003). replace (base + 0x1003) with (base + 0x1000 + 3) by lia. lia.
Qed.

Lemma built_Bytes base : Bytes (built base).
Proof.
  unfold built. generalize (seqZ 0 3072). intros l. induction l as [|k l IH]; [constructor|].
  cbn [mbind list_bind]. apply Forall_app. split; [|done]. apply Forall_app. split; [apply le_bytes_Bytes|apply zeros_Bytes].
Qed.

(** ** Theorems *)

(** C23 - Page tables that pass the check are an identity mapping of the first
    4 GiB and of nothing else: a processor that walks them, wherever they lie,
    translates every address below 4 GiB to itself and faults on every other
    address. *)
Theorem check_tables_identity tables base la :
  Bytes tables → table_base tables = Ok base → check_tables tables = Ok [] → 0 ≤ la < 2 ^ 48 →
  walk tables base la = if la <? 2 ^ 32 then Some la else None.
Proof. intros ????. apply walk_mapped; [done| |done]. by apply check_tables_mapped. Qed.

Lemma check_tables_identity_witness :
  check_tables (built LY.PAGE_PML4) = Ok [] ∧ walk (built LY.PAGE_PML4) LY.PAGE_PML4 0xFFE12345 = Some 0xFFE12345.
Proof.
  destruct (built_mapped LY.PAGE_PML4) as [Hm Hb]; [done|done|done|].
  pose proof (mapped_check _ _ Hb Hm) as Hc. split; [exact Hc|].
  apply (check_tables_identity (built LY.PAGE_PML4) LY.PAGE_PML4 0xFFE12345); [apply built_Bytes|exact Hb|exact Hc|by split].
Defined.

(** C22 - The check accepts exactly the tables it is meant for: it reports nothing
    if and only if the first entry of the top level points to the second page,
    its four entries to the four pages behind it, those hold the 2048 large
    pages in order, and every other entry is clear; and the tables that boot
    code for any block of six pages below 4 GiB should build are of that form. *)
Theorem check_tables_exact base :
  (∀ tables, table_base tables = Ok base → (check_tables tables = Ok [] ↔ mapped tables base)) ∧
  (base mod 0x1000 = 0 ∧ 0 ≤ base ∧ base + 0x6000 < 2 ^ 32 → check_tables (built base) = Ok []).
Proof.
  split.
  - intros tables Hb. split; [by apply check_tables_mapped|by apply mapped_check].
  - intros (Ha & H0 & Hm). destruct (built_mapped base Ha H0 Hm) as [Hmp Hb]. by eapply mapped_check.
Qed.

Lemma check_tables_exact_witness :
  check_tables (built LY.PAGE_PML4) = Ok [].
Proof. apply (check_tables_exact LY.PAGE_PML4). by split_and!. Defined.

End PT.
