(* ===== verification/AsmText.v ===== *)
(** * Test programs in assembly: the text functions of [tools/qizoasm/qizoasmrun.py]

    The tool cuts routines out of the assembly sources of the boot and of the
    kernel and wraps each in a small Linux program that runs it and writes what
    it built to a file.  This file has the functions that cut ([extract],
    [span]) and the programs that are assembled. *)

From S2P Require Export PyText Layout.

Module AT.
Local Open Scope string_scope.
Local Open Scope list_scope.
Local Open Scope Z_scope.

(** ** Cutting *)

(** [next(i for i, l in enumerate(lines) if l.strip() == want)] *)
Fixpoint line_index (lines : list string) (want : string) : option nat :=
  match lines with
  | [] => None
  | l :: lines => if bool_decide (strip l = want) then Some 0%nat else S <$> line_index lines want
  end.
Definition next_line (lines : list string) (want : string) : res nat :=
  or_raise StopIteration (line_index lines want).

(** The [while] loop of [extract]: the first [ret] from [end_] on, or the end. *)
Definition to_ret_from (lines : list string) (end_ : nat) : nat :=
  match line_index (drop end_ lines) "ret" with
  | Some n => end_ + n
  | None => Nat.max end_ (length lines)
  end.

(** ["\n".join(lines[i:j]) + "\n"] *)
Definition cut (lines : list string) (i j : nat) : string :=
  join (String NL "") (take (j - i) (drop i lines)) +:+ String NL "".

Definition extract (text start_at stop_at : string) (to_ret : bool) : res string :=
  let lines := split_on NL text in
  start ← next_line lines start_at;
  stop ← next_line lines stop_at;
  let end_ := if to_ret then S (to_ret_from lines stop) else stop in
  Ok (cut lines start end_).

Definition span (text stop_at : string) (start_at : option string) : res string :=
  let lines := split_on NL text in
  start ← (match start_at with None => Ok 0%nat | Some s => next_line lines s end);
  stop ← next_line lines stop_at;
  Ok (cut lines start stop).

(** ** The parts of a program *)

Definition TAB : ascii := chr 9.
Definition DQ : ascii := chr 34.
Definition T (s : string) : string := String TAB s.
Definition quoted (s : string) : string := String DQ (s +:+ String DQ "").
(** The path of a file, in a string of the assembler. *)
Definition asm_path (path : string) : string := quoted (replace_all "\" "\\" path).

Definition spill (fd_slot buf edx_line : string) : list string := [
  T "movl $5, %eax"; T "movl $apath, %ebx"; T "movl $0x141, %ecx"; T "movl $0644, %edx";
  T "int $0x80";
  T ("movl %eax, " +:+ fd_slot);
  T "movl $4, %eax";
  T ("movl " +:+ fd_slot +:+ ", %ebx");
  T ("movl $" +:+ buf +:+ ", %ecx");
  T edx_line;
  T "int $0x80";
  T "movl $6, %eax";
  T ("movl " +:+ fd_slot +:+ ", %ebx");
  T "int $0x80"
].

Definition epilogue : list string := [T "movl $1, %eax"; T "xorl %ebx, %ebx"; T "int $0x80"].

Definition spill64 (fd_slot buf : string) (size : Z) : list string := [
  T "leaq apath(%rip), %rdi"; T "movl $2, %eax"; T "movl $0x142, %esi"; T "movl $0644, %edx";
  T "syscall";
  T ("movq %rax, " +:+ fd_slot);
  T "movl $1, %eax";
  T ("movq " +:+ fd_slot +:+ ", %rdi");
  T ("leaq " +:+ buf +:+ "(%rip), %rsi");
  T ("movl $" +:+ fmt_d size +:+ ", %edx");
  T "syscall";
  T "movl $3, %eax";
  T ("movq " +:+ fd_slot +:+ ", %rdi");
  T "syscall"
].

Definition unlines (lines : list string) : string := join (String NL "") lines.
(** [s.rstrip("\n")] *)
Definition chomp (s : string) : string := rstrip_char NL s.

(** ** The programs *)

(** The program of [idt_case]: the kernel's gates, from [kernel/idt.S]. *)
Definition idt_asm (text dump : string) : res string :=
  stubs ← span text "qizo_isr_common:" None;
  install ← span text ".size qizo_idt_install, . - qizo_idt_install" (Some "qizo_idt_install:");
  let install := replace_all "lidt (%rax)" "nop" install in
  Ok (unlines ([
    T ".code64"; T ".text"; T ".globl _start"; "_start:"; T "call body"] ++
    spill64 "fdslot" "qizo_idt" (256 * 16) ++ [
    T "movl $60, %eax"; T "xorl %edi, %edi"; T "syscall";
    chomp stubs; "qizo_isr_common:"; T "ret";
    replace_all "qizo_idt_install:" "body:" (chomp install);
    T ".data"; "apath:"; T (".asciz " +:+ asm_path dump); T ".align 8"; "fdslot:"; T ".quad 0";
    "qizo_idt_ptr:"; T ".word 256 * 16 - 1"; T ".quad qizo_idt";
    T ".bss"; T ".balign 16"; "qizo_idt:"; T ".skip 4096"; ""])).

(** The program of [fault_report_case]: the fault handler of [boot/stage2.S],
    with its port accesses replaced. *)
Definition fault_report_body (src : string) : res string :=
  i ← str_index ".section .qizo_fault" src;
  let body := replace_all (".section .qizo_fault," +:+ quoted "ax") "" (str_drop i src) in
  let body := replace_all (T "inb %dx, %al") (T "movl $0x60, %eax") body in
  let body := replace_all (T "outb %al, %dx")
    (T "movb %al, (%rbx)" +:+ String NL (T "incq %rbx")) body in
  let body := replace_all (T "movq %cr2, %r9") (T "movq $0xdeadbeef, %r9") body in
  let body := replace_all (T ("cli" +:+ String NL "")) (T ("nop" +:+ String NL "")) body in
  let body := replace_all (T "movq %cr2, %rdx") (T "movq $0xdeadbeef, %rdx") body in
  n ← str_index (String NL ("25:" +:+ String NL "")) body;
  let tail := S n in
  nxt ← str_index_from (String NL (String NL "")) body tail;
  Ok (str_take tail body +:+ T "jmp done" +:+ str_drop nxt body).

Definition fault_report_asm (src dump : string) : res string :=
  body ← fault_report_body src;
  Ok (unlines ([
    T ".code64"; T ".text"; T ".globl _start"; "_start:"; T ".set QIZO_IDT_BOOT, 0x307000";
    T "movabsq $outbuf, %rbx"; T "pushq $done"; T "pushq $0x2"; T "pushq $0x10"; T "pushq $0x100040";
    T "pushq $0"; T "pushq $13"; T "jmp qizo_fault_common"; "done:"; T "leaq outbuf(%rip), %rsi"] ++
    spill64 "fdslot" "outbuf" 128 ++ [
    T "movl $60, %eax"; T "xorl %edi, %edi"; T "syscall";
    body;
    T ".data"; "apath:"; T (".asciz " +:+ asm_path dump); T ".align 8"; "fdslot:"; T ".quad 0";
    T ".bss"; T ".balign 16"; "outbuf:"; T ".zero 512"; ""])).

(** The program of [fault_gates_case]: the loop of [boot/stage2.S] that builds
    the fault gates, on a table of stubs 16 bytes apart. *)
Definition fake_stubs : list string :=
  (λ i, T (".long 0x20000 + " +:+ fmt_d (i * 16))) <$> range 0 32.

Definition fault_gates_asm (src dump : string) : res string :=
  i ← str_index (T "movl $qizo_fstub_table, %esi") src;
  j ← str_index (T "lidt qizo_fidt_ptr") src;
  let body := str_slice src i j in
  Ok (unlines ([
    T ".code32"; T ".set QIZO_IDT_BOOT, idtblob"; T ".text"; T ".globl _start"; "_start:"; T "nop";
    replace_all "lidt qizo_fidt_ptr" "nop" body] ++
    spill "fdslot" "idtblob" "movl $512, %edx" ++ [
    T "movl $1, %eax"; T "xorl %ebx, %ebx"; T "int $0x80";
    T ".data"; "apath:"; T (".asciz " +:+ asm_path dump); T ".align 4"; "fdslot:"; T ".long 0";
    "qizo_fstub_table:"; T (join (String NL (T "")) fake_stubs);
    "qizo_fidt_ptr:"; T ".word 32 * 16 - 1"; T ".long QIZO_IDT_BOOT";
    T ".bss"; T ".balign 16"; "idtblob:"; T ".zero 512"; ""])).

(** The program of [decompress_case]: the second stage's decompressor, on the
    blob in the file [inpath]. *)
Definition decompress_asm (src inpath outpath : string) : res string :=
  body ← extract src "qizo_decompress:" "decomp_ret:" true;
  magic ← LY.g "QIZO_LZSS_MAGIC";
  Ok (unlines ([
    T ".code32"; T (".set QIZO_LZSS_MAGIC, " +:+ fmt_d magic); T ".set QIZO_BOOTINFO, bootinfo";
    T ".set QIZO_BI_ERR, 0"; T ".text"; T ".globl _start"; "_start:"; T "movl $outbuf, %edi";
    T "movl $indata, %esi"; T "movl $inlen, %ecx"; T "call body"; T "movl indata + 4, %eax";
    T "movl %eax, outlen"] ++
    spill "outfd" "outbuf" "movl outlen, %edx" ++ epilogue ++ [
    replace_all "qizo_decompress:" "body:" (chomp body);
    T ".data"; "apath:"; T (".asciz " +:+ asm_path outpath); T ".align 4"; "outfd:"; T ".long 0";
    "outlen:"; T ".long 0"; "indata:"; T (".incbin " +:+ asm_path inpath); "inend:";
    T ".set inlen, inend - indata"; T ".bss"; T ".align 16"; "bootinfo:"; T ".zero 16";
    "outbuf:"; T ".zero 1048576"; ""])).

(** The program of [pages_case]: the routine that builds the page tables. *)
Definition pages_asm (src dump : string) : res string :=
  body ← extract src "qizo_zero:" "fail_c1:" false;
  let body := replace_all "qizo_build_pages:" "body:" body in
  page ← LY.g "QIZO_PT_PAGE";
  dir ← LY.g "QIZO_PT_DIR";
  let sets := ["QIZO_PAGE_PML4, tables"; "QIZO_PAGE_PDPT, tables + 0x1000"; "QIZO_PAGE_PDT, tables + 0x2000";
    "QIZO_PT_PAGE, " +:+ fmt_d page; "QIZO_PT_DIR, " +:+ fmt_d dir] in
  Ok (unlines ([T ".code32"] ++ ((λ x, T (".set " +:+ x)) <$> sets) ++ [
    T ".text"; T ".globl _start"; "_start:"; T "call body"] ++
    spill "fdslot" "tables" "movl $0x6000, %edx" ++ epilogue ++ [
    chomp body;
    T ".data"; "apath:"; T (".asciz " +:+ asm_path dump); T ".align 4"; "fdslot:"; T ".long 0";
    T ".bss"; T ".align 4096"; "tables:"; T ".zero 0x6000"; ""])).

(** ** What is cut out *)

Lemma split_on_plain s : all_chars (λ c, negb (c =? NL)%char) s = true → split_on NL s = [s].
Proof.
  induction s as [|c s IH]; [done|]. cbn [all_chars split_on]. intros [Hc Hs]%andb_true_iff.
  apply negb_true_iff in Hc. by rewrite Hc, IH.
Qed.

(** Lines without newlines are found again in their text. *)
Lemma split_unlines lines :
  lines ≠ [] → Forall (λ l, all_chars (λ c, negb (c =? NL)%char) l = true) lines → split_on NL (unlines lines) = lines.
Proof.
  intros Hne H. induction H as [|l lines Hl Hls IH]; [done|]. destruct lines as [|l2 lines].
  - by apply split_on_plain.
  - change (unlines (l :: l2 :: lines)) with (l +:+ String NL (unlines (l2 :: lines))).
    rewrite LY.split_on_line by done. by rewrite IH.
Qed.

Lemma line_index_app pre l post want :
  Forall (λ x, strip x ≠ want) pre → strip l = want → line_index (pre ++ l :: post) want = Some (length pre).
Proof.
  intros H Hl. induction H as [|x pre Hx Hpre IH]; cbn [app line_index length].
  - by rewrite bool_decide_true.
  - by rewrite bool_decide_false, IH.
Qed.

Lemma line_index_none lines want : Forall (λ x, strip x ≠ want) lines → line_index lines want = None.
Proof. induction 1 as [|x lines Hx Hl IH]; [done|]. cbn [line_index]. by rewrite bool_decide_false, IH. Qed.

Lemma cut_middle pre mid post : cut (pre ++ mid ++ post) (length pre) (length pre + length mid) = unlines mid +:+ String NL "".
Proof.
  unfold cut, unlines. rewrite drop_app_length. replace (length pre + length mid - length pre)%nat with (length mid) by lia.
  by rewrite take_app_length.
Qed.

(** ** Theorems *)

(** [extract] cuts a routine out of a source: from the line with its label
    through the first [ret] at or after the line that marks its end, whatever
    else the source holds; and it stops with an error when a label is missing. *)
Theorem extract_routine lines start_at stop_at pre s mid p body r post :
  lines = pre ++ (s :: mid ++ p :: body ++ [r]) ++ post →
  Forall (λ l, all_chars (λ c, negb (c =? NL)%char) l = true) lines →
  strip s = start_at → strip p = stop_at → strip r = "ret" →
  Forall (λ l, strip l ≠ start_at) pre → Forall (λ l, strip l ≠ stop_at) (pre ++ s :: mid) →
  Forall (λ l, strip l ≠ "ret") (p :: body) →
  extract (unlines lines) start_at stop_at true = Ok (unlines (s :: mid ++ p :: body ++ [r]) +:+ String NL "") ∧
  ∀ missing, Forall (λ l, strip l ≠ missing) lines → extract (unlines lines) missing stop_at true = Raise StopIteration.
Proof.
  intros Hl Hnl Hs Hp Hr Hpre Hstop Hret. unfold extract, next_line. cbv zeta.
  assert (lines ≠ []) as Hne by (rewrite Hl; by destruct pre).
  rewrite (split_unlines lines Hne Hnl). split; last first.
  { intros missing Hm. by rewrite (line_index_none _ _ Hm). }
  assert (line_index lines start_at = Some (length pre)) as ->.
  { rewrite Hl. cbn [app]. by apply line_index_app. }
  assert (lines = (pre ++ s :: mid) ++ p :: body ++ r :: post) as Hl2.
  { rewrite Hl. repeat (cbn [app]; rewrite <-(assoc_L (++))). done. }
  assert (line_index lines stop_at = Some (length (pre ++ s :: mid))) as ->.
  { rewrite Hl2. by apply line_index_app. }
  cbn [or_raise mbind res_bind]. unfold to_ret_from.
  assert (line_index (drop (length (pre ++ s :: mid)) lines) "ret" = Some (length (p :: body))) as ->.
  { rewrite Hl2, drop_app_length. apply (line_index_app (p :: body)); done. }
  f_equal. rewrite Hl, <-(cut_middle pre (s :: mid ++ p :: body ++ [r]) post). f_equal. repeat (cbn [length]; rewrite length_app). cbn [length]. lia.
Qed.

Lemma extract_routine_witness :
  extract (unlines ["	cli"; "f:"; "	jz f_end"; "	ret"; "f_end:"; "	xorl %eax, %eax"; "	ret"; "g:"]) "f:" "f_end:" true =
    Ok (unlines ["f:"; "	jz f_end"; "	ret"; "f_end:"; "	xorl %eax, %eax"; "	ret"] +:+ String NL "").
Proof.
  apply (extract_routine ["	cli"; "f:"; "	jz f_end"; "	ret"; "f_end:"; "	xorl %eax, %eax"; "	ret"; "g:"] "f:" "f_end:"
    ["	cli"] "f:" ["	jz f_end"; "	ret"] "f_end:" ["	xorl %eax, %eax"] "	ret" ["g:"]);
    first [reflexivity | apply (bool_decide_unpack _); by vm_compute].
Defined.

End AT.
