(* ===== verification/Fat.v ===== *)
(** * The file system: [tools/mkqizoimg/mkqizoimg.py], planning and tables

    [plan_layout] and [pick_layout] choose the size of the volume, [dir_entry]
    builds a directory entry and [fat_set] writes an entry of the allocation
    table.  The image built from them is in [Image.v]. *)

From S2P Require Export Layout.

Definition SECTOR : Z := LY.SECTOR.
Definition PART_LBA : Z := LY.PART_LBA.
Definition BLOB_LBA : Z := LY.BLOB_LBA.
Definition BLOB_MAX : Z := LY.BLOB_MAX.
Definition STAGE2_SECTORS : Z := LY.STAGE2_SECTORS.
Definition STAGE2_LBA : Z := LY.PART_LBA.
Definition STAGE2_BYTES : Z := LY.STAGE2_BYTES.

(** ** Planning *)

Definition fat_size_for (clusters bits sector : Z) : Z :=
  if bits =? 12 then Z.max 1 ((clusters * 3 + sector * 8 - 1) / (sector * 8))
  else if bits =? 16 then Z.max 1 ((clusters * 16 + sector * 8 - 1) / (sector * 8))
  else Z.max 1 ((clusters * 32 + sector * 8 - 1) / (sector * 8)).

Definition ROOT_SECTORS : gmap Z Z := {[12 := 14; 16 := 14; 32 := 0]}.
Definition RESERVED : Z := 32.

(** The dictionary [plan_layout] returns. *)
Record layout := Layout {
  l_bits : Z; l_fat_size : Z; l_clusters : Z; l_reserved : Z; l_root_sectors : Z; l_part_lba : Z;
}.
#[export] Instance layout_eq_dec : EqDecision layout.
Proof. solve_decision. Defined.

Definition plan_layout (total_sectors part_lba reserved bits : Z) : res (option layout) :=
  let minimum := if bits =? 16 then 4085 else 4085 in
  root_sectors ← or_raise (KeyError (fmt_d bits)) (ROOT_SECTORS !! bits);
  let data_sectors fat_size := total_sectors - part_lba - reserved - 2 * fat_size - root_sectors in
  fat_size ← for_each (λ (_ : Z) (fat_size : Z),
      let clusters := data_sectors fat_size in
      let need := fat_size_for (clusters + 2) bits SECTOR in
      if need <=? fat_size then Ok (Break fat_size) else Ok (Next need))
    (range 0 48) 1;
  let clusters := data_sectors fat_size in
  if clusters <? minimum then Ok None
  else Ok (Some (Layout bits fat_size clusters reserved root_sectors part_lba)).

(** The rounds [pick_layout] can make before [total] reaches [1 << 22]. *)
Definition pick_fuel : nat := Z.to_nat (Z.shiftl 1 14).

Definition pick_layout (blob_sectors : Z) : res (Z * layout) :=
  let part_lba := BLOB_LBA + blob_sectors in
  let bits := 16 in
  let total := part_lba + RESERVED + 2 + 14 + 4096 in
  r ← while pick_fuel (λ s : Z * option layout, s.1 <? Z.shiftl 1 22) (λ s : Z * option layout,
      let total := s.1 in
      l ← plan_layout total part_lba RESERVED bits;
      match l with
      | Some l => Ok (Break (total, Some l))
      | None => Ok (Next (total + 256, None))
      end)
    (total, None);
  match r with
  | (total, Some l) => Ok (total, l)
  | _ => Raise (SystemExit "qizo: unable to lay out a filesystem image")
  end.

(** ** Directory entries *)

Definition dir_entry (name : string) (size cluster attrs modtime moddate : Z) : res bytes :=
  let '(base, ext) := default (name, EmptyString) (rsplit1 "." name) in
  let base := str_ljust (str_take 8 (upper base)) 8 " " in
  let ext := str_ljust (str_take 3 (upper ext)) 3 " " in
  let e := zeros 32 in
  let e := slice_set e 0 8 (encode_utf8 base) in
  let e := slice_set e 8 11 (encode_utf8 ext) in
  e ← bset e 11 attrs;
  e ← bset e 12 0;
  e ← bset e 13 0;
  d ← pack_le 2 modtime; let e := slice_set e 14 16 d in
  d ← pack_le 2 moddate; let e := slice_set e 16 18 d in
  d ← pack_le 2 moddate; let e := slice_set e 18 20 d in
  d ← pack_le 2 0; let e := slice_set e 20 22 d in
  d ← pack_le 2 modtime; let e := slice_set e 22 24 d in
  d ← pack_le 2 moddate; let e := slice_set e 24 26 d in
  d ← pack_le 2 (Z.land cluster 0xFFFF); let e := slice_set e 26 28 d in
  d ← pack_le 4 size; let e := slice_set e 28 32 d in
  Ok e.

(** The default arguments. *)
Definition ATTR_FILE : Z := 0x20.
Definition ATTR_LABEL : Z := 0x08.
Definition MODTIME : Z := 0x4000.
Definition MODDATE : Z := 0x5C61.

(** ** Table entries *)

Definition fat_set (fat : bytes) (bits index value : Z) : res bytes :=
  if bits =? 12 then
    let off := index * 3 / 2 in
    if negb (Z.land index 1 =? 0) then
      x ← bget fat off;
      fat ← bset fat off (Z.lor (Z.land x 0x0F) (Z.shiftl (Z.land value 0x0F) 4));
      bset fat (off + 1) (Z.land (Z.shiftr value 4) 0xFF)
    else
      fat ← bset fat off (Z.land value 0xFF);
      y ← bget fat (off + 1);
      bset fat (off + 1) (Z.lor (Z.land y 0xF0) (Z.land (Z.shiftr value 8) 0x0F))
  else pack_into 2 fat (index * 2) (Z.land value 0xFFFF).

Example plan_ex :
  plan_layout 4424 24 32 16 = Ok (Some (Layout 16 18 4318 32 14 24)) ∧
  plan_layout 4168 24 32 16 = Ok None ∧
  plan_layout 4424 24 32 12 = Ok (Some (Layout 12 4 4346 32 14 24)) ∧
  pick_layout 100 = Ok (4524, Layout 16 18 4318 32 14 124).
Proof. apply (bool_decide_unpack _). by vm_compute. Qed.

Example dir_entry_ex :
  dir_entry "kernel.bin" 0x1234 5 ATTR_FILE MODTIME MODDATE =
    Ok (b "KERNEL  BIN" ++ [0x20; 0; 0; 0; 0x40; 0x61; 0x5C; 0x61; 0x5C; 0; 0; 0; 0x40; 0x61; 0x5C;
                            5; 0; 0x34; 0x12; 0; 0]).
Proof. by vm_compute. Qed.

Example fat_set_ex :
  (f ← fat_set (zeros 12) 12 2 0xABC; fat_set f 12 3 0x123) =
    Ok [0; 0; 0; 0xBC; 0x3A; 0x12; 0; 0; 0; 0; 0; 0] ∧
  fat_set (zeros 4) 16 1 0xFFF8 = Ok [0; 0; 0xF8; 0xFF].
Proof. by vm_compute. Qed.

(** ** Lemmas *)

Lemma fat_size_for_ge_1 c bits s : 1 ≤ fat_size_for c bits s.
Proof. unfold fat_size_for. repeat case_match; lia. Qed.

Lemma fat_size_for_mono c c' bits : c ≤ c' → fat_size_for c bits SECTOR ≤ fat_size_for c' bits SECTOR.
Proof.
  intros ?. unfold fat_size_for. change (SECTOR * 8) with 4096.
  assert (∀ k, 0 < k → (c * k + 4096 - 1) / 4096 ≤ (c' * k + 4096 - 1) / 4096)
    as Hm by (intros k ?; apply Z.div_le_mono; nia).
  pose proof (Hm 3 ltac:(lia)). pose proof (Hm 16 ltac:(lia)). pose proof (Hm 32 ltac:(lia)).
  repeat case_match; lia.
Qed.

(** The sizing loop always ends in its second round: the first guess for the
    table, made for a volume with the smallest table, is already large enough. *)
Lemma plan_layout_eq total part reserved bits root :
  ROOT_SECTORS !! bits = Some root →
  plan_layout total part reserved bits =
    let data := total - part - reserved - root in
    let fat_size := fat_size_for data bits SECTOR in
    Ok (if data - 2 * fat_size <? 4085 then None
        else Some (Layout bits fat_size (data - 2 * fat_size) reserved root part)).
Proof.
  intros Hroot. unfold plan_layout. rewrite Hroot. cbn [or_raise]. ok_bind.
  change (range 0 48) with (0 :: 1 :: range 2 48). rewrite for_each_cons.
  set (data := total - part - reserved - root). set (fs := fat_size_for data bits SECTOR).
  replace (total - part - reserved - 2 * 1 - root + 2) with data by lia. fold fs.
  assert (1 ≤ fs) by apply fat_size_for_ge_1.
  replace (if bits =? 16 then 4085 else 4085) with 4085 by by case_match.
  assert (∀ f, total - part - reserved - 2 * f - root = data - 2 * f) as Hd by lia.
  destruct (fs <=? 1) eqn:Hle; ok_bind; [apply Z.leb_le in Hle|apply Z.leb_gt in Hle].
  - rewrite Hd. replace fs with 1 by lia. by case_match.
  - rewrite for_each_cons. assert (fat_size_for (total - part - reserved - 2 * fs - root + 2) bits SECTOR ≤ fs)
      as ->%Z.leb_le by (apply fat_size_for_mono; lia).
    ok_bind. rewrite Hd. by case_match.
Qed.

Lemma while_pick_fuel : ∃ n, pick_fuel = S (S (S n)).
Proof. exists (Z.to_nat 16381). unfold pick_fuel. change (Z.shiftl 1 14) with 16384. lia. Qed.

(** The two rounds of the search. *)
Lemma pick_layout_eq bs :
  pick_layout bs =
    let part := BLOB_LBA + bs in
    if part + 4400 <? 2 ^ 22 then Ok (part + 4400, Layout 16 18 4318 RESERVED 14 part)
    else Raise (SystemExit "qizo: unable to lay out a filesystem image").
Proof.
  unfold pick_layout. cbv zeta. set (part := BLOB_LBA + bs).
  destruct while_pick_fuel as [n ->]. change (Z.shiftl 1 22) with (2 ^ 22).
  replace (part + RESERVED + 2 + 14 + 4096) with (part + 4144) by (unfold RESERVED; lia).
  rewrite while_S. cbn [fst].
  rewrite (plan_layout_eq _ _ _ _ 14) by done. cbv zeta. unfold RESERVED.
  replace (part + 4144 - part - 32 - 14) with 4098 by lia.
  change (fat_size_for 4098 16 SECTOR) with 17. change (4098 - 2 * 17 <? 4085) with true.
  cbv iota. ok_bind. replace (part + 4144 + 256) with (part + 4400) by lia.
  rewrite while_S. cbn [fst].
  rewrite (plan_layout_eq _ _ _ _ 14) by done. cbv zeta.
  replace (part + 4400 - part - 32 - 14) with 4354 by lia.
  change (fat_size_for 4354 16 SECTOR) with 18. change (4354 - 2 * 18 <? 4085) with false.
  cbv iota. ok_bind. change (4354 - 2 * 18) with 4318. repeat case_bool; done || lia.
Qed.

(** ** Theorems *)

(** A FAT16 volume that is planned is consistent: reserved area, the two
    tables, the root directory and the clusters fill it exactly, it has at
    least the 4085 clusters a FAT16 volume needs, its table has an entry for
    each, and a table one sector smaller could not describe the sectors left. *)
Theorem plan_layout_fat16 total part reserved l :
  plan_layout total part reserved 16 = Ok (Some l) →
  l_part_lba l + l_reserved l + 2 * l_fat_size l + l_root_sectors l + l_clusters l = total ∧
  l_part_lba l = part ∧ l_bits l = 16 ∧ 4085 ≤ l_clusters l ∧
  (l_clusters l + 2) * 2 ≤ l_fat_size l * SECTOR ∧
  (l_fat_size l - 1) * SECTOR < (l_clusters l + 2 * l_fat_size l) * 2.
Proof.
  rewrite (plan_layout_eq _ _ _ _ 14) by done. cbv zeta.
  set (data := total - part - reserved - 14). case_match eqn:Hlt; [done|]. apply Z.ltb_ge in Hlt.
  intros [= <-]. cbn [l_bits l_fat_size l_clusters l_reserved l_root_sectors l_part_lba].
  unfold fat_size_for in *. change (16 =? 12) with false in *. change (16 =? 16) with true in *.
  cbv iota in *. change (SECTOR * 8) with 4096 in *. change SECTOR with 512.
  pose proof (ceil_div_bounds (data * 16) 4096 ltac:(lia)). lia.
Qed.

Lemma plan_layout_fat16_witness :
  4424 = 24 + 32 + 2 * 18 + 14 + 4318 ∧
  (plan_layout 4424 24 32 16 = Ok (Some (Layout 16 18 4318 32 14 24)) ∧ (4318 + 2) * 2 ≤ 18 * SECTOR).
Proof.
  split; [done|].
  assert (plan_layout 4424 24 32 16 = Ok (Some (Layout 16 18 4318 32 14 24))) as H by by vm_compute.
  split; [done|]. apply (plan_layout_fat16 _ _ _ _ H).
Defined.

(** The search for a volume size succeeds in its second round for every
    blob that leaves room below two gigabytes, and gives up with an exit
    otherwise; it never runs out of rounds. *)
Theorem pick_layout_correct bs :
  pick_layout bs =
    let part := BLOB_LBA + bs in
    if part + 4400 <? 2 ^ 22 then Ok (part + 4400, Layout 16 18 4318 RESERVED 14 part)
    else Raise (SystemExit "qizo: unable to lay out a filesystem image").
Proof. apply pick_layout_eq. Qed.

(** Whenever a FAT12 volume is planned its table is too small: it has
    fewer than the twelve bits per cluster it needs (the size is computed with
    three), and the volume has so many clusters that it is not FAT12 at all. *)
Theorem plan_layout_fat12_short total part reserved l :
  plan_layout total part reserved 12 = Ok (Some l) →
  l_fat_size l * SECTOR * 8 < (l_clusters l + 2) * 12 ∧ 4085 ≤ l_clusters l.
Proof.
  rewrite (plan_layout_eq _ _ _ _ 14) by done. cbv zeta.
  set (data := total - part - reserved - 14). case_match eqn:Hlt; [done|]. apply Z.ltb_ge in Hlt.
  intros [= <-]. cbn [l_bits l_fat_size l_clusters l_reserved l_root_sectors l_part_lba].
  unfold fat_size_for in *. change (12 =? 12) with true in *. cbv iota in *.
  change (SECTOR * 8) with 4096 in *. change SECTOR with 512.
  pose proof (ceil_div_bounds (data * 3) 4096 ltac:(lia)). lia.
Qed.

Lemma plan_layout_fat12_short_witness :
  plan_layout 4168 24 32 16 = Ok None ∧
  (plan_layout 4168 24 32 12 = Ok (Some (Layout 12 4 4090 32 14 24)) ∧ 4 * SECTOR * 8 < (4090 + 2) * 12).
Proof.
  split; [by vm_compute|].
  assert (plan_layout 4168 24 32 12 = Ok (Some (Layout 12 4 4090 32 14 24))) as H by by vm_compute.
  split; [done|]. apply (plan_layout_fat12_short _ _ _ _ H).
Defined.

(** ** Reading the table back *)

(** The entry [i] of a table of 12 or 16 bit entries. *)
Definition fat_get (bits : Z) (fat : bytes) (i : Z) : Z :=
  let at_ k := default 0 (fat !! Z.to_nat k) in
  if bits =? 12 then
    let off := i * 3 / 2 in
    if Z.odd i then at_ off / 16 + 16 * at_ (off + 1) else at_ off + 256 * (at_ (off + 1) mod 16)
  else at_ (i * 2) + 256 * at_ (i * 2 + 1).

(** Entry [i] is inside the table. *)
Definition fat_room (bits : Z) (fat : bytes) (i : Z) : Prop :=
  0 ≤ i ∧ (if bits =? 12 then i * 3 / 2 + 2 ≤ len fat else i * 2 + 2 ≤ len fat).

Lemma land_15 x : Z.land x 0x0F = x mod 16.
Proof. apply (Z.land_ones x 4). lia. Qed.
Lemma land_255 x : Z.land x 0xFF = x mod 256.
Proof. apply (Z.land_ones x 8). lia. Qed.
Lemma land_65535 x : Z.land x 0xFFFF = x mod 65536.
Proof. apply (Z.land_ones x 16). lia. Qed.

Lemma land_240 y : is_byte y = true → Z.land y 0xF0 = 16 * (y / 16).
Proof.
  intros Hy%is_byte_spec. pose proof (Z.div_mod y 16 ltac:(lia)).
  pose proof (Z.mod_pos_bound y 16 ltac:(lia)).
  assert (Forall (λ y, Z.land y 0xF0 = 16 * (y / 16)) (seqZ 0 256)) as Hall
    by (apply (bool_decide_unpack _); by vm_compute).
  rewrite Forall_lookup in Hall. apply (Hall (Z.to_nat y)). rewrite lookup_seqZ_lt by lia. f_equal. lia.
Qed.

Lemma bset_lookup l i v :
  0 ≤ i < len l → is_byte v = true →
  bset l i v = Ok (<[Z.to_nat i := v]> l).
Proof. intros ? Hv. unfold bset, norm_index. rewrite Hv. by rw_bool. Qed.

Lemma pair_div_odd i : Z.odd i = true → i * 3 / 2 = 3 * (i / 2) + 1 ∧ i = 2 * (i / 2) + 1.
Proof.
  intros Ho. pose proof (Z.div_mod i 2 ltac:(lia)) as Hi. rewrite Zmod_odd, Ho in Hi. split; [|lia].
  symmetry. apply (Z.div_unique _ _ _ 1); lia.
Qed.

Lemma pair_div_even i : Z.odd i = false → i * 3 / 2 = 3 * (i / 2) ∧ i = 2 * (i / 2).
Proof.
  intros Ho. pose proof (Z.div_mod i 2 ltac:(lia)) as Hi. rewrite Zmod_odd, Ho in Hi. split; [|lia].
  symmetry. apply (Z.div_unique _ _ _ 0); lia.
Qed.

Abbreviation at_ l k := (default 0 (l !! Z.to_nat k)).

Lemma at_insert (l : bytes) i k v :
  0 ≤ i < len l → 0 ≤ k → at_ (<[Z.to_nat i := v]> l) k = if decide (i = k) then v else at_ l k.
Proof.
  intros. case_decide as Hik.
  - subst k. by rewrite list_lookup_insert_eq by lia.
  - by rewrite list_lookup_insert_ne by lia.
Qed.

Lemma at_byte l k : Bytes l → 0 ≤ at_ l k < 256.
Proof.
  intros Hl. destruct (l !! Z.to_nat k) eqn:E; simpl; [|lia].
  by apply is_byte_spec, (Bytes_lookup _ _ _ Hl E).
Qed.

Lemma bget_at (l : bytes) i : 0 ≤ i < len l → bget l i = Ok (at_ l i).
Proof. intros. by destruct (bget_ok l i) as (x & -> & ->). Qed.

Lemma insert_Bytes (l : bytes) i v : Bytes l → is_byte v = true → Bytes (<[i := v]> l).
Proof. intros. by apply Forall_insert. Qed.

Lemma land_1_odd i : negb (Z.land i 1 =? 0) = Z.odd i.
Proof. apply (land_bit_test i 0). lia. Qed.

Lemma nibble_lo x y : 0 ≤ y < 16 → (16 * x + y) mod 16 = y.
Proof. intros. symmetry. apply (Z.mod_unique _ _ x); lia. Qed.
Lemma nibble_hi x y : 0 ≤ y < 16 → (16 * x + y) / 16 = x.
Proof. intros. symmetry. apply (Z.div_unique _ _ _ y); lia. Qed.

(** Both writes of a twelve bit entry, as arithmetic. *)
Lemma fat_set_12_odd fat i v :
  Bytes fat → fat_room 12 fat i → 0 ≤ v → Z.odd i = true →
  let o := 3 * (i / 2) + 1 in
  fat_set fat 12 i v =
    Ok (<[Z.to_nat (o + 1) := v / 16 mod 256]>
         (<[Z.to_nat o := 16 * (v mod 16) + at_ fat o mod 16]> fat)).
Proof.
  intros Hb [Hi Hr] Hv Ho o. cbn [Z.eqb Pos.eqb] in Hr. destruct (pair_div_odd i Ho) as [Hoff ?].
  unfold fat_set. cbn [Z.eqb Pos.eqb]. rewrite Hoff, land_1_odd, Ho. fold o. fold o in Hoff. cbv iota.
  assert (0 ≤ o) by lia. pose proof (at_byte fat o Hb).
  rewrite bget_at by lia. ok_bind. rewrite !land_15, land_255, Z.lor_comm.
  pose proof (Z.mod_pos_bound (at_ fat o) 16). pose proof (Z.mod_pos_bound v 16).
  rewrite lor_shiftl_add by lia. change (2 ^ 4) with 16.
  rewrite bset_lookup by (lia || apply is_byte_spec; lia). ok_bind.
  rewrite Z.shiftr_div_pow2 by lia. change (2 ^ 4) with 16.
  rewrite bset_lookup; [done|list_lia|apply is_byte_spec, Z.mod_pos_bound; lia].
Qed.

Lemma fat_set_12_even fat i v :
  Bytes fat → fat_room 12 fat i → 0 ≤ v → Z.odd i = false →
  let o := 3 * (i / 2) in
  fat_set fat 12 i v =
    Ok (<[Z.to_nat (o + 1) := 16 * (at_ fat (o + 1) / 16) + v / 256 mod 16]>
         (<[Z.to_nat o := v mod 256]> fat)).
Proof.
  intros Hb [Hi Hr] Hv Ho o. cbn [Z.eqb Pos.eqb] in Hr. destruct (pair_div_even i Ho) as [Hoff ?].
  unfold fat_set. cbn [Z.eqb Pos.eqb]. rewrite Hoff, land_1_odd, Ho. fold o. fold o in Hoff. cbv iota.
  assert (0 ≤ o) by lia. pose proof (at_byte fat (o + 1) Hb).
  rewrite land_255, bset_lookup by (lia || apply is_byte_spec, Z.mod_pos_bound; lia). ok_bind.
  rewrite bget_at by list_lia. ok_bind. rewrite at_insert by lia. rewrite decide_False by lia.
  rewrite land_240 by by apply is_byte_spec. rewrite land_15, Z.shiftr_div_pow2 by lia.
  change (2 ^ 8) with 256. pose proof (Z.mod_pos_bound (v / 256) 16).
  assert (Z.lor (16 * (at_ fat (o + 1) / 16)) (v / 256 mod 16) =
    16 * (at_ fat (o + 1) / 16) + v / 256 mod 16) as ->.
  { rewrite <-(lor_shiftl_add _ _ 4), Z.shiftl_mul_pow2, (Z.mul_comm 16) by lia. done. }
  assert (at_ fat (o + 1) / 16 < 16) by (apply Z.div_lt_upper_bound; lia).
  assert (0 ≤ at_ fat (o + 1) / 16) by (apply Z.div_pos; lia).
  rewrite bset_lookup; [done|list_lia|apply is_byte_spec; lia].
Qed.

Lemma fat_set_16 fat i v :
  fat_room 16 fat i → 0 ≤ v →
  fat_set fat 16 i v = Ok (slice_set fat (i * 2) (i * 2 + 2) (le_bytes 2 (v mod 65536))).
Proof.
  intros [Hi Hr] Hv. cbn [Z.eqb Pos.eqb] in Hr. unfold fat_set. cbn [Z.eqb Pos.eqb].
  rewrite land_65535. pose proof (Z.mod_pos_bound v 65536).
  apply pack_into_ok; [lia|lia|]. apply fits_spec. change (256 ^ Z.of_nat 2) with 65536. lia.
Qed.

(** What every write to the table guarantees. *)
Definition fat_updated (bits : Z) (fat : bytes) (i v : Z) (fat' : bytes) : Prop :=
  Bytes fat' ∧ length fat' = length fat ∧ fat_get bits fat' i = v mod 2 ^ bits ∧
  ∀ j, j ≠ i → fat_room bits fat j → fat_get bits fat' j = fat_get bits fat j.

Lemma fat_set_spec_12 fat i v :
  Bytes fat → fat_room 12 fat i → 0 ≤ v →
  ∃ fat', fat_set fat 12 i v = Ok fat' ∧ fat_updated 12 fat i v fat'.
Proof.
  intros Hb Hroom Hv. pose proof Hroom as [Hi Hr]. cbn [Z.eqb Pos.eqb] in Hr.
  destruct (Z.odd i) eqn:Ho.
  - destruct (pair_div_odd i Ho) as [Hoff ?]. set (k := i / 2) in *.
    rewrite (fat_set_12_odd fat i v) by done. fold k. eexists. split; [done|].
    pose proof (at_byte fat (3 * k + 1) Hb). pose proof (Z.mod_pos_bound v 16).
    pose proof (Z.mod_pos_bound (at_ fat (3 * k + 1)) 16). pose proof (Z.mod_pos_bound (v / 16) 256).
    split_and!; [by repeat apply insert_Bytes; [|apply is_byte_spec; lia..]|list_lia| |].
    + unfold fat_get. cbn [Z.eqb Pos.eqb]. rewrite Ho, Hoff.
      rewrite !at_insert by list_lia. repeat (case_decide; try lia).
      replace (2 ^ 12) with (16 * 256) by done. rewrite (Z.rem_mul_r v 16 256) by lia.
      rewrite nibble_hi by lia. lia.
    + intros j Hj [Hj0 Hjr]. cbn [Z.eqb Pos.eqb] in Hjr. unfold fat_get. cbn [Z.eqb Pos.eqb].
      destruct (Z.odd j) eqn:Hoj; [destruct (pair_div_odd j Hoj) as [Hjo ?]|
        destruct (pair_div_even j Hoj) as [Hjo ?]]; rewrite Hjo; rewrite !at_insert by list_lia;
        repeat (case_decide; try lia).
      replace (3 * (j / 2) + 1) with (3 * k + 1) by lia.
      by rewrite nibble_lo by lia.
  - destruct (pair_div_even i Ho) as [Hoff ?]. set (k := i / 2) in *.
    rewrite (fat_set_12_even fat i v) by done. fold k. eexists. split; [done|].
    pose proof (at_byte fat (3 * k + 1) Hb). pose proof (Z.mod_pos_bound v 256).
    pose proof (Z.mod_pos_bound (v / 256) 16).
    assert (0 ≤ at_ fat (3 * k + 1) / 16 < 16) by (split; [apply Z.div_pos|apply Z.div_lt_upper_bound]; lia).
    split_and!; [by repeat apply insert_Bytes; [|apply is_byte_spec; lia..]|list_lia| |].
    + unfold fat_get. cbn [Z.eqb Pos.eqb]. rewrite Ho, Hoff.
      rewrite !at_insert by list_lia. repeat (case_decide; try lia).
      replace (2 ^ 12) with (256 * 16) by done. rewrite (Z.rem_mul_r v 256 16) by lia.
      rewrite nibble_lo by lia. lia.
    + intros j Hj [Hj0 Hjr]. cbn [Z.eqb Pos.eqb] in Hjr. unfold fat_get. cbn [Z.eqb Pos.eqb].
      destruct (Z.odd j) eqn:Hoj; [destruct (pair_div_odd j Hoj) as [Hjo ?]|
        destruct (pair_div_even j Hoj) as [Hjo ?]]; rewrite Hjo; rewrite !at_insert by list_lia;
        repeat (case_decide; try lia).
      replace (3 * (j / 2) + 1) with (3 * k + 1) by lia.
      by rewrite nibble_hi by lia.
Qed.

Lemma at_slice_set (l d : bytes) i j k :
  0 ≤ i → j = i + len d → j ≤ len l → 0 ≤ k →
  at_ (slice_set l i j d) k = if decide (i ≤ k < j) then at_ d (k - i) else at_ l k.
Proof.
  intros. rewrite lookup_slice_set by done. rewrite Z2Nat.id by done.
  case_decide; [|done]. do 2 f_equal. lia.
Qed.

Lemma fat_set_spec_16 fat i v :
  Bytes fat → fat_room 16 fat i → 0 ≤ v →
  ∃ fat', fat_set fat 16 i v = Ok fat' ∧ fat_updated 16 fat i v fat'.
Proof.
  intros Hb Hroom Hv. pose proof Hroom as [Hi Hr]. cbn [Z.eqb Pos.eqb] in Hr.
  rewrite fat_set_16 by done. eexists. split; [done|].
  split_and!; [by apply slice_set_Bytes, le_bytes_Bytes|rewrite length_slice_set; list_lia| |].
  - unfold fat_get. cbn [Z.eqb Pos.eqb]. rewrite !at_slice_set by list_lia.
    rewrite !decide_True by lia. rewrite Z.sub_diag. replace (i * 2 + 1 - i * 2) with 1 by lia.
    change (at_ (le_bytes 2 (v mod 65536)) 0) with (v mod 65536 mod 256).
    change (at_ (le_bytes 2 (v mod 65536)) 1) with ((v mod 65536) / 256 mod 256).
    change (2 ^ 16) with 65536. rewrite <-(Z.rem_mul_r _ 256 256) by lia. by rewrite Z.mod_mod.
  - intros j Hj [Hj0 Hjr]. cbn [Z.eqb Pos.eqb] in Hjr. unfold fat_get. cbn [Z.eqb Pos.eqb].
    rewrite !at_slice_set by list_lia. by rewrite !decide_False by lia.
Qed.

(** Writing an entry of the allocation table changes that entry to the
    value modulo its width and no other entry, for tables of both widths: the
    nibbles shared by two twelve bit entries are kept apart. *)
Theorem fat_set_correct bits fat i v :
  bits = 12 ∨ bits = 16 → Bytes fat → fat_room bits fat i → 0 ≤ v →
  ∃ fat', fat_set fat bits i v = Ok fat' ∧ fat_updated bits fat i v fat'.
Proof. intros [-> | ->]; [apply fat_set_spec_12|apply fat_set_spec_16]. Qed.

Lemma fat_set_correct_witness :
  fat_room 12 (zeros 12) 3 ∧
  ∃ fat', fat_set (zeros 12) 12 3 0xABC = Ok fat' ∧ fat_updated 12 (zeros 12) 3 0xABC fat'.
Proof.
  assert (fat_room 12 (zeros 12) 3) as H by by vm_compute. split; [done|].
  apply (fat_set_correct 12); [by left|by repeat constructor|done|done].
Defined.

(** ** Directory entries *)

(** The eleven bytes of the name. *)
Definition short_name (name : string) : bytes :=
  let '(base, ext) := default (name, EmptyString) (rsplit1 "." name) in
  ljust (take 8 (b (upper base))) 8 32 ++ ljust (take 3 (b (upper ext))) 3 32.

Definition entry_bytes (name : string) (size cluster attrs modtime moddate : Z) : bytes :=
  short_name name ++ [attrs; 0; 0] ++ le_bytes 2 modtime ++ le_bytes 2 moddate ++
  le_bytes 2 moddate ++ le_bytes 2 0 ++ le_bytes 2 modtime ++ le_bytes 2 moddate ++
  le_bytes 2 (cluster mod 65536) ++ le_bytes 4 size.

Lemma length_short_name name : length (short_name name) = 11%nat.
Proof.
  unfold short_name. case_match. rewrite length_app. apply Nat2Z.inj. rewrite Nat2Z.inj_add.
  rewrite !length_ljust by lia. list_lia.
Qed.

Lemma length_entry_bytes name size cluster attrs mt md :
  length (entry_bytes name size cluster attrs mt md) = 32%nat.
Proof. unfold entry_bytes. rewrite length_app, length_short_name. list_lia. Qed.

(** A directory entry is laid out as the FAT specification says: eleven
    bytes of upper case, padded name, the attribute byte, the times, the first
    cluster and the size; it exists whenever the fields fit. *)
Theorem dir_entry_bytes name size cluster attrs mt md :
  fits 2 mt = true → fits 2 md = true → fits 4 size = true → is_byte attrs = true →
  dir_entry name size cluster attrs mt md = Ok (entry_bytes name size cluster attrs mt md).
Proof.
  intros Hmt Hmd Hsize Hattrs. unfold dir_entry, entry_bytes, short_name.
  destruct (default (name, EmptyString) (rsplit1 "." name)) as [base ext].
  unfold encode_utf8. rewrite !b_ljust, !b_take. change (code " ") with 32.
  set (f := ljust (take 8 (b (upper base))) (Z.of_nat 8) 32).
  set (f' := ljust (take 3 (b (upper ext))) (Z.of_nat 3) 32).
  change (ljust _ 8 32) with f. change (ljust _ 3 32) with f'.
  assert (len f = 8) as Hf by (unfold f; rewrite length_ljust by lia; list_lia).
  assert (len f' = 3) as Hf' by (unfold f'; rewrite length_ljust by lia; list_lia).
  clearbody f f'. rewrite (pack_le_ok _ mt), (pack_le_ok _ md), (pack_le_ok _ size), (pack_le_ok 2 0) by done.
  rewrite pack_le_ok, land_65535 by (rewrite land_65535; apply fits_spec, Z.mod_pos_bound; lia).
  ok_bind. do 9 (explode f). do 4 (explode f').
  rewrite (bset_ok _ 11 attrs) by (done || split; done). ok_bind.
  explode_ints. reflexivity.
Qed.

Lemma dir_entry_bytes_witness :
  fits 4 70000 = true ∧
  dir_entry "kernel.bin" 70000 2 ATTR_FILE MODTIME MODDATE =
    Ok (entry_bytes "kernel.bin" 70000 2 ATTR_FILE MODTIME MODDATE).
Proof. split; [done|]. by apply dir_entry_bytes. Defined.
