(* ===== verification/Image.v ===== *)
(** * The disk image: [tools/mkqizoimg/mkqizoimg.py], [build_image] and [main]

    [build_image] writes the boot sector, the two allocation tables, the root
    directory, the files and the boot blob into an empty image; [main] packs the
    kernel, calls it and adds the master boot record.  The command line, the
    files and the output of [nm] are inputs. *)

From S2P Require Export Fat Adler Lzss Artifacts.

(** ** [build_image] *)

(** The boot sector of the volume: the code up to [bs[510:512] = ..]. *)
Definition boot_sector (total_sectors : Z) (l : layout) (label : string) : res bytes :=
  let bits := l_bits l in
  let part := l_part_lba l in
  let bs := zeros 512 in
  let bs := slice_set bs 0 3 [0xEB; 0x3E; 0x90] in
  let bs := slice_set bs 3 11 (b "QIZOIMG" ++ [0]) in
  bs ← pack_into 2 bs 11 SECTOR;
  bs ← bset bs 13 1;
  bs ← pack_into 2 bs 14 (l_reserved l);
  bs ← bset bs 16 2;
  bs ← pack_into 2 bs 17 224;
  bs ← pack_into 2 bs 19 0;
  bs ← bset bs 21 0xF8;
  bs ← pack_into 2 bs 22 (l_fat_size l);
  bs ← pack_into 2 bs 24 63;
  bs ← pack_into 2 bs 26 255;
  bs ← pack_into 4 bs 28 part;
  bs ← pack_into 4 bs 32 (total_sectors - part);
  bs ← bset bs 34 0x80;
  bs ← bset bs 35 0x01;
  bs ← pack_into 2 bs 36 0;
  bs ← pack_into 2 bs 38 (total_sectors - PART_LBA);
  bs ← bset bs 42 0x29;
  bs ← pack_into 4 bs 43 0x51495A4F;
  let bs := slice_set bs 47 58 (ljust (take 11 (encode_utf8 label)) 11 32) in
  let fatname := if bits =? 16 then b "FAT16   " else b "FAT12   " in
  let bs := slice_set bs 58 66 fatname in
  let bs := slice_set bs 66 68 [0x29; 0] in
  Ok (slice_set bs 510 512 [0x55; 0xAA]).

(** [(size + SECTOR - 1) // SECTOR] *)
Definition sector_count (n : Z) : Z := (n + SECTOR - 1) / SECTOR.

(** The allocation loop: the table, the first cluster and the length of every
    file that has any, the next free cluster. *)
Record alloc := Alloc { a_fat : bytes; a_cluster_of : gmap string (Z * Z); a_nxt : Z }.

Definition alloc_file (bits eof : Z) (f : string * bytes) (s : alloc) : res (ctl alloc) :=
  let '(name, payload) := f in
  let 'Alloc fat cluster_of nxt := s in
  let size := len payload in
  let count := sector_count size in
  if count =? 0 then Ok (Next s)
  else
    let cluster_of := <[name := (nxt, count)]> cluster_of in
    fat ← for_each (λ i (fat : bytes),
        fat ← fat_set fat bits (nxt + i) (nxt + i + 1); Ok (Next fat))
      (range 0 (count - 1)) fat;
    fat ← fat_set fat bits (nxt + count - 1) eof;
    Ok (Next (Alloc fat cluster_of (nxt + count))).

(** The root directory: the label, then an entry per file. *)
Definition root_entry (cluster_of : gmap string (Z * Z)) (f : string * bytes) (s : bytes * Z)
    : res (ctl (bytes * Z)) :=
  let '(name, payload) := f in
  let '(root, off) := s in
  let '(first, _) := default (0, 0) (cluster_of !! name) in
  e ← dir_entry name (len payload) first ATTR_FILE MODTIME MODDATE;
  Ok (Next (slice_set root off (off + 32) e, off + 32)).

Definition root_dir (root_sectors : Z) (label : string) (cluster_of : gmap string (Z * Z))
    (files : list (string * bytes)) : res bytes :=
  let root := zeros (root_sectors * SECTOR) in
  e ← dir_entry label 0 0 ATTR_LABEL MODTIME MODDATE;
  let root := slice_set root 0 32 e in
  s ← for_each (root_entry cluster_of) files (root, 32);
  Ok s.1.

(** The loop that copies the files to their clusters. *)
Definition write_file (data_lba : Z) (cluster_of : gmap string (Z * Z)) (f : string * bytes)
    (img : bytes) : res (ctl bytes) :=
  let '(name, payload) := f in
  match cluster_of !! name with
  | None => Ok (Next img)
  | Some (first, count) =>
      let lba := data_lba + (first - 2) in
      Ok (Next (slice_set img (lba * SECTOR) (lba * SECTOR + len payload) payload))
  end.

(** The dictionary [build_image] returns. *)
Record image_info := ImageInfo {
  i_fat_lba : Z; i_root_lba : Z; i_data_lba : Z; i_fatname : bytes; i_clusters : Z;
}.

Definition build_image (total_sectors : Z) (l : layout) (files : list (string * bytes))
    (label : string) (blob : bytes) (blob_offset : Z) (stage2_img : bytes)
    : res (bytes * image_info) :=
  let bits := l_bits l in
  let reserved := l_reserved l in
  let fat_size := l_fat_size l in
  let part := l_part_lba l in
  let img := zeros (total_sectors * SECTOR) in
  bs ← boot_sector total_sectors l label;
  let fatname := if bits =? 16 then b "FAT16   " else b "FAT12   " in
  let p0 := part * SECTOR in
  let img := slice_set img p0 (p0 + 512) bs in
  let img := slice_set img (STAGE2_LBA * SECTOR) (STAGE2_LBA * SECTOR + len stage2_img) stage2_img in
  let fat := zeros (fat_size * SECTOR) in
  let eof := if bits =? 12 then 0xFFF else 0xFFFF in
  s ← for_each (alloc_file bits eof) files (Alloc fat ∅ 2);
  let 'Alloc fat cluster_of nxt := s in
  fat ← fat_set fat bits 0 (if bits =? 16 then eof else 0xF8);
  fat ← fat_set fat bits 1 eof;
  root_sectors ← or_raise (KeyError (fmt_d bits)) (ROOT_SECTORS !! bits);
  root ← root_dir root_sectors label cluster_of files;
  let fat_lba := part + reserved in
  let root_lba := fat_lba + 2 * fat_size in
  let data_lba := root_lba + root_sectors in
  let img := slice_set img (fat_lba * SECTOR) (fat_lba * SECTOR + len fat) fat in
  let img := slice_set img ((fat_lba + fat_size) * SECTOR) ((fat_lba + fat_size) * SECTOR + len fat) fat in
  let img := slice_set img (root_lba * SECTOR) (root_lba * SECTOR + len root) root in
  img ← for_each (write_file data_lba cluster_of) files img;
  let img := slice_set img blob_offset (blob_offset + len blob) blob in
  Ok (img, ImageInfo fat_lba root_lba data_lba fatname (nxt - 2)).

(** ** [main] *)

(** The command line, with the contents of the files it names and the text [nm]
    prints for the kernel. *)
Record options := Options {
  o_stage1 : bytes; o_stage2 : bytes; o_kernel_bin : bytes; o_kernel_nm : string;
  o_out : string; o_entry : option Z; o_image_sectors : Z; o_raw : bool; o_label : string;
}.

Definition exit_if (c : bool) (msg : string) : res unit := raise_if c (SystemExit msg).

(** [100.0 * a / b] *)
Definition ratio (a c : Z) : string :=
  fmt_1f (fdiv (fmul (float_of_int 100) (float_of_int a)) (float_of_int c)).

(** The module: header and kernel. *)
Definition module_header (klen entry_off img_total base : Z) : res bytes :=
  d1 ← pack_le 4 LY.QIZOK_MAGIC; d2 ← pack_le 4 klen; d3 ← pack_le 4 entry_off;
  d4 ← pack_le 4 img_total; d5 ← pack_le 4 base; d6 ← pack_le 4 SECTOR;
  let md := d1 ++ d2 ++ d3 ++ d4 ++ d5 ++ d6 in
  Ok (md ++ zeros (64 - len md)).

(** The blob: the payload behind its header, compressed unless [raw]. *)
Definition pack_blob (raw : bool) (payload : bytes) : res bytes :=
  if raw then d1 ← pack_le 4 0; d2 ← pack_le 4 (len payload); Ok (d1 ++ d2 ++ payload)
  else compress payload.

(** The first sector before it is patched: checked, and padded to 512 bytes. *)
Definition load_stage1 (data : bytes) : res bytes :=
  let args_off := LY.STAGE1_ARGS_OFF in
  _ ← exit_if (negb (bool_decide (slice data args_off (args_off + 20) = zeros 20)))
    "qizo: stage1 argument block is not clear";
  let stage1 := if len data <? 512 then data ++ zeros (512 - len data) else data in
  _ ← exit_if (negb (bool_decide (slice stage1 510 512 = [0x55; 0xAA])))
    "qizo: stage1 missing boot signature";
  Ok stage1.

(** The arguments of the first stage. *)
Definition patch_stage1 (stage1 : bytes) (blob_sectors crc : Z) : res bytes :=
  stage1 ← pack_into 4 stage1 (LY.STAGE1_ARGS_OFF + 4) PART_LBA;
  stage1 ← pack_into 2 stage1 (LY.STAGE1_ARGS_OFF + 8) (STAGE2_SECTORS + blob_sectors);
  pack_into 4 stage1 (LY.STAGE1_ARGS_OFF + 12) crc.

(** The addresses of the kernel: load address, entry offset, image length and
    length with the zero initialised data. *)
Record kernel_span := KernelSpan { k_base : Z; k_entry_off : Z; k_len : Z; k_total : Z }.

#[export] Instance kernel_span_eq_dec : EqDecision kernel_span.
Proof. solve_decision. Defined.

Definition kernel_of (kernel : bytes) (syms : gmap string Z) (entry_arg : option Z) : res kernel_span :=
  base ← or_raise (KeyError "__qizo_phys_base") (syms !! "__qizo_phys_base"%string);
  let entry := match entry_arg with Some e => Some e | None => syms !! "qizo_kernel_entry"%string end in
  entry ← or_raise (SystemExit "qizo: cannot determine kernel entry") entry;
  let entry_off := entry - base in
  let image_end := default (base + len kernel) (syms !! "__qizo_image_end"%string) in
  let bss_end := default image_end (syms !! "__qizo_bss_end"%string) in
  let klen := image_end - base in
  let img_total := Z.max bss_end image_end - base in
  _ ← exit_if (negb (klen =? len kernel))
    ("qizo: kernel file " +:+ fmt_d (len kernel) +:+ " bytes but image span " +:+ fmt_d klen);
  _ ← exit_if ((LY.KERNEL_MAX <? klen + LY.QIZOK_HDR) || (LY.KERNEL_MAX <? img_total))
    ("qizo: kernel " +:+ fmt_d klen +:+ " bytes exceeds the " +:+ fmt_d LY.KERNEL_MAX +:+
     " byte load budget");
  Ok (KernelSpan base entry_off klen img_total).

(** The layout of the volume. *)
Definition choose_layout (image_sectors blob_sectors : Z) : res (Z * layout) :=
  if image_sectors =? 0 then pick_layout blob_sectors
  else
    let part_lba := BLOB_LBA + blob_sectors in
    l16 ← plan_layout image_sectors part_lba RESERVED 16;
    l ← match l16 with
        | Some l => Ok (Some l)
        | None => plan_layout image_sectors part_lba RESERVED 12
        end;
    match l with
    | Some l => Ok (image_sectors, l)
    | None => Raise (SystemExit "qizo: image too small for a valid FAT volume")
    end.

Definition fat_digits (l : layout) : string := if l_bits l =? 16 then "16" else "12".

Definition readme_text (kernel blob payload : Z) (k : kernel_span) (blob_sectors part_lba : Z)
    (l : layout) : string :=
  join "" [
    "qizo bootable image" +:+ String NL "";
    "stage2 at lba " +:+ fmt_d STAGE2_LBA +:+ " (" +:+ fmt_d STAGE2_SECTORS +:+
      " sectors), module blob at lba " +:+ fmt_d BLOB_LBA +:+ " (" +:+ fmt_d blob_sectors +:+
      " sectors)" +:+ String NL "";
    "kernel image " +:+ fmt_d kernel +:+ " bytes, entry +" +:+ fmt_d (k_entry_off k) +:+
      ", image plus bss " +:+ fmt_d ((k_total k + 1023) / 1024) +:+ " KiB" +:+ String NL "";
    "compressed payload " +:+ fmt_d blob +:+ " bytes, ratio " +:+ ratio blob payload +:+ "%" +:+
      String NL "";
    "filesystem: FAT" +:+ fat_digits l +:+ ", " +:+ fmt_d (l_clusters l) +:+ " clusters of " +:+
      fmt_d 1 +:+ " sector(s), reserved lba 0.." +:+ fmt_d (part_lba - 1) +:+ String NL ""
  ]%string.

(** The master boot record and the partition table. *)
Definition write_mbr (img stage1 : bytes) (l : layout) (part_lba total : Z) : res bytes :=
  let img := slice_set img 0 SECTOR stage1 in
  let type_id := if l_bits l =? 16 then 0x06 else 0x01 in
  let pe := 0x1BE in
  img ← bset img pe 0x80;
  let img := slice_set img (pe + 1) (pe + 4) [0x00; 0x02; 0x01] in
  img ← bset img (pe + 4) type_id;
  let img := slice_set img (pe + 5) (pe + 8) [0xFE; 0xFF; 0xFF] in
  img ← pack_into 4 img (pe + 8) part_lba;
  pack_into 4 img (pe + 12) (total - part_lba).

(** [main()]: the image it writes, and the lines it prints. *)
Definition main (o : options) : res (bytes * list string) :=
  stage1 ← load_stage1 (o_stage1 o);
  let stage2 := o_stage2 o in
  _ ← exit_if (STAGE2_BYTES <? len stage2)
    ("qizo: stage2 code " +:+ fmt_d (len stage2) +:+ " bytes exceeds " +:+ fmt_d STAGE2_BYTES);
  let kernel := o_kernel_bin o in
  k ← kernel_of kernel (ART.nm (o_kernel_nm o)) (o_entry o);
  hdr ← module_header (k_len k) (k_entry_off k) (k_total k) (k_base k);
  let payload := hdr ++ kernel in
  blob ← pack_blob (o_raw o) payload;
  _ ← exit_if (BLOB_MAX <? len blob)
    ("qizo: blob " +:+ fmt_d (len blob) +:+ " bytes exceeds " +:+ fmt_d BLOB_MAX);
  let blob_sectors := sector_count (len blob) in
  let blob := blob ++ zeros (blob_sectors * SECTOR - len blob) in
  let crc := checksum blob in
  stage1 ← patch_stage1 stage1 blob_sectors crc;
  let stage2_img := stage2 ++ zeros (STAGE2_SECTORS * SECTOR - len stage2) in
  let blob_offset := BLOB_LBA * SECTOR in
  let part_lba := BLOB_LBA + blob_sectors in
  tl ← choose_layout (o_image_sectors o) blob_sectors;
  let '(total, l) := tl in
  let readme := readme_text (len kernel) (len blob) (len payload) k blob_sectors part_lba l in
  let files := [("README.TXT"%string, encode_utf8 readme); ("KERNEL.BIN"%string, kernel)] in
  r ← build_image total l files (o_label o) blob blob_offset stage2_img;
  let '(img, info) := r in
  img ← write_mbr img stage1 l part_lba total;
  Ok (img, [
    "qizo: wrote " +:+ o_out o +:+ " (" +:+ ART.human (len img) +:+ ")";
    "qizo: blob " +:+ fmt_d (len blob) +:+ " bytes in " +:+ fmt_d blob_sectors +:+
      " sectors, adler " +:+ fmt_08x crc +:+ ", ratio " +:+ ratio (len blob) (len payload) +:+ "%";
    "qizo: fat FAT" +:+ fat_digits l +:+ " volume clusters " +:+ fmt_d (l_clusters l) +:+ " used " +:+
      fmt_d (i_clusters info) +:+ " part_lba " +:+ fmt_d part_lba +:+ " sectors " +:+ fmt_d total
  ]%string).

(** ** The boot sector *)

(** The finished boot sector.  The 32 bit sector count at offset 32 keeps only
    its low half: the drive number and the byte after it are written over it. *)
Definition boot_sector_bytes (total : Z) (l : layout) (label : string) : bytes :=
  [0xEB; 0x3E; 0x90] ++ b "QIZOIMG" ++ [0] ++
  le_bytes 2 512 ++ [1] ++ le_bytes 2 (l_reserved l) ++ [2] ++ le_bytes 2 224 ++ le_bytes 2 0 ++
  [0xF8] ++ le_bytes 2 (l_fat_size l) ++ le_bytes 2 63 ++ le_bytes 2 255 ++
  le_bytes 4 (l_part_lba l) ++ take 2 (le_bytes 4 (total - l_part_lba l)) ++ [0x80; 1] ++
  le_bytes 2 0 ++ le_bytes 2 (total - PART_LBA) ++ [0; 0; 0x29] ++ le_bytes 4 0x51495A4F ++
  ljust (take 11 (b label)) 11 32 ++ (if l_bits l =? 16 then b "FAT16   " else b "FAT12   ") ++
  [0x29; 0] ++ zeros 442 ++ [0x55; 0xAA].

Lemma boot_sector_fields total l label :
  let bs := boot_sector_bytes total l label in
  slice bs 32 36 = take 2 (le_bytes 4 (total - l_part_lba l)) ++ [0x80; 1] ∧
  slice bs 19 21 = le_bytes 2 0 ∧ slice bs 22 24 = le_bytes 2 (l_fat_size l) ∧
  slice bs 28 32 = le_bytes 4 (l_part_lba l).
Proof.
  unfold boot_sector_bytes. cbv zeta.
  assert (len (ljust (take 11 (b label)) 11 32) = 11) as Hl by (rewrite length_ljust by lia; list_lia).
  generalize dependent (ljust (take 11 (b label)) 11 32). intros f Hf. do 12 (explode f).
  generalize (total - PART_LBA) (total - l_part_lba l) (l_part_lba l) (l_reserved l) (l_fat_size l).
  intros. explode_ints. by destruct (l_bits l =? 16).
Qed.

Lemma length_boot_sector_bytes total l label : len (boot_sector_bytes total l label) = 512.
Proof.
  unfold boot_sector_bytes.
  assert (len (ljust (take 11 (b label)) 11 32) = 11) as Hl by (rewrite length_ljust by lia; list_lia).
  assert (length (if l_bits l =? 16 then b "FAT16   " else b "FAT12   ") = 8%nat) as H8 by by case_match.
  rewrite !length_app, H8, (length_b "QIZOIMG"), length_take, !length_le_bytes, length_zeros. cbn [length String.length]. lia.
Qed.

Record boot_fields_fit (total : Z) (l : layout) : Prop := {
  bf_reserved : fits 2 (l_reserved l) = true;
  bf_fat_size : fits 2 (l_fat_size l) = true;
  bf_part : fits 4 (l_part_lba l) = true;
  bf_volume : fits 4 (total - l_part_lba l) = true;
  bf_total : fits 2 (total - PART_LBA) = true;
}.

Lemma boot_sector_ok total l label :
  boot_fields_fit total l → boot_sector total l label = Ok (boot_sector_bytes total l label).
Proof.
  intros [Hres Hfs Hpart Hvol Htot]. unfold boot_sector, boot_sector_bytes, encode_utf8.
  set (f := ljust (take 11 (b label)) 11 32).
  assert (len f = 11) as Hf by (unfold f; rewrite length_ljust by lia; list_lia). clearbody f.
  do 12 (explode f). set (name := if l_bits l =? 16 then _ else _).
  assert (len name = 8) as Hn by (subst name; by case_match). clearbody name. do 9 (explode name).
  unfold pack_into. change SECTOR with 512.
  rewrite (pack_le_ok 2 512), (pack_le_ok _ (l_reserved l)), (pack_le_ok 2 224), (pack_le_ok 2 0),
    (pack_le_ok _ (l_fat_size l)), (pack_le_ok 2 63), (pack_le_ok 2 255), (pack_le_ok _ (l_part_lba l)),
    (pack_le_ok _ (total - l_part_lba l)), (pack_le_ok _ (total - PART_LBA)), (pack_le_ok 4 0x51495A4F)
    by done.
  generalize (total - PART_LBA) (total - l_part_lba l) (l_part_lba l) (l_reserved l) (l_fat_size l).
  intros. explode_ints. vm_compute. reflexivity.
Qed.

(** ** Allocation *)

Lemma sector_count_bounds n : 0 ≤ n → 0 ≤ sector_count n ∧ 512 * (sector_count n - 1) < n ≤ 512 * sector_count n.
Proof.
  intros. unfold sector_count. change SECTOR with 512. pose proof (ceil_div_bounds n 512 ltac:(lia)).
  split; [apply Z.div_pos|]; lia.
Qed.

Lemma sector_count_len (p : bytes) : 0 ≤ sector_count (len p).
Proof. apply sector_count_bounds. lia. Qed.

Abbreviation sectors_of p := (sector_count (len p)).

(** Where the files go: consecutive runs of clusters from [nxt] on. *)
Fixpoint place (nxt : Z) (files : list (string * bytes)) : list (string * bytes * Z) :=
  match files with
  | [] => []
  | (name, p) :: files => (name, p, nxt) :: place (nxt + sectors_of p) files
  end.

Fixpoint place_end (nxt : Z) (files : list (string * bytes)) : Z :=
  match files with
  | [] => nxt
  | (_, p) :: files => place_end (nxt + sectors_of p) files
  end.

Lemma place_app nxt l1 l2 : place nxt (l1 ++ l2) = place nxt l1 ++ place (place_end nxt l1) l2.
Proof.
  revert nxt. induction l1 as [|[n p] l1 IH]; intros nxt; [done|]. cbn [place place_end app]. by rewrite IH.
Qed.

Lemma place_end_app nxt l1 l2 : place_end nxt (l1 ++ l2) = place_end (place_end nxt l1) l2.
Proof. revert nxt. induction l1 as [|[n p] l1 IH]; intros nxt; [done|]. cbn [place_end app]. by rewrite IH. Qed.

Lemma place_end_ge nxt files : nxt ≤ place_end nxt files.
Proof.
  revert nxt. induction files as [|[n p] l IH]; intros nxt; cbn [place_end]; [lia|].
  pose proof (IH (nxt + sectors_of p)). pose proof (sector_count_len p). lia.
Qed.

Lemma place_range nxt files n p first :
  (n, p, first) ∈ place nxt files →
  (n, p) ∈ files ∧ nxt ≤ first ∧ first + sectors_of p ≤ place_end nxt files.
Proof.
  revert nxt. induction files as [|[n' p'] l IH]; intros nxt; cbn [place place_end]; [by intros ?%not_elem_of_nil|].
  intros [[= -> -> ->]|H]%elem_of_cons.
  - split_and!; [apply elem_of_cons; by left|done|apply place_end_ge].
  - apply IH in H as (? & ? & ?). pose proof (sector_count_len p').
    split_and!; [apply elem_of_cons; by right|lia|done].
Qed.

(** The chain of a file: [count] consecutive clusters from [first] on. *)
Definition chain (fat : bytes) (first count : Z) : Prop :=
  ∀ k, 0 ≤ k < count → fat_get 16 fat (first + k) = if k =? count - 1 then 0xFFFF else first + k + 1.

(** Entries from [lo] on, up to [hi], are zero. *)
Definition free_from (fat : bytes) (lo hi : Z) : Prop := ∀ j, lo ≤ j < hi → fat_get 16 fat j = 0.

(** Updates of the range of entries from [lo] to [hi] only. *)
Definition only_changes (fat fat' : bytes) (lo hi : Z) : Prop :=
  Bytes fat' ∧ length fat' = length fat ∧
  ∀ j, fat_room 16 fat j → j < lo ∨ hi ≤ j → fat_get 16 fat' j = fat_get 16 fat j.

Lemma room_16 fat j : fat_room 16 fat j ↔ 0 ≤ j ∧ 2 * j + 2 ≤ len fat.
Proof. unfold fat_room. cbn [Z.eqb Pos.eqb]. lia. Qed.

Lemma link_loop fat nxt count :
  Bytes fat → 0 ≤ nxt → 1 ≤ count → nxt + count < 0xFFF0 → 2 * (nxt + count) ≤ len fat →
  runs (for_each (λ i (fat : bytes), fat ← fat_set fat 16 (nxt + i) (nxt + i + 1); Ok (Next fat))
          (range 0 (count - 1)) fat)
    (λ fat', only_changes fat fat' nxt (nxt + count) ∧
       ∀ k, 0 ≤ k < count - 1 → fat_get 16 fat' (nxt + k) = nxt + k + 1) no_exc.
Proof.
  intros Hb ????. eapply (runs_for_range (λ i fat', only_changes fat fat' nxt (nxt + count) ∧
    ∀ k, 0 ≤ k < i → fat_get 16 fat' (nxt + k) = nxt + k + 1)); [lia| |].
  - intros i f Hi [(Hfb & Hfl & Hfo) Hk].
    destruct (fat_set_spec_16 f (nxt + i) (nxt + i + 1)) as (f' & -> & Hb' & Hl' & Hg & Ho);
      [done|apply room_16; lia|lia|]. ok_bind. simpl. change (2 ^ 16) with 65536 in Hg.
    split; [split_and!; [done|lia|]|].
    + intros j Hj Hout. rewrite Ho; [by apply Hfo|lia|]. apply room_16. apply room_16 in Hj. lia.
    + intros k Hk'. destruct (decide (k = i)) as [->|]; [by rewrite Hg, Z.mod_small by lia|].
      rewrite Ho; [apply Hk; lia|lia|apply room_16; lia].
  - split; [by split_and!|lia].
Qed.

(** State of the allocation after the files [done_]. *)
Record alloc_inv (fat0 : bytes) (hi : Z) (done_ : list (string * bytes)) (s : alloc) : Prop := {
  ai_bytes : Bytes (a_fat s);
  ai_len : length (a_fat s) = length fat0;
  ai_nxt : a_nxt s = place_end 2 done_;
  ai_found : ∀ n p first, (n, p, first) ∈ place 2 done_ →
    a_cluster_of s !! n = if sectors_of p =? 0 then None else Some (first, sectors_of p);
  ai_none : ∀ n, n ∉ done_.*1 → a_cluster_of s !! n = None;
  ai_chain : ∀ n p first, (n, p, first) ∈ place 2 done_ → chain (a_fat s) first (sectors_of p);
  ai_free : free_from (a_fat s) (a_nxt s) hi;
}.

Lemma chain_frame fat fat' lo hi first count :
  only_changes fat fat' lo hi → 0 ≤ first → first + count ≤ lo → 2 * (first + count) ≤ len fat →
  chain fat first count → chain fat' first count.
Proof.
  intros (_ & _ & Ho) ??? Hc k Hk. rewrite Ho; [by apply Hc|apply room_16; lia|lia].
Qed.

Lemma alloc_file_spec fat0 hi done_ f s :
  alloc_inv fat0 hi done_ s → place_end 2 (done_ ++ [f]) < 0xFFF0 → 2 * hi ≤ len fat0 →
  place_end 2 (done_ ++ [f]) ≤ hi → f.1 ∉ done_.*1 →
  runs (alloc_file 16 0xFFFF f s) (step_to (alloc_inv fat0 hi (done_ ++ [f])) (λ _, False)) no_exc.
Proof.
  intros [Hb Hl Hn Hf Hnone Hc Hfree] Hhi Hroom Hend Hnew. destruct f as [name p], s as [fat co nxt].
  cbn [a_fat a_cluster_of a_nxt fst] in *. rewrite place_end_app in Hend, Hhi. cbn [place_end] in Hend, Hhi.
  pose proof (place_end_ge 2 done_). rewrite <-Hn in *.
  unfold alloc_file. pose proof (sector_count_len p) as Hcnt.
  destruct (Z.eqb_spec (sectors_of p) 0) as [Hz|Hz].
  - simpl. split; cbn [a_fat a_cluster_of a_nxt]; [done|done| | | | |done].
    + rewrite place_end_app. cbn [place_end]. lia.
    + intros n q first. rewrite place_app, elem_of_app. cbn [place].
      intros [?|[= -> -> ->]%list_elem_of_singleton]; [by apply Hf|]. rewrite Hz. by apply Hnone.
    + intros n. rewrite fmap_app, not_elem_of_app. intros [? _]. by apply Hnone.
    + intros n q first. rewrite place_app, elem_of_app. cbn [place].
      intros [?|[= -> -> ->]%list_elem_of_singleton]; [by eapply Hc|]. intros k Hk. lia.
  - ok_bind. apply runs_bind. eapply runs_mono; [apply link_loop; [done|lia..]| |done].
    intros f1 [Ho1 Hk1]. destruct Ho1 as (Hb1 & Hl1 & Ho1). set (c := sectors_of p) in *.
    destruct (fat_set_spec_16 f1 (nxt + c - 1) 0xFFFF) as (f2 & -> & Hb2 & Hl2 & Hg2 & Ho2);
      [done|apply room_16; lia|lia|]. ok_bind. change (0xFFFF mod 2 ^ 16) with 0xFFFF in Hg2.
    assert (only_changes fat f2 nxt (nxt + c)) as Hch.
    { split_and!; [done|lia|]. intros j Hj%room_16 Hout. rewrite Ho2; [|lia|apply room_16; lia].
      apply Ho1; [by apply room_16|done]. }
    simpl. split; cbn [a_fat a_cluster_of a_nxt]; [done|lia| | | | |].
    + rewrite place_end_app. cbn [place_end]. lia.
    + intros n q first. rewrite place_app, elem_of_app. cbn [place].
      intros [Hin|[= -> -> ->]%list_elem_of_singleton].
      * rewrite lookup_insert_ne; [by apply Hf|]. apply place_range in Hin as [Hin _].
        intros ->. apply Hnew, list_elem_of_fmap. by exists (n, q).
      * rewrite lookup_insert_eq. fold c. rewrite <-Hn. by rw_bool.
    + intros n. rewrite fmap_app, not_elem_of_app. cbn [fmap list_fmap fst].
      intros [? [Hne _]%not_elem_of_cons]. rewrite lookup_insert_ne by done. by apply Hnone.
    + intros n q first. rewrite place_app, elem_of_app. cbn [place].
      intros [Hin|[= -> -> ->]%list_elem_of_singleton].
      * pose proof (place_range _ _ _ _ _ Hin) as (_ & ? & ?).
        eapply chain_frame; [exact Hch|lia|lia|lia|by eapply Hc].
      * intros k Hk. fold c in Hk |- *. rewrite <-Hn. destruct (Z.eqb_spec k (c - 1)) as [->|].
        { replace (nxt + (c - 1)) with (nxt + c - 1) by lia. done. }
        rewrite Ho2; [apply Hk1; lia|lia|apply room_16; lia].
    + intros j Hj. destruct Hch as (_ & _ & Hch). rewrite Hch; [|apply room_16; lia|lia].
      apply Hfree. lia.
Qed.

Lemma NoDup_fmap_app_not_in {A B} (f : A → B) l x rest :
  NoDup (f <$> (l ++ x :: rest)) → f x ∉ f <$> l.
Proof.
  rewrite fmap_app. intros (_ & Hd & _)%list.NoDup_app Hin. apply (Hd _ Hin), elem_of_cons. by left.
Qed.

Lemma alloc_files_spec fat0 hi files :
  Bytes fat0 → free_from fat0 2 hi → place_end 2 files < 0xFFF0 → 2 * hi ≤ len fat0 →
  place_end 2 files ≤ hi → NoDup files.*1 →
  ∃ s, for_each (alloc_file 16 0xFFFF) files (Alloc fat0 ∅ 2) = Ok s ∧ alloc_inv fat0 hi files s.
Proof.
  intros Hb Hfree Hhi Hroom Hend Hnd. apply runs_total.
  apply (runs_for_each (alloc_inv fat0 hi)).
  - intros done_ x rest s -> HI. eapply runs_mono; [apply (alloc_file_spec _ _ _ _ _ HI); [|done| |]| |done].
    1,2: rewrite (app_assoc done_ [x] rest : done_ ++ x :: rest = _), place_end_app in Hend, Hhi;
      pose proof (place_end_ge (place_end 2 (done_ ++ [x])) rest); lia.
    + by eapply NoDup_fmap_app_not_in.
    + by intros [?|?].
  - done.
  - split; cbn [a_fat a_cluster_of a_nxt place]; try done; by intros ???; intros ?%not_elem_of_nil.
Qed.

(** ** The root directory *)

(** The directory entry of a file placed at [first]. *)
Definition file_entry (f : string * bytes * Z) : bytes :=
  let '(name, p, first) := f in
  entry_bytes name (len p) (if sectors_of p =? 0 then 0 else first) ATTR_FILE MODTIME MODDATE.

Definition label_entry (label : string) : bytes := entry_bytes label 0 0 ATTR_LABEL MODTIME MODDATE.

(** The whole directory, [size] bytes. *)
Definition root_entries (label : string) (placed : list (string * bytes * Z)) : bytes :=
  label_entry label ++ concat (file_entry <$> placed).

Lemma length_file_entry f : length (file_entry f) = 32%nat.
Proof. destruct f as [[name p] first]. apply length_entry_bytes. Qed.

Lemma length_root_entries label placed : len (root_entries label placed) = 32 * (1 + len placed).
Proof.
  unfold root_entries, label_entry. rewrite length_app, length_entry_bytes.
  induction placed as [|f l IH]; [done|]. cbn [fmap list_fmap concat].
  rewrite length_app, length_file_entry. cbn [length]. lia.
Qed.

Lemma slice_set_zeros (pre e : bytes) k :
  len e ≤ k → slice_set (pre ++ zeros k) (len pre) (len pre + len e) e = (pre ++ e) ++ zeros (k - len e).
Proof.
  intros ?. rewrite slice_set_eq by list_lia.
  rewrite take_app_le, take_ge by list_lia. rewrite drop_app_ge by lia.
  unfold zeros. rewrite drop_replicate, <-(assoc_L (++)). do 3 f_equal. lia.
Qed.

(** What the allocation says about the files placed from [nxt] on. *)
Definition found_in (co : gmap string (Z * Z)) (nxt : Z) (files : list (string * bytes)) : Prop :=
  ∀ n p first, (n, p, first) ∈ place nxt files →
    co !! n = if sectors_of p =? 0 then None else Some (first, sectors_of p).

Lemma found_in_cons co nxt n p files :
  found_in co nxt ((n, p) :: files) →
  co !! n = (if sectors_of p =? 0 then None else Some (nxt, sectors_of p)) ∧
  found_in co (nxt + sectors_of p) files.
Proof.
  intros H. split; [apply (H n p nxt); cbn [place]; apply elem_of_cons; by left|].
  intros m q first Hin. apply H. cbn [place]. apply elem_of_cons. by right.
Qed.

Lemma root_entry_ok co n p root off first :
  fits 4 (len p) = true →
  co !! n = (if sectors_of p =? 0 then None else Some (first, sectors_of p)) →
  root_entry co (n, p) (root, off) =
    Ok (Next (slice_set root off (off + 32) (file_entry (n, p, first)), off + 32)).
Proof.
  intros Hfit Hn. unfold root_entry, file_entry. rewrite Hn.
  destruct (sectors_of p =? 0); cbn [default from_option id]; by rewrite dir_entry_bytes.
Qed.

Lemma root_loop size co files pre nxt :
  32 * len files ≤ size - len pre → Forall (λ f, fits 4 (len f.2) = true) files →
  found_in co nxt files →
  for_each (root_entry co) files (pre ++ zeros (size - len pre), len pre) =
    Ok ((pre ++ concat (file_entry <$> place nxt files)) ++ zeros (size - len pre - 32 * len files),
        len pre + 32 * len files).
Proof.
  revert pre nxt. induction files as [|[n p] files IH]; intros pre nxt Hroom Hfit Hco.
  - cbn [place fmap list_fmap concat length]. rewrite (right_id_L [] (++)).
    by rewrite Z.mul_0_r, Z.sub_0_r, Z.add_0_r.
  - apply found_in_cons in Hco as [Hn Hco]. apply Forall_cons_iff in Hfit as [Hfit1 Hfit2].
    set (e := file_entry (n, p, nxt)). assert (len e = 32) as He by (by unfold e; rewrite length_file_entry).
    rewrite for_each_cons, (root_entry_ok co n p _ _ nxt) by done. fold e. ok_bind. rewrite <-He, slice_set_zeros by list_lia.
    replace (len pre + len e) with (len (pre ++ e)) by list_lia.
    replace (size - len pre - len e) with (size - len (pre ++ e)) by list_lia.
    rewrite (IH _ (nxt + sectors_of p)); [|list_lia|done|done].
    cbn [place fmap list_fmap concat]. fold e. rewrite <-!(assoc_L (++)), length_app.
    cbn [length]. f_equal. f_equal; [do 4 f_equal|]; lia.
Qed.

Lemma root_dir_spec root_sectors label co files nxt :
  32 * (1 + len files) ≤ root_sectors * SECTOR →
  Forall (λ f, fits 4 (len f.2) = true) files → found_in co nxt files →
  root_dir root_sectors label co files =
    Ok (root_entries label (place nxt files) ++ zeros (root_sectors * SECTOR - 32 * (1 + len files))).
Proof.
  intros Hroom Hfit Hco. unfold root_dir. rewrite dir_entry_bytes by done. ok_bind.
  fold (label_entry label). set (size := root_sectors * SECTOR) in *.
  assert (len (label_entry label) = 32) as Hl
    by (unfold label_entry; by rewrite length_entry_bytes).
  pose proof (slice_set_zeros [] (label_entry label) size) as Hw. cbn [length app] in Hw.
  change (Z.of_nat 0) with 0 in Hw. rewrite Hl, Z.add_0_l in Hw. rewrite Hw by lia. clear Hw.
  pose proof (root_loop size co files (label_entry label) nxt) as H. rewrite Hl in H.
  rewrite H by (done || lia). ok_bind. cbn [fst]. unfold root_entries. do 3 f_equal. lia.
Qed.

(** ** The file contents *)

(** [img'] differs from [img] only between [lo] and [hi]. *)
Definition frame (lo hi : Z) (img img' : bytes) : Prop :=
  length img' = length img ∧
  ∀ o d, o + len d ≤ lo ∨ hi ≤ o → has img o d → has img' o d.

Lemma frame_refl lo hi img : frame lo hi img img.
Proof. done. Qed.

Lemma frame_write lo hi img img' i d :
  frame lo hi img img' → 0 ≤ i → lo ≤ i → i + len d ≤ hi → i + len d ≤ len img →
  frame lo hi img (slice_set img' i (i + len d) d).
Proof.
  intros [Hl Hf] ????. split; [rewrite length_slice_set; lia|].
  intros o e Ho He. apply has_frame; [lia|done|lia|lia|by apply Hf].
Qed.

Lemma write_file_ok data_lba co n p img first :
  let o := (data_lba + first - 2) * 512 in
  co !! n = (if sectors_of p =? 0 then None else Some (first, sectors_of p)) → 0 ≤ o ≤ len img →
  write_file data_lba co (n, p) img = Ok (Next (slice_set img o (o + len p) p)).
Proof.
  intros o Hn Ho. unfold write_file. rewrite Hn. destruct (Z.eqb_spec (sectors_of p) 0).
  - pose proof (sector_count_bounds (len p)). destruct p; [|cbn [length] in *; lia].
    rewrite slice_set_eq by (cbn [length]; lia). cbn [app length].
    by rewrite Z.add_0_r, take_drop.
  - change SECTOR with 512. replace (data_lba + (first - 2)) with (data_lba + first - 2) by lia. done.
Qed.

Lemma write_files_spec data_lba co nxt files img :
  found_in co nxt files → 2 ≤ nxt → 0 ≤ data_lba →
  (data_lba + place_end nxt files - 2) * SECTOR ≤ len img →
  ∃ img', for_each (write_file data_lba co) files img = Ok img' ∧
    frame ((data_lba + nxt - 2) * SECTOR) ((data_lba + place_end nxt files - 2) * SECTOR) img img' ∧
    ∀ n p first, (n, p, first) ∈ place nxt files → has img' ((data_lba + first - 2) * SECTOR) p.
Proof.
  change SECTOR with 512. revert nxt img.
  induction files as [|[n p] files IH]; intros nxt img Hco Hnxt Hdata Hlen.
  { exists img. split_and!; [done|done|]. by intros ??? ?%not_elem_of_nil. }
  apply found_in_cons in Hco as [Hn Hco]. cbn [place_end place] in *.
  pose proof (sector_count_bounds (len p) ltac:(lia)) as [Hc0 Hc].
  pose proof (place_end_ge (nxt + sectors_of p) files).
  set (o := (data_lba + nxt - 2) * 512). set (img1 := slice_set img o (o + len p) p).
  rewrite for_each_cons, (write_file_ok _ _ _ _ _ nxt) by (done || fold o; lia). ok_bind. fold o.
  fold img1.
  assert (length img1 = length img) as Hl1 by (apply length_slice_set; lia).
  destruct (IH (nxt + sectors_of p) img1) as (img' & -> & [Hfl Hf] & Hhas); [done|lia|done|lia|].
  exists img'. split_and!; [done| |].
  - split; [lia|]. intros o' d Ho' Hd. apply Hf; [lia|].
    apply has_frame; [lia|lia|lia|lia|done].
  - intros m q first [[= -> -> ->]|Hin]%elem_of_cons; [|by eapply Hhas].
    apply Hf; [lia|]. apply has_write; lia.
Qed.

(** ** The whole volume *)

Definition fat_lba (l : layout) : Z := l_part_lba l + l_reserved l.
Definition root_lba (l : layout) : Z := fat_lba l + 2 * l_fat_size l.
Definition data_lba (l : layout) : Z := root_lba l + 14.

Definition root_bytes (label : string) (files : list (string * bytes)) : bytes :=
  root_entries label (place 2 files) ++ zeros (14 * SECTOR - 32 * (1 + len files)).

(** What a volume must satisfy for the files to fit in it. *)
Record volume_fits (total : Z) (l : layout) (files : list (string * bytes)) (blob : bytes)
    (blob_offset : Z) (stage2 : bytes) : Prop := {
  vf_bits : l_bits l = 16;
  vf_fields : boot_fields_fit total l;
  vf_reserved : 1 ≤ l_reserved l;
  vf_sum : data_lba l + l_clusters l = total;
  vf_clusters : 0 ≤ l_clusters l < 0xFFEE;
  vf_table : (l_clusters l + 2) * 2 ≤ l_fat_size l * SECTOR;
  vf_used : place_end 2 files ≤ l_clusters l + 2;
  vf_names : NoDup files.*1;
  vf_dir : len files ≤ 223;
  vf_stage2 : STAGE2_LBA * SECTOR + len stage2 ≤ blob_offset;
  vf_blob : blob_offset + len blob ≤ l_part_lba l * SECTOR;
}.

(** The table describes the files: reserved entries, the chains, free space. *)
Record table_of (fat : bytes) (l : layout) (files : list (string * bytes)) : Prop := {
  t_bytes : Bytes fat;
  t_len : len fat = l_fat_size l * SECTOR;
  t_media : fat_get 16 fat 0 = 0xFFFF ∧ fat_get 16 fat 1 = 0xFFFF;
  t_chain : ∀ n p first, (n, p, first) ∈ place 2 files → chain fat first (sectors_of p);
  t_free : free_from fat (place_end 2 files) (l_fat_size l * 256);
}.

(** The image holds the volume: boot sector, both tables, directory, contents. *)
Record volume (img : bytes) (total : Z) (l : layout) (label : string)
    (files : list (string * bytes)) (fat : bytes) : Prop := {
  v_boot : has img (l_part_lba l * SECTOR) (boot_sector_bytes total l label);
  v_fat1 : has img (fat_lba l * SECTOR) fat;
  v_fat2 : has img ((fat_lba l + l_fat_size l) * SECTOR) fat;
  v_root : has img (root_lba l * SECTOR) (root_bytes label files);
  v_data : ∀ n p first, (n, p, first) ∈ place 2 files →
    has img ((data_lba l + first - 2) * SECTOR) p;
  v_table : table_of fat l files;
}.

Lemma length_place nxt files : length (place nxt files) = length files.
Proof. revert nxt. induction files as [|[m q] fs IH]; intros nxt; [done|]. cbn [place length]. by rewrite IH. Qed.
#[export] Hint Rewrite length_place : len.

Lemma place_sizes nxt files hi :
  place_end nxt files ≤ hi → 0 ≤ nxt → Forall (λ f, len f.2 ≤ 512 * hi) files.
Proof.
  revert nxt. induction files as [|[m q] fs IH]; intros nxt Hhi Hn; [constructor|]. cbn [place_end] in Hhi.
  pose proof (place_end_ge (nxt + sectors_of q) fs). pose proof (sector_count_bounds (len q) ltac:(lia)).
  constructor; [cbn [snd]; lia|]. apply (IH (nxt + sectors_of q)); lia.
Qed.

Lemma length_root_bytes label files : len files ≤ 223 → len (root_bytes label files) = 14 * 512.
Proof.
  intros ?. unfold root_bytes. rewrite length_app, Nat2Z.inj_add, length_root_entries.
  change SECTOR with 512. list_lia.
Qed.

Lemma zeros_free n lo hi : free_from (zeros n) lo hi.
Proof.
  intros j Hj. unfold fat_get. cbn [Z.eqb Pos.eqb].
  assert (∀ k, at_ (zeros n) k = 0) as Hz; [|by rewrite !Hz].
  intros k. destruct (zeros n !! Z.to_nat k) eqn:E; [|done]. simpl.
  by apply lookup_replicate_1 in E as [-> _].
Qed.

Lemma table_built l files :
  place_end 2 files ≤ l_clusters l + 2 → 0 ≤ l_clusters l < 0xFFEE →
  (l_clusters l + 2) * 2 ≤ l_fat_size l * SECTOR → NoDup files.*1 →
  ∃ fat co fat1 fat2,
    for_each (alloc_file 16 0xFFFF) files (Alloc (zeros (l_fat_size l * SECTOR)) ∅ 2) =
      Ok (Alloc fat co (place_end 2 files)) ∧
    fat_set fat 16 0 0xFFFF = Ok fat1 ∧ fat_set fat1 16 1 0xFFFF = Ok fat2 ∧
    found_in co 2 files ∧ table_of fat2 l files.
Proof.
  intros Hused Hcl Htab Hnd.
  change SECTOR with 512 in *.
  destruct (alloc_files_spec (zeros (l_fat_size l * 512)) (l_fat_size l * 256) files)
    as ([fat co nxt] & Hs & [Hb Hl Hn Hf _ Hc Hfree]);
    [apply zeros_Bytes|apply zeros_free|lia|list_lia|lia|done|].
  cbn [a_fat a_cluster_of a_nxt] in *. subst nxt. rewrite length_zeros in Hl.
  destruct (fat_set_spec_16 fat 0 0xFFFF) as (f1 & H1 & Hb1 & Hl1 & Hg1 & Ho1);
    [done|apply room_16; lia|lia|].
  destruct (fat_set_spec_16 f1 1 0xFFFF) as (f2 & H2 & Hb2 & Hl2 & Hg2 & Ho2);
    [done|apply room_16; lia|lia|].
  exists fat, co, f1, f2. split_and!; [done|done|done|done|].
  assert (∀ j, 2 ≤ j < l_fat_size l * 256 → fat_get 16 f2 j = fat_get 16 fat j) as Hsame
    by (intros j ?; rewrite Ho2, Ho1; [done|lia|apply room_16; lia|lia|apply room_16; lia]).
  split; [done|change SECTOR with 512; lia| | |].
  - split; [rewrite Ho2; [done|lia|apply room_16; lia]|done].
  - intros n p first Hin. pose proof (place_range _ _ _ _ _ Hin) as (_ & ? & ?).
    intros k Hk. rewrite Hsame by lia. by eapply Hc.
  - intros j Hj. pose proof (place_end_ge 2 files). rewrite Hsame by lia. by apply Hfree.
Qed.

(** Name a write to an image, and keep its length. *)
Ltac name_write base :=
  match goal with
  | |- context [slice_set base ?i ?j ?d] =>
      let H := fresh "Hlen" in
      let img := fresh "img" in
      set (img := slice_set base i j d);
      assert (len img = len base) as H by (unfold img; rewrite length_slice_set; first [lia|list_lia])
  end.

(** Contents survive writes elsewhere; the innermost write puts them there. *)
Ltac has_solve :=
  match goal with
  | |- has (slice_set _ _ _ _) _ _ => first [apply has_write; list_lia | apply has_frame; [list_lia..|has_solve]]
  | H : frame _ _ _ ?img |- has ?img _ _ => apply (proj2 H); [lia|has_solve]
  | img := _ |- has ?img _ _ => unfold img; has_solve
  end.

Lemma build_image_spec total l files label blob blob_offset stage2 :
  volume_fits total l files blob blob_offset stage2 →
  ∃ img info fat, build_image total l files label blob blob_offset stage2 = Ok (img, info) ∧
    len img = total * SECTOR ∧ volume img total l label files fat ∧
    has img (STAGE2_LBA * SECTOR) stage2 ∧ has img blob_offset blob ∧
    info = ImageInfo (fat_lba l) (root_lba l) (data_lba l) (b "FAT16   ") (place_end 2 files - 2).
Proof.
  intros [Hbits Hfields Hres Hsum Hcl Htab Hused Hnd Hdir Hst Hbl].
  destruct (table_built l files Hused Hcl Htab Hnd) as (f & co & f1 & f2 & Ha & H1 & H2 & Hco & Ht).
  pose proof Hfields as [Hfr Hff Hfp _ _]. apply fits_spec in Hfr, Hff, Hfp.
  pose proof (place_end_ge 2 files) as Hge.
  unfold build_image. rewrite boot_sector_ok by done. ok_bind. rewrite Hbits.
  cbn [Z.eqb Pos.eqb]. rewrite Ha. ok_bind. rewrite H1. ok_bind. rewrite H2. ok_bind.
  change (or_raise _ (ROOT_SECTORS !! 16)) with (Ok 14). ok_bind.
  rewrite (root_dir_spec 14 label co files 2); [|change SECTOR with 512; lia| |done].
  2: { eapply Forall_impl; [|apply (place_sizes 2 files _ Hused); lia]. cbv beta. intros x Hx.
       apply fits_spec. change (256 ^ Z.of_nat 4) with 4294967296. lia. }
  fold (root_bytes label files). ok_bind. pose proof (length_root_bytes label files Hdir) as Hrl.
  pose proof (t_len _ _ _ Ht) as Htl. change (STAGE2_LBA * SECTOR) with 8192 in *.
  fold (fat_lba l). fold (root_lba l). fold (data_lba l).
  set (bs := boot_sector_bytes total l label).
  pose proof (length_boot_sector_bytes total l label) as Hbs. fold bs in Hbs.
  change SECTOR with 512 in *. unfold data_lba, root_lba, fat_lba in Hsum.
  set (img0 := zeros (total * 512)). assert (len img0 = total * 512) as H0 by (unfold img0; list_lia).
  clearbody img0. replace (l_part_lba l * 512 + 512) with (l_part_lba l * 512 + len bs) by lia.
  assert (fat_lba l = l_part_lba l + l_reserved l) as Ef by done.
  assert (root_lba l = fat_lba l + 2 * l_fat_size l) as Er by done.
  assert (data_lba l = root_lba l + 14) as Ed by done.
  name_write img0. name_write img. name_write img1. name_write img2. name_write img3.
  destruct (write_files_spec (data_lba l) co 2 files img4) as (img5 & -> & Hframe & Hdata);
    [done|lia|lia|change SECTOR with 512; lia|].
  change SECTOR with 512 in Hframe, Hdata. ok_bind. pose proof (proj1 Hframe) as Hlen5.
  eexists _, _, f2. split; [done|].
  assert (∀ o d, has img5 o d → l_part_lba l * 512 ≤ o →
    has (slice_set img5 blob_offset (blob_offset + len blob) blob) o d) as Hkeep
    by (intros; apply has_frame; [lia..|done]).
  split_and!; [rewrite length_slice_set; lia| |has_solve|has_solve|done].
  split; change SECTOR with 512.
  - apply Hkeep; [|lia]. fold bs. has_solve.
  - apply Hkeep; [|lia]. has_solve.
  - apply Hkeep; [|lia]. has_solve.
  - apply Hkeep; [|lia]. has_solve.
  - intros n p first Hin. pose proof (place_range _ _ _ _ _ Hin) as (_ & ? & _).
    apply Hkeep; [by eapply Hdata|lia].
  - done.
Qed.

(** ** The master boot record *)

Lemma frame_trans lo hi lo' hi' img img1 img2 :
  frame lo' hi' img img1 → frame lo' hi' img1 img2 → lo ≤ lo' → hi' ≤ hi → frame lo hi img img2.
Proof.
  intros [Hl1 H1] [Hl2 H2] ??. split; [lia|]. intros o d Ho Hd. apply H2; [lia|]. apply H1; [lia|done].
Qed.

Lemma frame_slice_set img i d :
  0 ≤ i → i + len d ≤ len img → frame i (i + len d) img (slice_set img i (i + len d) d).
Proof. intros. apply frame_write; [apply frame_refl|lia..]. Qed.

Lemma patch_stage1_spec stage1 bs crc :
  len stage1 = 512 → fits 2 (STAGE2_SECTORS + bs) = true → fits 4 crc = true →
  ∃ s1, patch_stage1 stage1 bs crc = Ok s1 ∧ frame 468 480 stage1 s1 ∧
    has s1 468 (le_bytes 4 PART_LBA) ∧ has s1 472 (le_bytes 2 (STAGE2_SECTORS + bs)) ∧
    has s1 476 (le_bytes 4 crc) ∧ ∀ d, has stage1 474 d → len d = 2 → has s1 474 d.
Proof.
  intros Hl Hbs Hcrc. unfold patch_stage1. change LY.STAGE1_ARGS_OFF with 464.
  rewrite pack_into_ok by (done || simpl; lia). ok_bind.
  change (464 + 4 + Z.of_nat 4) with (468 + len (le_bytes 4 PART_LBA)). change (464 + 4) with 468.
  name_write stage1. rewrite pack_into_ok by (done || simpl; lia). ok_bind.
  replace (464 + 8 + Z.of_nat 2) with (472 + len (le_bytes 2 (STAGE2_SECTORS + bs))) by list_lia.
  change (464 + 8) with 472. name_write img. rewrite pack_into_ok by (done || simpl; lia).
  replace (464 + 12 + Z.of_nat 4) with (476 + len (le_bytes 4 crc)) by list_lia.
  change (464 + 12) with 476. eexists. split; [done|].
  assert (∀ o d, o + len d ≤ 468 ∨ 480 ≤ o ∨ 474 ≤ o ∧ o + len d ≤ 476 → has stage1 o d →
    has (slice_set img0 476 (476 + len (le_bytes 4 crc)) (le_bytes 4 crc)) o d) as Hkeep.
  { intros. apply has_frame; [list_lia..|]. apply has_frame; [list_lia..|]. apply has_frame; [list_lia..|done]. }
  split_and!; [|has_solve..|intros; apply Hkeep; [lia|done]].
  split; [rewrite length_slice_set; list_lia|]. intros. apply Hkeep; [lia|done].
Qed.

Definition partition_entry (l : layout) (part_lba total : Z) : bytes :=
  [0x80; 0x00; 0x02; 0x01] ++ [if l_bits l =? 16 then 0x06 else 0x01] ++ [0xFE; 0xFF; 0xFF] ++
  le_bytes 4 part_lba ++ le_bytes 4 (total - part_lba).

(** The entry is written field by field. *)
Lemma write_mbr_eq img stage1 l part total :
  len stage1 = 512 → 512 ≤ len img → fits 4 part = true → fits 4 (total - part) = true →
  write_mbr img stage1 l part total =
    Ok (slice_set (slice_set img 0 512 stage1) 446 462 (partition_entry l part total)).
Proof.
  intros Hs Himg Hp Ht. unfold write_mbr, partition_entry. change SECTOR with 512.
  set (ty := if l_bits l =? 16 then 6 else 1). assert (is_byte ty = true) as Hty by by unfold ty; case_match.
  set (m := slice_set img 0 512 stage1).
  assert (len m = len img) as Hm by (unfold m; rewrite length_slice_set; lia). clearbody m.
  rewrite bset_ok by (done || lia). ok_bind.
  rewrite (slice_set_adjacent m 446 447 450) by list_lia.
  rewrite (bset_adjacent m 446 450) by (done || list_lia). ok_bind.
  rewrite (slice_set_adjacent m 446 451 454) by list_lia.
  rewrite (pack_into_adjacent 4 m 446 454) by (done || list_lia). ok_bind.
  rewrite (pack_into_adjacent 4 m 446 458) by (done || list_lia). done.
Qed.

Lemma write_mbr_spec img stage1 l part total :
  len stage1 = 512 → 512 ≤ len img → fits 4 part = true → fits 4 (total - part) = true →
  ∃ img', write_mbr img stage1 l part total = Ok img' ∧ frame 0 512 img img' ∧
    has img' 446 (partition_entry l part total) ∧
    ∀ o d, has stage1 o d → o + len d ≤ 446 ∨ 462 ≤ o → has img' o d.
Proof.
  intros Hs Himg Hp Ht. rewrite write_mbr_eq by done. eexists. split; [done|].
  set (e := partition_entry l part total). assert (len e = 16) as He by done. clearbody e.
  replace (slice_set img 0 512 stage1) with (slice_set img 0 (0 + len stage1) stage1) by (f_equal; lia).
  name_write img. replace 462 with (446 + len e) by lia. split_and!.
  - split; [rewrite length_slice_set; lia|]. intros o d Ho Hd. apply has_frame; [lia..|].
    apply has_frame; [lia..|done].
  - has_solve.
  - intros o d Hd Ho. apply has_frame; [lia|lia|lia|lia|].
    apply (has_trans _ 0 stage1 o d); [has_solve|done].
Qed.

(** ** The whole build *)

Definition header_bytes (k : kernel_span) : bytes :=
  le_bytes 4 LY.QIZOK_MAGIC ++ le_bytes 4 (k_len k) ++ le_bytes 4 (k_entry_off k) ++
  le_bytes 4 (k_total k) ++ le_bytes 4 (k_base k) ++ le_bytes 4 SECTOR ++ zeros 40.

Lemma length_header k : length (header_bytes k) = 64%nat.
Proof. done. Qed.

Record span_fits (k : kernel_span) : Prop := {
  sf_base : fits 4 (k_base k) = true;
  sf_entry : fits 4 (k_entry_off k) = true;
  sf_len : 0 ≤ k_len k ≤ k_total k;
  sf_max : k_len k + LY.QIZOK_HDR ≤ LY.KERNEL_MAX ∧ k_total k ≤ LY.KERNEL_MAX;
}.

Lemma module_header_ok k :
  span_fits k → module_header (k_len k) (k_entry_off k) (k_total k) (k_base k) = Ok (header_bytes k).
Proof.
  intros [Hb He Hl [Hm1 Hm2]]. change LY.KERNEL_MAX with 524288 in *. change LY.QIZOK_HDR with 64 in *.
  unfold module_header, header_bytes.
  rewrite !pack_le_ok by (done || apply fits_spec; change (256 ^ Z.of_nat 4) with 4294967296; lia).
  ok_bind. generalize (k_len k) (k_entry_off k) (k_total k) (k_base k). intros. explode_ints. reflexivity.
Qed.

Lemma pack_le_inv n v d : pack_le n v = Ok d → d = le_bytes n v.
Proof. unfold pack_le. by case_match; intros [= <-]. Qed.

Lemma module_header_inv k hdr :
  module_header (k_len k) (k_entry_off k) (k_total k) (k_base k) = Ok hdr → hdr = header_bytes k.
Proof.
  unfold module_header. intros (d1 & ->%pack_le_inv & H)%bind_Ok.
  do 5 (let d := fresh "d" in apply bind_Ok in H as (d & ->%pack_le_inv & H)). apply Ok_inj in H as <-.
  unfold header_bytes. generalize (k_len k) (k_entry_off k) (k_total k) (k_base k). intros.
  explode_ints. reflexivity.
Qed.

(** What [main] checks about the kernel. *)
Lemma kernel_of_inv kernel syms entry k :
  kernel_of kernel syms entry = Ok k →
  k_len k = len kernel ∧ k_len k ≤ k_total k ∧
  k_len k + LY.QIZOK_HDR ≤ LY.KERNEL_MAX ∧ k_total k ≤ LY.KERNEL_MAX.
Proof.
  unfold kernel_of. intros (base & _ & H)%bind_Ok. apply bind_Ok in H as (e & _ & H).
  apply bind_Ok in H as ([] & H1 & H). apply bind_Ok in H as ([] & H2 & H). injection H as <-.
  cbn [k_len k_total]. unfold exit_if, raise_if in *. repeat case_match; try done.
  rewrite negb_false_iff, Z.eqb_eq in *. rewrite orb_false_iff, !Z.ltb_ge in *. lia.
Qed.

Lemma kernel_of_fits kernel syms entry k :
  kernel_of kernel syms entry = Ok k → fits 4 (k_base k) = true → fits 4 (k_entry_off k) = true →
  span_fits k.
Proof. intros Hk ??. apply kernel_of_inv in Hk as (? & ? & ? & ?). split; [done..|lia|done]. Qed.

(** The fields of the module header. *)
Lemma header_fields k kernel :
  span_fits k →
  let out := header_bytes k ++ kernel in
  unpack_le 4 out 0 = Ok LY.QIZOK_MAGIC ∧ unpack_le 4 out 4 = Ok (k_len k) ∧
  unpack_le 4 out 8 = Ok (k_entry_off k) ∧ unpack_le 4 out 12 = Ok (k_total k).
Proof.
  intros [Hb He Hl [Hm1 Hm2]] out. change LY.KERNEL_MAX with 524288 in *. change LY.QIZOK_HDR with 64 in *.
  pose proof (has_all out) as Hall. unfold out at 2, header_bytes in Hall. rewrite !has_app in Hall.
  destruct Hall as [(H0 & H4 & H8 & H12 & _) _]. rewrite !length_le_bytes in *.
  assert (∀ v, 0 ≤ v ≤ 524288 → fits 4 v = true) as Hfit
    by (intros; apply fits_spec; change (256 ^ Z.of_nat 4) with 4294967296; lia).
  split_and!; apply has_unpack; try done; apply Hfit; lia.
Qed.

(** An unpacked module: a header with the lengths and the entry, then the
    kernel. *)
Record module_of (out : bytes) (klen entry total : Z) (kernel : bytes) : Prop := {
  md_magic : unpack_le 4 out 0 = Ok LY.QIZOK_MAGIC;
  md_klen : unpack_le 4 out 4 = Ok klen;
  md_entry : unpack_le 4 out 8 = Ok entry;
  md_total : unpack_le 4 out 12 = Ok total;
  md_len : len out = klen + LY.QIZOK_HDR;
  md_kernel : slice out LY.QIZOK_HDR (LY.QIZOK_HDR + klen) = kernel;
  md_room : 0 ≤ entry < klen ∧ klen ≤ LY.KERNEL_MAX;
  md_bss : total ≤ LY.KERNEL_MAX;
}.

Lemma span_total_fits k : span_fits k → 0 ≤ k_len k ≤ 524224 ∧ k_len k ≤ k_total k ≤ 524288.
Proof.
  intros [_ _ ? [? ?]]. change LY.KERNEL_MAX with 524288 in *. change LY.QIZOK_HDR with 64 in *. lia.
Qed.

Lemma module_of_build k kernel :
  span_fits k → k_len k = len kernel → k_entry_off k < k_len k →
  module_of (header_bytes k ++ kernel) (k_len k) (k_entry_off k) (k_total k) kernel.
Proof.
  intros Hsp Hl He. pose proof (span_total_fits k Hsp) as [Hk1 Hk2].
  destruct (header_fields k kernel Hsp) as (H0 & H4 & H8 & H12).
  pose proof (proj1 (proj1 (fits_spec _ _) (sf_entry _ Hsp))).
  change LY.KERNEL_MAX with 524288 in *. pose proof (length_header k) as Hh.
  split; try assumption; change LY.QIZOK_HDR with 64; change LY.KERNEL_MAX with 524288; [| |lia|lia].
  - rewrite length_app, Hh. lia.
  - rewrite slice_app_r by (rewrite Hh; lia). rewrite Hh. change (64 - Z.of_nat 64) with 0. apply slice_all'. lia.
Qed.

Lemma payload_fits k kernel :
  span_fits k → k_len k = len kernel → Bytes kernel →
  Bytes (header_bytes k ++ kernel) ∧ fits 4 (len (header_bytes k ++ kernel)) = true.
Proof.
  intros Hsp Hl Hb. pose proof (span_total_fits k Hsp) as [? ?]. split.
  - apply Forall_app. split; [|done]. unfold header_bytes.
    repeat (apply Forall_app; split; [apply le_bytes_Bytes|]). apply zeros_Bytes.
  - apply fits_spec. change (256 ^ Z.of_nat 4) with 4294967296. rewrite length_app, length_header. lia.
Qed.

Lemma pack_blob_length raw payload blob :
  Bytes payload → fits 4 (len payload) = true → pack_blob raw payload = Ok blob → 8 ≤ len blob.
Proof.
  intros Hb Hfit. destruct raw; cbn [pack_blob].
  - rewrite !pack_le_ok by done. ok_bind. intros [= <-]. cbn [length]. lia.
  - intros H. apply (codec_header payload blob [] Hb Hfit H).
Qed.

(** The layouts [main] continues with. *)
Record layout_ok (bs total : Z) (l : layout) : Prop := {
  lo_part : l_part_lba l = BLOB_LBA + bs;
  lo_fields : boot_fields_fit total l;
  lo_reserved : l_reserved l = RESERVED;
  lo_sum : data_lba l + l_clusters l = total;
  lo_clusters : 4085 ≤ l_clusters l < 0xFFEE;
  lo_table : (l_clusters l + 2) * 2 ≤ l_fat_size l * SECTOR;
}.

Lemma plan_layout_ok total bs l :
  0 ≤ bs ≤ 248 → total - PART_LBA < 65536 →
  plan_layout total (BLOB_LBA + bs) RESERVED 16 = Ok (Some l) → layout_ok bs total l ∧ l_bits l = 16.
Proof.
  intros Hbs Htot. rewrite (plan_layout_eq _ _ _ _ 14) by done. cbv zeta.
  set (data := total - (BLOB_LBA + bs) - RESERVED - 14). case_match eqn:Hlt; [done|]. apply Z.ltb_ge in Hlt.
  intros [= <-]. change PART_LBA with 16 in *. change BLOB_LBA with 24 in *. unfold RESERVED in *.
  unfold fat_size_for in *. change (16 =? 12) with false in *. change (16 =? 16) with true in *.
  cbv iota in *. change (SECTOR * 8) with 4096 in *.
  pose proof (ceil_div_bounds (data * 16) 4096 ltac:(lia)).
  split; [|done].
  split; unfold data_lba, root_lba, fat_lba;
    cbn [l_bits l_fat_size l_clusters l_reserved l_root_sectors l_part_lba]; try done; try lia.
  - split; cbn [l_bits l_fat_size l_clusters l_reserved l_root_sectors l_part_lba];
      apply fits_spec; change (256 ^ Z.of_nat 2) with 65536; change (256 ^ Z.of_nat 4) with 4294967296;
      change PART_LBA with 16; lia.
  - change SECTOR with 512. lia.
Qed.

Lemma choose_layout_ok image_sectors bs total l :
  0 ≤ bs ≤ 248 → total - PART_LBA < 65536 → l_bits l = 16 →
  choose_layout image_sectors bs = Ok (total, l) → layout_ok bs total l.
Proof.
  intros Hbs Htot Hbits. unfold choose_layout. destruct (image_sectors =? 0).
  - rewrite pick_layout_eq. cbv zeta. case_match; [|done]. intros [= <- <-].
    apply plan_layout_ok; [done|done|]. rewrite (plan_layout_eq _ _ _ _ 14) by done. cbv zeta.
    unfold RESERVED. by replace (BLOB_LBA + bs + 4400 - (BLOB_LBA + bs) - 32 - 14) with 4354 by lia.
  - intros (l16 & H16 & H)%bind_Ok. destruct l16 as [l'|].
    + cbn in H. injection H as <- <-. by apply plan_layout_ok.
    + apply bind_Ok in H as ([l'|] & H12 & [= <- <-]).
      rewrite (plan_layout_eq _ _ _ _ 14) in H12 by done. cbv zeta in H12. case_match; [done|].
      by injection H12 as <-.
Qed.

(** The blob as it is written: padded to whole sectors. *)
Definition pad_sectors (blob : bytes) : bytes := blob ++ zeros (sectors_of blob * SECTOR - len blob).

Lemma pad_sectors_length blob : len (pad_sectors blob) = 512 * sectors_of blob.
Proof.
  unfold pad_sectors. pose proof (sector_count_bounds (len blob) ltac:(lia)). change SECTOR with 512. list_lia.
Qed.

(** The files of the volume. *)
Definition files_of (o : options) (k : kernel_span) (blob : bytes) (l : layout) : list (string * bytes) :=
  [("README.TXT"%string, b (readme_text (len (o_kernel_bin o)) (len (pad_sectors blob))
      (64 + len (o_kernel_bin o)) k (sectors_of blob) (BLOB_LBA + sectors_of blob) l));
   ("KERNEL.BIN"%string, o_kernel_bin o)].

(** Inputs the build accepts: a clean first stage, a second stage and a blob
    that fit their areas, a consistent kernel, and a volume with room for the
    files. *)
Record build_ok (o : options) (k : kernel_span) (blob : bytes) (total : Z) (l : layout) : Prop := {
  bo_stage1 : len (o_stage1 o) = 512;
  bo_args : slice (o_stage1 o) 464 484 = zeros 20;
  bo_sig : slice (o_stage1 o) 510 512 = [0x55; 0xAA];
  bo_stage2 : len (o_stage2 o) ≤ STAGE2_BYTES;
  bo_kernel : kernel_of (o_kernel_bin o) (ART.nm (o_kernel_nm o)) (o_entry o) = Ok k;
  bo_base : fits 4 (k_base k) = true;
  bo_entry : fits 4 (k_entry_off k) = true;
  bo_blob : pack_blob (o_raw o) (header_bytes k ++ o_kernel_bin o) = Ok blob;
  bo_blob_max : len blob ≤ BLOB_MAX;
  bo_layout : choose_layout (o_image_sectors o) (sectors_of blob) = Ok (total, l);
  bo_bits : l_bits l = 16;
  bo_total : total - PART_LBA < 65536;
  bo_room : place_end 2 (files_of o k blob l) ≤ l_clusters l + 2;
}.

(** The finished image. *)
Record disk (o : options) (k : kernel_span) (blob : bytes) (total : Z) (l : layout) (img : bytes) : Prop := {
  d_len : len img = total * SECTOR;
  d_code : has img 0 (slice (o_stage1 o) 0 446);
  d_partition : has img 446 (partition_entry l (BLOB_LBA + sectors_of blob) total);
  d_drive : has img 464 (zeros 4);
  d_lba : has img 468 (le_bytes 4 PART_LBA);
  d_total : has img 472 (le_bytes 2 (STAGE2_SECTORS + sectors_of blob));
  d_crc : has img 476 (le_bytes 4 (checksum (pad_sectors blob)));
  d_sig : has img 510 [0x55; 0xAA];
  d_stage2 : has img (STAGE2_LBA * SECTOR) (o_stage2 o ++ zeros (STAGE2_BYTES - len (o_stage2 o)));
  d_blob : has img (BLOB_LBA * SECTOR) (pad_sectors blob);
  d_volume : ∃ fat, volume img total l (o_label o) (files_of o k blob l) fat;
}.

Lemma volume_frame img img' total l label files fat :
  frame 0 512 img img' → 1 ≤ l_part_lba l → 0 ≤ l_reserved l → 0 ≤ l_fat_size l →
  volume img total l label files fat → volume img' total l label files fat.
Proof.
  intros [_ Hf] Hpart Hr Hs [H1 H2 H3 H4 H5 H6].
  assert (1 ≤ fat_lba l ∧ 1 ≤ root_lba l ∧ 1 ≤ data_lba l) as (? & ? & ?)
    by (unfold data_lba, root_lba, fat_lba; lia).
  change SECTOR with 512 in *. split; change SECTOR with 512.
  1-4: apply Hf; [lia|done].
  - intros n p first Hin. pose proof (place_range _ _ _ _ _ Hin) as (_ & ? & _).
    apply Hf; [lia|by eapply H5].
  - done.
Qed.

Lemma exit_unless P `{Decision P} msg : P → exit_if (negb (bool_decide P)) msg = Ok tt.
Proof. intros HP. unfold exit_if. by rewrite (bool_decide_true _ HP). Qed.

Lemma load_stage1_ok s :
  len s = 512 → slice s 464 484 = zeros 20 → slice s 510 512 = [0x55; 0xAA] → load_stage1 s = Ok s.
Proof.
  intros Hl Ha Hs. unfold load_stage1. change LY.STAGE1_ARGS_OFF with 464. change (464 + 20) with 484.
  rw_bool. rewrite (exit_unless (_ = [_; _])) by done. by rewrite exit_unless by done.
Qed.

Lemma build_volume_fits o k blob total l :
  build_ok o k blob total l → layout_ok (sectors_of blob) total l →
  volume_fits total l (files_of o k blob l) (pad_sectors blob) (BLOB_LBA * SECTOR)
    (o_stage2 o ++ zeros (STAGE2_SECTORS * SECTOR - len (o_stage2 o))).
Proof.
  intros [] []. change STAGE2_BYTES with 4096 in *. change STAGE2_SECTORS with 8. change BLOB_LBA with 24 in *.
  split; try done.
  - rewrite lo_reserved0. done.
  - lia.
  - unfold files_of. cbn. apply list.NoDup_cons. split; [|apply NoDup_singleton].
    by intros ?%list_elem_of_singleton.
  - change SECTOR with 512. change STAGE2_LBA with 16. list_lia.
  - rewrite pad_sectors_length, lo_part0. change SECTOR with 512. lia.
Qed.

Lemma exit_unless_lt x y msg : x ≤ y → exit_if (y <? x) msg = Ok tt.
Proof. intros. unfold exit_if. by rw_bool. Qed.

Lemma sectors_bound (blob : bytes) : len blob ≤ BLOB_MAX → 0 ≤ sectors_of blob ≤ 248.
Proof.
  change BLOB_MAX with 126976. intros. pose proof (sector_count_bounds (len blob) ltac:(lia)). lia.
Qed.

Lemma build_ok_layout o k blob total l : build_ok o k blob total l → layout_ok (sectors_of blob) total l.
Proof. intros []. eapply choose_layout_ok; [by apply sectors_bound|done..]. Qed.

Lemma build_ok_span o k blob total l : build_ok o k blob total l → span_fits k.
Proof. intros []. by eapply kernel_of_fits. Qed.

Lemma layout_ok_pos bs total l :
  layout_ok bs total l → 0 ≤ bs →
  24 ≤ l_part_lba l ∧ l_reserved l = 32 ∧ 0 ≤ l_fat_size l ∧ 4155 ≤ total.
Proof.
  intros [Hp [_ Hf _ _ _] Hr Hs Hc _] ?. apply fits_spec in Hf. change BLOB_LBA with 24 in *.
  unfold RESERVED, data_lba, root_lba, fat_lba in *. lia.
Qed.

(** What the first sector of the image is made of. *)
Lemma first_sector_ok stage1 s1 img' :
  len stage1 = 512 → slice stage1 464 484 = zeros 20 → slice stage1 510 512 = [0x55; 0xAA] →
  frame 468 480 stage1 s1 → (∀ o d, has s1 o d → o + len d ≤ 446 ∨ 462 ≤ o → has img' o d) →
  has img' 0 (slice stage1 0 446) ∧ has img' 464 (zeros 4) ∧ has img' 510 [0x55; 0xAA].
Proof.
  intros Hl Ha Hs [_ Hf] Hst.
  assert (has stage1 464 (zeros 20)) as Hz by (rewrite <-Ha; apply has_intro; lia).
  apply (has_sub _ _ _ 0 4) in Hz; [|done|done]. rewrite Z.add_0_r in Hz.
  assert (has stage1 510 [0x55; 0xAA]) as Hsig by (rewrite <-Hs; apply has_intro; lia).
  assert (has stage1 0 (slice stage1 0 446)) as Hc by (apply has_intro; lia).
  assert (len (slice stage1 0 446) = 446) as Hcl by (rewrite length_slice; lia).
  split_and!; apply Hst; (apply Hf; [|done]) || idtac; (left; simpl; lia) || (right; simpl; lia).
Qed.

(** Up to the first stage, [main] succeeds and hands [build_image] the volume. *)
Lemma main_spec o k blob total l :
  build_ok o k blob total l → ∃ img lines, main o = Ok (img, lines) ∧ disk o k blob total l img.
Proof.
  intros Hok. pose proof (build_ok_layout _ _ _ _ _ Hok) as Hlo. pose proof (build_ok_span _ _ _ _ _ Hok) as Hsp.
  pose proof (build_volume_fits _ _ _ _ _ Hok Hlo) as Hvf.
  destruct Hok. pose proof (sectors_bound _ bo_blob_max0) as Hbs.
  pose proof (layout_ok_pos _ _ _ Hlo (proj1 Hbs)) as (? & ? & ? & ?).
  pose proof (checksum_range (pad_sectors blob)) as Hcrc.
  destruct (patch_stage1_spec (o_stage1 o) (sectors_of blob) (checksum (pad_sectors blob)))
    as (s1 & Hs1 & [Hl1 Hf1] & Hlba & Htotal & Hsum & Hpad);
    [done|apply fits_spec; change STAGE2_SECTORS with 8; simpl; lia|by apply fits_spec|].
  destruct (build_image_spec _ _ _ (o_label o) _ _ _ Hvf) as (img & info & fat & Himg & Hlen & Hvol & Hst2 & Hblob & _).
  destruct (write_mbr_spec img s1 l (BLOB_LBA + sectors_of blob) total)
    as (img' & Himg' & Hfr & Hpe & Hst1); [lia|change SECTOR with 512 in *; lia| | |].
  1,2: destruct Hlo as [<- [] _ _ _ _]; done.
  unfold main. rewrite load_stage1_ok by done. ok_bind. rewrite exit_unless_lt by done. ok_bind.
  rewrite bo_kernel0. ok_bind. rewrite module_header_ok by done. ok_bind. rewrite bo_blob0. ok_bind.
  rewrite exit_unless_lt by done. ok_bind. fold (pad_sectors blob). rewrite Hs1. ok_bind. rewrite bo_layout0. ok_bind.
  replace (len (header_bytes k ++ o_kernel_bin o)) with (64 + len (o_kernel_bin o))
    by (rewrite length_app, length_header; lia).
  match goal with |- context [build_image total l ?fs] => change fs with (files_of o k blob l) end.
  rewrite Himg. ok_bind. rewrite Himg'. ok_bind.
  eexists _, _. split; [done|].
  destruct (first_sector_ok (o_stage1 o) s1 img') as (? & ? & ?); [done|done|done|by split|done|].
  change BLOB_LBA with 24 in *. change STAGE2_LBA with 16 in *. change STAGE2_BYTES with 4096 in *.
  change STAGE2_SECTORS with 8 in *.
  change SECTOR with 512 in *. split; try assumption.
  - by rewrite (proj1 Hfr).
  - apply Hst1; [done|lia].
  - apply Hst1; [done|lia].
  - apply Hst1; [done|lia].
  - apply (proj2 Hfr); [right; by vm_compute|done].
  - apply (proj2 Hfr); [right; by vm_compute|done].
  - exists fat. eapply volume_frame; [done|lia..|done].
Qed.

(** A build with a small kernel, used as the concrete case below: a second
    stage with a mode switch and a descriptor table, and a kernel of 23 bytes. *)
Definition ex_stage2 : bytes :=
  [0xFA; 0xFC; 0x31; 0xC0; 0x0F; 0x01; 0x17; 0x0F; 0x20; 0xC0; 0x66; 0x83; 0xC8; 0x01; 0x0F; 0x22; 0xC0] ++
  [55; 0; 0x17; 0; 2; 0] ++ zeros 8 ++
  [0xFF; 0xFF; 0; 0; 0; 0x9A; 0xCF; 0] ++ [0xFF; 0xFF; 0; 0; 0; 0x92; 0xCF; 0] ++
  [0xFF; 0xFF; 0; 0; 2; 0x9A; 0; 0] ++ zeros 8 ++
  [0xFF; 0xFF; 0; 0; 0; 0x9A; 0xAF; 0] ++ [0xFF; 0xFF; 0; 0; 0; 0x92; 0xCF; 0].

Definition ex_options (raw : bool) : options := {|
  o_stage1 := zeros 510 ++ [0x55; 0xAA];
  o_stage2 := ex_stage2;
  o_kernel_bin := b "qizo kernel qizo kernel";
  o_kernel_nm := "0000000000100000 T __qizo_phys_base
0000000000100004 T qizo_kernel_entry
0000000000100017 B __qizo_image_end
0000000000100080 B __qizo_bss_end
";
  o_out := "qizo.img"; o_entry := None; o_image_sectors := 0; o_raw := raw; o_label := "QIZO_BOOT";
|}.
Definition ex_span : kernel_span := KernelSpan 0x100000 4 23 0x80.
Definition ex_blob (raw : bool) : bytes :=
  match pack_blob raw (header_bytes ex_span ++ o_kernel_bin (ex_options raw)) with Ok d => d | _ => [] end.
Definition ex_layout : layout := Layout 16 18 4318 RESERVED 14 25.

Lemma ex_build_ok raw : build_ok (ex_options raw) ex_span (ex_blob raw) 4425 ex_layout.
Proof. destruct raw; (split; [apply (bool_decide_unpack _); by vm_compute..]). Qed.

(** ** Theorems *)

(** C10 - Any list of files with distinct names that fits the volume is stored
    in it: the image has the planned length, boot sector, both copies of the
    table, directory and file contents are where the planned layout puts them,
    every file has a chain of its own, the rest of the table is free, and the
    second stage and the blob are in front of the volume, untouched. *)
Theorem build_image_correct total l files label blob blob_offset stage2 :
  volume_fits total l files blob blob_offset stage2 →
  ∃ img info fat, build_image total l files label blob blob_offset stage2 = Ok (img, info) ∧
    len img = total * SECTOR ∧ volume img total l label files fat ∧
    has img (STAGE2_LBA * SECTOR) stage2 ∧ has img blob_offset blob ∧
    info = ImageInfo (fat_lba l) (root_lba l) (data_lba l) (b "FAT16   ") (place_end 2 files - 2).
Proof. apply build_image_spec. Qed.

Definition ex_files : list (string * bytes) :=
  [("README.TXT", b "qizo"); ("EMPTY", []); ("KERNEL.BIN", zeros 600)]%string.

Lemma build_image_correct_witness :
  place 2 ex_files = [("README.TXT", b "qizo", 2); ("EMPTY", [], 3); ("KERNEL.BIN", zeros 600, 3)]%string ∧
  ∃ img info fat, build_image 4425 ex_layout ex_files "QIZO" [1; 2] (24 * 512) [3] = Ok (img, info) ∧
    len img = 4425 * SECTOR ∧ volume img 4425 ex_layout "QIZO" ex_files fat ∧
    has img (STAGE2_LBA * SECTOR) [3] ∧ has img (24 * 512) [1; 2] ∧
    info = ImageInfo (fat_lba ex_layout) (root_lba ex_layout) (data_lba ex_layout) (b "FAT16   ")
      (place_end 2 ex_files - 2).
Proof.
  split; [by vm_compute|]. apply (build_image_correct 4425 ex_layout ex_files "QIZO" [1; 2] (24 * 512) [3]).
  split; first [by split | apply (bool_decide_unpack _); by vm_compute].
Defined.

(** C9 - The image tool succeeds on every acceptable build, compressed or raw,
    and the image is complete: the first stage with its arguments patched in
    and the partition entry beside them, the second stage, the blob, and the
    volume with the kernel and the read me file. *)
Theorem main_builds o k blob total l :
  build_ok o k blob total l → ∃ img lines, main o = Ok (img, lines) ∧ disk o k blob total l img.
Proof. apply main_spec. Qed.

Lemma main_builds_witness :
  build_ok (ex_options false) ex_span (ex_blob false) 4425 ex_layout ∧
  ∃ img lines, main (ex_options false) = Ok (img, lines) ∧
    disk (ex_options false) ex_span (ex_blob false) 4425 ex_layout img.
Proof. split; [apply ex_build_ok|]. apply main_builds, ex_build_ok. Defined.

Lemma boot_sector_inv total l label bs :
  boot_sector total l label = Ok bs → fits 2 (total - PART_LBA) = true.
Proof.
  unfold boot_sector. intros H.
  do 15 (apply bind_Ok in H as (? & _ & H)). apply bind_Ok in H as (? & Ht & _).
  unfold pack_into, pack_le in Ht. by destruct (fits 2 (total - PART_LBA)).
Qed.

(** C36 - An image is only written when every check has passed: the argument
    block of the first stage is clear, the second stage and the blob fit their
    areas, the kernel has the length its symbols say and fits the load budget
    with its header; and the sector count fits sixteen bits, so that a request
    for an image of 65552 sectors or more fails. *)
Theorem main_checked o img lines :
  main o = Ok (img, lines) →
  slice (o_stage1 o) LY.STAGE1_ARGS_OFF (LY.STAGE1_ARGS_OFF + 20) = zeros 20 ∧
  len (o_stage2 o) ≤ STAGE2_BYTES ∧
  (∃ k blob total l, kernel_of (o_kernel_bin o) (ART.nm (o_kernel_nm o)) (o_entry o) = Ok k ∧
     k_len k = len (o_kernel_bin o) ∧ k_len k + LY.QIZOK_HDR ≤ LY.KERNEL_MAX ∧ k_total k ≤ LY.KERNEL_MAX ∧
     pack_blob (o_raw o) (header_bytes k ++ o_kernel_bin o) = Ok blob ∧ len blob ≤ BLOB_MAX ∧
     choose_layout (o_image_sectors o) (sectors_of blob) = Ok (total, l) ∧ total < 65552).
Proof.
  unfold main. intros (s1 & Hs1 & H)%bind_Ok.
  apply bind_Ok in H as ([] & H2 & H). apply bind_Ok in H as (k & Hk & H).
  apply bind_Ok in H as (hdr & Hh & H). apply bind_Ok in H as (blob & Hb & H).
  apply bind_Ok in H as ([] & Hm & H). apply bind_Ok in H as (s2 & Hs2 & H).
  apply bind_Ok in H as ([total l] & Hl & H). apply bind_Ok in H as ([img' info] & Hi & _).
  unfold load_stage1 in Hs1. apply bind_Ok in Hs1 as ([] & Ha & _).
  pose proof (kernel_of_inv _ _ _ _ Hk) as (? & ? & ? & ?).
  apply module_header_inv in Hh as ->.
  unfold build_image in Hi. apply bind_Ok in Hi as (bs & Hbs%boot_sector_inv & _).
  apply fits_spec in Hbs. change (256 ^ Z.of_nat 2) with 65536 in Hbs. change PART_LBA with 16 in Hbs.
  unfold exit_if, raise_if in *. split_and!.
  - case_bool_decide; done.
  - case_bool; done.
  - exists k, blob, total, l. split_and!; try done; [|lia].
    clear -Hm. case_bool; done.
Qed.

Lemma main_checked_witness :
  ∃ img lines, main (ex_options true) = Ok (img, lines) ∧ len (o_stage2 (ex_options true)) ≤ STAGE2_BYTES.
Proof.
  destruct (main_spec _ _ _ _ _ (ex_build_ok true)) as (img & lines & H & _).
  exists img, lines. split; [done|]. apply (main_checked _ _ _ H).
Defined.

(** The BIOS parameter block does not hold the number of sectors of the
    volume: its 32 bit count, at offset 32, reads as the low half of the number
    with the drive number and the flag written over the high half. *)
Theorem boot_sector_count total l label bs :
  boot_fields_fit total l → boot_sector total l label = Ok bs →
  unpack_le 4 bs 32 = Ok ((total - l_part_lba l) mod 65536 + 0x01800000) ∧
  unpack_le 2 bs 19 = Ok 0 ∧ unpack_le 2 bs 22 = Ok (l_fat_size l) ∧ unpack_le 4 bs 28 = Ok (l_part_lba l).
Proof.
  intros Hf. rewrite boot_sector_ok by done. intros [= <-].
  destruct (boot_sector_fields total l label) as (H32 & H19 & H22 & H28). destruct Hf.
  pose proof (length_boot_sector_bytes total l label) as Hl.
  rewrite !unpack_le_ok by (rewrite ?Hl; done). cbv zeta in *.
  change (32 + Z.of_nat 4) with 36. change (19 + Z.of_nat 2) with 21. change (22 + Z.of_nat 2) with 24.
  change (28 + Z.of_nat 4) with 32.
  rewrite H32, H19, H22, H28, !le_val_pack by done. split_and!; [|done..]. f_equal.
  change (le_val (take 2 (le_bytes 4 ?v) ++ [128; 1])) with
    (v mod 256 + 256 * (v / 256 mod 256 + 256 * (128 + 256 * (1 + 256 * 0)))).
  change 65536 with (256 * 256). rewrite (Z.rem_mul_r _ 256 256) by lia. lia.
Qed.

Lemma boot_sector_count_witness :
  boot_fields_fit 4425 ex_layout ∧
  unpack_le 4 (boot_sector_bytes 4425 ex_layout "QIZO") 32 = Ok (4400 + 0x01800000).
Proof.
  assert (boot_fields_fit 4425 ex_layout) as Hf by by split. split; [done|].
  apply (boot_sector_count 4425 ex_layout "QIZO" _ Hf). by apply boot_sector_ok.
Defined.
