(* ===== verification/Check.v ===== *)
(** * The image checker: [tools/qizocheck/qizocheck.py]

    The checks of the disk image and of the boot stages.  A check passes, fails
    with the message it prints, or raises; the exit status is 0 when it passes.
    The files, the listing of [objdump] and the output of [nm] are inputs.  The
    check of the optical image is in [Iso.v]. *)

From S2P Require Export Image.

Definition STAGE1_ARGS : Z := LY.STAGE1_ARGS_OFF.

Inductive verdict := Pass | Failed (msg : string).
#[export] Instance verdict_eq_dec : EqDecision verdict.
Proof. solve_decision. Defined.

(** [return fail(msg)] and [return 0] *)
Definition fail (msg : string) : res verdict := Ok (Failed msg).
Definition pass : res verdict := Ok Pass.

(** [if c: return fail(msg)], then the rest. *)
Definition fail_if (c : bool) (msg : string) (rest : res verdict) : res verdict :=
  if c then fail msg else rest.

(** [rc = m; if rc: return rc], then the rest. *)
Definition and_then (m rest : res verdict) : res verdict :=
  v ← m;
  match v with Pass => rest | Failed msg => Ok (Failed msg) end.

(** ** The file system *)

Definition fat16 (img : bytes) (fat_off_bytes index : Z) : res Z :=
  unpack_le 2 img (fat_off_bytes + index * 2).

(** The directory scan: (name, size, first cluster) of the entries in use. *)
Definition dir_step (img : bytes) (root_lba i : Z) (entries : list (string * Z * Z))
    : res (ctl (list (string * Z * Z))) :=
  let e := slice img (root_lba * SECTOR + i * 32) (root_lba * SECTOR + (i + 1) * 32) in
  stop ← (if bool_decide (e = []) then Ok true else x ← bget e 0; Ok (x =? 0));
  match stop with
  | true => Ok (Break entries)
  | false =>
      a ← bget e 11;
      if (a =? 0x0F) || (a =? 0x08) then Ok (Next entries)
      else
        name ← decode_utf8 (slice e 0 8);
        ext ← decode_utf8 (slice e 8 11);
        cluster ← unpack_le 2 e 26;
        size ← unpack_le 4 e 28;
        Ok (Next (entries ++ [(strip_char "." (strip name +:+ "." +:+ strip ext)%string, size, cluster)]))
  end.

Definition scan_dir (img : bytes) (root_lba rootcnt : Z) : res (list (string * Z * Z)) :=
  for_each (dir_step img root_lba) (range 0 rootcnt) [].

(** Following a chain of clusters. *)
Record chase := Chase { ch_data : bytes; ch_cur : Z; ch_spins : Z }.

Definition follow_step (img : bytes) (fat_off data_lba spc : Z) (s : chase) : res (ctl chase) :=
  let '(Chase data cur spins) := s in
  let lba := data_lba + (cur - 2) * spc in
  let data := data ++ slice img (lba * SECTOR) ((lba + spc) * SECTOR) in
  cur ← fat16 img fat_off cur;
  Ok (Next (Chase data cur (spins + 1))).

Definition follow_cond (s : chase) : bool :=
  (2 <=? ch_cur s) && (ch_cur s <? 0xFFF8) && (ch_spins s <? 100000).

Definition follow (img : bytes) (fat_off data_lba spc cluster : Z) : res bytes :=
  s ← while (Z.to_nat 100001) follow_cond (follow_step img fat_off data_lba spc) (Chase [] cluster 0);
  Ok (ch_data s).

Definition load_step (img : bytes) (fat_off data_lba spc : Z) (e : string * Z * Z)
    (found : gmap string bytes) : res (ctl (gmap string bytes)) :=
  let '(name, size, cluster) := e in
  data ← follow img fat_off data_lba spc cluster;
  Ok (Next (<[name := slice data 0 size]> found)).

Definition load_files (img : bytes) (fat_off data_lba spc : Z) (entries : list (string * Z * Z))
    : res (gmap string bytes) :=
  for_each (load_step img fat_off data_lba spc) entries ∅.

Definition check_fs (img kernel : bytes) : res verdict :=
  part ← unpack_le 4 img 0x1C6;
  let bs := slice img (part * SECTOR) (part * SECTOR + SECTOR) in
  fail_if (negb (bool_decide (slice bs 510 512 = [0x55; 0xAA]))) "boot sector signature missing" (
  bps ← unpack_le 2 bs 11;
  spc ← bget bs 13;
  reserved ← unpack_le 2 bs 14;
  nfats ← bget bs 16;
  rootcnt ← unpack_le 2 bs 17;
  media ← bget bs 21;
  fat_size ← unpack_le 2 bs 22;
  fail_if (negb (bps =? SECTOR)) ("unexpected bytes per sector " +:+ fmt_d bps) (
  fail_if (negb ((media =? 0xF8) || (media =? 0xF9))) ("unexpected media byte " +:+ fmt_02x media) (
  t ← unpack_le 2 bs 19;
  _ ← (if t =? 0 then unpack_le 4 bs 40 else Ok t);
  let root_lba := part + reserved + nfats * fat_size in
  let data_lba := root_lba + (rootcnt * 32 + SECTOR - 1) / SECTOR in
  entries ← scan_dir img root_lba rootcnt;
  found ← load_files img ((part + reserved) * SECTOR) data_lba spc entries;
  match found !! "KERNEL.BIN"%string with
  | None => fail "KERNEL.BIN missing from root directory"
  | Some data =>
      fail_if (negb (bool_decide (data = kernel)))
        "KERNEL.BIN in the filesystem differs from the module kernel" (
      match found !! "README.TXT"%string with
      | Some text =>
          fail_if (negb (starts_with text (b "qizo"))) "README.TXT missing or unexpected" pass
      | None => fail "README.TXT missing or unexpected"
      end)
  end))).

(** ** The first stage *)

(** The destination address of a [mov] in a line of the listing. *)
Definition dap_line (dests : gset Z) (line : string) : gset Z :=
  let line := strip line in
  if bool_decide (line = EmptyString) || negb (contains (String (chr 9) EmptyString) line) then dests
  else
    let text := last_field (chr 9) line in
    if negb (starts "mov" text) then dests
    else
      let tail := strip (last_field "," text) in
      if starts "0x" tail then
        match int16 tail with Some v => {[v]} ∪ dests | None => dests end
      else dests.

(** [check_stage1_dap(path)], given the listing when [objdump] is installed *)
Definition check_stage1_dap (objdump : option string) : res verdict :=
  dap ← LY.g "QIZO_DAP_ADDR";
  fail_if (negb (dap mod 16 =? 0))
    ("stage1 disk address packet at " +:+ fmt_x dap +:+ " is not paragraph aligned") (
  match objdump with
  | None => pass
  | Some out =>
      let dests := fold_left dap_line (nonempty_lines out) ∅ in
      match List.find (λ off, negb (bool_decide (dap + off ∈ dests))) [0; 2; 4; 6; 8; 12] with
      | Some off => fail ("stage1 never writes disk address packet field +" +:+ fmt_d off)
      | None =>
          fail_if (bool_decide (dap + 10 ∈ dests))
            "stage1 writes the lba high half at +10, seabios reads struct int13ext_s lba at +8" (
          let flat := replace_all "0x07e00" "0x7e00" (replace_all ", " "," out) in
          fail_if (negb (contains ("$0x" +:+ fmt_x dap +:+ ",%bx") flat))
            "stage1 must hand the disk address packet to INT 13h in es:bx" (
          fail_if (negb (contains ("$0x" +:+ fmt_x dap +:+ ",%si") flat))
            "stage1 must also put the packet in ds:si, which is where seabios reads it" (
          fail_if (negb (contains "int" out) || negb (contains "$0x13" out))
            "stage1 has no int $0x13" pass)))
      end
  end).

(** ** The second stage *)

Record descriptor := Desc {
  d_limit : Z; d_base : Z; d_access : Z; d_flags : Z; d_g : Z; d_d : Z; d_l : Z;
}.

Definition decode_desc (l : bytes) : descriptor :=
  let q := le_val l in
  Desc (Z.lor (Z.land q 0xFFFF) (Z.land (Z.shiftr q 32) 0xF0000))
       (Z.lor (Z.land (Z.shiftr q 16) 0xFFFFFF) (Z.shiftl (Z.land (Z.shiftr q 56) 0xFF) 24))
       (Z.land (Z.shiftr q 40) 0xFF) (Z.land (Z.shiftr q 48) 0xFF)
       (Z.land (Z.shiftr q 55) 1) (Z.land (Z.shiftr q 54) 1) (Z.land (Z.shiftr q 53) 1).

(** selector, access, base, granularity, long mode; sorted by selector *)
Definition want : list (Z * (Z * Z * Z * Z)) := [
  (0x08, (0x9A, 0, 1, 0)); (0x10, (0x92, 0, 1, 0)); (0x18, (0x9A, 0x20000, 0, 0));
  (0x28, (0x9A, 0, 1, 1)); (0x30, (0x92, 0, 1, 0))].

(** The search for the pseudo descriptor. *)
Definition gdtr_step (data : bytes) (i : Z) (gdtr : option Z) : res (ctl (option Z)) :=
  limit ← unpack_le 2 data i;
  if negb (limit =? 55) then Ok (Next gdtr)
  else
    base ← unpack_le 4 data (i + 2);
    if (0x20000 <? base) && (base <? 0x21000) then Ok (Break (Some base)) else Ok (Next gdtr).

Definition hex2 (n : Z) : string := ("0x" +:+ fmt_02x n)%string.

(** The complaint about one descriptor, if any. *)
Definition desc_error (data : bytes) (off : Z) (w : Z * (Z * Z * Z * Z)) : option string :=
  let '(sel, (access, base_, g_, l_)) := w in
  let d := decode_desc (slice data (off + sel) (off + sel + 8)) in
  let pre := ("stage2 gdt selector " +:+ hex2 sel)%string in
  if negb (d_access d =? access) then
    Some (pre +:+ " has access byte " +:+ hex2 (d_access d) +:+ ", expected " +:+ hex2 access)%string
  else if negb (d_base d =? base_) then
    Some (pre +:+ " has base 0x" +:+ fmt_x (d_base d) +:+ ", expected 0x" +:+ fmt_x base_ +:+
          ": base 16:23 occupies byte 4, not the access field")%string
  else if negb (d_g d =? g_) || negb (d_l d =? l_) then
    Some (pre +:+ " has the wrong granularity or mode bits")%string
  else if (Z.land (d_access d) 0x80 =? 0) || (Z.land (d_access d) 0x10 =? 0) then
    Some (pre +:+ " is not a present code or data descriptor")%string
  else None.

Definition check_stage2_gdt (data : bytes) : res verdict :=
  gdtr ← for_each (gdtr_step data) (range 0 (len data - 6)) None;
  match gdtr with
  | None => fail "stage2 has no gdtr pseudo descriptor pointing inside the load area"
  | Some gdtr =>
      let off := gdtr - 0x20000 in
      match List.find (λ w, bool_decide (is_Some (desc_error data off w))) want with
      | Some w => fail (default EmptyString (desc_error data off w))
      | None => pass
      end
  end.

Definition check_stage2_transition (data : bytes) : res verdict :=
  fail_if (occurs [0x66; 0x0F; 0x01] data)
    ("stage2 descriptor table load carries a 66 prefix, which selects the 10" +:+
     " byte pseudo descriptor that 16 bit mode cannot use") (
  fail_if (negb (occurs [0x0F; 0x01; 0x17] data))
    "stage2 has no 6 byte lgdt of the real mode form" (
  let store := find data [0x0F; 0x22; 0xC0] in
  fail_if (store <? 0) "stage2 never writes cr0, so it cannot enable protected mode" (
  let read := rfind data [0x0F; 0x20; 0xC0] store in
  fail_if (read <? 0) "stage2 writes cr0 without reading it first" (
  let live := slice data (read + 3) store in
  match List.find (λ bw : Z * string, bool_decide (bw.1 ∈ live))
          [(0xE8, "a call"); (0xB0, "a movb into al"); (0xB2, "a movb into dl")]%string with
  | Some (_, why) =>
      fail ("stage2 puts " +:+ why +:+ " inside the cr0 handoff, which destroys the pending" +:+
            " value in eax")
  | None =>
      fail_if (negb (bool_decide (slice data (store - 2) store = [0xC8; 0x01])))
        "stage2 does not set bit 0 of cr0 immediately before the write" pass
  end)))).

(** ** Reading a volume back *)

(** *** Names *)

(** File names of the 8.3 form, in the characters the directory keeps. *)
Definition name_char (c : ascii) : bool := is_digit c || is_upper c || (code c =? 95).
Definition valid_83 (name : string) : bool :=
  match rsplit1 "." name with
  | Some (base, ext) =>
      all_chars name_char base && all_chars name_char ext &&
      (1 <=? len (b base)) && (len (b base) <=? 8) && (1 <=? len (b ext)) && (len (b ext) <=? 3)
  | None => all_chars name_char name && (1 <=? len (b name)) && (len (b name) <=? 8)
  end.

Lemma string_of_b s : String.string_of_list_ascii (chr <$> b s) = s.
Proof.
  induction s as [|c s IH]; [done|]. rewrite b_cons. cbn [fmap list_fmap String.string_of_list_ascii].
  f_equal; [|exact IH]. unfold chr, code. rewrite N2Z.id. apply ascii_N_embedding.
Qed.

Lemma valid_utf8_ascii l : Forall (λ x, x < 0x80) l → valid_utf8 l = true.
Proof. induction 1 as [|x l Hx Hl IH]; [done|]. cbn [valid_utf8]. by rw_bool. Qed.

Lemma name_char_facts c :
  name_char c = true → is_space c = false ∧ ("." =? c)%char = false ∧ is_lower c = false ∧ code c < 0x80.
Proof. destruct c as [[] [] [] [] [] [] [] []]; vm_compute; done. Qed.

Lemma all_chars_b (p : ascii → bool) (P : Z → Prop) s :
  (∀ c, p c = true → P (code c)) → all_chars p s = true → Forall P (b s).
Proof.
  intros Hp. induction s as [|c s IH]; [by constructor|]. cbn [all_chars]. rewrite b_cons.
  intros [Hc Hs]%andb_true_iff. constructor; auto.
Qed.

Lemma upper_name s : all_chars name_char s = true → upper s = s.
Proof.
  induction s as [|c s IH]; [done|]. cbn [all_chars upper]. intros [Hc Hs]%andb_true_iff.
  apply name_char_facts in Hc as (_ & _ & -> & _). by rewrite IH.
Qed.

(** Stripping a padded name. *)
Lemma rstrip_spaces k : rstrip (String.string_of_list_ascii (replicate k " "%char)) = EmptyString.
Proof. induction k as [|k IH]; [done|]. cbn [replicate String.string_of_list_ascii rstrip]. by rewrite IH. Qed.

Lemma lstrip_spaces k : lstrip (String.string_of_list_ascii (replicate k " "%char)) = EmptyString.
Proof. by induction k as [|k IH]. Qed.

Lemma rstrip_padded s k :
  all_chars name_char s = true →
  rstrip (String.string_of_list_ascii ((chr <$> b s) ++ replicate k " "%char)) = s.
Proof.
  induction s as [|c s IH]; cbn [all_chars].
  - intros _. apply rstrip_spaces.
  - intros [Hc Hs]%andb_true_iff. rewrite b_cons. cbn [fmap list_fmap app String.string_of_list_ascii rstrip].
    rewrite (IH Hs). apply name_char_facts in Hc as (Hc & _).
    assert (chr (code c) = c) as -> by (unfold chr, code; rewrite N2Z.id; apply ascii_N_embedding).
    destruct s; [by rewrite Hc|done].
Qed.

Lemma lstrip_padded s k :
  all_chars name_char s = true →
  rstrip (lstrip (String.string_of_list_ascii ((chr <$> b s) ++ replicate k " "%char))) = s.
Proof.
  intros Hs. destruct s as [|c s].
  - change (chr <$> b EmptyString) with (@nil ascii). cbn [app]. by rewrite lstrip_spaces.
  - pose proof (rstrip_padded (String c s) k Hs) as Hr. cbn [all_chars] in Hs.
    apply andb_true_iff in Hs as [Hc _]. apply name_char_facts in Hc as (Hc & _).
    rewrite b_cons in *. cbn [fmap list_fmap app String.string_of_list_ascii] in *.
    assert (chr (code c) = c) as E by (unfold chr, code; rewrite N2Z.id; apply ascii_N_embedding).
    rewrite E in *. cbn [lstrip]. by rewrite Hc.
Qed.

(** [d.decode()] of a padded name, stripped. *)
Lemma decode_field s n :
  all_chars name_char s = true →
  ∃ t, decode_utf8 (ljust (b s) n 32) = Ok t ∧ strip t = s.
Proof.
  intros Hs. unfold decode_utf8, ljust. rewrite valid_utf8_ascii.
  2: { apply Forall_app. split; [|by apply Forall_replicate].
       apply (all_chars_b name_char); [|done]. intros c (_ & _ & _ & ?)%name_char_facts. done. }
  eexists. split; [done|]. rewrite fmap_app, fmap_replicate. by apply lstrip_padded.
Qed.

(** [("%s.%s" % (base, ext)).strip(".")] *)
Lemma rstrip_char_name s t :
  all_chars name_char s = true →
  rstrip_char "." (s +:+ t)%string =
    match rstrip_char "." t with EmptyString => s | r => (s +:+ r)%string end.
Proof.
  induction s as [|c s IH]; intros Hs.
  - change (EmptyString +:+ t)%string with t. by destruct (rstrip_char "." t).
  - cbn [all_chars] in Hs. apply andb_true_iff in Hs as [Hc Hs]. apply name_char_facts in Hc as (_ & Hc & _).
    change (String c s +:+ t)%string with (String c (s +:+ t)). cbn [rstrip_char]. rewrite IH, Hc by done.
    destruct (rstrip_char "." t) as [|d r]; [by destruct s|].
    change (String c s +:+ String d r)%string with (String c (s +:+ String d r)).
    destruct s; done.
Qed.

Lemma strip_char_name base ext :
  all_chars name_char base = true → all_chars name_char ext = true → base ≠ EmptyString →
  strip_char "." (base +:+ "." +:+ ext)%string =
    if bool_decide (ext = EmptyString) then base else (base +:+ "." +:+ ext)%string.
Proof.
  intros Hb He Hne. destruct base as [|c base]; [done|]. unfold strip_char.
  change (String c base +:+ ?t)%string with (String c (base +:+ t)). cbn [lstrip_char].
  pose proof Hb as Hb'. cbn [all_chars] in Hb'. apply andb_true_iff in Hb' as [Hc _].
  apply name_char_facts in Hc as (_ & -> & _).
  change (String c (base +:+ ?t))%string with (String c base +:+ t)%string.
  rewrite rstrip_char_name by done. change ("." +:+ ext)%string with (String "." ext). cbn [rstrip_char].
  pose proof (rstrip_char_name ext EmptyString He) as Hx. cbn [rstrip_char] in Hx.
  assert ((ext +:+ EmptyString)%string = ext) as E
    by (apply b_inj; rewrite b_app; apply (right_id_L [] (++))).
  rewrite E in Hx. rewrite Hx. by destruct ext.
Qed.

Lemma rsplit1_spec sep s u v : rsplit1 sep s = Some (u, v) → s = (u +:+ String sep v)%string.
Proof.
  revert u v. induction s as [|c s IH]; intros u v; [done|]. cbn [rsplit1].
  destruct (rsplit1 sep s) as [[u' v']|].
  - intros [= <- <-]. by rewrite (IH _ _ eq_refl) at 1.
  - destruct (Ascii.eqb_spec c sep) as [->|]; [|done]. by intros [= <- <-].
Qed.

(** *** Directory entries *)

Lemma entry_fields name size cluster attrs mt md :
  let e := entry_bytes name size cluster attrs mt md in
  slice e 0 8 = slice (short_name name) 0 8 ∧ slice e 8 11 = slice (short_name name) 8 11 ∧
  bget e 0 = bget (short_name name) 0 ∧ bget e 11 = Ok attrs ∧
  slice e 26 28 = le_bytes 2 (cluster mod 65536) ∧ slice e 28 32 = le_bytes 4 size.
Proof.
  unfold entry_bytes. cbv zeta. pose proof (length_short_name name) as Hl.
  generalize dependent (short_name name). intros sn Hl. generalize (cluster mod 65536). intros c.
  do 12 (explode sn). explode_ints. done.
Qed.

(** The parts of a valid name. *)
Lemma valid_83_parts name :
  valid_83 name = true →
  ∃ base ext, default (name, EmptyString) (rsplit1 "." name) = (base, ext) ∧
    all_chars name_char base = true ∧ all_chars name_char ext = true ∧
    1 ≤ len (b base) ≤ 8 ∧ len (b ext) ≤ 3 ∧
    name = if bool_decide (ext = EmptyString) then base else (base +:+ "." +:+ ext)%string.
Proof.
  unfold valid_83. destruct (rsplit1 "." name) as [[base ext]|] eqn:Hr; intros H;
    rewrite ?andb_true_iff, ?Z.leb_le in H.
  - exists base, ext. cbn [default from_option id]. destruct H as [[[[[? ?] ?] ?] ?] ?].
    split_and!; try done. rewrite bool_decide_false; [by apply rsplit1_spec|].
    intros ->. by change (len (b EmptyString)) with 0 in *.
  - exists name, EmptyString. destruct H as [[? ?] ?]. by split_and!.
Qed.

Lemma entry_name name :
  valid_83 name = true →
  ∃ t u, decode_utf8 (slice (short_name name) 0 8) = Ok t ∧
    decode_utf8 (slice (short_name name) 8 11) = Ok u ∧
    strip_char "." (strip t +:+ "." +:+ strip u)%string = name ∧
    ∃ x, bget (short_name name) 0 = Ok x ∧ x ≠ 0.
Proof.
  intros (base & ext & Hp & Hb & He & Hlb & Hle & Hname)%valid_83_parts.
  unfold short_name. rewrite Hp, !upper_name, !(take_ge (b _)) by (done || lia).
  destruct (decode_field base 8 Hb) as (t & Ht & Hst). destruct (decode_field ext 3 He) as (u & Hu & Hsu).
  assert (len (ljust (b base) 8 32) = 8 ∧ len (ljust (b ext) 3 32) = 3) as [H8 H3]
    by (rewrite !length_ljust; lia).
  exists t, u. rewrite slice_app_l, slice_app_r, slice_all' by lia.
  rewrite H8. change (8 - 8) with 0. change (11 - 8) with 3. rewrite slice_all' by lia.
  rewrite Hst, Hsu, strip_char_name by (done || intros ->; cbn in Hlb; lia).
  split_and!; [done|done|by symmetry|].
  destruct base as [|c base]; [cbn in Hlb; lia|]. rewrite b_cons. exists (code c). split; [done|].
  cbn [all_chars] in Hb. apply andb_true_iff in Hb as [Hc _].
  by destruct c as [[] [] [] [] [] [] [] []].
Qed.

Lemma dir_step_file img root i acc name p first :
  has img (root * SECTOR + i * 32) (file_entry (name, p, first)) →
  valid_83 name = true → fits 4 (len p) = true → 0 ≤ first < 65536 →
  dir_step img root i acc =
    Ok (Next (acc ++ [(name, len p, if sectors_of p =? 0 then 0 else first)])).
Proof.
  intros Hhas Hname Hlen Hfirst. unfold dir_step.
  rewrite (has_slice _ _ _ _ Hhas) by (rewrite length_file_entry; lia).
  unfold file_entry. set (first' := if sectors_of p =? 0 then 0 else first).
  assert (0 ≤ first' < 65536) as Hf' by (unfold first'; case_match; lia).
  pose proof (entry_fields name (len p) first' ATTR_FILE MODTIME MODDATE) as (H0 & H8 & Hb0 & Ha & H26 & H28).
  pose proof (length_entry_bytes name (len p) first' ATTR_FILE MODTIME MODDATE) as Hl.
  set (e := entry_bytes _ _ _ _ _ _) in *. clearbody e.
  destruct (entry_name name Hname) as (t & u & Ht & Hu & Hn & x & Hx & Hx0).
  rewrite bool_decide_false by (intros ->; done). rewrite Hb0, Hx. ok_bind.
  rewrite (proj2 (Z.eqb_neq x 0)) by done. rewrite Ha. ok_bind.
  change ((ATTR_FILE =? 15) || (ATTR_FILE =? 8)) with false. cbv iota.
  rewrite H0, Ht, H8, Hu. ok_bind. rewrite !unpack_le_ok by lia.
  change (26 + Z.of_nat 2) with 28. change (28 + Z.of_nat 4) with 32. ok_bind.
  rewrite H26, H28, Hn, !le_val_pack by
    (done || apply fits_spec; change (256 ^ Z.of_nat 2) with 65536; apply Z.mod_pos_bound; lia).
  by rewrite Z.mod_small by lia.
Qed.

(** The label is skipped, unless it starts with a NUL. *)
Lemma dir_step_label img root acc label :
  has img (root * SECTOR) (label_entry label) → bget (short_name label) 0 ≠ Ok 0 →
  dir_step img root 0 acc = Ok (Next acc).
Proof.
  intros Hhas Hnul. unfold dir_step. rewrite Z.mul_0_l, Z.add_0_r.
  rewrite (has_slice _ _ _ _ Hhas) by (unfold label_entry; rewrite length_entry_bytes; lia).
  unfold label_entry.
  pose proof (entry_fields label 0 0 ATTR_LABEL MODTIME MODDATE) as (_ & _ & Hb0 & Ha & _ & _).
  pose proof (length_entry_bytes label 0 0 ATTR_LABEL MODTIME MODDATE) as Hl.
  set (e := entry_bytes _ _ _ _ _ _) in *. clearbody e.
  rewrite bool_decide_false by (intros ->; done). rewrite Hb0.
  destruct (bget_ok (short_name label) 0) as (x & _ & Hx); [rewrite length_short_name; lia|].
  rewrite Hx in *. ok_bind. rewrite (proj2 (Z.eqb_neq x 0)) by congruence. by rewrite Ha.
Qed.

Lemma dir_step_end img root i acc n :
  has img (root * SECTOR + i * 32) (zeros n) → 32 ≤ n → dir_step img root i acc = Ok (Break acc).
Proof.
  intros Hhas Hn. unfold dir_step.
  pose proof (has_sub _ _ _ 0 32 Hhas ltac:(lia) ltac:(list_lia)) as H32.
  rewrite slice_zeros, Z.add_0_r in H32 by lia.
  rewrite (has_slice _ _ _ _ H32) by list_lia. done.
Qed.

(** *** The directory scan *)

Definition dir_of (f : string * bytes * Z) : string * Z * Z :=
  let '(name, p, first) := f in (name, len p, if sectors_of p =? 0 then 0 else first).

Lemma range_cons a n : a < n → range a n = a :: range (a + 1) n.
Proof. intros. unfold range. rewrite seqZ_cons by lia. f_equal. f_equal. lia. Qed.

Lemma range_nil a n : n ≤ a → range a n = [].
Proof. intros. unfold range. by rewrite seqZ_nil by lia. Qed.

Lemma scan_loop img root placed i acc rest :
  0 ≤ i → i + len placed + rest = 224 → 0 ≤ rest →
  has img (root * SECTOR + i * 32) (concat (file_entry <$> placed) ++ zeros (32 * rest)) →
  Forall (λ f : string * bytes * Z, valid_83 f.1.1 = true ∧ fits 4 (len f.1.2) = true ∧ 0 ≤ f.2 < 65536) placed →
  for_each (dir_step img root) (range i 224) acc = Ok (acc ++ (dir_of <$> placed)).
Proof.
  intros Hi Hsum Hrest. revert i acc Hi Hsum. induction placed as [|f placed IH]; intros i acc Hi Hsum Hhas Hall.
  - cbn [fmap list_fmap concat app length] in *. rewrite (right_id_L [] (++)).
    destruct (decide (rest = 0)) as [->|]; [by rewrite range_nil by lia|].
    rewrite range_cons, for_each_cons by lia. by rewrite (dir_step_end _ _ _ _ (32 * rest)) by (done || lia).
  - apply Forall_cons_iff in Hall as [(Hn & Hl & Hf) Hall]. destruct f as [[name p] first].
    cbn [fmap list_fmap concat length fst snd] in *. rewrite <-(assoc_L (++)) in Hhas.
    apply has_app in Hhas as [H1 H2]. rewrite length_file_entry in H2.
    rewrite range_cons, for_each_cons by lia. rewrite (dir_step_file _ _ _ _ name p first) by done.
    ok_bind. rewrite IH; [by rewrite <-(assoc_L (++))|lia|lia| |done].
    replace (root * SECTOR + (i + 1) * 32) with (root * SECTOR + i * 32 + Z.of_nat 32) by lia. done.
Qed.

(** *** Following a chain *)

Lemma fat16_read img o fat i :
  has img o fat → fat_room 16 fat i → fat16 img o i = Ok (fat_get 16 fat i).
Proof.
  intros Hhas [? ?]%room_16. pose proof (has_sub _ _ _ (i * 2) (i * 2 + 2) Hhas ltac:(lia) ltac:(lia)) as H2.
  assert (slice fat (i * 2) (i * 2 + 2) = [at_ fat (i * 2); at_ fat (i * 2 + 1)]) as E.
  { apply list_eq. intros n. rewrite lookup_slice by lia.
    destruct n as [|[|n]]; case_decide; try lia; [| |done].
    - rewrite Nat.add_0_r. destruct (bget_ok fat (i * 2)) as (x & -> & _); [lia|done].
    - replace (Z.to_nat (i * 2) + 1)%nat with (Z.to_nat (i * 2 + 1)) by lia.
      destruct (bget_ok fat (i * 2 + 1)) as (x & -> & _); [lia|done]. }
  rewrite E in H2. pose proof H2 as (? & Hle & _). cbn [length] in Hle.
  unfold fat16. rewrite unpack_le_ok by lia. rewrite (has_slice _ _ _ _ H2) by (cbn [length]; lia).
  unfold fat_get. cbn [Z.eqb Pos.eqb le_val]. f_equal. lia.
Qed.

Lemma follow_step_ok img fo dl spc data cur spins next :
  fat16 img fo cur = Ok next →
  follow_step img fo dl spc (Chase data cur spins) =
    Ok (Next (Chase (data ++ slice img ((dl + (cur - 2) * spc) * SECTOR) ((dl + (cur - 2) * spc + spc) * SECTOR))
                next (spins + 1))).
Proof. intros H. unfold follow_step. by rewrite H. Qed.

Section follow.
Variables (img fat : bytes) (fat_off data_lba first count : Z).
Hypothesis Hfat : has img fat_off fat.
Hypothesis Hchain : chain fat first count.
Hypothesis Hfirst : 2 ≤ first.
Hypothesis Hcount : 1 ≤ count.
Hypothesis Hend : first + count < 0xFFF0.
Hypothesis Hroom : 2 * (first + count) ≤ len fat.
Hypothesis Hdata : 0 ≤ data_lba.
Hypothesis Himg : (data_lba + first - 2 + count) * SECTOR ≤ len img.

Lemma follow_loop n k data fuel :
  0 ≤ k ≤ count → Z.of_nat n = count - k → (n < fuel)%nat →
  while fuel follow_cond (follow_step img fat_off data_lba 1)
    (Chase data (if k =? count then 0xFFFF else first + k) k) =
  Ok (Chase (data ++ slice img ((data_lba + first - 2 + k) * SECTOR) ((data_lba + first - 2 + count) * SECTOR))
        0xFFFF count).
Proof.
  change SECTOR with 512 in *. revert k data fuel.
  induction n as [|n IH]; intros k data [|fuel] Hk Hn Hf; try lia; rewrite while_S; unfold follow_cond at 1;
    cbn [ch_cur ch_spins].
  - assert (k = count) as -> by lia. rewrite Z.eqb_refl.
    change (65535 <? 0xFFF8) with false. rewrite andb_false_r. cbn [andb].
    rewrite slice_nil by lia. by rewrite (right_id_L [] (++)).
  - rewrite (proj2 (Z.eqb_neq k count)) by lia. rw_bool.
    rewrite (follow_step_ok _ _ _ _ _ _ _ (if k =? count - 1 then 0xFFFF else first + k + 1)).
    2: { rewrite (fat16_read _ _ _ _ Hfat) by (apply room_16; lia). by rewrite Hchain by lia. }
    ok_bind. change SECTOR with 512.
    replace (if k =? count - 1 then _ else _) with (if k + 1 =? count then 0xFFFF else first + (k + 1))
      by (destruct (Z.eqb_spec k (count - 1)), (Z.eqb_spec (k + 1) count); lia).
    rewrite IH by lia. f_equal. f_equal. rewrite <-(assoc_L (++)). f_equal.
    rewrite (slice_split img ((data_lba + first - 2 + k) * 512) ((data_lba + first - 2 + (k + 1)) * 512)) by lia.
    f_equal. f_equal; lia.
Qed.

Lemma follow_chain :
  follow img fat_off data_lba 1 first =
    Ok (slice img ((data_lba + first - 2) * SECTOR) ((data_lba + first - 2 + count) * SECTOR)).
Proof.
  unfold follow. pose proof (follow_loop (Z.to_nat count) 0 [] (Z.to_nat 100001)) as H.
  rewrite (proj2 (Z.eqb_neq 0 count)), !Z.add_0_r in H by lia. rewrite H by lia. done.
Qed.
End follow.

Lemma follow_empty img fat_off data_lba : follow img fat_off data_lba 1 0 = Ok [].
Proof.
  unfold follow. destruct (Z.to_nat 100001) eqn:E; [lia|]. done.
Qed.

(** *** All files *)

Section volume.
Variables (img : bytes) (total : Z) (l : layout) (label : string) (files : list (string * bytes)) (fat : bytes).
Hypothesis Hvol : volume img total l label files fat.
Hypothesis Hfits : ∃ blob off stage2, volume_fits total l files blob off stage2.
Hypothesis Hlen : len img = total * SECTOR.
Hypothesis Hnames : Forall (λ f, valid_83 f.1 = true) files.
Hypothesis Hlabel : bget (short_name label) 0 ≠ Ok 0.

Lemma volume_bounds :
  0 ≤ l_part_lba l ∧ 1 ≤ l_reserved l ∧ 0 ≤ l_fat_size l ∧ data_lba l + l_clusters l = total ∧
  0 ≤ l_clusters l < 0xFFEE ∧ (l_clusters l + 2) * 2 ≤ l_fat_size l * SECTOR ∧
  place_end 2 files ≤ l_clusters l + 2 ∧ len files ≤ 223 ∧ NoDup files.*1.
Proof.
  destruct Hfits as (? & ? & ? & [_ [_ Hf Hp _ _]]). apply fits_spec in Hf, Hp. split_and!; done || lia.
Qed.

(** Reading one file. *)
Lemma volume_file n p first :
  (n, p, first) ∈ place 2 files →
  ∃ data, follow img (fat_lba l * SECTOR) (data_lba l) 1 (if sectors_of p =? 0 then 0 else first) = Ok data ∧
    slice data 0 (len p) = p.
Proof.
  intros Hin. destruct volume_bounds as (? & ? & ? & Hsum & ? & ? & ? & ? & _).
  pose proof (place_range _ _ _ _ _ Hin) as (_ & ? & ?).
  pose proof (sector_count_bounds (len p) ltac:(lia)) as [? ?].
  destruct (Z.eqb_spec (sectors_of p) 0) as [Hz|Hz].
  - exists []. split; [apply follow_empty|]. destruct p; [done|]. cbn [length] in *. lia.
  - destruct Hvol as [_ Hf _ _ Hd [_ Htl _ Hc _]]. specialize (Hc _ _ _ Hin). specialize (Hd _ _ _ Hin).
    assert (0 ≤ data_lba l) by (unfold data_lba, root_lba, fat_lba; lia).
    eexists. split; [eapply (follow_chain _ fat); try done; try lia;
                     change SECTOR with 512 in *; lia|].
    change SECTOR with 512 in *. rewrite slice_slice by lia. rewrite Z.add_0_r.
    by apply has_slice.
Qed.

Lemma volume_scan : scan_dir img (root_lba l) 224 = Ok (dir_of <$> place 2 files).
Proof.
  destruct volume_bounds as (? & ? & ? & Hsum & ? & ? & ? & Hdir & _).
  destruct Hvol as [_ _ _ Hr _ _]. unfold root_bytes, root_entries in Hr. rewrite <-(assoc_L (++)) in Hr.
  apply has_app in Hr as [Hl Hr]. unfold scan_dir.
  rewrite range_cons, for_each_cons by lia. rewrite (dir_step_label _ _ _ label) by done. ok_bind.
  rewrite (scan_loop img (root_lba l) (place 2 files) (0 + 1) [] (223 - len files)); [done|lia|list_lia|lia| |].
  - unfold label_entry in Hr. rewrite length_entry_bytes in Hr. change SECTOR with 512 in *.
    replace (14 * 512 - 32 * (1 + len files)) with (32 * (223 - len files)) in Hr by lia. done.
  - apply Forall_forall. intros [[n p] first] Hin%list_elem_of_In. cbn [fst snd].
    pose proof (place_range _ _ _ _ _ Hin) as (Hf & ? & ?).
    pose proof (sector_count_bounds (len p) ltac:(lia)).
    rewrite Forall_forall in Hnames. specialize (Hnames (n, p)). split_and!; [|apply fits_spec|lia..].
    + by apply Hnames, list_elem_of_In.
    + change (256 ^ Z.of_nat 4) with 4294967296. lia.
Qed.

Lemma load_step_ok i fo dl spc n size cur m data :
  follow i fo dl spc cur = Ok data →
  load_step i fo dl spc (n, size, cur) m = Ok (Next (<[n := slice data 0 size]> m)).
Proof. intros H. unfold load_step. by rewrite H. Qed.

Lemma load_loop placed m :
  (∀ f, f ∈ placed → f ∈ place 2 files) →
  for_each (load_step img (fat_lba l * SECTOR) (data_lba l) 1) (dir_of <$> placed) m =
    Ok (fold_left (λ (m : gmap string bytes) f, <[f.1.1 := f.1.2]> m) placed m).
Proof.
  revert m. induction placed as [|[[n p] first] placed IH]; intros m Hin; [done|].
  cbn [fmap list_fmap dir_of fold_left fst snd]. rewrite for_each_cons.
  destruct (volume_file n p first) as (data & Hd & Hs); [apply Hin, list_elem_of_here|].
  rewrite (load_step_ok _ _ _ _ _ _ _ _ _ Hd), Hs. ok_bind. apply IH. intros f Hf. by apply Hin, list_elem_of_further.
Qed.
End volume.

Lemma place_fst nxt files : (place nxt files).*1 = files.
Proof.
  revert nxt. induction files as [|[n p] files IH]; intros nxt; [done|].
  cbn [place fmap list_fmap fst]. by rewrite IH.
Qed.

Lemma fold_insert (placed : list (string * bytes * Z)) (m : gmap string bytes) :
  NoDup placed.*1.*1 →
  fold_left (λ (m : gmap string bytes) f, <[f.1.1 := f.1.2]> m) placed m = list_to_map placed.*1 ∪ m.
Proof.
  revert m. induction placed as [|[[n p] first] placed IH]; intros m Hnd.
  - cbn. by rewrite (left_id_L ∅ (∪)).
  - cbn [fmap list_fmap fst snd fold_left] in *. apply list.NoDup_cons in Hnd as [Hn Hnd].
    rewrite IH by done. rewrite list_to_map_cons, <-insert_union_l, insert_union_r; [done|].
    by apply not_elem_of_list_to_map_1.
Qed.

Lemma volume_read img total l label files fat :
  volume img total l label files fat →
  (∃ blob off stage2, volume_fits total l files blob off stage2) → len img = total * SECTOR →
  Forall (λ f, valid_83 f.1 = true) files → bget (short_name label) 0 ≠ Ok 0 →
  scan_dir img (root_lba l) 224 = Ok (dir_of <$> place 2 files) ∧
  load_files img (fat_lba l * SECTOR) (data_lba l) 1 (dir_of <$> place 2 files) = Ok (list_to_map files).
Proof.
  intros Hvol Hfits Hlen Hn Hl. split; [by eapply volume_scan|].
  unfold load_files. rewrite (load_loop img total l label files fat) by done.
  rewrite fold_insert, place_fst; [by rewrite (right_id_L ∅ (∪))|].
  rewrite place_fst. by destruct Hfits as (? & ? & ? & []).
Qed.

(** *** The whole check *)

Lemma boot_sector_reads total l label :
  let bs := boot_sector_bytes total l label in
  slice bs 510 512 = [0x55; 0xAA] ∧ slice bs 11 13 = le_bytes 2 512 ∧ bget bs 13 = Ok 1 ∧
  slice bs 14 16 = le_bytes 2 (l_reserved l) ∧ bget bs 16 = Ok 2 ∧ slice bs 17 19 = le_bytes 2 224 ∧
  bget bs 21 = Ok 0xF8 ∧ slice bs 22 24 = le_bytes 2 (l_fat_size l) ∧ slice bs 19 21 = le_bytes 2 0.
Proof.
  unfold boot_sector_bytes. cbv zeta.
  assert (len (ljust (take 11 (b label)) 11 32) = 11) as Hl by (rewrite length_ljust by lia; list_lia).
  generalize dependent (ljust (take 11 (b label)) 11 32). intros f Hf. do 12 (explode f).
  generalize (total - PART_LBA) (total - l_part_lba l) (l_part_lba l) (l_reserved l) (l_fat_size l).
  intros. explode_ints. by destruct (l_bits l =? 16).
Qed.

(** What the check says about a volume that holds [files]. *)
Definition fs_verdict (found : gmap string bytes) (kernel : bytes) : verdict :=
  match found !! "KERNEL.BIN"%string with
  | None => Failed "KERNEL.BIN missing from root directory"
  | Some data =>
      if bool_decide (data = kernel) then
        match found !! "README.TXT"%string with
        | Some text => if starts_with text (b "qizo") then Pass else Failed "README.TXT missing or unexpected"
        | None => Failed "README.TXT missing or unexpected"
        end
      else Failed "KERNEL.BIN in the filesystem differs from the module kernel"
  end.

Lemma partition_part img l part total :
  has img 446 (partition_entry l part total) → fits 4 part = true → unpack_le 4 img 0x1C6 = Ok part.
Proof.
  intros H Hp. apply (has_unpack img 454 4 part); [|done].
  unfold partition_entry in H. rewrite !has_app in H. by destruct H as (_ & _ & _ & H & _).
Qed.

Lemma check_fs_eq img kernel total l label files fat :
  has img 446 (partition_entry l (l_part_lba l) total) →
  volume img total l label files fat →
  (∃ blob off stage2, volume_fits total l files blob off stage2) → len img = total * SECTOR →
  Forall (λ f, valid_83 f.1 = true) files → bget (short_name label) 0 ≠ Ok 0 →
  check_fs img kernel = Ok (fs_verdict (list_to_map files) kernel).
Proof.
  intros Hpe Hvol Hfits Hlen Hn Hl.
  destruct (volume_read _ _ _ _ _ _ Hvol Hfits Hlen Hn Hl) as [Hscan Hload].
  destruct Hfits as (? & ? & ? & [_ [Hr Hf Hp _ _] _ _ _ _ _ _ _ _ _]).
  unfold check_fs. rewrite (partition_part _ _ _ _ Hpe Hp). ok_bind.
  pose proof (length_boot_sector_bytes total l label) as Hbl.
  rewrite (has_slice _ _ _ _ (v_boot _ _ _ _ _ _ Hvol)) by (rewrite Hbl; done).
  destruct (boot_sector_reads total l label) as (Hsig & H11 & H13 & H14 & H16 & H17 & H21 & H22 & H19).
  set (bs := boot_sector_bytes total l label) in *. clearbody bs.
  rewrite Hsig, H13, H16, H21, !unpack_le_ok by (done || rewrite Hbl; done).
  change (11 + Z.of_nat 2) with 13. change (14 + Z.of_nat 2) with 16. change (17 + Z.of_nat 2) with 19.
  change (22 + Z.of_nat 2) with 24. change (19 + Z.of_nat 2) with 21.
  rewrite H11, H14, H17, H22, H19, !le_val_pack by done. rewrite bool_decide_true by done.
  cbn [negb fail_if mbind res_bind].
  change (512 =? SECTOR) with true. change ((0xF8 =? 0xF8) || (0xF8 =? 0xF9)) with true. cbn [negb fail_if].
  change (0 =? 0) with true. cbv iota.
  change ((224 * 32 + SECTOR - 1) / SECTOR) with 14.
  change (l_part_lba l + l_reserved l + 2 * l_fat_size l) with (root_lba l).
  change (root_lba l + 14) with (data_lba l). change (l_part_lba l + l_reserved l) with (fat_lba l).
  rewrite Hscan. ok_bind. rewrite Hload. ok_bind. unfold fs_verdict.
  destruct (list_to_map files !! "KERNEL.BIN"%string) as [data|]; [|done].
  unfold fail_if. case_bool_decide; [|done]. cbn [negb].
  destruct (list_to_map files !! "README.TXT"%string) as [text|]; [|done].
  by destruct (starts_with text (b "qizo")).
Qed.

(** ** Segment descriptors *)

(** The eight bytes of a descriptor, as the processor lays it out. *)
Definition encode_desc (base limit access flags : Z) : bytes :=
  [limit mod 256; limit / 256 mod 256; base mod 256; base / 256 mod 256; base / 65536 mod 256;
   access; limit / 65536 + 16 * flags; base / 16777216].

Lemma land_ones_mod x m n : 0 ≤ n → m = Z.ones n → Z.land x m = x mod 2 ^ n.
Proof. intros ? ->. by apply Z.land_ones. Qed.

Lemma land_high q : Z.land q 0xF0000 = 65536 * (q / 65536 mod 16).
Proof.
  apply Z.bits_inj'. intros n Hn. rewrite Z.land_spec.
  replace (65536 * (q / 65536 mod 16)) with (Z.shiftl (Z.land (Z.shiftr q 16) (Z.ones 4)) 16)
    by (rewrite Z.land_ones, Z.shiftl_mul_pow2, Z.shiftr_div_pow2 by lia; apply Z.mul_comm).
  change 0xF0000 with (Z.shiftl (Z.ones 4) 16).
  destruct (Z.ltb_spec n 16).
  - by rewrite !Z.shiftl_spec_low, andb_false_r by lia.
  - rewrite !Z.shiftl_spec, Z.land_spec, Z.shiftr_spec by lia. by replace (n - 16 + 16) with n by lia.
Qed.

(** The fields in terms of the bytes. *)
Lemma decode_desc_bytes b0 b1 b2 b3 b4 b5 b6 b7 :
  Bytes [b0; b1; b2; b3; b4; b5; b6; b7] →
  decode_desc [b0; b1; b2; b3; b4; b5; b6; b7] =
    Desc (b0 + 256 * b1 + 65536 * (b6 mod 16)) (b2 + 256 * b3 + 65536 * b4 + 16777216 * b7)
         b5 b6 (b6 / 128) (b6 / 64 mod 2) (b6 / 32 mod 2).
Proof.
  intros Hall. pose proof Hall as Hb. repeat (apply Forall_cons_iff in Hb as [?%is_byte_spec Hb]).
  set (l := [b0; b1; b2; b3; b4; b5; b6; b7]) in *.
  assert (∀ n m, le_val (take m (drop n l)) = le_val l / 256 ^ Z.of_nat n mod 256 ^ Z.of_nat m) as Hd
    by (intros; by rewrite le_val_take, le_val_drop by (done || by apply Forall_drop)).
  pose proof (Hd 0%nat 2%nat) as H02. pose proof (Hd 2%nat 3%nat) as H23. pose proof (Hd 7%nat 1%nat) as H71.
  pose proof (Hd 5%nat 1%nat) as H51. pose proof (Hd 6%nat 1%nat) as H61.
  change (le_val (take 2 (drop 0 l))) with (b0 + 256 * (b1 + 256 * 0)) in H02.
  change (le_val (take 3 (drop 2 l))) with (b2 + 256 * (b3 + 256 * (b4 + 256 * 0))) in H23.
  change (le_val (take 1 (drop 7 l))) with (b7 + 256 * 0) in H71.
  change (le_val (take 1 (drop 5 l))) with (b5 + 256 * 0) in H51.
  change (le_val (take 1 (drop 6 l))) with (b6 + 256 * 0) in H61.
  pose proof (le_val_drop l 6 Hall) as H6'. change (le_val (drop 6 l)) with (b6 + 256 * (b7 + 256 * 0)) in H6'.
  clear Hd. unfold decode_desc. set (q := le_val l) in *. clearbody q. clear l Hall.
  rewrite (land_ones_mod q 0xFFFF 16), (land_ones_mod (Z.shiftr q 16) 0xFFFFFF 24), land_high,
    !(land_ones_mod _ 0xFF 8), !(land_ones_mod _ 1 1), !Z.shiftr_div_pow2 by done.
  change (256 ^ Z.of_nat 0) with 1 in *. change (256 ^ Z.of_nat 1) with (2 ^ 8) in *.
  change (256 ^ Z.of_nat 2) with (2 ^ 16) in *. change (256 ^ Z.of_nat 3) with (2 ^ 24) in *.
  change (256 ^ Z.of_nat 5) with (2 ^ 40) in *. change (256 ^ Z.of_nat 6) with (2 ^ 48) in *.
  change (256 ^ Z.of_nat 7) with (2 ^ 56) in *. rewrite Z.div_1_r in H02.
  rewrite <-H02, <-H23, <-H71, <-H51, <-H61.
  replace (q / 2 ^ 32 / 65536) with (q / 2 ^ 48) by (rewrite Z.div_div by lia; done).
  replace (q / 2 ^ 55) with (q / 2 ^ 48 / 2 ^ 7) by (rewrite Z.div_div by lia; done).
  replace (q / 2 ^ 54) with (q / 2 ^ 48 / 2 ^ 6) by (rewrite Z.div_div by lia; done).
  replace (q / 2 ^ 53) with (q / 2 ^ 48 / 2 ^ 5) by (rewrite Z.div_div by lia; done).
  rewrite <-H6'. clear H02 H23 H71 H51 H61 H6' Hb q.
  rewrite (Z.lor_comm _ (Z.shiftl _ _)), lor_shiftl_add by lia.
  replace (65536 * ((b6 + 256 * (b7 + 256 * 0)) mod 16)) with
    (Z.shiftl ((b6 + 256 * (b7 + 256 * 0)) mod 16) 16) by (rewrite Z.shiftl_mul_pow2 by lia; lia).
  rewrite Z.lor_comm, lor_shiftl_add by lia. f_equal; Z.div_mod_to_equations; lia.
Qed.

(** ** Checks of the second stage *)

(** The pseudo descriptor at position [i]: its limit is 55 and its base is in
    the load area. *)
Definition gdtr_at (data : bytes) (i : Z) : option Z :=
  let base := le_val (slice data (i + 2) (i + 6)) in
  if (le_val (slice data i (i + 2)) =? 55) && (0x20000 <? base) && (base <? 0x21000) then Some base else None.

Lemma gdtr_step_eq data i acc :
  0 ≤ i → i + 6 ≤ len data →
  gdtr_step data i acc = Ok (match gdtr_at data i with Some base => Break (Some base) | None => Next acc end).
Proof.
  intros. unfold gdtr_step, gdtr_at. rewrite !unpack_le_ok by lia. ok_bind.
  change (Z.of_nat 2) with 2. change (Z.of_nat 4) with 4. replace (i + 2 + 4) with (i + 6) by lia.
  destruct (_ =? 55); [|done]. cbn [negb andb]. by destruct (_ && _).
Qed.

(** The first pseudo descriptor of the file. *)
Definition first_gdtr (data : bytes) : option Z := head (omap (gdtr_at data) (range 0 (len data - 6))).

Lemma gdtr_loop data js :
  Forall (λ i, 0 ≤ i ∧ i + 6 ≤ len data) js →
  for_each (gdtr_step data) js None = Ok (head (omap (gdtr_at data) js)).
Proof.
  induction 1 as [|i js [? ?] _ IH]; [done|]. rewrite for_each_cons, gdtr_step_eq by done. ok_bind.
  cbn [omap list_omap]. by destruct (gdtr_at data i).
Qed.

Lemma check_stage2_gdt_eq data :
  check_stage2_gdt data =
    match first_gdtr data with
    | None => fail "stage2 has no gdtr pseudo descriptor pointing inside the load area"
    | Some gdtr =>
        match List.find (λ w, bool_decide (is_Some (desc_error data (gdtr - 0x20000) w))) want with
        | Some w => fail (default EmptyString (desc_error data (gdtr - 0x20000) w))
        | None => pass
        end
    end.
Proof.
  unfold check_stage2_gdt. rewrite gdtr_loop; [done|].
  apply Forall_forall. intros i Hi%list_elem_of_In%elem_of_range. lia.
Qed.

(** A descriptor is as the table [want] says. *)
Definition desc_ok (data : bytes) (off : Z) (w : Z * (Z * Z * Z * Z)) : Prop :=
  let '(sel, (access, base_, g_, l_)) := w in
  let d := decode_desc (slice data (off + sel) (off + sel + 8)) in
  d_access d = access ∧ d_base d = base_ ∧ d_g d = g_ ∧ d_l d = l_.

(** The last test of the loop never fails once the access byte is right. *)
Lemma desc_error_ok data off w : w ∈ want → desc_error data off w = None ↔ desc_ok data off w.
Proof.
  intros Hw. destruct w as [sel [[[access base_] g_] l_]]. unfold desc_error, desc_ok.
  set (d := decode_desc _). clearbody d.
  assert (Z.land access 0x80 ≠ 0 ∧ Z.land access 0x10 ≠ 0) as [H1 H2].
  { unfold want in Hw. do 5 (apply elem_of_cons in Hw as [[= -> -> -> -> ->]|Hw]; [split; discriminate|]).
    by apply not_elem_of_nil in Hw. }
  destruct (Z.eqb_spec (d_access d) access) as [->|]; cbn [negb]; [|split; [done|by intros (? & _)]].
  destruct (Z.eqb_spec (d_base d) base_); cbn [negb]; [|split; [done|by intros (_ & ? & _)]].
  destruct (Z.eqb_spec (d_g d) g_), (Z.eqb_spec (d_l d) l_); cbn [negb orb];
    try by split; [done|intros (_ & _ & ? & ?)].
  rewrite (proj2 (Z.eqb_neq _ _) H1), (proj2 (Z.eqb_neq _ _) H2). by split.
Qed.

(** The descriptor check passes exactly on the files whose first pseudo
    descriptor pointing into the load area leads to a table with the access
    byte, base, granularity and mode the boot code needs in each of the five
    selectors.  It never raises, and its last message is never printed. *)
Theorem check_stage2_gdt_correct data :
  check_stage2_gdt data = Ok Pass ↔
  ∃ gdtr, first_gdtr data = Some gdtr ∧ Forall (desc_ok data (gdtr - 0x20000)) want.
Proof.
  rewrite check_stage2_gdt_eq. destruct (first_gdtr data) as [gdtr|]; [|split; [done|by intros (? & ? & _)]].
  assert (List.find (λ w, bool_decide (is_Some (desc_error data (gdtr - 0x20000) w))) want = None ↔
    Forall (desc_ok data (gdtr - 0x20000)) want) as Hfind.
  { assert (∀ ws, (∀ w, w ∈ ws → w ∈ want) →
      List.find (λ w, bool_decide (is_Some (desc_error data (gdtr - 0x20000) w))) ws = None ↔
      Forall (desc_ok data (gdtr - 0x20000)) ws) as H; [|by apply H].
    induction ws as [|w ws IH]; intros Hws; [done|]. cbn [List.find].
    rewrite Forall_cons_iff, <-IH, <-desc_error_ok by (intros; apply Hws; apply elem_of_cons; auto).
    case_bool_decide as Hs; [destruct Hs as [? Hs]; split; [done|intros [? _]; congruence]|].
    rewrite <-eq_None_not_Some in Hs. clear -Hs. tauto. }
  destruct (List.find _ want); split.
  - done.
  - intros (? & [= <-] & H%Hfind). done.
  - intros _. exists gdtr. split; [done|by apply Hfind].
  - done.
Qed.

(** The handoff check only passes code that loads the descriptor table
    without a prefix and switches to protected mode properly: a read of [cr0],
    later a write, no call or byte move in between, and the instruction that
    sets bit 0 directly in front of the write. *)
Theorem check_stage2_transition_sound data :
  check_stage2_transition data = Ok Pass →
  occurs [0x66; 0x0F; 0x01] data = false ∧ has data (find data [0x0F; 0x01; 0x17]) [0x0F; 0x01; 0x17] ∧
  ∃ read store, 0 ≤ read ∧ read + 3 ≤ store ∧
    has data read [0x0F; 0x20; 0xC0] ∧ has data store [0x0F; 0x22; 0xC0] ∧
    slice data (store - 2) store = [0xC8; 0x01] ∧
    ∀ x, x ∈ [0xE8; 0xB0; 0xB2] → x ∉ slice data (read + 3) store.
Proof.
  unfold check_stage2_transition, fail_if, fail. set (store := find data [0x0F; 0x22; 0xC0]).
  destruct (occurs [0x66; 15; 1] data); [done|]. destruct (occurs [15; 1; 0x17] data) eqn:Hl; [|done]. cbn [negb].
  destruct (Z.ltb_spec store 0) as [|Hs]; [done|]. set (read := rfind data [0x0F; 0x20; 0xC0] store).
  destruct (Z.ltb_spec read 0) as [|Hr]; [done|]. intros Hfind. split; [done|]. split.
  { apply find_has. unfold occurs in Hl. by apply Z.leb_le in Hl. }
  pose proof (find_has data [0x0F; 0x22; 0xC0] Hs) as Hstore. fold store in Hstore.
  pose proof Hstore as (_ & Hle & _). cbn [length] in Hle.
  destruct (rfind_has data [0x0F; 0x20; 0xC0] store ltac:(lia) Hr) as [Hread Hrs]. fold read in Hread, Hrs.
  exists read, store. split_and!; [done|cbn [length] in Hrs; lia|done|done| |].
  - destruct (List.find _ _) as [[? ?]|]; [done|]. by case_bool_decide.
  - cbn [List.find fst] in Hfind. repeat (case_bool_decide; [done|]).
    intros x [->|[->|[->|[]%not_elem_of_nil]%elem_of_cons]%elem_of_cons]%elem_of_cons; done.
Qed.

Lemma check_stage2_transition_sound_witness :
  let data := [0x0F; 0x01; 0x17; 0x0F; 0x20; 0xC0; 0x66; 0x83; 0xC8; 0x01; 0x0F; 0x22; 0xC0] in
  check_stage2_transition data = Ok Pass ∧ has data (find data [0x0F; 0x01; 0x17]) [0x0F; 0x01; 0x17].
Proof.
  assert (check_stage2_transition
    [0x0F; 0x01; 0x17; 0x0F; 0x20; 0xC0; 0x66; 0x83; 0xC8; 0x01; 0x0F; 0x22; 0xC0] = Ok Pass) as H by by vm_compute.
  split; [done|]. apply (check_stage2_transition_sound _ H).
Defined.

(** [decode_desc] reads the fields of a segment descriptor back from the
    bytes the processor defines, for every base, limit, access byte and flags. *)
Theorem decode_encode_desc base limit access flags :
  0 ≤ base < 2 ^ 32 → 0 ≤ limit < 2 ^ 20 → is_byte access = true → 0 ≤ flags < 16 →
  decode_desc (encode_desc base limit access flags) =
    Desc limit base access (limit / 65536 + 16 * flags) (flags / 8) (flags / 4 mod 2) (flags / 2 mod 2).
Proof.
  intros ?? ?%is_byte_spec ?. unfold encode_desc. rewrite decode_desc_bytes.
  - f_equal; Z.div_mod_to_equations; lia.
  - repeat constructor; apply is_byte_spec; try (apply Z.mod_pos_bound; lia); Z.div_mod_to_equations; lia.
Qed.

Lemma decode_encode_desc_witness :
  encode_desc 0x20000 0xFFFF 0x9A 0 = [0xFF; 0xFF; 0; 0; 2; 0x9A; 0; 0] ∧
  decode_desc (encode_desc 0x20000 0xFFFF 0x9A 0) = Desc 0xFFFF 0x20000 0x9A 0 0 0 0.
Proof. split; [done|]. by apply (decode_encode_desc 0x20000 0xFFFF 0x9A 0). Defined.

(** ** Termination *)

Lemma returns_follow img fo dl spc c : returns (follow img fo dl spc c).
Proof.
  apply returns_bind; [|done].
  eapply (runs_while (λ s, 0 ≤ ch_spins s) _ _ (λ s, Z.to_nat (100000 - ch_spins s)));
    [|done|simpl; lia|cbn [ch_spins]; lia].
  intros [data cur spins] Hs. unfold follow_cond. cbn [ch_cur ch_spins] in *.
  intros [_ Hlt%Z.ltb_lt]%andb_true_iff. unfold follow_step, fat16. apply runs_bind.
  eapply runs_mono; [apply returns_unpack| |done]. intros next _. simpl. lia.
Qed.

(** The file system check ends on every image, however damaged: chains of
    clusters that run in circles included. *)
Theorem check_fs_returns img kernel : returns (check_fs img kernel).
Proof.
  unfold check_fs, fail_if, fail, pass, scan_dir, load_files. cbv zeta. returns_solve.
  - apply returns_for_each. intros i acc. unfold dir_step, decode_utf8. cbv zeta. returns_solve.
  - apply returns_for_each. intros [[n size] c] m. unfold load_step. returns_solve. apply returns_follow.
Qed.

(** C11 - On an image that holds a volume with the partition entry in front,
    the check reads every file of the directory back and passes exactly when
    the kernel file is the kernel and the read me file begins as it should. *)
Theorem check_fs_volume img kernel total l label files fat :
  has img 446 (partition_entry l (l_part_lba l) total) →
  volume img total l label files fat →
  (∃ blob off stage2, volume_fits total l files blob off stage2) → len img = total * SECTOR →
  Forall (λ f, valid_83 f.1 = true) files → bget (short_name label) 0 ≠ Ok 0 →
  check_fs img kernel = Ok Pass ↔
    ("KERNEL.BIN"%string, kernel) ∈ files ∧
    ∃ text, ("README.TXT"%string, text) ∈ files ∧ starts_with text (b "qizo") = true.
Proof.
  intros Hpe Hvol Hfits Hlen Hn Hl. rewrite (check_fs_eq img kernel total l label files fat) by done.
  assert (NoDup files.*1) as Hnd by (by destruct Hfits as (? & ? & ? & [])).
  rewrite !elem_of_list_to_map by done. unfold fs_verdict.
  destruct (list_to_map files !! "KERNEL.BIN"%string) as [data|] eqn:Hk; [|by split; [|intros [[=] _]]].
  case_bool_decide as Hd; [subst data|split; [done|by intros [[= ->] _]]].
  split.
  - destruct (list_to_map files !! "README.TXT"%string) as [text|] eqn:Hr; [|done].
    destruct (starts_with text (b "qizo")) eqn:Hs; [|done]. intros _. split; [done|].
    exists text. split; [|done]. by apply elem_of_list_to_map.
  - intros [_ (text & Hin & Hs)]. rewrite elem_of_list_to_map in Hin by done. by rewrite Hin, Hs.
Qed.

Lemma check_fs_volume_witness :
  ∃ img, len img = 4425 * SECTOR ∧
    (check_fs img (b "qizo kernel qizo kernel") = Ok Pass ↔
     ("KERNEL.BIN"%string, b "qizo kernel qizo kernel") ∈
       files_of (ex_options false) ex_span (ex_blob false) ex_layout ∧
     ∃ text, ("README.TXT"%string, text) ∈ files_of (ex_options false) ex_span (ex_blob false) ex_layout ∧
       starts_with text (b "qizo") = true).
Proof.
  pose proof (ex_build_ok false) as Hok.
  destruct (main_spec _ _ _ _ _ Hok) as (img & lines & _ & Hd).
  pose proof (d_volume _ _ _ _ _ _ Hd) as [fat Hvol]. exists img. split; [apply (d_len _ _ _ _ _ _ Hd)|].
  apply (check_fs_volume img _ 4425 ex_layout "QIZO_BOOT" _ fat).
  - apply (d_partition _ _ _ _ _ _ Hd).
  - exact Hvol.
  - eexists _, _, _. apply (build_volume_fits _ _ _ _ _ Hok), (build_ok_layout _ _ _ _ _ Hok).
  - apply (d_len _ _ _ _ _ _ Hd).
  - by repeat constructor.
  - done.
Defined.

Example ex_stage2_checks :
  check_stage2_gdt ex_stage2 = Ok Pass ∧ check_stage2_transition ex_stage2 = Ok Pass.
Proof. by vm_compute. Qed.

Example dap_ex :
  check_stage1_dap None = Ok Pass ∧
  check_stage1_dap (Some "   7c00:	c6 06 00 7e 10	movb   $0x10,0x7e00
") = fail "stage1 never writes disk address packet field +2".
Proof. split; apply (bool_decide_unpack _); by vm_compute. Qed.
