(* ===== verification/Iso.v ===== *)
(** * The optical image: [tools/mkqizoiso/mkqizoiso.py] and its check

    [build_iso] wraps the disk image in an ISO 9660 file system with an El Torito
    boot catalog; [check_iso] of [tools/qizocheck/qizocheck.py] walks the result.
    The theorems say when the one passes the other. *)

From S2P Require Export Check.

Module ISO.

Definition SECTOR : Z := 2048.
Definition PVD_LBA : Z := 16.
Definition CATALOG_LBA : Z := 19.
Definition ROOT_LBA : Z := 20.
Definition FILE_LBA : Z := 21.
Definition FILE_NAME : string := "QIZO.IMG;1".
Definition DATE : bytes := b "20260101000000000".

Definition both32 (v : Z) : res bytes := l ← pack_le 4 v; m ← pack_be 4 v; Ok (l ++ m).
Definition both16 (v : Z) : res bytes := l ← pack_le 2 v; m ← pack_be 2 v; Ok (l ++ m).

Definition dir_record (lba size flags : Z) (ident : bytes) : res bytes :=
  body ← bappend [] 0;
  body ← bappend body 0;
  d ← both32 lba; let body := body ++ d in
  d ← both32 size; let body := body ++ d in
  let body := body ++ [26; 1; 1; 0; 0; 0; 0] in
  body ← bappend body flags;
  body ← bappend body 0;
  body ← bappend body 0;
  d ← both16 1; let body := body ++ d in
  body ← bappend body (len ident);
  let body := body ++ ident in
  body ← (if len body mod 2 =? 0 then Ok body else bappend body 0);
  bset body 0 (len body).

Definition text_field (buf : bytes) (off n : Z) (value : string) : bytes :=
  slice_set buf off (off + n) (ljust (slice (encode_utf8 value) 0 n) n 32).

(** The root directory extent. *)
Definition root_body (image_size : Z) : res bytes :=
  d1 ← dir_record ROOT_LBA 0 2 [0];
  d2 ← dir_record ROOT_LBA 0 2 [1];
  d3 ← dir_record FILE_LBA image_size 0 (encode_utf8 FILE_NAME);
  let root_body := d1 ++ d2 ++ d3 in
  Ok (root_body ++ zeros (SECTOR - len root_body mod SECTOR)).

(** The primary volume descriptor. *)
Definition primary (total : Z) (volume : string) (root_size : Z) : res bytes :=
  let pvd := zeros SECTOR in
  pvd ← bset pvd 0 1;
  let pvd := slice_set pvd 1 6 (b "CD001") in
  pvd ← bset pvd 6 1;
  let pvd := slice_set pvd 8 40 (ljust (b "QIZO") 32 32) in
  let pvd := slice_set pvd 40 72 (ljust (take 32 (encode_utf8 volume)) 32 32) in
  d ← both32 total; let pvd := slice_set pvd 80 88 d in
  d ← both16 1; let pvd := slice_set pvd 120 124 d in
  d ← both16 1; let pvd := slice_set pvd 124 128 d in
  d ← both16 SECTOR; let pvd := slice_set pvd 128 132 d in
  d ← both32 0; let pvd := slice_set pvd 132 140 d in
  d ← pack_le 4 0; let pvd := slice_set pvd 140 144 d in
  d ← pack_le 4 0; let pvd := slice_set pvd 144 148 d in
  d ← pack_le 4 0; let pvd := slice_set pvd 148 152 d in
  d ← pack_le 4 0; let pvd := slice_set pvd 152 156 d in
  root_rec ← dir_record ROOT_LBA root_size 2 [0];
  let pvd := slice_set pvd 156 (156 + len root_rec) root_rec in
  let pvd := text_field pvd 190 128 "QIZO" in
  let pvd := text_field pvd 318 128 "ARENA AI AGENT MODE" in
  let pvd := text_field pvd 446 128 "ARENA AI AGENT MODE" in
  pvd ← for_each (λ off (pvd : bytes), pvd ← bset pvd off 0; Ok (Next pvd)) [582; 619; 656] pvd;
  pvd ← bset pvd 693 1;
  let pvd := text_field pvd 702 32 "QIZO MKQIZOISO" in
  let pvd := text_field pvd 734 32 "ARENA AI AGENT MODE" in
  let pvd := text_field pvd 766 32 "SEIGH-SWORD" in
  let pvd := text_field pvd 798 32 "SURIEWEPEDI" in
  pvd ← for_each (λ off (pvd : bytes), Ok (Next (slice_set pvd off (off + 17) DATE))) [830; 847; 864; 881] pvd;
  Ok (slice_set pvd 898 SECTOR (zeros (SECTOR - 898))).

(** The boot record volume descriptor and the terminator. *)
Definition boot_record : res bytes :=
  let brvd := zeros SECTOR in
  brvd ← bset brvd 0 0;
  let brvd := slice_set brvd 1 6 (b "CD001") in
  brvd ← bset brvd 6 1;
  let brvd := slice_set brvd 7 39 (ljust (b "EL TORITO SPECIFICATION") 32 0) in
  pack_into 4 brvd 71 CATALOG_LBA.

Definition terminator : res bytes :=
  let t := zeros SECTOR in
  t ← bset t 0 255;
  let t := slice_set t 1 6 (b "CD001") in
  bset t 6 1.

Definition boot_entry (file_sectors : Z) : res bytes :=
  let entry := zeros 32 in
  entry ← bset entry 0 0x88;
  entry ← bset entry 1 4;
  entry ← pack_into 2 entry 2 0x07C0;
  entry ← bset entry 4 0;
  entry ← bset entry 5 0;
  entry ← pack_into 2 entry 6 (if file_sectors <? 0xFFFF then file_sectors else 0);
  entry ← pack_into 4 entry 8 FILE_LBA;
  pack_into 4 entry 12 0.

(** The boot catalog: validation entry, with a checksum, and boot entry. *)
Definition catalog (entry : bytes) : res bytes :=
  let cat := zeros SECTOR in
  cat ← bset cat 0 0x01;
  cat ← bset cat 1 0;
  let cat := slice_set cat 4 28 (ljust (b "QIZO MKQIZOISO") 24 0) in
  cat ← bset cat 30 0x55;
  cat ← bset cat 31 0xAA;
  acc ← for_each (λ i acc,
      if i =? 28 then Ok (Next acc)
      else w ← unpack_le 2 cat i; Ok (Next (Z.land (acc + w) 0xFFFF)))
    (range_step 0 32 2) 0;
  cat ← pack_into 2 cat 28 (Z.land (- acc) 0xFFFF);
  Ok (slice_set cat 32 64 entry).

Record iso_info := IsoInfo {
  r_sectors : Z; r_catalog : Z; r_root_lba : Z; r_file_lba : Z; r_file_sectors : Z; r_image : Z;
}.

(** The loop that checks the blocks. *)
Definition check_block (blk : string * bytes) (u : unit) : res (ctl unit) :=
  _ ← exit_if (negb (len blk.2 mod SECTOR =? 0))
    ("qizo: " +:+ blk.1 +:+ " block is " +:+ fmt_d (len blk.2) +:+ " bytes, not a whole number of sectors");
  Ok (Next u).

(** [build_iso(image, out, volume)]: the file it writes and its result *)
Definition build_iso (image : bytes) (volume : string) : res (bytes * iso_info) :=
  let payload := if len image mod SECTOR =? 0 then image
                 else image ++ zeros (SECTOR - len image mod SECTOR) in
  let file_sectors := len payload / SECTOR in
  root_body ← root_body (len image);
  let total := FILE_LBA + file_sectors in
  pvd ← primary total volume (len root_body);
  brvd ← boot_record;
  term ← terminator;
  entry ← boot_entry file_sectors;
  cat ← catalog entry;
  let out_bytes := zeros (PVD_LBA * SECTOR) ++ pvd ++ brvd ++ term ++ cat ++ root_body ++ payload in
  _ ← for_each check_block [("pvd", pvd); ("brvd", brvd); ("terminator", term); ("catalog", cat); ("root", root_body)]%string tt;
  _ ← exit_if (negb (len out_bytes =? total * SECTOR))
    ("qizo: iso is " +:+ fmt_d (len out_bytes) +:+ " bytes but the layout promised " +:+ fmt_d total +:+ " sectors");
  Ok (out_bytes,
      IsoInfo (len out_bytes / SECTOR) CATALOG_LBA ROOT_LBA FILE_LBA file_sectors (len image)).

(** The program: the file it writes and the line it prints, given the image. *)
Definition main (image : bytes) (volume : string) : res (bytes * string) :=
  '(out, info) ← build_iso image volume;
  Ok (out,
    "qizo: iso " +:+ fmt_d (r_sectors info) +:+ " sectors, catalog " +:+ fmt_d (r_catalog info) +:+
    ", root " +:+ fmt_d (r_root_lba info) +:+ ", boot image at " +:+ fmt_d (r_file_lba info) +:+
    " (" +:+ fmt_d (r_file_sectors info) +:+ " sectors), " +:+ ART.human (len out))%string.

(** ** [check_iso] *)

(** What the walk over the volume descriptors has seen; [w_failed] is the
    message of a check that made the function return. *)
Record walk := Walk {
  w_lba : Z; w_root : option (Z * Z); w_block : option Z; w_blocks : option Z;
  w_catalog : option Z; w_failed : option string;
}.

Definition walk_fail (s : walk) (msg : string) : res (ctl walk) :=
  Ok (Break (Walk (w_lba s) (w_root s) (w_block s) (w_blocks s) (w_catalog s) (Some msg))).

(** The primary volume descriptor. *)
Definition walk_primary (rec : bytes) (s : walk) : res (ctl walk) :=
  let S := 2048 in
  if negb (bool_decide (slice rec 1 6 = b "CD001")) then walk_fail s "primary volume descriptor id"
  else
    let root := slice rec 156 (156 + 34) in
    bad ← (if len root <? 34 then Ok true else x ← bget root 0; Ok (negb (x =? 34)));
    match bad with
    | true => walk_fail s "root directory record malformed"
    | false =>
        root_lba ← unpack_le 4 root 2;
        root_size ← unpack_le 4 root 10;
        block ← unpack_le 2 rec 128;
        let s := Walk (w_lba s) (Some (root_lba, root_size)) (Some block) (w_blocks s) (w_catalog s) None in
        version ← bget rec 693;
        if negb (version =? 1) then walk_fail s "primary volume descriptor file structure version"
        else
          set_size ← unpack_le 2 rec 120;
          if negb (set_size =? 1) then walk_fail s "primary volume descriptor volume set size"
          else
            be ← unpack_be 2 rec 130;
            le ← unpack_le 2 rec 128;
            if negb (be =? le) then walk_fail s "primary volume descriptor block size is not both-endian"
            else if negb (block =? S) then walk_fail s ("logical block size " +:+ fmt_d block)
            else
              blocks ← unpack_le 4 rec 80;
              Ok (Next (Walk (w_lba s + 1) (w_root s) (w_block s) (Some blocks) (w_catalog s) None))
    end.

(** One turn of the loop over the volume descriptors. *)
Definition walk_step (iso : bytes) (s : walk) : res (ctl walk) :=
  let S := 2048 in
  if len iso <? w_lba s * S + S then walk_fail s "volume descriptor set runs off the end"
  else
    let rec := slice iso (w_lba s * S) (w_lba s * S + S) in
    typ ← bget rec 0;
    if typ =? 255 then Ok (Break s)
    else if typ =? 1 then walk_primary rec s
    else if (typ =? 0) && bool_decide (slice rec 1 6 = b "CD001") then
      if negb (bool_decide (slice rec 7 30 = ljust (b "EL TORITO SPECIFICATION") 23 0)) then
        walk_fail s "boot record volume descriptor id"
      else
        catalog ← unpack_le 4 rec 71;
        Ok (Next (Walk (w_lba s + 1) (w_root s) (w_block s) (w_blocks s) (Some catalog) None))
    else Ok (Next (Walk (w_lba s + 1) (w_root s) (w_block s) (w_blocks s) (w_catalog s) None)).

Definition walk_fuel (iso : bytes) : nat := S (S (length iso)).

(** The search of the root directory. *)
Record search := Search { s_o : Z; s_found : option (Z * Z) }.

Definition search_step (root : bytes) (s : search) : res (ctl search) :=
  let '(Search o found) := s in
  n ← bget root o;
  if n =? 0 then Ok (Break s)
  else
    idlen ← bget root (o + 32);
    let ident := slice root (o + 33) (o + 33 + idlen) in
    if starts_with ident (b "QIZO") then
      lba ← unpack_le 4 root (o + 2);
      size ← unpack_le 4 root (o + 10);
      Ok (Next (Search (o + n) (Some (lba, size))))
    else Ok (Next (Search (o + n) found)).

Definition search_root (root : bytes) : res (option (Z * Z)) :=
  s ← while (S (length root)) (λ s : search, s_o s + 34 <=? len root) (search_step root) (Search 0 None);
  Ok (s_found s).

(** The catalog: validation entry and boot entry; the rest of the check gets
    the address of the boot image. *)
Definition check_catalog (cat : bytes) (rest : Z → res verdict) : res verdict :=
  x0 ← bget cat 0;
  bad ← (if x0 =? 1 then x1 ← bget cat 1; Ok (negb (x1 =? 0)) else Ok true);
  match bad with
  | true => fail "boot catalog validation header"
  | false =>
      x30 ← bget cat 30;
      bad ← (if x30 =? 0x55 then x31 ← bget cat 31; Ok (negb (x31 =? 0xAA)) else Ok true);
      match bad with
      | true => fail "boot catalog key"
      | false =>
          acc ← for_each (λ i acc, w ← unpack_le 2 cat i; Ok (Next (Z.land (acc + w) 0xFFFF)))
            (range_step 0 32 2) 0;
          fail_if (negb (acc =? 0)) "boot catalog checksum does not cancel" (
          let entry := slice cat 32 64 in
          e0 ← bget entry 0;
          fail_if (negb (e0 =? 0x88)) "boot entry not bootable" (
          e1 ← bget entry 1;
          fail_if (negb (e1 =? 4)) "boot entry is not a hard disk image" (
          seg ← unpack_le 2 entry 2;
          fail_if (negb (seg =? 0x07C0)) "boot entry load segment" (
          n ← unpack_le 2 entry 6;
          fail_if (negb ((n =? 4) || (n =? 0)) && (n <? 66)) "boot entry load size" (
          file_lba ← unpack_le 4 entry 8;
          rest file_lba)))))
      end
  end.

Definition check_iso (iso image : bytes) : res verdict :=
  let S := 2048 in
  w ← while (walk_fuel iso) (λ _, true) (walk_step iso) (Walk 16 None None None None None);
  match w_failed w with
  | Some msg => fail msg
  | None =>
      match w_block w, w_root w with
      | Some block, Some (root_lba, root_size) =>
          fail_if (negb (block =? S)) "no primary volume descriptor" (
          match w_catalog w with
          | None => fail "no el torito boot volume descriptor"
          | Some catalog =>
              check_catalog (slice iso (catalog * S) (catalog * S + S)) (λ file_lba,
              fail_if (len iso <? file_lba * S + len image) "boot image runs off the end of the iso" (
              fail_if (negb (bool_decide (slice iso (file_lba * S) (file_lba * S + len image) = image)))
                "embedded image bytes differ" (
              let root := slice iso (root_lba * S) (root_lba * S + root_size) in
              found ← search_root root;
              match found with
              | None => fail "QIZO.IMG missing from the root directory"
              | Some (lba, size) =>
                  fail_if (negb (lba =? file_lba) || negb (size =? len image))
                    ("root directory extent " +:+ fmt_d lba +:+ "/" +:+ fmt_d size +:+ " != catalog " +:+
                     fmt_d file_lba +:+ "/" +:+ fmt_d (len image)) pass
              end)))
          end)
      | _, _ => fail "no primary volume descriptor"
      end
  end.

(** ** What is built *)

Lemma both32_ok v : fits 4 v = true → both32 v = Ok (le_bytes 4 v ++ rev (le_bytes 4 v)).
Proof. intros H. unfold both32, pack_le, pack_be. by rewrite H. Qed.

(** The primary volume descriptor, read back by the check. *)
Lemma primary_ok total volume :
  fits 4 total = true →
  ∃ p, primary total volume 2048 = Ok p ∧ len p = 2048 ∧ bget p 0 = Ok 1 ∧
    ∀ lba root block blocks cat failed,
      walk_primary p (Walk lba root block blocks cat failed) =
        Ok (Next (Walk (lba + 1) (Some (20, 2048)) (Some 2048) (Some (le_val (le_bytes 4 total))) cat None)).
Proof.
  intros Ht. unfold primary. rewrite (both32_ok total) by done. unfold encode_utf8.
  set (f := ljust (take 32 (b volume)) 32 32).
  assert (len f = 32) as Hf by (unfold f; rewrite length_ljust by lia; list_lia). clearbody f.
  do 33 (explode f). explode_ints. eexists. split; [vm_compute; reflexivity|].
  split; [vm_compute; reflexivity|]. split; [vm_compute; reflexivity|].
  intros. vm_compute. reflexivity.
Qed.

Lemma root_body_ok n :
  fits 4 n = true →
  ∃ r, root_body n = Ok r ∧ len r = 2048 ∧ search_root r = Ok (Some (21, n)).
Proof.
  intros Hn. replace (Some (21, n)) with (Some (21, le_val (le_bytes 4 n))) by by rewrite le_val_pack.
  unfold root_body, dir_record. rewrite (both32_ok n) by done. explode_ints.
  eexists. split; [vm_compute; reflexivity|]. split; vm_compute; reflexivity.
Qed.

(** The sector count of the boot entry is one the check accepts. *)
Definition load_ok (n : Z) : bool := (n =? 4) || (n =? 0) || (66 <=? n).

Lemma catalog_ok n :
  0 ≤ n →
  let load := if n <? 0xFFFF then n else 0 in
  ∃ e c, boot_entry n = Ok e ∧ catalog e = Ok c ∧ len c = 2048 ∧
    ∀ rest, check_catalog c rest = if load_ok load then rest 21 else fail "boot entry load size".
Proof.
  intros Hn load. assert (fits 2 load = true) as Hfit
    by (apply fits_spec; change (256 ^ Z.of_nat 2) with 65536; unfold load; case_bool; lia).
  unfold boot_entry. fold load.
  assert (∀ x y, ∃ e c,
    (entry ← bset (zeros 32) 0 0x88; entry ← bset entry 1 4; entry ← pack_into 2 entry 2 0x07C0;
     entry ← bset entry 4 0; entry ← bset entry 5 0; let entry := slice_set entry 6 8 [x; y] in
     entry ← pack_into 4 entry 8 FILE_LBA; pack_into 4 entry 12 0) = Ok e ∧
    catalog e = Ok c ∧ len c = 2048 ∧ ∀ rest,
    check_catalog c rest = fail_if (negb ((le_val [x; y] =? 4) || (le_val [x; y] =? 0)) && (le_val [x; y] <? 66))
      "boot entry load size" (rest 21)) as H.
  { intros x y. eexists _, _. split; [vm_compute; reflexivity|]. split; [vm_compute; reflexivity|].
    split; [vm_compute; reflexivity|]. intros rest. vm_compute. reflexivity. }
  destruct (le_bytes_2 load) as (x & y & Hxy). destruct (H x y) as (e & c & He & Hc & Hl & Hr). clear H.
  exists e, c. split_and!; [|done|done|].
  - rewrite <-He. unfold pack_into, pack_le. rewrite Hfit, Hxy. vm_compute. reflexivity.
  - intros rest. rewrite Hr, <-Hxy, le_val_pack by done. unfold load_ok, fail_if.
    clear. clearbody load. rewrite Z.ltb_antisym.
    by destruct (load =? 4), (load =? 0), (66 <=? load).
Qed.

Lemma boot_record_ok :
  ∃ r, boot_record = Ok r ∧ len r = 2048 ∧ bget r 0 = Ok 0 ∧ slice r 1 6 = b "CD001" ∧
    slice r 7 30 = ljust (b "EL TORITO SPECIFICATION") 23 0 ∧ unpack_le 4 r 71 = Ok 19.
Proof. eexists. split; [vm_compute; reflexivity|]. by vm_compute. Qed.

Lemma terminator_ok : ∃ t, terminator = Ok t ∧ len t = 2048 ∧ bget t 0 = Ok 255.
Proof. eexists. split; [vm_compute; reflexivity|]. by vm_compute. Qed.

(** The image on whole sectors. *)
Definition payload_of (image : bytes) : bytes :=
  if len image mod SECTOR =? 0 then image else image ++ zeros (SECTOR - len image mod SECTOR).
Definition iso_sectors (n : Z) : Z := (n + 2047) / 2048.

Lemma payload_ok image :
  len (payload_of image) = 2048 * iso_sectors (len image) ∧ has (payload_of image) 0 image.
Proof.
  unfold payload_of, iso_sectors. change SECTOR with 2048. split.
  - pose proof (Z.div_mod (len image) 2048). pose proof (Z.mod_pos_bound (len image) 2048).
    destruct (Z.eqb_spec (len image mod 2048) 0).
    + replace ((len image + 2047) / 2048) with (len image / 2048); [lia|].
      apply (Z.div_unique _ _ _ 2047); lia.
    + replace ((len image + 2047) / 2048) with (len image / 2048 + 1); [list_lia|].
      apply (Z.div_unique _ _ _ (len image mod 2048 - 1)); lia.
  - case_match; [apply has_all|]. eapply (proj1 (has_app _ 0 image _)), has_all.
Qed.

(** The parts of the file that is built. *)
Record iso_parts (iso image : bytes) (volume : string) : Prop := {
  ip_len : len iso = (21 + iso_sectors (len image)) * 2048;
  ip_pvd : ∃ p, has iso (16 * 2048) p ∧ len p = 2048 ∧ bget p 0 = Ok 1 ∧
    ∀ lba root block blocks cat failed,
      walk_primary p (Walk lba root block blocks cat failed) =
        Ok (Next (Walk (lba + 1) (Some (20, 2048)) (Some 2048)
          (Some (le_val (le_bytes 4 (21 + iso_sectors (len image))))) cat None));
  ip_record : ∃ r, has iso (17 * 2048) r ∧ boot_record = Ok r;
  ip_term : ∃ t, has iso (18 * 2048) t ∧ terminator = Ok t;
  ip_catalog : ∃ c, has iso (19 * 2048) c ∧ len c = 2048 ∧ ∀ rest, check_catalog c rest =
    if load_ok (let n := iso_sectors (len image) in if n <? 0xFFFF then n else 0) then rest 21
    else fail "boot entry load size";
  ip_root : ∃ r, has iso (20 * 2048) r ∧ len r = 2048 ∧ search_root r = Ok (Some (21, len image));
  ip_image : has iso (21 * 2048) image;
}.

Lemma check_blocks_ok blks :
  Forall (λ blk : string * bytes, len blk.2 = 2048) blks → for_each check_block blks tt = Ok tt.
Proof.
  induction 1 as [|blk blks Hl _ IH]; [done|]. rewrite for_each_cons.
  assert (check_block blk tt = Ok (Next tt)) as -> by (unfold check_block; by rewrite Hl). exact IH.
Qed.

Lemma build_iso_parts image volume :
  fits 4 (len image) = true →
  ∃ iso, build_iso image volume =
      Ok (iso, IsoInfo (21 + iso_sectors (len image)) 19 20 21 (iso_sectors (len image)) (len image)) ∧
    iso_parts iso image volume.
Proof.
  intros Hfit. destruct (payload_ok image) as [Hpl Hpi]. set (n := iso_sectors (len image)) in *.
  assert (0 ≤ n < 2 ^ 22) as Hn.
  { apply fits_spec in Hfit. change (256 ^ Z.of_nat 4) with 4294967296 in Hfit.
    unfold n, iso_sectors. split; [apply Z.div_pos; lia|apply Z.div_lt_upper_bound; lia]. }
  destruct (primary_ok (21 + n) volume) as (p & Hp & Hpl' & Hp0 & Hpw);
    [apply fits_spec; change (256 ^ Z.of_nat 4) with 4294967296; lia|].
  destruct (root_body_ok (len image) Hfit) as (r & Hr & Hrl & Hrs).
  destruct (catalog_ok n) as (e & c & He & Hc & Hcl & Hcc); [lia|].
  destruct boot_record_ok as (br & Hbr & Hbrl & _). destruct terminator_ok as (t & Ht & Htl & _).
  unfold build_iso. fold (payload_of image). rewrite Hr. ok_bind. rewrite Hrl.
  replace (len (payload_of image) / SECTOR) with n by (rewrite Hpl, Z.mul_comm, Z.div_mul; done).
  change FILE_LBA with 21. rewrite Hp. ok_bind. rewrite Hbr, Ht, He. ok_bind. rewrite Hc. ok_bind.
  set (iso := zeros (PVD_LBA * SECTOR) ++ p ++ br ++ t ++ c ++ r ++ payload_of image).
  assert (len iso = (21 + n) * 2048) as Hlen.
  { unfold iso. change (PVD_LBA * SECTOR) with 32768. list_lia. }
  rewrite check_blocks_ok by (repeat constructor; done). ok_bind. rewrite Hlen.
  change SECTOR with 2048. rewrite Z.eqb_refl. cbn [negb]. unfold exit_if, raise_if. ok_bind.
  rewrite Z.div_mul by done. exists iso. split; [done|].
  pose proof (has_all iso) as Hall. unfold iso at 2 in Hall. rewrite !has_app in Hall.
  destruct Hall as (_ & H1 & H2 & H3 & H4 & H5 & H6).
  change (len (zeros (PVD_LBA * SECTOR))) with 32768 in *. rewrite Hpl', ?Hbrl, ?Htl, ?Hcl, ?Hrl in *.
  split; fold n; [done|eauto 10..|].
  by apply (has_trans _ _ _ 0 image H6).
Qed.

Lemma walk_step_at iso rec s :
  has iso (w_lba s * 2048) rec → len rec = 2048 →
  walk_step iso s =
    (typ ← bget rec 0;
     if typ =? 255 then Ok (Break s)
     else if typ =? 1 then walk_primary rec s
     else if (typ =? 0) && bool_decide (slice rec 1 6 = b "CD001") then
       if negb (bool_decide (slice rec 7 30 = ljust (b "EL TORITO SPECIFICATION") 23 0)) then
         walk_fail s "boot record volume descriptor id"
       else
         catalog ← unpack_le 4 rec 71;
         Ok (Next (Walk (w_lba s + 1) (w_root s) (w_block s) (w_blocks s) (Some catalog) None))
     else Ok (Next (Walk (w_lba s + 1) (w_root s) (w_block s) (w_blocks s) (w_catalog s) None))).
Proof.
  intros Hhas Hl. unfold walk_step. rewrite (has_slice _ _ _ _ Hhas) by lia.
  destruct Hhas as (_ & Hle & _). by rewrite (proj2 (Z.ltb_ge (len iso) _)) by lia.
Qed.

Lemma check_iso_eq iso image volume :
  iso_parts iso image volume →
  check_iso iso image =
    if load_ok (let n := iso_sectors (len image) in if n <? 0xFFFF then n else 0) then pass
    else fail "boot entry load size".
Proof.
  intros [Hlen (p & Hp & Hpl & Hp0 & Hpw) (r & Hr & Hbr) (t & Ht & Hterm) (c & Hc & Hcl & Hcc) (d & Hd & Hdl & Hds) Him].
  destruct boot_record_ok as (r' & Hr' & Hrl & Hr0 & Hrid & Hrs & Hrc). rewrite Hbr in Hr'. apply Ok_inj in Hr' as <-.
  destruct terminator_ok as (t' & Ht' & Htl & Ht0). rewrite Hterm in Ht'. apply Ok_inj in Ht' as <-.
  unfold check_iso. assert (∃ k, walk_fuel iso = S (S (S k))) as [k ->].
  { exists (pred (length iso)). unfold walk_fuel. destruct Him as (_ & ? & _). lia. }
  rewrite while_S, (walk_step_at _ p) by done. rewrite Hp0. ok_bind. change (1 =? 255) with false.
  change (1 =? 1) with true. cbv iota. rewrite Hpw. ok_bind.
  rewrite while_S, (walk_step_at _ r) by done. rewrite Hr0. ok_bind. change (0 =? 255) with false. change (0 =? 1) with false.
  change (0 =? 0) with true. cbv iota. rewrite !bool_decide_true by done. cbn [andb negb].
  rewrite Hrc. ok_bind. cbn [w_lba w_root w_block w_blocks].
  rewrite while_S, (walk_step_at _ t) by done. rewrite Ht0. ok_bind. change (255 =? 255) with true. cbv iota.
  ok_bind. cbn [w_failed w_block w_root w_catalog]. change (2048 =? 2048) with true. cbn [negb fail_if].
  rewrite (has_slice _ _ _ _ Hc) by lia. rewrite Hcc. case_match; [|done].
  pose proof Him as (_ & Hle & _). rewrite (proj2 (Z.ltb_ge (len iso) _)) by lia.
  rewrite (has_slice _ _ _ _ Him) by lia. rewrite bool_decide_true by done. cbn [negb fail_if].
  rewrite (has_slice _ _ _ _ Hd) by lia. rewrite Hds. ok_bind. by rewrite !Z.eqb_refl.
Qed.

(** A turn of the walk ends or goes one sector on. *)
Definition walk_next (lba : Z) : ctl walk → Prop := step_to (λ s', w_lba s' = lba + 1) (λ _, True).

Lemma runs_walk_primary rec s : runs (walk_primary rec s) (walk_next (w_lba s)) (λ _, True).
Proof.
  unfold walk_primary, walk_fail. cbv zeta. destruct (negb _); [done|].
  apply runs_bind_returns; [returns_solve|]. intros [|]; [done|].
  by repeat first [apply runs_bind_returns; [returns_solve|intros ?] | destruct (negb _); [done|]].
Qed.

Lemma runs_walk_step iso s :
  runs (walk_step iso s)
    (λ c, walk_next (w_lba s) c ∧ (w_lba s * 2048 + 2048 ≤ len iso ∨ ∃ s', c = Break s')) (λ _, True).
Proof.
  assert (runs (walk_step iso s) (walk_next (w_lba s)) (λ _, True)) as H.
  { unfold walk_step, walk_fail. cbv zeta. case_match; [done|].
    apply runs_bind_returns; [returns_solve|intros typ]. destruct (typ =? 255); [done|].
    destruct (typ =? 1); [apply runs_walk_primary|]. destruct (_ && _); [|done]. destruct (negb _); [done|].
    apply runs_bind_returns; [returns_solve|done]. }
  destruct (Z.ltb_spec (len iso) (w_lba s * 2048 + 2048)) as [Hlt|].
  - unfold walk_step. rewrite (proj2 (Z.ltb_lt _ _)) by done. cbn. split; [done|]. right. eauto.
  - eapply runs_mono; [exact H| |done]. intros c Hc. split; [done|by left].
Qed.

Lemma returns_walk iso s :
  0 ≤ w_lba s → returns (while (walk_fuel iso) (λ _, true) (walk_step iso) s).
Proof.
  intros Hs. eapply (runs_while (λ s, 0 ≤ w_lba s) _ _ (λ s, Z.to_nat (len iso + 1 - w_lba s))); [|done|done|].
  - intros s' Hs' _. eapply runs_mono; [apply runs_walk_step| |done].
    intros [s2|s2] [Hn Hor]; cbn in *; [|done]. destruct Hor as [?|[? [=]]]. lia.
  - unfold walk_fuel. lia.
Qed.

Lemma returns_search root : Bytes root → returns (search_root root).
Proof.
  intros Hb. unfold search_root. apply returns_bind; [|done].
  eapply (runs_while (λ s, 0 ≤ s_o s) _ _ (λ s, Z.to_nat (len root - s_o s))); [|done|done|cbn [s_o]; lia].
  intros [o found] Ho Hc%Z.leb_le. cbn [s_o] in *. unfold search_step. apply runs_bind.
  destruct (bget_ok root o) as (n & Hn & ->); [lia|]. cbn [runs].
  pose proof (Bytes_lookup _ _ _ Hb Hn) as Hn0%is_byte_spec.
  destruct (Z.eqb_spec n 0); [done|]. apply runs_bind_returns; [returns_solve|intros k].
  destruct (starts_with _ _); [do 2 (apply runs_bind_returns; [returns_solve|intros ?])|]; cbn; lia.
Qed.

Lemma returns_catalog cat rest : (∀ lba, returns (rest lba)) → returns (check_catalog cat rest).
Proof.
  intros Hr. unfold check_catalog, fail_if, fail. returns_solve; [|apply Hr].
  apply returns_for_each. intros. returns_solve.
Qed.

(** ** Theorems *)

(** C37 - The optical image of any disk image below 4 GiB is built and contains
    it at sector 21; the check of the optical image passes on it exactly when
    the length of the disk image in sectors is one the boot entry may have: 4,
    at least 66, or so large that the entry holds 0. *)
Theorem build_iso_checked image volume :
  len image < 2 ^ 32 →
  ∃ iso info, build_iso image volume = Ok (iso, info) ∧
    len iso = (21 + iso_sectors (len image)) * 2048 ∧ has iso (21 * 2048) image ∧
    (check_iso iso image = Ok Pass ↔
     let n := iso_sectors (len image) in n = 0 ∨ n = 4 ∨ 66 ≤ n).
Proof.
  intros Hlen. destruct (build_iso_parts image volume) as (iso & Hb & Hp);
    [apply fits_spec; change (256 ^ Z.of_nat 4) with (2 ^ 32); lia|].
  exists iso. eexists. split; [exact Hb|]. split_and!; [apply (ip_len _ _ _ Hp)|apply (ip_image _ _ _ Hp)|].
  rewrite (check_iso_eq _ _ _ Hp). cbv zeta. set (n := iso_sectors (len image)). unfold load_ok, pass, fail.
  assert (0 ≤ n) by (unfold n, iso_sectors; apply Z.div_pos; lia).
  case_bool; cbn [orb]; (split; [done || lia|intros; done || lia]).
Qed.

Lemma build_iso_checked_witness :
  ∃ iso info, build_iso (b "qizo") "QIZO" = Ok (iso, info) ∧
    len iso = (21 + 1) * 2048 ∧ has iso (21 * 2048) (b "qizo") ∧
    (check_iso iso (b "qizo") = Ok Pass ↔ let n := 1 in n = 0 ∨ n = 4 ∨ 66 ≤ n).
Proof. apply (build_iso_checked (b "qizo") "QIZO"). done. Defined.

(** The check of an optical image ends on every input: the walk over the
    volume descriptors stops at the end of the file, and the directory search
    moves on with every record. *)
Theorem check_iso_returns iso image : Bytes iso → returns (check_iso iso image).
Proof.
  intros Hb. unfold check_iso, fail_if, fail, pass. apply returns_bind; [by apply returns_walk|].
  intros w. returns_solve. apply returns_catalog. intros lba. cbv zeta. returns_solve.
  by apply returns_search, slice_Bytes.
Qed.

Lemma check_iso_returns_witness : returns (check_iso (zeros 40000) [1; 2]).
Proof. apply check_iso_returns. apply zeros_Bytes. Defined.

End ISO.
