(* ===== verification/CheckMain.v ===== *)
(** * The whole check of an image: [main] of [tools/qizocheck/qizocheck.py]

    [main] reads the arguments of the first stage from the image, finds and
    unpacks the blob, checks the module header against the load budget, and then
    runs the checks of [Check.v] and [Iso.v].  The theorems relate it to
    [Image.main]: what the image tool builds is accepted, raw images are not. *)

From S2P Require Export Iso.

Module QC.

(** The command line, with the contents of the files it names. *)
Record args := Args {
  c_image : bytes; c_stage1 : option bytes; c_objdump : option string; c_stage2 : option bytes;
  c_kernel_nm : option string; c_iso : option bytes;
}.

(** The regions of memory the boot code uses, for a blob and a module of the
    given lengths. *)
Definition check_memory (blob_len total_len : Z) (rest : res verdict) : res verdict :=
  fail_if (LY.E820_BUF <? LY.BLOB_PHYS + blob_len) "blob overlaps the e820 buffer" (
  fail_if (LY.PM_STACK - 0x1000 <? LY.E820_BUF + LY.E820_MAX * LY.E820_ENT + 4)
    "e820 buffer crowds the 32 bit stack" (
  fail_if (LY.BLOB_PHYS <? LY.STAGE2 + LY.STAGE2_BYTES)
    "stage2 code region does not end before the blob" (
  fail_if (LY.SCRATCH <? LY.KTEXT + total_len)
    "kernel image and bss reach the decompression scratch" (
  fail_if (LY.PAGE_PML4 <? LY.SCRATCH + total_len)
    "decompression scratch reaches the page tables" (
  fail_if (LY.STAGE2 <? LY.BOOTINFO + LY.BOOTINFO_SIZE)
    "bootinfo reaches the stage2 load area" rest))))).

(** The blob: unpacked, with its module header checked; [rest] gets the kernel. *)
Definition check_blob (blob : bytes) (rest : bytes → res verdict) : res verdict :=
  m ← unpack_le 4 blob 0;
  fail_if (negb ((m =? LY.LZSS_MAGIC) || (m =? 0))) "blob has neither lzss nor raw header" (
  blob_len ← unpack_le 4 blob 4;
  magic ← unpack_le 4 blob 0;
  out ← (if magic =? LY.LZSS_MAGIC then decompress blob else Ok (slice blob 8 (len blob)));
  fail_if (negb (len out =? blob_len))
    ("decompressed length " +:+ fmt_d (len out) +:+ " != declared " +:+ fmt_d blob_len) (
  mod_magic ← unpack_le 4 out 0; klen ← unpack_le 4 out 4;
  entry ← unpack_le 4 out 8; total_len ← unpack_le 4 out 12;
  fail_if (negb (mod_magic =? LY.QIZOK_MAGIC)) "module header magic missing" (
  fail_if (total_len <? klen + 64)
    ("module total " +:+ fmt_d total_len +:+ " smaller than image " +:+ fmt_d (klen + 64)) (
  fail_if (LY.KERNEL_MAX <? total_len) ("module total " +:+ fmt_d total_len +:+ " exceeds load budget") (
  fail_if (negb (klen + 64 =? len out)) "module klen mismatch with stream" (
  fail_if (klen <=? entry) ("entry " +:+ fmt_d entry +:+ " outside kernel") (
  let kernel := slice out 64 (64 + klen) in
  fail_if (LY.KERNEL_MAX <? klen) "kernel oversized" (
  check_memory (len blob) total_len (rest kernel))))))))).

(** The optional checks of the files beside the image. *)
Definition check_stage1 (s1 : bytes) (objdump : option string) (rest : res verdict) : res verdict :=
  fail_if (negb (len s1 =? SECTOR)) ("stage1 is not one sector: " +:+ fmt_d (len s1)) (
  fail_if (negb (bool_decide (slice s1 510 512 = [0x55; 0xAA]))) "stage1 signature missing" (
  fail_if (negb (bool_decide (slice s1 (STAGE1_ARGS + 8) (STAGE1_ARGS + 12) = zeros 4)))
    "stage1 template has a non-zero argument block" (
  and_then (check_stage1_dap objdump) rest))).

Definition check_stage2 (s2 : bytes) (rest : res verdict) : res verdict :=
  fail_if (negb (bool_decide (slice s2 0 3 = [0xFA; 0xFC; 0x31]))) "stage2 prologue missing" (
  and_then (check_stage2_gdt s2) (
  and_then (check_stage2_transition (slice s2 0 LY.STAGE2_BYTES)) rest)).

Definition need : list string :=
  ["qizo_kernel_entry"; "__qizo_phys_base"; "qizo_kmain"; "qizo_pg_tables"; "qizo_idt"]%string.

Definition check_symbols (nm_text : string) (rest : res verdict) : res verdict :=
  let syms := ART.nm nm_text in
  match List.find (λ n, bool_decide (syms !! n = None)) need with
  | Some n => fail ("kernel elf missing symbol " +:+ n)
  | None => rest
  end.

(** [if args.x: ...] *)
Definition when {A} (o : option A) (f : A → res verdict → res verdict) (rest : res verdict) : res verdict :=
  match o with Some x => f x rest | None => rest end.

(** [main()]: the exit status is 0 when it passes *)
Definition main (a : args) : res verdict :=
  let img := c_image a in
  fail_if (negb (len img mod SECTOR =? 0)) "image not a whole number of sectors" (
  fail_if (negb (bool_decide (slice img 510 512 = [0x55; 0xAA]))) "mbr signature missing" (
  _drive ← bget img STAGE1_ARGS;
  lba ← unpack_le 4 img (STAGE1_ARGS + 4);
  total ← unpack_le 2 img (STAGE1_ARGS + 8);
  crc ← unpack_le 4 img (STAGE1_ARGS + 12);
  fail_if (negb (lba =? LY.PART_LBA)) ("stage1 blob lba is not " +:+ fmt_d LY.PART_LBA) (
  fail_if (total <=? LY.STAGE2_SECTORS) "read span does not cover the blob" (
  let start := lba * SECTOR + LY.STAGE2_BYTES in
  let blob := slice img start (start + (total - LY.STAGE2_SECTORS) * SECTOR) in
  when (c_stage2 a) (λ s2 rest,
    let want := ljust s2 LY.STAGE2_BYTES 0 in
    fail_if (negb (bool_decide (slice img (lba * SECTOR) (lba * SECTOR + LY.STAGE2_BYTES) = want)))
      "stage2 in the image differs from the built binary" rest) (
  fail_if (negb (len blob =? (total - LY.STAGE2_SECTORS) * SECTOR)) "blob extends past end of image" (
  fail_if (negb (checksum blob =? crc)) "blob adler mismatch" (
  check_blob blob (λ kernel,
  and_then (check_fs img kernel) (
  when (c_stage1 a) (λ s1, check_stage1 s1 (c_objdump a)) (
  when (c_stage2 a) check_stage2 (
  when (c_kernel_nm a) check_symbols (
  when (c_iso a) (λ iso, and_then (ISO.check_iso iso img)) pass)))))))))))).

(** ** Unpacking what the image tool packed *)

(** The memory map has room for everything the build accepts. *)
Lemma check_memory_ok blob_len total_len rest :
  blob_len ≤ 126976 → total_len ≤ 524288 → check_memory blob_len total_len rest = rest.
Proof.
  intros Hb Ht. unfold check_memory, fail_if.
  change LY.E820_BUF with 266240. change LY.BLOB_PHYS with 135168. change LY.SCRATCH with 1572864.
  change LY.KTEXT with 1048576. change LY.PAGE_PML4 with 3145728. by rw_bool.
Qed.

Lemma check_blob_lzss k kernel blob rest :
  span_fits k → k_len k = len kernel → Bytes kernel → pack_blob false (header_bytes k ++ kernel) = Ok blob →
  len blob ≤ BLOB_MAX → k_entry_off k < k_len k → k_len k + 64 ≤ k_total k →
  check_blob (pad_sectors blob) rest = rest kernel.
Proof.
  intros Hsp Hkl Hbk Hpack Hmax He Ht. pose proof (span_total_fits k Hsp) as [? ?].
  set (out := header_bytes k ++ kernel) in *.
  assert (len out = 64 + k_len k) as Hlen by (unfold out; rewrite length_app, length_header; lia).
  assert (Bytes out) as Hout.
  { apply Forall_app. split; [|done]. unfold header_bytes.
    repeat (apply Forall_app; split; [apply le_bytes_Bytes|]). apply zeros_Bytes. }
  assert (fits 4 (len out) = true) as Hfit
    by (apply fits_spec; change (256 ^ Z.of_nat 4) with 4294967296; lia).
  cbn [pack_blob] in Hpack. unfold pad_sectors. set (pad := zeros _).
  destruct (codec_header out blob pad Hout Hfit Hpack) as (_ & Hm & Hn).
  unfold check_blob, fail_if. rewrite Hm. ok_bind. change (LZSS_MAGIC =? LY.LZSS_MAGIC) with true.
  cbn [orb negb]. rewrite Hn. ok_bind. cbv iota. rewrite (codec_decodes out blob pad) by done. ok_bind.
  rewrite Z.eqb_refl. cbn [negb].
  pose proof (header_fields k kernel Hsp) as F. cbv zeta in F. fold out in F. destruct F as (-> & -> & -> & ->).
  ok_bind. rewrite Z.eqb_refl. cbn [negb].
  change LY.KERNEL_MAX with 524288. rw_bool.
  replace (slice out 64 (64 + k_len k)) with kernel.
  2: { unfold out. rewrite slice_app_r by (rewrite length_header; lia).
       rewrite length_header. change (64 - Z.of_nat 64) with 0. symmetry. apply slice_all'. lia. }
  apply check_memory_ok; [|lia].
  change (blob ++ pad) with (pad_sectors blob). rewrite pad_sectors_length.
  pose proof (sectors_bound blob Hmax). lia.
Qed.

(** ** The front of the check *)

(** The checks behind the blob. *)
Definition back (a : args) (kernel : bytes) : res verdict :=
  and_then (check_fs (c_image a) kernel) (
  when (c_stage1 a) (λ s1, check_stage1 s1 (c_objdump a)) (
  when (c_stage2 a) check_stage2 (
  when (c_kernel_nm a) check_symbols (
  when (c_iso a) (λ iso, and_then (ISO.check_iso iso (c_image a))) pass)))).

(** On an image that was built, the check gets as far as the blob. *)
Lemma main_front a o k blob total l img :
  build_ok o k blob total l → Bytes (o_kernel_bin o) → disk o k blob total l img →
  c_image a = img → (∀ s2, c_stage2 a = Some s2 → s2 = o_stage2 o) →
  main a = check_blob (pad_sectors blob) (back a).
Proof.
  intros Hok Hbk Hd <- Hs2. pose proof (build_ok_span _ _ _ _ _ Hok) as Hsp. destruct Hok as [Hst1 Hargs Hsigs Hst2l Hker Hbase Hent Hpack Hmax Hlay Hbits Htot Hroom].
  pose proof (kernel_of_inv _ _ _ _ Hker) as (Hkl & _).
  destruct (payload_fits k _ Hsp Hkl Hbk) as [Hpb Hpf].
  pose proof (pack_blob_length _ _ _ Hpb Hpf Hpack) as H8.
  pose proof (sectors_bound _ Hmax) as Hbs. pose proof (sector_count_bounds (len blob) ltac:(lia)) as Hsc.
  destruct Hd as [Hlen _ _ Hdrive Hlba Htotal Hcrc Hsig Hst2 Hblob _]. unfold main. set (img := c_image a) in *.
  rewrite Hlen, Z.mod_mul by done. cbn [Z.eqb negb fail_if].
  rewrite (has_slice _ _ _ _ Hsig) by done. rewrite bool_decide_true by done. cbn [negb fail_if].
  pose proof (has_bget img 464 _ 0 0 Hdrive ltac:(done) ltac:(done)) as Hd0.
  change STAGE1_ARGS with 464. change (464 + 0) with 464 in Hd0. rewrite Hd0. ok_bind.
  change (464 + 4) with 468. change (464 + 8) with 472. change (464 + 12) with 476.
  rewrite (has_unpack _ _ 4 _ Hlba), (has_unpack _ _ 2 _ Htotal), (has_unpack _ _ 4 _ Hcrc);
    [|apply fits_spec, checksum_range
     |apply fits_spec; change (256 ^ Z.of_nat 2) with 65536; change STAGE2_SECTORS with 8; lia|done].
  ok_bind. rewrite Z.eqb_refl. cbn [negb fail_if]. change STAGE2_SECTORS with 8. change LY.STAGE2_SECTORS with 8.
  rewrite (proj2 (Z.leb_gt _ _)) by lia. cbn [fail_if].
  replace (8 + sectors_of blob - 8) with (sectors_of blob) by lia.
  change (PART_LBA * SECTOR + LY.STAGE2_BYTES) with (BLOB_LBA * SECTOR).
  rewrite (has_slice _ _ _ _ Hblob) by (rewrite pad_sectors_length; change SECTOR with 512; lia).
  rewrite pad_sectors_length. change SECTOR with 512. rewrite (Z.mul_comm 512), !Z.eqb_refl.
  unfold back. destruct (c_stage2 a) as [s2|] eqn:E; cbn [when]; [|done].
  rewrite (Hs2 _ eq_refl). change (slice img (PART_LBA * 512) (PART_LBA * 512 + LY.STAGE2_BYTES))
    with (slice img (STAGE2_LBA * SECTOR) (STAGE2_LBA * SECTOR + 4096)).
  rewrite (has_slice _ _ _ _ Hst2). 2: { change STAGE2_BYTES with 4096 in *. change (STAGE2_LBA * SECTOR) with 8192. change (BLOB_LBA * 512) with 12288. list_lia. }
  by rewrite bool_decide_true by done.
Qed.

(** ** The checks behind it *)

(** The files given beside the image are those it was built from, and pass
    their own checks. *)
Record extras_ok (a : args) (o : options) (iso : bytes) : Prop := {
  xo_stage1 : ∀ s1, c_stage1 a = Some s1 → s1 = o_stage1 o ∧ check_stage1_dap (c_objdump a) = Ok Pass;
  xo_stage2 : ∀ s2, c_stage2 a = Some s2 → s2 = o_stage2 o ∧ slice s2 0 3 = [0xFA; 0xFC; 0x31] ∧
    check_stage2_gdt s2 = Ok Pass ∧ check_stage2_transition s2 = Ok Pass;
  xo_nm : ∀ t, c_kernel_nm a = Some t → ∀ n, n ∈ need → is_Some (ART.nm t !! n);
  xo_iso : ∀ i, c_iso a = Some i → i = iso;
}.

Lemma check_symbols_ok t rest :
  (∀ n, n ∈ need → is_Some (ART.nm t !! n)) → check_symbols t rest = rest.
Proof.
  intros H. unfold check_symbols. destruct (List.find _ need) as [n|] eqn:Hf; [|done].
  apply List.find_some in Hf as [Hin%list_elem_of_In Hn%bool_decide_eq_true].
  destruct (H n Hin) as [? ?]. congruence.
Qed.

Lemma readme_starts kernel blob payload k bs part l :
  starts_with (b (readme_text kernel blob payload k bs part l)) (b "qizo") = true.
Proof. apply bool_decide_eq_true. reflexivity. Qed.

Lemma back_ok a o k blob total l iso :
  build_ok o k blob total l → disk o k blob total l (c_image a) →
  bget (short_name (o_label o)) 0 ≠ Ok 0 → extras_ok a o iso → ISO.check_iso iso (c_image a) = Ok Pass →
  back a (o_kernel_bin o) = Ok Pass.
Proof.
  intros Hok Hd Hlabel [H1 H2 H3 H4] Hiso. pose proof (build_ok_layout _ _ _ _ _ Hok) as Hlo.
  pose proof (build_volume_fits _ _ _ _ _ Hok Hlo) as Hvf. destruct (d_volume _ _ _ _ _ _ Hd) as [fat Hvol].
  pose proof (d_partition _ _ _ _ _ _ Hd) as Hpe. rewrite <-(lo_part _ _ _ Hlo) in Hpe.
  unfold back. rewrite (check_fs_eq _ _ total l _ _ fat Hpe Hvol);
    [|by eauto|apply (d_len _ _ _ _ _ _ Hd)|by repeat constructor|done].
  assert (fs_verdict (list_to_map (files_of o k blob l)) (o_kernel_bin o) = Pass) as ->.
  { unfold fs_verdict, files_of. cbn [list_to_map foldr fst snd].
    rewrite lookup_insert_ne, lookup_insert_eq by done. rewrite bool_decide_true by done.
    rewrite lookup_insert_eq. by rewrite readme_starts. }
  destruct Hok as [Hst1 Hargs Hsigs Hst2l Hker Hbase Hent Hpack Hmax Hlay Hbits Htot Hroom]. cbn [and_then mbind res_bind].
  assert (∀ rest, when (c_iso a) (λ iso, and_then (ISO.check_iso iso (c_image a))) rest = rest) as ->.
  { intros rest. destruct (c_iso a) as [i|]; [|done]. cbn [when]. rewrite (H4 i eq_refl), Hiso. done. }
  assert (∀ rest, when (c_kernel_nm a) check_symbols rest = rest) as ->.
  { intros rest. destruct (c_kernel_nm a) as [t|]; [|done]. cbn [when]. by apply check_symbols_ok, H3. }
  assert (∀ rest, when (c_stage2 a) check_stage2 rest = rest) as ->.
  { intros rest. destruct (c_stage2 a) as [s2|]; [|done]. cbn [when].
    destruct (H2 s2 eq_refl) as (-> & Hpro & Hgdt & Htr). unfold check_stage2, fail_if.
    rewrite Hpro, bool_decide_true, Hgdt by done. cbn [negb and_then mbind res_bind].
    rewrite slice_over by (done || exact Hst2l). change (Z.to_nat 0) with 0%nat. by rewrite drop_0, Htr. }
  destruct (c_stage1 a) as [s1|]; [|done]. cbn [when]. destruct (H1 s1 eq_refl) as [-> Hdap].
  unfold check_stage1, fail_if. rewrite Hst1, Hsigs, Hdap. change STAGE1_ARGS with 464.
  rewrite bool_decide_true by done. change (464 + 8) with 472. change (464 + 12) with 476.
  assert (slice (o_stage1 o) 472 476 = zeros 4) as ->.
  { transitivity (slice (slice (o_stage1 o) 464 484) 8 12); [by rewrite slice_slice by lia|by rewrite Hargs]. }
  by rewrite bool_decide_true by done.
Qed.

(** An optical image of a disk image that was built passes its check. *)
Lemma iso_of_build o k blob total l img volume :
  build_ok o k blob total l → disk o k blob total l img →
  ∃ iso info, ISO.build_iso img volume = Ok (iso, info) ∧ ISO.check_iso iso img = Ok Pass ∧
    ISO.iso_parts iso img volume.
Proof.
  intros Hok Hd. pose proof (build_ok_layout _ _ _ _ _ Hok) as Hlo.
  pose proof (sectors_bound _ (bo_blob_max _ _ _ _ _ Hok)) as Hbs.
  pose proof (layout_ok_pos _ _ _ Hlo (proj1 Hbs)) as (_ & _ & _ & Hpos).
  pose proof (bo_total _ _ _ _ _ Hok) as Hmax. change PART_LBA with 16 in Hmax.
  pose proof (d_len _ _ _ _ _ _ Hd) as Hlen. change SECTOR with 512 in Hlen.
  destruct (ISO.build_iso_parts img volume) as (iso & Hb & Hp);
    [apply fits_spec; change (256 ^ Z.of_nat 4) with 4294967296; lia|].
  exists iso. eexists. split; [exact Hb|]. split; [|exact Hp]. rewrite (ISO.check_iso_eq _ _ _ Hp).
  assert (66 ≤ ISO.iso_sectors (len img) < 65535) as Hn.
  { rewrite Hlen. unfold ISO.iso_sectors. split;
      [apply Z.div_le_lower_bound; lia|apply Z.div_lt_upper_bound; lia]. }
  cbv zeta. rw_bool. unfold ISO.load_ok. by rw_bool.
Qed.

(** A disk that was built passes, with its optical image and the files it was
    built from. *)
Lemma check_disk a o k blob total l iso :
  build_ok o k blob total l → o_raw o = false → Bytes (o_kernel_bin o) →
  k_entry_off k < k_len k → k_len k + 64 ≤ k_total k → bget (short_name (o_label o)) 0 ≠ Ok 0 →
  disk o k blob total l (c_image a) → ISO.check_iso iso (c_image a) = Ok Pass → extras_ok a o iso →
  main a = Ok Pass.
Proof.
  intros Hok Hraw Hbk He Ht Hlabel Hd Hiso Hex.
  rewrite (main_front a o k blob total l (c_image a)) by (done || intros s2 E; by apply (xo_stage2 _ _ _ Hex)).
  pose proof (bo_blob _ _ _ _ _ Hok) as Hp. rewrite Hraw in Hp.
  rewrite (check_blob_lzss k (o_kernel_bin o)); [by eapply back_ok|by eapply build_ok_span| |done|done| |done|done].
  - by apply (kernel_of_inv _ _ _ _ (bo_kernel _ _ _ _ _ Hok)).
  - apply (bo_blob_max _ _ _ _ _ Hok).
Qed.

(** ** Theorems *)



(** C35 - The same build with [--raw] is rejected, unless header, module header
    and kernel happen to fill whole sectors: the check takes the padding of the
    blob for part of the module. *)
Theorem check_rejects_raw o k blob total l :
  build_ok o k blob total l → o_raw o = true → Bytes (o_kernel_bin o) →
  (72 + len (o_kernel_bin o)) mod SECTOR ≠ 0 →
  ∃ img lines msg, Image.main o = Ok (img, lines) ∧ main (Args img None None None None None) = Ok (Failed msg).
Proof.
  intros Hok Hraw Hbk Hmod. destruct (main_spec _ _ _ _ _ Hok) as (img & lines & Hm & Hd).
  exists img, lines. pose proof (build_ok_span _ _ _ _ _ Hok) as Hsp.
  pose proof (kernel_of_inv _ _ _ _ (bo_kernel _ _ _ _ _ Hok)) as (Hkl & _).
  destruct (payload_fits k _ Hsp Hkl Hbk) as [_ Hpf]. pose proof (bo_blob _ _ _ _ _ Hok) as Hp.
  rewrite Hraw in Hp. cbn [pack_blob] in Hp. rewrite !pack_le_ok in Hp by done. cbn [mbind res_bind] in Hp.
  apply Ok_inj in Hp. set (out := header_bytes k ++ o_kernel_bin o) in *.
  assert (len out = 64 + len (o_kernel_bin o)) as Hout by (unfold out; rewrite length_app, length_header; lia).
  assert (len blob = 72 + len (o_kernel_bin o)) as Hbl by (rewrite <-Hp, !length_app, !length_le_bytes; lia).
  pose proof (pad_sectors_length blob) as Hpl.
  assert (unpack_le 4 (pad_sectors blob) 0 = Ok 0 ∧ unpack_le 4 (pad_sectors blob) 4 = Ok (len out)) as [H0 H4].
  { pose proof (has_all (pad_sectors blob)) as Hall. unfold pad_sectors at 2 in Hall. rewrite <-Hp in Hall at 2.
    rewrite !has_app in Hall. destruct Hall as [(H0 & H4 & _) _]. split; by eapply has_unpack. }
  eexists. split; [done|].
  rewrite (main_front (Args img None None None None None) o k blob total l img) by done.
  unfold check_blob, fail_if. rewrite H0. ok_bind. change ((0 =? LY.LZSS_MAGIC) || (0 =? 0)) with true. cbn [negb].
  rewrite H4. ok_bind. change (0 =? LY.LZSS_MAGIC) with false. cbv iota.
  rewrite slice_over by lia. ok_bind. rewrite length_drop.
  rewrite (proj2 (Z.eqb_neq _ (len out))); [done|]. intros Heq. apply Hmod.
  replace (72 + len (o_kernel_bin o)) with (sectors_of blob * SECTOR) by (change SECTOR with 512; lia).
  by apply Z.mod_mul.
Qed.

Lemma check_rejects_raw_witness :
  ∃ img lines msg, Image.main (ex_options true) = Ok (img, lines) ∧
    main (Args img None None None None None) = Ok (Failed msg).
Proof.
  apply (check_rejects_raw (ex_options true) ex_span (ex_blob true) 4425 ex_layout); [apply ex_build_ok|done| |done].
  apply (bool_decide_unpack _). by vm_compute.
Defined.

End QC.
