(* ===== verification/CheckSound.v ===== *)
(** * What an image that passes the check is: [tools/qizocheck/qizocheck.py]

    The other direction of [CheckMain.v], for any image and not only for those
    the image tool builds: when [check_fs], [check_iso] or the whole check pass,
    the image has the structure the abstract descriptions of this file give, a
    volume whose directory and cluster chains hold the files, a catalog that
    leads to the disk image, a blob that unpacks to a module. *)

From S2P Require Export CheckMain.

(** ** Inversion of verdicts *)

Lemma fail_if_Pass c msg rest : fail_if c msg rest = Ok Pass ↔ c = false ∧ rest = Ok Pass.
Proof. unfold fail_if, fail. destruct c; split; [done|by intros [? ?]|done|by intros [_ ?]]. Qed.

Lemma and_then_Pass m rest : and_then m rest = Ok Pass ↔ m = Ok Pass ∧ rest = Ok Pass.
Proof.
  unfold and_then. destruct m as [[|msg]|e|]; cbn [mbind res_bind]; split; try done; by intros [? ?].
Qed.

Lemma when_Pass {A} (o : option A) f rest :
  (∀ x, f x rest = Ok Pass → rest = Ok Pass) → QC.when o f rest = Ok Pass →
  rest = Ok Pass ∧ ∀ x, o = Some x → f x rest = Ok Pass.
Proof.
  intros Hf. destruct o as [x|]; cbn [QC.when]; intros H; [|done]. split; [by eapply Hf|]. by intros ? [= <-].
Qed.

(** Take one step of a check that passed apart. *)
Ltac pass_step H :=
  match type of H with
  | fail_if _ _ _ = Ok Pass =>
      let Hc := fresh "Hc" in apply fail_if_Pass in H as [Hc H];
      try apply negb_false_iff in Hc;
      try first [apply Z.eqb_eq in Hc | apply Z.ltb_ge in Hc | apply Z.leb_gt in Hc | apply bool_decide_eq_true in Hc]
  | and_then _ _ = Ok Pass => let Hc := fresh "Hc" in apply and_then_Pass in H as [Hc H]
  | mbind _ _ = Ok Pass => let x := fresh "x" in let Hx := fresh "Hx" in apply bind_Ok in H as (x & Hx & H)
  end.

(** What a field that was read holds. *)
Lemma unpack_has n l off v :
  Bytes l → 0 ≤ off → unpack_le n l off = Ok v → has l off (le_bytes n v) ∧ 0 ≤ v < 256 ^ Z.of_nat n.
Proof.
  intros Hl Ho H. destruct (runs_Ok_inv _ _ _ _ H (runs_unpack_le n l off Hl Ho)) as [Hv Hle].
  split; [|done]. apply unpack_le_Ok_inv in H as [_ ->]; [|done].
  set (s := slice l off (off + Z.of_nat n)).
  assert (length s = n) as Hn by (unfold s; rewrite length_slice by lia; lia).
  assert (le_bytes n (le_val s) = s) as ->.
  { rewrite <-(le_bytes_le_val s) at 2 by by apply slice_Bytes. by rewrite Hn. }
  apply has_intro; lia.
Qed.

(** ** The volume *)

(** Where the parts of a volume are. *)
Record geometry := Geometry { g_part : Z; g_reserved : Z; g_nfats : Z; g_fat_size : Z; g_rootcnt : Z; g_spc : Z }.
Definition g_root_lba (g : geometry) : Z := g_part g + g_reserved g + g_nfats g * g_fat_size g.
Definition g_data_lba (g : geometry) : Z := g_root_lba g + (g_rootcnt g * 32 + SECTOR - 1) / SECTOR.
Definition g_fat_off (g : geometry) : Z := (g_part g + g_reserved g) * SECTOR.

(** The first partition of the image has a boot sector that says so. *)
Record has_geometry (img : bytes) (g : geometry) : Prop := {
  hg_part : unpack_le 4 img 0x1C6 = Ok (g_part g);
  hg_sector : let bs := slice img (g_part g * SECTOR) (g_part g * SECTOR + SECTOR) in
    slice bs 510 512 = [0x55; 0xAA] ∧ unpack_le 2 bs 11 = Ok SECTOR ∧ bget bs 13 = Ok (g_spc g) ∧
    unpack_le 2 bs 14 = Ok (g_reserved g) ∧ bget bs 16 = Ok (g_nfats g) ∧
    unpack_le 2 bs 17 = Ok (g_rootcnt g) ∧ unpack_le 2 bs 22 = Ok (g_fat_size g) ∧
    (bget bs 21 = Ok 0xF8 ∨ bget bs 21 = Ok 0xF9);
}.

(** Entry [i] of the root directory. *)
Definition dirent (img : bytes) (g : geometry) (i : Z) : bytes :=
  slice img (g_root_lba g * SECTOR + i * 32) (g_root_lba g * SECTOR + (i + 1) * 32).

(** The directory does not end before entry [n]. *)
Definition in_use (img : bytes) (g : geometry) (n : Z) : Prop :=
  ∀ j, 0 ≤ j < n → ∃ x, dirent img g j !! 0%nat = Some x ∧ x ≠ 0.

(** Entry [i] is that of a file: its name, size and first cluster. *)
Record names_file (img : bytes) (g : geometry) (i : Z) (name : string) (size cluster : Z) : Prop := {
  nf_range : 0 ≤ i < g_rootcnt g;
  nf_used : in_use img g (i + 1);
  nf_kind : ∃ attr, bget (dirent img g i) 11 = Ok attr ∧ attr ≠ 0x0F ∧ attr ≠ 0x08;
  nf_name : ∃ base ext, decode_utf8 (slice (dirent img g i) 0 8) = Ok base ∧
    decode_utf8 (slice (dirent img g i) 8 11) = Ok ext ∧
    name = strip_char "." (strip base +:+ "." +:+ strip ext)%string;
  nf_cluster : unpack_le 2 (dirent img g i) 26 = Ok cluster;
  nf_size : unpack_le 4 (dirent img g i) 28 = Ok size;
}.

Definition is_cluster (c : Z) : Prop := 2 ≤ c < 0xFFF8.

(** The clusters visited from [c] on, and the entry of the table after them. *)
Inductive cluster_path (img : bytes) (g : geometry) : Z → list Z → Z → Prop :=
  | path_nil c : cluster_path img g c [] c
  | path_cons c next cs last :
      is_cluster c → fat16 img (g_fat_off g) c = Ok next → cluster_path img g next cs last →
      cluster_path img g c (c :: cs) last.

Definition cluster_bytes (img : bytes) (g : geometry) (c : Z) : bytes :=
  let lba := g_data_lba g + (c - 2) * g_spc g in slice img (lba * SECTOR) ((lba + g_spc g) * SECTOR).

(** A file of the volume: an entry names it, and its bytes are those of the
    clusters of its chain, which ends or is given up after 100000 clusters. *)
Definition stored (img : bytes) (g : geometry) (name : string) (data : bytes) : Prop :=
  ∃ i size cluster cs last, names_file img g i name size cluster ∧
    cluster_path img g cluster cs last ∧ (¬ is_cluster last ∨ len cs = 100000) ∧
    data = slice (cs ≫= cluster_bytes img g) 0 size.

(** *** The scan and the chains *)

Section volume.
Variables (img : bytes) (g : geometry).

Lemma path_snoc c cs cur next :
  cluster_path img g c cs cur → is_cluster cur → fat16 img (g_fat_off g) cur = Ok next →
  cluster_path img g c (cs ++ [cur]) next.
Proof. induction 1; intros; cbn [app]; repeat (econstructor; eauto). Qed.

Definition entries_ok (n : Z) (entries : list (string * Z * Z)) : Prop :=
  in_use img g n ∧ Forall (λ e, ∃ i, names_file img g i e.1.1 e.1.2 e.2) entries.

Lemma dir_step_sound i entries c :
  0 ≤ i < g_rootcnt g → entries_ok i entries → dir_step img (g_root_lba g) i entries = Ok c →
  step_to (entries_ok (i + 1)) (λ r, Forall (λ e, ∃ i, names_file img g i e.1.1 e.1.2 e.2) r) c.
Proof.
  intros Hi [Hu He]. unfold dir_step. cbv zeta. fold (dirent img g i).
  intros H. apply bind_Ok in H as (stop & Hs & H). destruct stop.
  { apply Ok_inj in H as <-. exact He. }
  destruct (bool_decide (dirent img g i = [])); [done|]. apply bind_Ok in Hs as (x & Hx & Hs). apply Ok_inj, Z.eqb_neq in Hs.
  apply bget_Ok_inv in Hx as [_ Hx]; [|done].
  assert (in_use img g (i + 1)) as Hu'.
  { intros j Hj. destruct (Z.eq_dec j i) as [->|]; [by exists x|apply Hu; lia]. }
  apply bind_Ok in H as (attr & Ha & H).
  destruct ((attr =? 0x0F) || (attr =? 0x08)) eqn:Hk; [apply Ok_inj in H as <-; by split|].
  apply orb_false_iff in Hk as [Hk1%Z.eqb_neq Hk2%Z.eqb_neq].
  apply bind_Ok in H as (base & Hb & H). apply bind_Ok in H as (ext & Hext & H).
  apply bind_Ok in H as (cluster & Hc & H). apply bind_Ok in H as (size & Hsz & H). apply Ok_inj in H as <-.
  split; [done|]. apply Forall_app. split; [done|]. constructor; [|constructor].
  exists i. cbn [fst snd]. split; [done|done|by exists attr|by exists base, ext|done|done].
Qed.

(** A body that is right whenever it returns. *)
Lemma runs_of_Ok {A} (m : res A) (Q : A → Prop) : returns m → (∀ a, m = Ok a → Q a) → runs m Q (λ _, True).
Proof. unfold returns, runs. destruct m; auto. Qed.

Lemma returns_dir_step i entries : returns (dir_step img (g_root_lba g) i entries).
Proof.
  unfold dir_step, decode_utf8. cbv zeta. returns_solve.
Qed.

Lemma scan_dir_sound entries :
  scan_dir img (g_root_lba g) (g_rootcnt g) = Ok entries →
  Forall (λ e, ∃ i, names_file img g i e.1.1 e.1.2 e.2) entries.
Proof.
  intros H. refine (runs_Ok_inv _ _ _ _ H _). unfold scan_dir.
  apply (runs_for_each (λ done_ s, entries_ok (len done_) s) _ (λ _, True)).
  - intros done_ i rest s Hl Hinv.
    assert (i = len done_ ∧ len done_ < g_rootcnt g) as [-> ?].
    { assert (range 0 (g_rootcnt g) !! length done_ = Some i) as Hx by (rewrite Hl; by apply list_lookup_middle).
      apply lookup_seqZ in Hx as [-> ?]. split; lia. }
    apply runs_of_Ok; [apply returns_dir_step|]. intros c Hc.
    rewrite length_app, Nat2Z.inj_add. apply (dir_step_sound (len done_) s c); [lia|done|done].
  - intros s [_ Hs]. exact Hs.
  - split; [|constructor]. intros j Hj. cbn [length] in Hj. lia.
Qed.

(** What following a chain returns. *)
Lemma follow_sound cluster data :
  follow img (g_fat_off g) (g_data_lba g) (g_spc g) cluster = Ok data →
  ∃ cs last, cluster_path img g cluster cs last ∧ (¬ is_cluster last ∨ len cs = 100000) ∧
    data = cs ≫= cluster_bytes img g.
Proof.
  intros H. pattern data. refine (runs_Ok_inv _ _ _ _ H _). unfold follow. apply runs_bind.
  eapply runs_mono; [apply (runs_while
    (λ s, 0 ≤ ch_spins s ≤ 100000 ∧ ∃ cs, cluster_path img g cluster cs (ch_cur s) ∧ len cs = ch_spins s ∧
       ch_data s = cs ≫= cluster_bytes img g)
    (λ s, ∃ cs, cluster_path img g cluster cs (ch_cur s) ∧ (¬ is_cluster (ch_cur s) ∨ len cs = 100000) ∧
       ch_data s = cs ≫= cluster_bytes img g) (λ _, True)
    (λ s, Z.to_nat (100000 - ch_spins s)))| |done].
  - intros [d cur spins] (Hsp & cs & Hcs & Hl & Hd) Hc. unfold follow_cond in Hc. cbn [ch_cur ch_spins ch_data] in *.
    apply andb_true_iff in Hc as [[H1%Z.leb_le H2%Z.ltb_lt]%andb_true_iff H3%Z.ltb_lt].
    unfold follow_step. destruct (fat16 img (g_fat_off g) cur) as [next|e|] eqn:Hn; cbn [mbind res_bind runs]; [|done|].
    + cbn [step_to ch_cur ch_spins ch_data]. split; [|lia]. split; [lia|]. exists (cs ++ [cur]). split_and!.
      * by apply (path_snoc cluster cs cur).
      * list_lia.
      * rewrite bind_app, <-Hd. cbn [mbind list_bind]. by rewrite (right_id_L [] (++)).
    + pose proof (returns_unpack 2 img (g_fat_off g + cur * 2)) as Hr. unfold fat16 in Hn. by rewrite Hn in Hr.
  - intros [d cur spins] (Hsp & cs & Hcs & Hl & Hd) Hc. unfold follow_cond in Hc. cbn [ch_cur ch_spins ch_data] in *.
    exists cs. split_and!; [done| |done]. unfold is_cluster.
    destruct (Z.eq_dec spins 100000) as [->|]; [by right|left]. intros [H1 H2].
    revert Hc. rw_bool. done.
  - cbn [ch_cur ch_spins ch_data]. split; [lia|]. exists []. split_and!; [constructor|done|done].
  - cbn [ch_spins]. lia.
  - intros s (cs & Hcs & He & Hd). cbn [runs mbind res_bind]. eauto.
Qed.

Lemma load_files_sound entries found :
  Forall (λ e, ∃ i, names_file img g i e.1.1 e.1.2 e.2) entries →
  load_files img (g_fat_off g) (g_data_lba g) (g_spc g) entries = Ok found →
  ∀ name data, found !! name = Some data → stored img g name data.
Proof.
  intros He. unfold load_files. assert (∀ name data, (∅ : gmap string bytes) !! name = Some data → stored img g name data) as H0 by done.
  revert H0. generalize (∅ : gmap string bytes). induction He as [|[[name size] cluster] entries [i Hi] He IH]; intros acc H0 H.
  { by apply Ok_inj in H as <-. }
  rewrite for_each_cons in H. apply bind_Ok in H as (c & Hc & H). unfold load_step in Hc.
  apply bind_Ok in Hc as (data & Hd & Hc). apply Ok_inj in Hc as <-. revert H. apply IH.
  intros name' data'. destruct (decide (name = name')) as [<-|]; [|rewrite lookup_insert_ne by done; apply H0].
  rewrite lookup_insert_eq. intros [= <-]. cbn [fst snd] in Hi.
  apply follow_sound in Hd as (cs & last & Hp & Hend & ->). exists i, size, cluster, cs, last. by split_and!.
Qed.
End volume.

(** An image whose volume holds the kernel and a read me. *)
Definition holds_files (img kernel : bytes) : Prop :=
  ∃ g text, has_geometry img g ∧ stored img g "KERNEL.BIN" kernel ∧ stored img g "README.TXT" text ∧
    starts_with text (b "qizo") = true.

Lemma check_fs_holds img kernel : check_fs img kernel = Ok Pass → holds_files img kernel.
Proof.
  unfold check_fs. intros H. pass_step H. rename x into part, Hx into Hpart. cbv zeta in H. pass_step H.
  pass_step H; rename x into bps, Hx into Hbps. pass_step H; rename x into spc, Hx into Hspc.
  pass_step H; rename x into reserved, Hx into Hres. pass_step H; rename x into nfats, Hx into Hnf.
  pass_step H; rename x into rootcnt, Hx into Hrc. pass_step H; rename x into media, Hx into Hmed.
  pass_step H; rename x into fat_size, Hx into Hfs. pass_step H. subst bps. pass_step H.
  apply orb_true_iff in Hc0. pass_step H. pass_step H.
  apply bind_Ok in H as (entries & Hent & H). apply bind_Ok in H as (found & Hfound & H).
  set (g := Geometry part reserved nfats fat_size rootcnt spc).
  pose proof (scan_dir_sound img g _ Hent) as Hen. pose proof (load_files_sound img g _ _ Hen Hfound) as Hst.
  destruct (found !! "KERNEL.BIN"%string) as [data|] eqn:Hk; [|done]. pass_step H. subst data.
  destruct (found !! "README.TXT"%string) as [text|] eqn:Ht; [|done]. pass_step H.
  exists g, text. split; [|split; [by apply Hst|split; [by apply Hst|by apply bool_decide_eq_true]]].
  split; [done|]. cbn [g_part g_spc g_reserved g_nfats g_rootcnt g_fat_size]. cbv zeta. split_and!; try done.
  destruct Hc0 as [->%Z.eqb_eq| ->%Z.eqb_eq]; auto.
Qed.

(** ** The optical image *)

(** Descriptor [v] of the volume is a boot record that names the catalog. *)
Record torito_record (iso : bytes) (v catalog : Z) : Prop := {
  br_type : has iso (v * 2048) [0];
  br_id : has iso (v * 2048 + 1) (b "CD001");
  br_system : has iso (v * 2048 + 7) (ljust (b "EL TORITO SPECIFICATION") 23 0);
  br_catalog : unpack_le 4 iso (v * 2048 + 71) = Ok catalog;
}.

(** Descriptor [v] describes the volume: its root directory, in blocks of 2048
    bytes. *)
Record primary_descriptor (iso : bytes) (v root_lba root_size : Z) : Prop := {
  pd_type : has iso (v * 2048) [1];
  pd_id : has iso (v * 2048 + 1) (b "CD001");
  pd_root : has iso (v * 2048 + 156) [34] ∧ unpack_le 4 iso (v * 2048 + 158) = Ok root_lba ∧
    unpack_le 4 iso (v * 2048 + 166) = Ok root_size;
  pd_version : has iso (v * 2048 + 693) [1];
  pd_set : unpack_le 2 iso (v * 2048 + 120) = Ok 1;
  pd_block : unpack_le 2 iso (v * 2048 + 128) = Ok 2048 ∧ unpack_be 2 iso (v * 2048 + 130) = Ok 2048;
}.

(** The sixteen words of the validation entry. *)
Definition words (l : bytes) : list Z := (λ i, le_val (slice l i (i + 2))) <$> range_step 0 32 2.

(** The catalog is valid and its entry boots a hard disk image at [file_lba]. *)
Record boot_catalog (iso : bytes) (catalog file_lba : Z) : Prop := {
  bc_header : has iso (catalog * 2048) [1; 0];
  bc_key : has iso (catalog * 2048 + 30) [0x55; 0xAA];
  bc_sum : foldr Z.add 0 (words (slice iso (catalog * 2048) (catalog * 2048 + 2048))) mod 65536 = 0;
  bc_entry : has iso (catalog * 2048 + 32) [0x88; 4];
  bc_segment : unpack_le 2 iso (catalog * 2048 + 34) = Ok 0x07C0;
  bc_load : ∃ n, unpack_le 2 iso (catalog * 2048 + 38) = Ok n ∧ (n = 0 ∨ n = 4 ∨ 66 ≤ n);
  bc_lba : unpack_le 4 iso (catalog * 2048 + 40) = Ok file_lba;
}.

(** A record of the directory names the image. *)
Definition dir_names (root : bytes) (lba size : Z) : Prop :=
  ∃ o, 0 ≤ o ∧ has root (o + 33) (b "QIZO") ∧
    unpack_le 4 root (o + 2) = Ok lba ∧ unpack_le 4 root (o + 10) = Ok size.

(** An optical image that boots the disk image: the boot record leads to a
    catalog whose entry, like the directory, leads to the bytes of the image. *)
Definition boots_image (iso image : bytes) : Prop :=
  ∃ v catalog p root_lba root_size file_lba,
    16 ≤ v ∧ torito_record iso v catalog ∧ 16 ≤ p ∧ primary_descriptor iso p root_lba root_size ∧
    boot_catalog iso catalog file_lba ∧ has iso (file_lba * 2048) image ∧
    dir_names (slice iso (root_lba * 2048) (root_lba * 2048 + root_size)) file_lba (len image).

(** *** Reading through a slice *)

Lemma slice_has l a c : 0 ≤ a ≤ len l → a ≤ c → has l a (slice l a c).
Proof.
  intros. destruct (Z.le_ge_cases c (len l)); [apply has_intro; lia|].
  rewrite slice_over by lia. rewrite <-(slice_over l a (len l)) by lia. apply has_intro; lia.
Qed.

Lemma length_slice_in (l : bytes) a c i : 0 ≤ a ≤ c → 0 ≤ i < len (slice l a c) → a ≤ len l.
Proof.
  intros ? Hi. destruct (Z.le_ge_cases a (len l)); [done|].
  rewrite slice_over in Hi by lia. rewrite length_drop in Hi. lia.
Qed.

Lemma bget_has l i x : 0 ≤ i → bget l i = Ok x → has l i [x].
Proof.
  intros ? [? Hx]%bget_Ok_inv; [|done]. unfold has. cbn [length]. split_and!; [done|lia|].
  apply list_eq. intros n. rewrite lookup_slice by lia. destruct n as [|n]; case_decide; try lia.
  - rewrite Nat.add_0_r. exact Hx.
  - done.
Qed.

Lemma bget_slice_has l a c i x : 0 ≤ a ≤ c → 0 ≤ i → bget (slice l a c) i = Ok x → has l (a + i) [x].
Proof.
  intros ?? H. pose proof (proj1 (bget_Ok_inv _ _ _ ltac:(done) H)).
  apply (has_trans _ _ (slice l a c)); [|by apply bget_has].
  apply slice_has; [|lia]. split; [lia|]. by apply (length_slice_in l a c i).
Qed.

Lemma slice_eq_has l i j d : slice l i j = d → 0 ≤ i → d ≠ [] → j = i + len d → has l i d.
Proof.
  intros H ? Hd ->. destruct d as [|x d]; [done|].
  assert (i ≤ len l) by (apply (length_slice_in l i (i + len (x :: d)) 0); [lia|rewrite H; cbn [length]; lia]).
  rewrite <-H. apply slice_has; [lia|lia].
Qed.

Lemma unpack_slice_Ok n l a c i v :
  (0 < n)%nat → 0 ≤ a ≤ c → 0 ≤ i → unpack_le n (slice l a c) i = Ok v → unpack_le n l (a + i) = Ok v.
Proof.
  intros ??? [Hle ->]%unpack_le_Ok_inv; [|done].
  assert (a ≤ len l) by (apply (length_slice_in l a c 0); lia).
  pose proof (slice_has l a c ltac:(lia) ltac:(lia)) as (_ & Hl & _).
  rewrite unpack_le_ok by lia. f_equal. f_equal. apply has_slice; [|rewrite length_slice by lia; lia].
  apply has_sub; [by apply slice_has; lia|lia|lia].
Qed.

Lemma unpack_be_slice_Ok n l a c i v :
  (0 < n)%nat → 0 ≤ a ≤ c → 0 ≤ i → unpack_be n (slice l a c) i = Ok v → unpack_be n l (a + i) = Ok v.
Proof.
  intros ???. unfold unpack_be. intros (o & Ho & [= <-])%bind_Ok. unfold struct_offset in Ho.
  revert Ho. case_bool; try lia; intros [= <-].
  assert (a ≤ len l) by (apply (length_slice_in l a c 0); lia).
  pose proof (slice_has l a c ltac:(lia) ltac:(lia)) as (_ & Hl & _).
  rewrite struct_offset_ok by lia. cbn [mbind res_bind]. f_equal. f_equal. f_equal.
  apply has_slice; [|rewrite length_slice by lia; lia]. apply has_sub; [by apply slice_has; lia|lia|lia].
Qed.

(** *** The walk *)

Section iso.
Variables (iso : bytes).

(** What the walk has seen so far is on the volume. *)
Definition walk_inv (s : ISO.walk) : Prop :=
  16 ≤ ISO.w_lba s ∧
  (∀ c, ISO.w_catalog s = Some c → ∃ v, 16 ≤ v ∧ torito_record iso v c) ∧
  (∀ k z n, ISO.w_block s = Some k → ISO.w_root s = Some (z, n) → ∃ p, 16 ≤ p ∧ primary_descriptor iso p z n).

Definition walk_seen (s : ISO.walk) : Prop := ISO.w_failed s = None → walk_inv s.

Lemma walk_primary_sound s c :
  walk_inv s → has iso (ISO.w_lba s * 2048) [1] →
  ISO.walk_primary (slice iso (ISO.w_lba s * 2048) (ISO.w_lba s * 2048 + 2048)) s = Ok c →
  step_to walk_inv walk_seen c.
Proof.
  intros (Hl & Hc & Hr) Htype. set (rec := slice iso _ _). unfold ISO.walk_primary, ISO.walk_fail. cbv zeta.
  destruct (negb _) eqn:Hid; [by intros [= <-]|]. apply negb_false_iff, bool_decide_eq_true in Hid.
  intros H. apply bind_Ok in H as (bad & Hbad & H). destruct bad; [by injection H as <-|].
  destruct (len (slice rec 156 (156 + 34)) <? 34); [done|].
  apply bind_Ok in Hbad as (x & Hx & Hbad). apply Ok_inj, negb_false_iff, Z.eqb_eq in Hbad as ->.
  apply bind_Ok in H as (root_lba & Hroot & H). apply bind_Ok in H as (root_size & Hsize & H).
  apply bind_Ok in H as (block & Hblock & H). apply bind_Ok in H as (version & Hver & H).
  destruct (Z.eqb_spec version 1) as [->|]; [|by injection H as <-]. cbn [negb] in H.
  apply bind_Ok in H as (set_size & Hset & H). destruct (Z.eqb_spec set_size 1) as [->|]; [|by injection H as <-]. cbn [negb] in H.
  apply bind_Ok in H as (be & Hbe & H). apply bind_Ok in H as (le & Hle & H).
  rewrite Hblock in Hle. apply Ok_inj in Hle as <-. destruct (Z.eqb_spec be block) as [->|]; [|by injection H as <-]. cbn [negb] in H.
  destruct (Z.eqb_spec block 2048) as [->|]; [|by injection H as <-]. cbn [negb] in H.
  apply bind_Ok in H as (blocks & _ & H). apply Ok_inj in H as <-. cbn [step_to]. unfold walk_inv.
  cbn [ISO.w_lba ISO.w_catalog ISO.w_root ISO.w_block]. split; [lia|]. split; [done|].
  intros k z n _ [= <- <-]. exists (ISO.w_lba s). split; [done|].
  set (o := ISO.w_lba s * 2048) in *. assert (0 ≤ o) as Ho by lia.
  assert (∀ n i v, (0 < n)%nat → 0 ≤ i → unpack_le n rec i = Ok v → unpack_le n iso (o + i) = Ok v) as Hu
    by (intros; apply (unpack_slice_Ok _ _ o (o + 2048)); [done|lia|done|done]).
  assert (∀ n i j v, (0 < n)%nat → 0 ≤ i → j = 156 + i → unpack_le n (slice rec 156 (156 + 34)) i = Ok v →
    unpack_le n iso (o + j) = Ok v) as Hu2
    by (intros ? ? ? ? ? ? ->; intros; apply Hu; [done|lia|]; apply (unpack_slice_Ok _ _ 156 (156 + 34)); [done|lia|done|done]).
  assert (has iso o rec) as Hrec.
  { apply slice_has; [|lia]. split; [done|]. destruct Htype as (_ & ? & _). cbn [length] in *. lia. }
  split; try done.
  - apply (has_trans _ _ rec); [done|]. by apply (slice_eq_has _ _ 6).
  - split_and!; [|apply (Hu2 4%nat 2); [lia..|exact Hroot]|apply (Hu2 4%nat 10); [lia..|exact Hsize]].
    apply (has_trans _ _ rec); [done|]. rewrite <-(Z.add_0_r 156). apply (bget_slice_has _ _ (156 + 34)); [lia|done|exact Hx].
  - apply (has_trans _ _ rec); [done|]. by apply bget_has.
  - apply Hu; [lia..|exact Hset].
  - split; [apply Hu; [lia..|exact Hblock]|]. apply (unpack_be_slice_Ok _ _ o (o + 2048)); [lia..|exact Hbe].
Qed.

Lemma walk_step_sound s c : walk_inv s → ISO.walk_step iso s = Ok c → step_to walk_inv walk_seen c.
Proof.
  intros Hs. pose proof Hs as (Hl & Hc & Hr). unfold ISO.walk_step, ISO.walk_fail. cbv zeta.
  destruct (Z.ltb_spec (len iso) (ISO.w_lba s * 2048 + 2048)) as [|Hlen]; [by intros [= <-]|].
  set (o := ISO.w_lba s * 2048) in *. assert (0 ≤ o) as Ho by lia.
  pose proof (slice_has iso o (o + 2048) ltac:(lia) ltac:(lia)) as Hrec.
  intros H. apply bind_Ok in H as (typ & Htyp & H).
  destruct (Z.eqb_spec typ 255); [by apply Ok_inj in H as <-|].
  apply (bget_slice_has iso o (o + 2048)) in Htyp; [|lia..]. rewrite Z.add_0_r in Htyp.
  destruct (Z.eqb_spec typ 1) as [->|]; [by eapply walk_primary_sound|].
  destruct (Z.eqb_spec typ 0) as [->|]; cbn [andb] in H;
    [|apply Ok_inj in H as <-; split; cbn [ISO.w_lba]; [lia|done]].
  destruct (bool_decide (slice _ 1 6 = _)) eqn:Hid; cbn [andb] in H;
    [|apply Ok_inj in H as <-; split; cbn [ISO.w_lba]; [lia|done]].
  apply bool_decide_eq_true in Hid. destruct (negb _) eqn:Hsys; [by injection H as <-|].
  apply negb_false_iff, bool_decide_eq_true in Hsys.
  apply bind_Ok in H as (catalog & Hcat & H). apply Ok_inj in H as <-. split; cbn [ISO.w_lba]; [lia|].
  cbn [ISO.w_catalog ISO.w_block ISO.w_root]. split; [|done].
  intros ? [= <-]. exists (ISO.w_lba s). split; [done|]. fold o. split; fold o; [done| | |].
  - eapply has_trans; [exact Hrec|]. by apply (slice_eq_has _ _ 6).
  - eapply has_trans; [exact Hrec|]. by apply (slice_eq_has _ _ 30).
  - apply (unpack_slice_Ok 4 iso o (o + 2048)); [lia..|exact Hcat].
Qed.

Lemma walk_sound s :
  while (ISO.walk_fuel iso) (λ _, true) (ISO.walk_step iso) (ISO.Walk 16 None None None None None) = Ok s →
  walk_seen s.
Proof.
  apply (while_Ok_inv walk_inv).
  - intros s' c Hs _. by apply walk_step_sound.
  - done.
  - split_and!; [cbn; lia|done|done].
Qed.

(** *** The catalog and the directory *)

Lemma catalog_sum cat r :
  for_each (λ i acc, w ← unpack_le 2 cat i; Ok (Next (Z.land (acc + w) 0xFFFF))) (range_step 0 32 2) 0 = Ok r →
  r = foldr Z.add 0 (words cat) mod 65536.
Proof.
  unfold words. assert (Forall (λ i, 0 ≤ i) (range_step 0 32 2)) as Hi by (vm_compute; repeat constructor; done).
  assert (∀ acc, for_each (λ i acc, w ← unpack_le 2 cat i; Ok (Next (Z.land (acc + w) 0xFFFF))) (range_step 0 32 2) acc = Ok r →
    acc = acc mod 65536 →
    r = (acc + foldr Z.add 0 ((λ i, le_val (slice cat i (i + 2))) <$> range_step 0 32 2)) mod 65536) as Hg;
    [|intros H; rewrite (Hg 0 H) by done; done].
  induction Hi as [|i js Hi _ IH]; intros acc H Hacc.
  - apply Ok_inj in H as <-. cbn. by rewrite Z.add_0_r.
  - rewrite for_each_cons in H. apply bind_Ok in H as (c & Hc & H). apply bind_Ok in Hc as (w & Hw & Hc).
    apply Ok_inj in Hc as <-. apply unpack_le_Ok_inv in Hw as [_ ->]; [|done].
    change 0xFFFF with (Z.ones 16) in H. rewrite Z.land_ones in H by lia. change (2 ^ 16) with 65536 in H.
    rewrite (IH _ H) by by rewrite Z.mod_mod. cbn [fmap list_fmap foldr].
    rewrite Zplus_mod_idemp_l. f_equal. change (Z.of_nat 2) with 2. lia.
Qed.

Lemma catalog_sound catalog rest :
  0 ≤ catalog → ISO.check_catalog (slice iso (catalog * 2048) (catalog * 2048 + 2048)) rest = Ok Pass →
  ∃ file_lba, boot_catalog iso catalog file_lba ∧ rest file_lba = Ok Pass.
Proof.
  intros Hcat. set (o := catalog * 2048). assert (0 ≤ o) as Ho by lia. set (cat := slice iso o (o + 2048)).
  unfold ISO.check_catalog. intros H.
  pass_step H. pass_step H. destruct x0; [done|]. destruct (Z.eqb_spec x 1) as [->|]; [|done].
  apply bind_Ok in Hx0 as (x1 & Hx1 & E). apply Ok_inj, negb_false_iff, Z.eqb_eq in E as ->.
  pass_step H. pass_step H. destruct x0; [done|]. destruct (Z.eqb_spec x 0x55) as [->|]; [|done].
  apply bind_Ok in Hx2 as (x31 & Hx31 & E). apply Ok_inj, negb_false_iff, Z.eqb_eq in E as ->.
  apply bind_Ok in H as (acc & Hacc & H). pass_step H. apply catalog_sum in Hacc. subst acc. cbv zeta in H.
  apply bind_Ok in H as (e0 & He0 & H). pass_step H. subst e0.
  apply bind_Ok in H as (e1 & He1 & H). pass_step H. subst e1.
  apply bind_Ok in H as (seg & Hseg & H). pass_step H. subst seg.
  apply bind_Ok in H as (load & Hload & H). pass_step H.
  apply bind_Ok in H as (file_lba & Hlba & H). exists file_lba. split; [|exact H].
  assert (∀ n j i v, (0 < n)%nat → 0 ≤ i → j = 32 + i → unpack_le n (slice cat 32 64) i = Ok v → unpack_le n iso (o + j) = Ok v) as Hu.
  { intros ? ? i ? ?? -> ?. apply (unpack_slice_Ok _ _ o (o + 2048)); [lia..|].
    apply (unpack_slice_Ok _ _ 32 64); [lia..|done]. }
  assert (∀ i x, 0 ≤ i → bget cat i = Ok x → has iso (o + i) [x]) as Hg
    by (intros; apply (bget_slice_has _ _ (o + 2048)); [lia..|done]).
  assert (has iso o cat) as Hall.
  { apply slice_has; [|lia]. pose proof (Hg 0 1 ltac:(lia) Hx) as (_ & ? & _). cbn [length] in *. lia. }
  assert (∀ i x, 0 ≤ i → bget (slice cat 32 64) i = Ok x → has iso (o + (32 + i)) [x]) as Hge.
  { intros. apply (has_trans _ _ cat); [done|]. by apply (bget_slice_has _ _ 64). }
  split; fold o; fold cat.
  - change [1; 0] with ([1] ++ [0]). apply has_app. rewrite <-(Z.add_0_r o). split; [by apply Hg|]. by rewrite Z.add_0_r; apply Hg.
  - change [0x55; 0xAA] with ([0x55] ++ [0xAA]). apply has_app. split; [by apply Hg|].
    rewrite <-Z.add_assoc. by apply (Hg 31).
  - done.
  - change [0x88; 4] with ([0x88] ++ [4]). apply has_app. split; [by apply (Hge 0)|].
    rewrite <-Z.add_assoc. by apply (Hge 1).
  - apply (Hu 2%nat 34 2); [lia..|done].
  - exists load. split; [apply (Hu 2%nat 38 6); [lia..|done]|]. revert Hc0. case_bool; cbn; lia || (intros; lia).
  - apply (Hu 4%nat 40 8); [lia..|done].
Qed.
End iso.

Lemma slice_starts_has l p i j :
  starts_with (slice l i j) p = true → 0 ≤ i ≤ j → p ≠ [] → has l i p.
Proof.
  intros H%bool_decide_eq_true ? Hp. assert (length p ≤ length (slice l i j))%nat as Hl.
  { rewrite <-H at 1. rewrite length_take. lia. }
  assert (i ≤ len l) by (apply (length_slice_in l i j 0); [lia|destruct p; [done|cbn [length] in *; lia]]).
  rewrite <-(Z.add_0_r i). apply (has_trans _ _ (slice l i j)); [apply slice_has; lia|].
  unfold has. split_and!; [lia|lia|]. rewrite Z.add_0_l, slice_eq by lia. rewrite drop_0.
  etransitivity; [|exact H]. f_equal. lia.
Qed.

Lemma search_sound root lba size :
  Bytes root → ISO.search_root root = Ok (Some (lba, size)) → dir_names root lba size.
Proof.
  intros Hb. unfold ISO.search_root. intros H. apply bind_Ok in H as (s & Hs & H). apply Ok_inj in H.
  revert Hs H. set (P (s : ISO.search) := ISO.s_found s = Some (lba, size) → dir_names root lba size).
  change (while (S (length root)) (λ s, ISO.s_o s + 34 <=? len root) (ISO.search_step root) (ISO.Search 0 None) = Ok s → P s).
  apply (while_Ok_inv (λ s, 0 ≤ ISO.s_o s ∧ P s)); [|by intros ? [? ?]|by split].
  intros [o found] c [Ho HP] _ H. cbn [ISO.s_o] in Ho. unfold ISO.search_step in H. apply bind_Ok in H as (n & Hn & H).
  assert (0 ≤ n) as Hn0 by (apply bget_Ok_inv in Hn as [_ Hn]; [apply (Bytes_lookup _ _ _ Hb), is_byte_spec in Hn; lia|done]).
  destruct (n =? 0); [by apply Ok_inj in H as <-|]. apply bind_Ok in H as (k & Hk & H).
  assert (0 ≤ k) as Hk0 by (apply bget_Ok_inv in Hk as [_ Hk]; [apply (Bytes_lookup _ _ _ Hb), is_byte_spec in Hk; lia|lia]).
  destruct (starts_with _ _) eqn:Hst.
  - apply bind_Ok in H as (l & Hl & H). apply bind_Ok in H as (z & Hz & H). apply Ok_inj in H as <-.
    cbn [step_to ISO.s_o]. split; [lia|]. intros [= -> ->]. exists o. split_and!; [done| |done|done].
    by apply (slice_starts_has _ _ _ (o + 33 + k)); [|lia|].
  - apply Ok_inj in H as <-. cbn [step_to ISO.s_o]. split; [lia|]. exact HP.
Qed.

Lemma check_iso_boots iso image :
  Bytes iso → ISO.check_iso iso image = Ok Pass → boots_image iso image.
Proof.
  intros Hb H. unfold ISO.check_iso in H. cbv zeta in H. apply bind_Ok in H as (w & Hw & H).
  apply walk_sound in Hw. destruct w as [lba root block blocks catalog failed]. cbn in H.
  destruct failed; [done|]. destruct (Hw eq_refl) as (_ & Hc & Hr). cbn in Hc, Hr.
  destruct block as [block|]; [|done]. destruct root as [[root_lba root_size]|]; [|done].
  pass_step H. destruct catalog as [catalog|]; [|done].
  destruct (Hc _ eq_refl) as (v & Hv & Hbr). destruct (Hr _ _ _ eq_refl eq_refl) as (p & Hp & Hpd).
  assert (0 ≤ catalog) as Hcat by (destruct (unpack_has 4 iso (v * 2048 + 71) catalog); [done|lia|apply Hbr|lia]).
  apply catalog_sound in H as (file_lba & Hbc & H); [|done].
  pose proof (bc_lba _ _ _ Hbc) as Hfl.
  assert (0 ≤ file_lba) as Hf by (destruct (unpack_has 4 iso (catalog * 2048 + 40) file_lba); [done|lia|done|lia]).
  pass_step H. pass_step H. apply bind_Ok in H as (found & Hfound & H). destruct found as [[l z]|]; [|done].
  pass_step H. apply orb_false_iff in Hc3 as [->%negb_false_iff%Z.eqb_eq ->%negb_false_iff%Z.eqb_eq].
  apply search_sound in Hfound; [|by apply slice_Bytes].
  exists v, catalog, p, root_lba, root_size, file_lba. do 5 (split; [done|]). split; [|done].
  unfold has. split_and!; [lia|lia|done].
Qed.

(** ** The whole check *)

(** What a blob unpacks to: a compressed one, or one that is the module itself. *)
Definition unpacks (blob out : bytes) : Prop :=
  decompress blob = Ok out ∨ unpack_le 4 blob 0 = Ok 0 ∧ unpack_le 4 blob 4 = Ok (len out) ∧ out = drop 8 blob.

(** An image that can be booted as far as the image itself goes: the arguments
    of the first stage describe a blob that unpacks to a module, which the
    memory of the boot code and the volume hold. *)
Record accepted (img : bytes) (total : Z) (blob out : bytes) (klen entry mtotal : Z) (kernel : bytes) : Prop := {
  ac_sectors : len img mod SECTOR = 0;
  ac_signature : has img 510 [0x55; 0xAA];
  ac_lba : has img 468 (le_bytes 4 PART_LBA);
  ac_total : has img 472 (le_bytes 2 total);
  ac_range : STAGE2_SECTORS < total;
  ac_crc : has img 476 (le_bytes 4 (checksum blob));
  ac_blob : has img (BLOB_LBA * SECTOR) blob;
  ac_len : len blob = (total - STAGE2_SECTORS) * SECTOR;
  ac_room : LY.BLOB_PHYS + len blob ≤ LY.E820_BUF;
  ac_unpacked : unpacks blob out;
  ac_module : module_of out klen entry mtotal kernel;
  ac_bss : klen + 64 ≤ mtotal;
  ac_files : holds_files img kernel;
}.

Lemma check_memory_room blob_len total_len rest :
  QC.check_memory blob_len total_len rest = Ok Pass → LY.BLOB_PHYS + blob_len ≤ LY.E820_BUF ∧ rest = Ok Pass.
Proof. unfold QC.check_memory. intros H. do 6 pass_step H. done. Qed.

Lemma unpack_nonneg n l off v : Bytes l → 0 ≤ off → unpack_le n l off = Ok v → 0 ≤ v.
Proof. intros ?? H. destruct (unpack_has n l off v); [done..|lia]. Qed.

Lemma check_blob_sound blob rest :
  Bytes blob → QC.check_blob blob rest = Ok Pass →
  ∃ out klen entry mtotal kernel, unpacks blob out ∧ module_of out klen entry mtotal kernel ∧
    klen + 64 ≤ mtotal ∧ LY.BLOB_PHYS + len blob ≤ LY.E820_BUF ∧ rest kernel = Ok Pass.
Proof.
  intros Hb H. unfold QC.check_blob in H. pass_step H. rename x into m, Hx into Hm. pass_step H.
  pass_step H. rename x into n, Hx into Hn. rewrite Hm in H. cbn [mbind res_bind] in H.
  apply bind_Ok in H as (out & Hout & H). pass_step H.
  assert (Bytes out ∧ unpacks blob out) as [Hob Hun].
  { destruct (Z.eqb_spec m LY.LZSS_MAGIC) as [->|Hne].
    - split; [|by left]. by apply (runs_Ok_inv _ _ _ _ Hout (decompress_runs blob Hb)).
    - apply Ok_inj in Hout as <-. split; [by apply slice_Bytes|]. right. cbn [orb] in Hc. apply Z.eqb_eq in Hc as ->.
      split; [done|]. rewrite Hc0. split; [done|]. by rewrite slice_over by lia. }
  pass_step H. rename x into magic, Hx into Hmagic. pass_step H. rename x into klen, Hx into Hklen.
  pass_step H. rename x into entry, Hx into Hentry. pass_step H. rename x into mtotal, Hx into Hmtotal.
  pass_step H. subst magic. do 4 pass_step H. cbv zeta in H. pass_step H.
  apply check_memory_room in H as [Hroom H].
  pose proof (unpack_nonneg 4 out 4 klen Hob ltac:(lia) Hklen). pose proof (unpack_nonneg 4 out 8 entry Hob ltac:(lia) Hentry).
  exists out, klen, entry, mtotal, (slice out 64 (64 + klen)). split_and!; try done.
Qed.

(** What the files given beside the image have been checked for. *)
Record extras_sound (a : QC.args) : Prop := {
  xs_stage2 s2 : QC.c_stage2 a = Some s2 →
    slice (QC.c_image a) (PART_LBA * SECTOR) (PART_LBA * SECTOR + LY.STAGE2_BYTES) = ljust s2 LY.STAGE2_BYTES 0 ∧
    slice s2 0 3 = [0xFA; 0xFC; 0x31] ∧ check_stage2_gdt s2 = Ok Pass ∧
    check_stage2_transition (slice s2 0 LY.STAGE2_BYTES) = Ok Pass;
  xs_stage1 s1 : QC.c_stage1 a = Some s1 →
    len s1 = SECTOR ∧ slice s1 510 512 = [0x55; 0xAA] ∧ slice s1 472 476 = zeros 4 ∧
    check_stage1_dap (QC.c_objdump a) = Ok Pass;
  xs_symbols t : QC.c_kernel_nm a = Some t → ∀ n, n ∈ QC.need → is_Some (ART.nm t !! n);
  xs_iso iso : QC.c_iso a = Some iso → Bytes iso → boots_image iso (QC.c_image a);
}.

Lemma check_symbols_sound t rest :
  QC.check_symbols t rest = Ok Pass → rest = Ok Pass ∧ ∀ n, n ∈ QC.need → is_Some (ART.nm t !! n).
Proof.
  unfold QC.check_symbols. destruct (List.find _ QC.need) as [n|] eqn:Hf; [done|]. intros H. split; [done|].
  intros n Hin%list_elem_of_In. pose proof (List.find_none _ _ Hf n Hin) as Hn%bool_decide_eq_false.
  by apply not_eq_None_Some in Hn.
Qed.

Lemma check_stage1_sound s1 o rest :
  QC.check_stage1 s1 o rest = Ok Pass → rest = Ok Pass ∧ len s1 = SECTOR ∧ slice s1 510 512 = [0x55; 0xAA] ∧
    slice s1 472 476 = zeros 4 ∧ check_stage1_dap o = Ok Pass.
Proof. unfold QC.check_stage1. intros H. do 4 pass_step H. split_and!; assumption. Qed.

Lemma check_stage2_sound s2 rest :
  QC.check_stage2 s2 rest = Ok Pass → rest = Ok Pass ∧ slice s2 0 3 = [0xFA; 0xFC; 0x31] ∧
    check_stage2_gdt s2 = Ok Pass ∧ check_stage2_transition (slice s2 0 LY.STAGE2_BYTES) = Ok Pass.
Proof. unfold QC.check_stage2. intros H. do 3 pass_step H. split_and!; assumption. Qed.

(** The checks behind the blob. *)
Lemma back_sound a kernel :
  QC.back a kernel = Ok Pass →
  holds_files (QC.c_image a) kernel ∧
  (∀ s2, QC.c_stage2 a = Some s2 → slice s2 0 3 = [0xFA; 0xFC; 0x31] ∧ check_stage2_gdt s2 = Ok Pass ∧
     check_stage2_transition (slice s2 0 LY.STAGE2_BYTES) = Ok Pass) ∧
  (∀ s1, QC.c_stage1 a = Some s1 → len s1 = SECTOR ∧ slice s1 510 512 = [0x55; 0xAA] ∧
     slice s1 472 476 = zeros 4 ∧ check_stage1_dap (QC.c_objdump a) = Ok Pass) ∧
  (∀ t, QC.c_kernel_nm a = Some t → ∀ n, n ∈ QC.need → is_Some (ART.nm t !! n)) ∧
  (∀ iso, QC.c_iso a = Some iso → ISO.check_iso iso (QC.c_image a) = Ok Pass).
Proof.
  unfold QC.back. intros H. pass_step H. apply check_fs_holds in Hc. split; [done|].
  apply when_Pass in H as [H H1]; [|by intros ? [? _]%check_stage1_sound].
  apply when_Pass in H as [H H2]; [|by intros ? [? _]%check_stage2_sound].
  apply when_Pass in H as [H H3]; [|by intros ? [? _]%check_symbols_sound].
  apply when_Pass in H as [_ H4]; [|by intros ? [_ ?]%and_then_Pass].
  split_and!.
  - intros s2 E. by apply H2, check_stage2_sound in E as [_ ?].
  - intros s1 E. by apply H1, check_stage1_sound in E as [_ ?].
  - intros t E. by apply H3, check_symbols_sound in E as [_ ?].
  - intros iso E. by apply H4, and_then_Pass in E as [? _].
Qed.

Lemma check_main_sound a :
  Bytes (QC.c_image a) → QC.main a = Ok Pass →
  (∃ total blob out klen entry mtotal kernel, accepted (QC.c_image a) total blob out klen entry mtotal kernel) ∧
  extras_sound a.
Proof.
  intros Hb H. unfold QC.main in H. cbv zeta in H. set (img := QC.c_image a) in *.
  pass_step H. pass_step H. apply (slice_eq_has _ 510 512) in Hc0; [|done..].
  pass_step H. pass_step H. rename x0 into lba, Hx0 into Hlba. pass_step H. rename x0 into total, Hx0 into Htotal.
  pass_step H. rename x0 into crc, Hx0 into Hcrc. clear x Hx. pass_step H. subst lba. pass_step H.
  apply when_Pass in H as [H Hs2]; [|by intros ? [_ ?]%fail_if_Pass]. pass_step H. pass_step H. subst crc.
  set (blob := slice img _ _) in *.
  apply check_blob_sound in H as (out & klen & entry & mtotal & kernel & Hun & Hmod & Hbss & Hroom & H);
    [|by apply slice_Bytes].
  fold img in H. apply (back_sound a) in H as (Hfs & H2 & H1 & H3 & H4).
  assert (∀ n o v, 0 ≤ o → unpack_le n img o = Ok v → has img o (le_bytes n v)) as Hu
    by (intros n o v Ho E; by apply (unpack_has n img o v)).
  split.
  - exists total, blob, out, klen, entry, mtotal, kernel.
    split; try done; try (by apply Hu).
    assert (0 < len blob) by (rewrite Hc2; change SECTOR with 512; lia).
    apply (slice_eq_has _ _ (BLOB_LBA * SECTOR + len blob)); [|done|by destruct blob|done].
    rewrite Hc2. reflexivity.
  - split; [|exact H1|exact H3|intros iso E Hbi; by apply check_iso_boots, H4].
    intros s2 E. split; [|by apply H2]. apply Hs2, fail_if_Pass in E as [E _].
    by apply negb_false_iff, bool_decide_eq_true in E.
Qed.

(** C3 - What the check accepts is what it means to accept: the image is whole
    sectors with a signature, the arguments of the first stage describe a blob
    inside it with the right checksum, the blob unpacks to a module with its
    header, entry and length in range, and the volume holds exactly that kernel
    and a read me.  The files given beside the image are those inside it, and an
    optical image leads, by its catalog and by its directory, to the bytes of
    the disk image. *)
Theorem check_sound a :
  Bytes (QC.c_image a) → QC.main a = Ok Pass →
  (∃ total blob out klen entry mtotal kernel, accepted (QC.c_image a) total blob out klen entry mtotal kernel) ∧
  extras_sound a.
Proof. apply check_main_sound. Qed.

(** A small image: the example blob in one sector, and behind it a volume of
    two clusters that hold the kernel and a read me. *)
Definition ex_volume : layout := Layout 16 1 2 1 14 25.
Definition ex_readme : bytes := b "qizo".
Definition ex_accepted : bytes :=
  let kernel := o_kernel_bin (ex_options false) in
  let blob := pad_sectors (ex_blob false) in
  fold_left (λ (img : bytes) (w : Z * bytes), slice_set img w.1 (w.1 + len w.2) w.2) [
    (446, partition_entry ex_volume 25 44); (464, [0x80]); (468, le_bytes 4 PART_LBA); (472, le_bytes 2 9);
    (476, le_bytes 4 (checksum blob)); (510, [0x55; 0xAA]); (BLOB_LBA * SECTOR, blob);
    (25 * SECTOR, boot_sector_bytes 44 ex_volume "QIZO");
    (26 * SECTOR, [0xF8; 0xFF; 0xFF; 0xFF; 0xFF; 0xFF; 0xFF; 0xFF]);
    (28 * SECTOR, file_entry ("KERNEL.BIN"%string, kernel, 2) ++ file_entry ("README.TXT"%string, ex_readme, 3));
    (42 * SECTOR, kernel); (43 * SECTOR, ex_readme)] (zeros (44 * SECTOR)).

Definition ex_check : QC.args := QC.Args ex_accepted None None None None None.

Lemma ex_accepted_Bytes : Bytes (QC.c_image ex_check).
Proof. apply (bool_decide_unpack _). by vm_compute. Qed.

Lemma ex_accepted_small : len (QC.c_image ex_check) < 2 ^ 41.
Proof. by vm_compute. Qed.

Lemma ex_accepted_passes : QC.main ex_check = Ok Pass.
Proof. by vm_compute. Qed.

Lemma check_sound_witness :
  (∃ total blob out klen entry mtotal kernel,
     accepted (QC.c_image ex_check) total blob out klen entry mtotal kernel) ∧
  extras_sound ex_check.
Proof. exact (check_sound ex_check ex_accepted_Bytes ex_accepted_passes). Defined.
