(* ===== verification/BootModel.v ===== *)
(** * The model of the boot: [tools/qizocheck/qizobootmodel.py]

    The tool replays on an image what the boot code does: the first stage reads
    the second stage and the blob with the extended BIOS read, the second stage
    fills in the boot information, unpacks the blob and puts the kernel at its
    place.  Memory is a buffer that every operation takes and returns.  The
    theorems say what each stage leaves in memory, that what the image tool
    writes boots, and that whatever passes has its kernel where it belongs. *)

From S2P Require Export Image.

Module BM.

(** ** Memory *)

(** [Mem(size).buf] *)
Definition mem_size : Z := 0x4000000.
Definition Mem (size : Z) : bytes := zeros size.

Definition read (mem : bytes) (addr n : Z) : bytes := slice mem addr (addr + n).
Definition write (mem : bytes) (addr : Z) (data : bytes) : bytes :=
  slice_set mem addr (addr + len data) data.
Definition u8 (mem : bytes) (addr : Z) : res Z := bget mem addr.
Definition u16 (mem : bytes) (addr : Z) : res Z := unpack_le 2 mem addr.
Definition u32 (mem : bytes) (addr : Z) : res Z := unpack_le 4 mem addr.
Definition put_u32 (mem : bytes) (addr v : Z) : res bytes := pack_into 4 mem addr v.
Definition put_u16 (mem : bytes) (addr v : Z) : res bytes := pack_into 2 mem addr v.
Definition put_u8 (mem : bytes) (addr v : Z) : res bytes := bset mem addr (Z.land v 0xFF).

(** [LY.QIZO[name]] *)
Definition Q (name : string) : Z := LY.value_of name.

(** ** The BIOS read *)

(** [int13_read]: the sectors and the address the packet at [dap] asks for, read
    from the disk into memory. *)
Definition int13_read (mem disk : bytes) (dap : Z) : res (Z * Z * bytes) :=
  _ ← exit_if (negb (dap mod 16 =? 0)) "model: disk address packet not paragraph aligned";
  size ← u8 mem dap;
  _ ← exit_if (negb (size =? 0x10)) "model: disk address packet size byte is not 0x10";
  rsv ← u16 mem (dap + 4);
  _ ← exit_if (negb (rsv =? 0)) "model: disk address packet reserved word is not zero";
  count ← u16 mem (dap + 2);
  off ← u16 mem (dap + 4);
  seg ← u16 mem (dap + 6);
  lba ← u32 mem (dap + 8);
  let dest := seg * 16 + off in
  _ ← exit_if ((count =? 0) || (127 <? count))
    ("model: sector count " +:+ fmt_d count +:+ " out of range");
  let src := slice disk (lba * LY.SECTOR) (lba * LY.SECTOR + count * LY.SECTOR) in
  _ ← exit_if (negb (len src =? count * LY.SECTOR)) ("model: disk underrun at lba " +:+ fmt_d lba);
  Ok (count, dest, write mem dest src).

(** ** The first stage *)

Definition ARG : Z := Eval vm_compute in LY.value_of "QIZO_ARG_ADDR".
Definition DAP : Z := Eval vm_compute in LY.value_of "QIZO_DAP_ADDR".

(** The disk address packet for the next [count] sectors from [bx] on. *)
Definition fill_dap (mem : bytes) (bx count : Z) : res bytes :=
  mem ← put_u8 mem DAP 0x10;
  mem ← put_u16 mem (DAP + 2) count;
  let lin := LY.STAGE2 + bx * LY.SECTOR in
  mem ← put_u16 mem (DAP + 4) (Z.land lin 0xF);
  mem ← put_u16 mem (DAP + 6) (Z.shiftr lin 4);
  lba ← u32 mem (ARG + Q "QIZO_ARG_LBA");
  mem ← put_u32 mem (DAP + 8) (lba + bx);
  put_u32 mem (DAP + 12) 0.

(** The body of the read loop, on the sectors read and the memory. *)
Definition read_chunk (disk : bytes) (total : Z) (s : Z * bytes) : res (ctl (Z * bytes)) :=
  let '(bx, mem) := s in
  let count := Z.min 64 (total - bx) in
  mem ← fill_dap mem bx count;
  r ← int13_read mem disk DAP;
  let '(n, dest, mem) := r in
  _ ← exit_if (LY.BLOB_PHYS + LY.BLOB_MAX <? dest + n * LY.SECTOR)
    "model: read overruns the blob region";
  Ok (Next (bx + n, mem)).

(** [stage1]: every round reads a sector at least, so [total + 1] rounds do. *)
Definition stage1 (mem disk : bytes) (drive : Z) : res (Z * bytes) :=
  let mem := write mem 0x7C00 (slice disk 0 512) in
  mem ← put_u8 mem (ARG + Q "QIZO_ARG_DRIVE") drive;
  total ← u16 mem (ARG + Q "QIZO_ARG_TOTAL");
  s ← while (S (Z.to_nat total)) (λ s, s.1 <? total) (read_chunk disk total) (0, mem);
  Ok (s.1 * LY.SECTOR, s.2).

(** ** The second stage *)

Definition BIA : Z := Eval vm_compute in LY.value_of "QIZO_BOOTINFO".

Definition stage2_real (mem : bytes) : res bytes :=
  let arg := ARG in
  let bi := BIA in
  mem ← put_u32 mem (bi + Q "QIZO_BI_MAGIC") 0x00010001;
  v ← u8 mem (arg + 0);
  mem ← put_u8 mem (bi + Q "QIZO_BI_DRIVE") v;
  mem ← put_u8 mem (bi + Q "QIZO_BI_MODE") 1;
  v ← u32 mem (arg + 4);
  mem ← put_u32 mem (bi + Q "QIZO_BI_BLOB_LBA") v;
  v ← u16 mem (arg + 8);
  mem ← put_u16 mem (bi + Q "QIZO_BI_BLOB_SECTORS") v;
  v ← u16 mem (arg + Q "QIZO_ARG_TOTAL");
  mem ← put_u32 mem (bi + Q "QIZO_BI_BLOB_SIZE") (v * LY.SECTOR - LY.STAGE2_BYTES);
  mem ← put_u32 mem (bi + Q "QIZO_BI_BLOB_PHYS") LY.BLOB_PHYS;
  v ← u32 mem (arg + 12);
  mem ← put_u32 mem (bi + Q "QIZO_BI_BLOB_CRC") v;
  mem ← put_u32 mem (bi + Q "QIZO_BI_SCRATCH") LY.SCRATCH;
  mem ← put_u32 mem (bi + Q "QIZO_BI_KTEXT") LY.KTEXT;
  mem ← put_u32 mem (bi + Q "QIZO_BI_FLAGS") (Q "QIZO_BOOTVER");
  mem ← put_u8 mem (bi + Q "QIZO_BI_A20") 1;
  put_u8 mem (bi + Q "QIZO_BI_LONGMODE") 1.

(** The first match of a pattern: [at_here] is tried at every position. *)
Fixpoint search {A} (at_here : string → option A) (s : string) : option A :=
  match at_here s with
  | Some r => Some r
  | None => match s with String _ s => search at_here s | EmptyString => None end
  end.

(** What is between [head] and the first [c], when [tail] follows. *)
Definition group_until (head : string) (c : ascii) (tail s : string) : option string :=
  s ← after head s;
  let '(m, s) := str_span (λ x, negb (x =? c)%char) s in
  (λ _, m) <$> after tail s.

(** [copy_offset], given the text of [boot/stage2.S] *)
Definition copy_offset (src : string) : res Z :=
  let m := match search (group_until "addl $(" ")" "), %esi") src with
           | Some m => Some m
           | None => (λ m, "QIZO_QIZOK_HDR" +:+ m) <$>
               search (group_until "addl $QIZO_QIZOK_HDR" "," ", %esi") src
           end in
  m ← or_raise (SystemExit "model: cannot find where stage2 takes the kernel image from") m;
  let expr := replace_all " " "+" (strip m) in
  vals ← LY.LAYOUT;
  or_raise EvalError (eval vals expr).

(** What the module header and the memory are checked and copied with. *)
Definition stage2_pm32 (src : string) (mem : bytes) : res (Z * Z * Z * bytes) :=
  let bi := BIA in
  size ← u32 mem (bi + Q "QIZO_BI_BLOB_SIZE");
  let blob := read mem LY.BLOB_PHYS size in
  crc ← u32 mem (bi + Q "QIZO_BI_BLOB_CRC");
  _ ← exit_if (negb (checksum blob =? crc)) "model: stage2 adler mismatch";
  out ← decompress blob;
  let mem := write mem LY.SCRATCH out in
  let hdr := read mem LY.SCRATCH 16 in
  _ ← raise_if (negb (len hdr =? 16)) StructError;
  magic ← unpack_le 4 hdr 0; klen ← unpack_le 4 hdr 4;
  entry ← unpack_le 4 hdr 8; total ← unpack_le 4 hdr 12;
  _ ← exit_if (negb (magic =? LY.QIZOK_MAGIC)) "model: module magic missing";
  _ ← exit_if ((LY.KERNEL_MAX <? klen) || (LY.KERNEL_MAX <? total) || (klen <=? entry))
    "model: module header out of range";
  _ ← exit_if (negb (klen + LY.QIZOK_HDR =? len out)) "model: decompressed size mismatch";
  from ← copy_offset src;
  let image := read mem (LY.SCRATCH + from) klen in
  let mem := write mem LY.KTEXT image in
  let mem := write mem (LY.KTEXT + klen) (zeros (total - klen)) in
  Ok (klen, entry, total, mem).

(** ** The memory map *)

Record region := Region { r_name : string; r_start : Z; r_end : Z }.

Definition regions (klen total : Z) : list region := [
  Region "stage2+blob" LY.STAGE2 (LY.BLOB_PHYS + LY.BLOB_MAX);
  Region "e820" LY.E820_BUF (LY.E820_BUF + LY.E820_MAX * 24 + 8);
  Region "pmstack" (LY.PM_STACK - 0x1000) LY.PM_STACK;
  Region "bootinfo" BIA (BIA + LY.BOOTINFO_SIZE);
  Region "kernel" LY.KTEXT (LY.KTEXT + Z.max klen total);
  Region "scratch" LY.SCRATCH (LY.SCRATCH + LY.KERNEL_MAX + LY.QIZOK_HDR);
  Region "pages" LY.PAGE_PML4 (LY.PAGE_PDT + 4 * 0x1000);
  Region "fault idt" LY.IDT_BOOT (LY.IDT_BOOT + 32 * 16)
]%string.

(** [rs.sort(key=lambda r: r[1])] *)
Definition sort_regions : list region → list region := sort_by (λ a c, r_start a <=? r_start c).

Definition overlap_msg (a c : region) : string :=
  "model: " +:+ r_name a +:+ " [" +:+ fmt_x (r_start a) +:+ "," +:+ fmt_x (r_end a) +:+
  ") overlaps " +:+ r_name c +:+ " [" +:+ fmt_x (r_start c) +:+ "," +:+ fmt_x (r_end c) +:+ ")".

(** The loop over [zip(rs, rs[1:])]. *)
Definition check_regions (rs : list region) : res unit :=
  for_each (λ ac (_ : unit),
      let '(a, c) := ac in
      _ ← exit_if (r_start c <? r_end a) (overlap_msg a c);
      Ok (Next tt))
    (zip rs (tail rs)) tt.

(** The first position at which two kernels of the same length differ. *)
Definition first_diff (got kernel : bytes) : res Z :=
  or_raise StopIteration
    (List.find (λ i, bool_decide (got !! Z.to_nat i ≠ kernel !! Z.to_nat i)) (range 0 (len kernel))).

(** [main()], given the image, the kernel and the text of [boot/stage2.S]: the
    memory at the end and the lines it prints. *)
Definition main (disk kernel : bytes) (src : string) : res (bytes * list string) :=
  r ← stage1 (Mem mem_size) disk 0x80;
  let '(sectors, mem) := r in
  _ ← exit_if (sectors <=? LY.STAGE2_BYTES) "model: nothing to decompress";
  mem ← stage2_real mem;
  r ← stage2_pm32 src mem;
  let '(klen, entry, total, mem) := r in
  let got := read mem LY.KTEXT klen in
  _ ← (if bool_decide (got ≠ kernel) then
         pos ← (if len got =? len kernel then first_diff got kernel
                else Ok (Z.min (len got) (len kernel)));
         Raise (SystemExit ("model: kernel at 0x" +:+ fmt_x LY.KTEXT +:+ " differs at +" +:+ fmt_d pos))
       else Ok tt);
  x ← u8 mem LY.KTEXT;
  y ← bget kernel 0;
  _ ← exit_if (negb (x =? y)) "model: entry byte mismatch";
  _ ← check_regions (sort_regions (regions klen total));
  Ok (mem, [
    "model: read " +:+ fmt_d sectors +:+ " sectors, kernel " +:+ fmt_d klen +:+ " bytes at 0x" +:+
      fmt_x LY.KTEXT +:+ " entry +" +:+ fmt_d entry +:+ ", image+bss " +:+ fmt_d (total / 1024) +:+ " KiB";
    "model: boot regions disjoint, handoff verified"
  ]%string).

(** ** Writes *)

(** One bind of a computed value.  Unlike [ok_bind] this leaves no conversion
    for the kernel to check, which would compare writes by computing them. *)
Lemma bind_of_Ok {A B} (a : A) (k : A → res B) : Ok a ≫= k = k a.
Proof. done. Qed.
Ltac ok_step := rewrite !bind_of_Ok; cbv beta zeta.


Lemma has_put mem a d : 0 ≤ a → a + len d ≤ len mem → has (write mem a d) a d.
Proof. intros. by apply has_write. Qed.

Lemma length_slice_max (l : bytes) a c : 0 ≤ a → a + len (slice l a c) ≤ Z.max a (len l).
Proof. intros. unfold slice, clamp. case_bool; list_lia. Qed.

Lemma length_write mem a d : 0 ≤ a → a + len d ≤ len mem → len (write mem a d) = len mem.
Proof. intros. unfold write. rewrite length_slice_set; lia. Qed.

Lemma has_keep mem a d o e :
  0 ≤ a → a + len d ≤ len mem → o + len e ≤ a ∨ a + len d ≤ o → has mem o e → has (write mem a d) o e.
Proof. intros. by apply has_frame. Qed.

Lemma put_ok n mem a v :
  0 ≤ a → a + Z.of_nat n ≤ len mem → fits n v = true →
  pack_into n mem a v = Ok (write mem a (le_bytes n v)).
Proof. intros. rewrite pack_into_ok by done. unfold write. by rewrite length_le_bytes. Qed.

Lemma put_u16_ok mem a v :
  0 ≤ a → a + 2 ≤ len mem → fits 2 v = true → put_u16 mem a v = Ok (write mem a (le_bytes 2 v)).
Proof. apply (put_ok 2). Qed.

Lemma put_u32_ok mem a v :
  0 ≤ a → a + 4 ≤ len mem → fits 4 v = true → put_u32 mem a v = Ok (write mem a (le_bytes 4 v)).
Proof. apply (put_ok 4). Qed.

Lemma put_u8_ok mem a v :
  0 ≤ a < len mem → is_byte v = true → put_u8 mem a v = Ok (write mem a [v]).
Proof.
  intros ? Hv. unfold put_u8. pose proof (proj1 (is_byte_spec v) Hv).
  change 0xFF with (Z.ones 8). rewrite Z.land_ones, Z.mod_small by (simpl; lia). by rewrite bset_ok.
Qed.

Lemma fits_2 v : 0 ≤ v < 65536 → fits 2 v = true.
Proof. intros. by apply fits_spec. Qed.
Lemma fits_4 v : 0 ≤ v < 4294967296 → fits 4 v = true.
Proof. intros. by apply fits_spec. Qed.

Lemma frame_put lo hi mem mem' a d :
  frame lo hi mem mem' → 0 ≤ a → lo ≤ a → a + len d ≤ hi → a + len d ≤ len mem →
  frame lo hi mem (write mem' a d).
Proof. intros. by apply frame_write. Qed.

Ltac fits_solve := first [apply fits_2; lia | apply fits_4; lia | eassumption | reflexivity].

(** Arithmetic on the lengths of written values. *)
Ltac wlen := rewrite ?length_le_bytes; cbn [length]; lia.

(** Name the memory after the last write. *)
Ltac name_put :=
  match goal with
  | |- context [write ?m ?a ?d] =>
      let H := fresh "Hlen" in
      let mem := fresh "mem" in
      let E := fresh "E" in
      assert (len (write m a d) = len m) as H by (apply length_write; wlen);
      remember (write m a d) as mem eqn:E in *
  end.

(** Perform the first write of the goal and name its result. *)
Ltac put_step :=
  first [rewrite put_u8_ok by (first [lia | reflexivity | eassumption])
        |rewrite put_u16_ok by (first [lia | fits_solve])
        |rewrite put_u32_ok by (first [lia | fits_solve])];
  try ok_step;
  name_put.

(** Contents of a memory named by [put_step]. *)
Ltac mem_solve :=
  match goal with
  | |- has (write _ _ _) _ _ =>
      first [apply has_put; wlen | apply has_keep; [wlen..|mem_solve]]
  | E : ?m = write _ _ _ |- has ?m _ _ => rewrite E; mem_solve
  | H : has ?m _ _ |- has ?m _ _ => exact H
  end.

Ltac frame_solve :=
  match goal with
  | |- frame _ _ ?m ?m => apply frame_refl
  | |- frame _ _ _ (write _ _ _) => apply frame_put; [frame_solve|wlen..]
  | E : ?m = write _ _ _ |- frame _ _ _ ?m => rewrite E; frame_solve
  end.

(** ** The BIOS read *)

(** The packet at [DAP] asks for [count] sectors from [lba] on at [16 * seg]. *)
Record dap_asks (mem : bytes) (count lba seg : Z) : Prop := {
  da_size : has mem DAP [0x10];
  da_count : has mem (DAP + 2) (le_bytes 2 count);
  da_off : has mem (DAP + 4) (le_bytes 2 0);
  da_seg : has mem (DAP + 6) (le_bytes 2 seg);
  da_lba : has mem (DAP + 8) (le_bytes 4 lba);
}.

(** Where chunk [bx] goes, as offset and segment. *)
Lemma dap_offset bx : Z.land (0x20000 + bx * 512) 0xF = 0.
Proof.
  change 0xF with (Z.ones 4). rewrite Z.land_ones by lia. change (2 ^ 4) with 16.
  replace (0x20000 + bx * 512) with ((8192 + 32 * bx) * 16) by lia. by rewrite Z.mod_mul.
Qed.

Lemma dap_segment bx : Z.shiftr (0x20000 + bx * 512) 4 = 0x2000 + 32 * bx.
Proof.
  rewrite Z.shiftr_div_pow2 by lia. change (2 ^ 4) with 16.
  replace (0x20000 + bx * 512) with ((8192 + 32 * bx) * 16) by lia. by rewrite Z.div_mul.
Qed.

Lemma fill_dap_spec mem bx count lba :
  DAP + 16 ≤ len mem → has mem (ARG + 4) (le_bytes 4 lba) → fits 4 lba = true →
  0 ≤ lba + bx < 4294967296 → 0 ≤ bx → 1 ≤ count ≤ 64 → bx + count ≤ 256 →
  ∃ mem', fill_dap mem bx count = Ok mem' ∧ frame DAP (DAP + 16) mem mem' ∧
    dap_asks mem' count (lba + bx) (0x2000 + 32 * bx).
Proof.
  intros Hlen Hlba Hfit Hb Hbx Hc Hmax. unfold fill_dap. cbv zeta.
  change DAP with 0x7E00 in *. change ARG with 0x7DD0 in *. change LY.STAGE2 with 0x20000.
  change LY.SECTOR with 512. change (0x7DD0 + Q "QIZO_ARG_LBA") with (0x7DD0 + 4).
  rewrite dap_offset, dap_segment.
  do 4 put_step. unfold u32. rewrite (has_unpack _ _ 4 lba) by (mem_solve || done). ok_step.
  do 2 put_step. eexists. split; [done|]. split; [frame_solve|]. split; change DAP with 0x7E00; mem_solve.
Qed.

Lemma exit_if_no c msg : c = false → exit_if c msg = Ok tt.
Proof. by intros ->. Qed.

(** A read of one byte that is known. *)
Lemma has_u8 mem a v : has mem a [v] → u8 mem a = Ok v.
Proof. intros H. rewrite <-(Z.add_0_r a). by apply (has_bget _ _ [v] 0). Qed.

Lemma slice_sectors (disk : bytes) lba count :
  0 ≤ lba → 0 ≤ count → (lba + count) * 512 ≤ len disk →
  len (slice disk (lba * 512) (lba * 512 + count * 512)) = count * 512.
Proof. intros. rewrite length_slice; lia. Qed.

Lemma int13_read_spec mem disk count lba seg :
  dap_asks mem count lba seg → 1 ≤ count ≤ 127 → 0 ≤ lba < 4294967296 → 0 ≤ seg < 65536 →
  (lba + count) * 512 ≤ len disk →
  int13_read mem disk DAP =
    Ok (count, seg * 16, write mem (seg * 16) (slice disk (lba * 512) (lba * 512 + count * 512))).
Proof.
  intros [H0 H2 H4 H6 H8] Hc Hl Hs Hlen. unfold int13_read, u16, u32.
  change (exit_if (negb (DAP mod 16 =? 0)) _) with (@Ok unit tt). ok_step.
  rewrite (has_u8 _ _ _ H0). ok_step. change (exit_if (negb (0x10 =? 0x10)) _) with (@Ok unit tt). ok_step.
  rewrite (has_unpack _ _ _ _ H2), (has_unpack _ _ _ _ H4), (has_unpack _ _ _ _ H6), (has_unpack _ _ _ _ H8)
    by fits_solve.
  ok_step. change (exit_if (negb (0 =? 0)) _) with (@Ok unit tt). ok_step. rewrite Z.add_0_r.
  change LY.SECTOR with 512. rewrite (exit_if_no (_ || _)) by (by rw_bool).
  ok_step. rewrite slice_sectors by lia.
  rewrite Z.eqb_refl, exit_if_no by done. ok_step. done.
Qed.

(** ** The first stage *)

(** [mem'] is [mem] but for the packet and the sectors read so far. *)
Definition only_loads (bx : Z) (mem mem' : bytes) : Prop :=
  length mem' = length mem ∧
  ∀ o d, o + len d ≤ DAP ∨ DAP + 16 ≤ o → o + len d ≤ LY.STAGE2 ∨ LY.STAGE2 + bx * 512 ≤ o →
    has mem o d → has mem' o d.

Lemma read_chunk_spec disk total lba mem0 bx mem :
  len mem0 = mem_size → 0 ≤ lba → lba + total < 4294967296 → (lba + total) * 512 ≤ len disk →
  has mem0 (ARG + 4) (le_bytes 4 lba) → 0 ≤ bx < total → total ≤ 256 →
  only_loads bx mem0 mem → has mem LY.STAGE2 (slice disk (lba * 512) ((lba + bx) * 512)) →
  ∃ n mem', read_chunk disk total (bx, mem) = Ok (Next (bx + n, mem')) ∧ 1 ≤ n ≤ total - bx ∧
    only_loads (bx + n) mem0 mem' ∧ has mem' LY.STAGE2 (slice disk (lba * 512) ((lba + (bx + n)) * 512)).
Proof.
  intros Hsz Hlba Hlt Hroom Ha Hbx Htot [Hl Hf] Hload. unfold read_chunk.
  set (n := Z.min 64 (total - bx)). assert (1 ≤ n ≤ 64 ∧ n ≤ total - bx) as [Hn Hn2] by lia.
  change LY.STAGE2 with 0x20000 in *. unfold mem_size in Hsz.
  assert (has mem (ARG + 4) (le_bytes 4 lba)) as Ha'.
  { apply Hf; [| |done]; rewrite length_le_bytes; change ARG with 32208; change DAP with 32256; lia. }
  destruct (fill_dap_spec mem bx n lba) as (mem1 & -> & [Hl1 Hf1] & Hd);
    [change DAP with 32256; lia|done|fits_solve|lia..|].
  ok_step. rewrite (int13_read_spec mem1 disk n (lba + bx) (0x2000 + 32 * bx)) by (done || lia).
  ok_step. change LY.SECTOR with 512. change (LY.BLOB_PHYS + LY.BLOB_MAX) with 262144.
  rewrite exit_if_no by (rw_bool; done). ok_step.
  replace ((0x2000 + 32 * bx) * 16) with (0x20000 + bx * 512) by lia.
  set (src := slice disk _ _). assert (len src = n * 512) as Hs by (apply slice_sectors; lia).
  eexists n, _. split; [done|]. split; [lia|]. split; [split|].
  - apply Nat2Z.inj. rewrite length_write by lia. lia.
  - change LY.STAGE2 with 0x20000. intros o d Ho1 Ho2 Hod. apply has_keep; [lia|lia|lia|].
    apply Hf1; [done|]. apply Hf; [done|change LY.STAGE2 with 0x20000; lia|done].
  - rewrite (slice_split disk _ ((lba + bx) * 512)) by lia.
    apply has_app. set (old := slice disk (lba * 512) _) in *.
    assert (len old = bx * 512) as Ho by (unfold old; rewrite length_slice; lia).
    split; [apply has_keep; [lia|lia|lia|]; apply Hf1; [change DAP with 32256; lia|done]|].
    rewrite Ho. replace (slice disk _ _) with src by (unfold src; f_equal; lia). apply has_put; lia.
Qed.

(** The read loop, started after the arguments are in place. *)
Lemma chunk_loop disk total lba mem0 :
  len mem0 = mem_size → 0 ≤ lba → lba + total < 4294967296 → (lba + total) * 512 ≤ len disk →
  0 ≤ total ≤ 256 → has mem0 (ARG + 4) (le_bytes 4 lba) →
  ∃ mem, while (S (Z.to_nat total)) (λ s, s.1 <? total) (read_chunk disk total) (0, mem0) = Ok (total, mem) ∧
    only_loads total mem0 mem ∧ has mem LY.STAGE2 (slice disk (lba * 512) ((lba + total) * 512)).
Proof.
  intros Hsz Hlba Hlt Hroom Htot Ha.
  assert (runs (while (S (Z.to_nat total)) (λ s, s.1 <? total) (read_chunk disk total) (0, mem0))
    (λ s, s.1 = total ∧ only_loads total mem0 s.2 ∧
      has s.2 LY.STAGE2 (slice disk (lba * 512) ((lba + total) * 512))) no_exc) as Hw.
  { apply (runs_while (λ s, 0 ≤ s.1 ≤ total ∧ only_loads s.1 mem0 s.2 ∧
        has s.2 LY.STAGE2 (slice disk (lba * 512) ((lba + s.1) * 512))) _ _ (λ s, Z.to_nat (total - s.1))).
    - intros [bx m] (Hb & Ho & Hh) Hc. cbn [fst snd] in *. apply Z.ltb_lt in Hc.
      destruct (read_chunk_spec disk total lba mem0 bx m) as (n & m' & -> & Hn & Ho' & Hh'); try done; try lia.
      simpl. split; [|lia]. split_and!; [lia|lia|done|done].
    - intros [bx m] (Hb & Ho & Hh) Hc. cbn [fst snd] in *. apply Z.ltb_ge in Hc.
      by replace bx with total in * by lia.
    - cbn [fst snd]. rewrite Z.add_0_r, slice_nil by lia. split_and!; [lia|lia|by split|].
      unfold mem_size in Hsz. change LY.STAGE2 with 131072. unfold has. cbn [length].
      split_and!; [done|lia|]. rewrite Z.add_0_r. apply slice_nil. lia.
    - cbn [fst]. lia. }
  apply runs_total in Hw as ([bx mem] & -> & Hbx & ? & ?). cbn [fst snd] in *. subst bx. eauto.
Qed.

(** What the first stage leaves behind: the first sector at 0x7C00 with the
    drive number in it, and all sectors it was told to read, in order. *)
Record loaded (mem disk : bytes) (drive lba total : Z) : Prop := {
  ld_len : len mem = mem_size;
  ld_drive : has mem ARG [drive];
  ld_args : ∀ o d, 465 ≤ o → o + len d ≤ 512 → has disk o d → has mem (0x7C00 + o) d;
  ld_sectors : has mem LY.STAGE2 (slice disk (lba * 512) ((lba + total) * 512));
}.

Lemma stage1_spec mem disk drive lba total :
  len mem = mem_size → is_byte drive = true → 0 ≤ lba → lba + total < 4294967296 →
  0 ≤ total ≤ 256 → (lba + total) * 512 ≤ len disk → 512 ≤ len disk →
  has disk 468 (le_bytes 4 lba) → has disk 472 (le_bytes 2 total) →
  ∃ mem', stage1 mem disk drive = Ok (total * 512, mem') ∧ loaded mem' disk drive lba total.
Proof.
  intros Hsz Hd Hlba Hlt Htot Hroom Hfirst Hal Hat. unfold stage1.
  change (ARG + Q "QIZO_ARG_DRIVE") with 32208. change (ARG + Q "QIZO_ARG_TOTAL") with 32216.
  set (first := slice disk 0 512). assert (len first = 512) as Hfl by (unfold first; rewrite length_slice; lia).
  assert (has disk 0 first) as Hf by (apply has_intro; lia).
  assert (len mem = 67108864) as Hsz' by exact Hsz.
  set (mem1 := write mem 0x7C00 first). assert (len mem1 = len mem) as H1 by (apply length_write; lia).
  rewrite put_u8_ok by (first [lia | done]). ok_step.
  set (mem2 := write mem1 32208 [drive]). assert (len mem2 = len mem1) as H2 by (apply length_write; cbn [length]; lia).
  assert (∀ o d, 465 ≤ o → o + len d ≤ 512 → has disk o d → has mem2 (0x7C00 + o) d) as Hargs.
  { intros o d ?? Hod. apply has_keep; cbn [length]; [lia|lia|lia|]. apply (has_trans _ _ first); [apply has_put; lia|].
    destruct Hod as (? & ? & Hod). unfold has. rewrite Hfl. split_and!; [lia|lia|].
    rewrite <-Hod at 2. unfold first. rewrite slice_slice by lia. by rewrite !Z.add_0_l. }
  unfold u16. rewrite (has_unpack _ _ 2 total); [|apply (Hargs 472); [lia|rewrite length_le_bytes; lia|done]|fits_solve].
  ok_step.
  destruct (chunk_loop disk total lba mem2) as (mem3 & -> & [Hl3 Hf3] & Hs3);
    [by rewrite H2, H1|lia..|apply (Hargs 468); [lia|rewrite length_le_bytes; lia|done]|].
  ok_step. cbn [fst snd] in *. eexists. split; [done|].
  change LY.STAGE2 with 131072 in *. change DAP with 32256 in *.
  split; [unfold mem_size in *; lia| | |done].
  - apply Hf3; cbn [length]; change ARG with 32208; [lia|lia|]. apply has_put; cbn [length]; lia.
  - intros o d ???. apply Hf3; [lia|lia|by apply Hargs].
Qed.

(** ** The second stage *)

(** The boot information the real mode part fills in. *)
Record handoff (mem : bytes) (drive lba total crc : Z) : Prop := {
  ho_magic : has mem (BIA + LY.value_of "QIZO_BI_MAGIC") (le_bytes 4 0x00010001);
  ho_drive : has mem (BIA + LY.value_of "QIZO_BI_DRIVE") [drive];
  ho_mode : has mem (BIA + LY.value_of "QIZO_BI_MODE") [1];
  ho_lba : has mem (BIA + LY.value_of "QIZO_BI_BLOB_LBA") (le_bytes 4 lba);
  ho_sectors : has mem (BIA + LY.value_of "QIZO_BI_BLOB_SECTORS") (le_bytes 2 total);
  ho_size : has mem (BIA + LY.value_of "QIZO_BI_BLOB_SIZE") (le_bytes 4 (total * 512 - LY.STAGE2_BYTES));
  ho_phys : has mem (BIA + LY.value_of "QIZO_BI_BLOB_PHYS") (le_bytes 4 LY.BLOB_PHYS);
  ho_crc : has mem (BIA + LY.value_of "QIZO_BI_BLOB_CRC") (le_bytes 4 crc);
  ho_scratch : has mem (BIA + LY.value_of "QIZO_BI_SCRATCH") (le_bytes 4 LY.SCRATCH);
  ho_ktext : has mem (BIA + LY.value_of "QIZO_BI_KTEXT") (le_bytes 4 LY.KTEXT);
  ho_flags : has mem (BIA + LY.value_of "QIZO_BI_FLAGS") (le_bytes 4 0x100);
  ho_a20 : has mem (BIA + LY.value_of "QIZO_BI_A20") [1];
  ho_longmode : has mem (BIA + LY.value_of "QIZO_BI_LONGMODE") [1];
}.

Lemma handoff_frame mem mem' drive lba total crc :
  (∀ o d, o + len d ≤ LY.KTEXT → has mem o d → has mem' o d) →
  handoff mem drive lba total crc → handoff mem' drive lba total crc.
Proof.
  intros Hf [H1 H2 H3 H4 H5 H6 H7 H8 H9 H10 H11 H12 H13].
  split; (apply Hf; [rewrite ?length_le_bytes; by vm_compute|assumption]).
Qed.

(** The symbols as numbers. *)
Ltac layout_consts :=
  repeat match goal with
  | |- context [Q ?s] => change (Q s) with (LY.value_of s)
  | |- context [LY.value_of ?s] =>
      let v := eval vm_compute in (LY.value_of s) in
      replace (LY.value_of s) with v by (vm_compute; reflexivity)
  end.

Lemma stage2_real_spec mem drive lba total crc :
  len mem = mem_size → is_byte drive = true → fits 4 lba = true → 8 ≤ total ≤ 256 → fits 4 crc = true →
  has mem ARG [drive] → has mem (ARG + 4) (le_bytes 4 lba) → has mem (ARG + 8) (le_bytes 2 total) →
  has mem (ARG + 12) (le_bytes 4 crc) →
  ∃ mem', stage2_real mem = Ok mem' ∧ frame BIA (BIA + 0x60) mem mem' ∧ handoff mem' drive lba total crc.
Proof.
  intros Hsz Hd Hl Ht Hc H0 H4 H8 H12. assert (len mem = 67108864) as Hsz' by exact Hsz. clear Hsz.
  unfold stage2_real. cbv zeta. layout_consts. change ARG with 32208 in *. change BIA with 65536.
  change LY.SECTOR with 512. change LY.STAGE2_BYTES with 4096. change LY.BLOB_PHYS with 135168.
  change LY.SCRATCH with 1572864. change LY.KTEXT with 1048576.
  put_step. rewrite (has_u8 _ (32208 + 0) drive) by mem_solve. ok_step. do 2 put_step.
  unfold u32, u16. rewrite (has_unpack _ (32208 + 4) 4 lba) by first [mem_solve | assumption]. ok_step. put_step.
  rewrite !(has_unpack _ (32208 + 8) 2 total) by first [mem_solve | fits_solve]. ok_step. put_step.
  rewrite !(has_unpack _ (32208 + 8) 2 total) by first [mem_solve | fits_solve]. ok_step. do 2 put_step.
  rewrite (has_unpack _ (32208 + 12) 4 crc) by first [mem_solve | assumption]. ok_step. do 6 put_step.
  eexists. split; [done|]. split; [frame_solve|].
  split; layout_consts; change BIA with 65536; mem_solve.
Qed.

(** The fields at the start of a module that was copied into memory. *)
Lemma unpack_front l n v o :
  0 ≤ o → o + Z.of_nat n ≤ 16 → 16 ≤ len l → unpack_le n l o = Ok v → unpack_le n (slice l 0 16) o = Ok v.
Proof.
  intros ??? Hu. apply unpack_le_Ok_inv in Hu as [? ->]; [|done].
  rewrite unpack_le_ok by (done || rewrite length_slice; lia).
  rewrite slice_slice by lia. by rewrite !Z.add_0_l.
Qed.

(** The kernel is in place, with its zero initialised data behind it. *)
Record in_place (mem : bytes) (total : Z) (kernel : bytes) : Prop := {
  ip_kernel : has mem LY.KTEXT kernel;
  ip_bss : has mem (LY.KTEXT + len kernel) (zeros (total - len kernel));
}.

Lemma stage2_pm32_spec src mem blob out klen entry total kernel :
  len mem = mem_size → len blob < 4294967296 → has mem LY.BLOB_PHYS blob →
  has mem (BIA + LY.value_of "QIZO_BI_BLOB_SIZE") (le_bytes 4 (len blob)) →
  has mem (BIA + LY.value_of "QIZO_BI_BLOB_CRC") (le_bytes 4 (checksum blob)) →
  decompress blob = Ok out → module_of out klen entry total kernel → copy_offset src = Ok 64 →
  ∃ mem', stage2_pm32 src mem = Ok (klen, entry, total, mem') ∧
    len mem' = mem_size ∧ in_place mem' total kernel ∧ len kernel = klen ∧
    ∀ o d, o + len d ≤ LY.KTEXT → has mem o d → has mem' o d.
Proof.
  intros Hsz Hbl Hblob Hsize Hcrc Hdec [F0 F4 F8 F12 Hout Hs He Ht] Hoff.
  assert (len mem = 67108864) as Hsz' by exact Hsz. change LY.QIZOK_HDR with 64 in *. change LY.KERNEL_MAX with 524288 in *.
  assert (len kernel = klen) as Hkl by (rewrite <-Hs; rewrite length_slice; lia).
  unfold stage2_pm32. cbv zeta. unfold Q, u32.
  rewrite (has_unpack _ _ 4 _ Hsize) by fits_solve. ok_step.
  rewrite (has_unpack _ _ 4 _ Hcrc) by (apply fits_spec, checksum_range). ok_step.
  assert (read mem LY.BLOB_PHYS (len blob) = blob) as -> by by apply (has_slice _ _ _ _ Hblob).
  rewrite exit_if_no by (by rewrite Z.eqb_refl). ok_step. rewrite Hdec. ok_step.
  change LY.SCRATCH with 1572864. change LY.KTEXT with 1048576 in *.
  assert (has (write mem 1572864 out) 1572864 out) as Hw by (apply has_put; lia).
  assert (len (write mem 1572864 out) = len mem) as Hl1 by (apply length_write; lia).
  remember (write mem 1572864 out) as mem1 eqn:E1.
  assert (read mem1 1572864 16 = slice out 0 16) as ->.
  { pose proof (has_sub _ _ _ 0 16 Hw ltac:(lia) ltac:(lia)) as Hh. rewrite Z.add_0_r in Hh.
    apply (has_slice _ _ _ _ Hh). rewrite length_slice by lia. lia. }
  rewrite length_slice by lia. change (raise_if (negb (Z.of_nat (Z.to_nat (16 - 0)) =? 16)) _) with (@Ok unit tt). ok_step.
  apply unpack_front in F0, F4, F8, F12; [|lia..]. rewrite F0, F4, F8, F12. ok_step.
  change LY.KERNEL_MAX with 524288. change LY.QIZOK_HDR with 64.
  rewrite (exit_if_no (negb (LY.QIZOK_MAGIC =? _))) by done. ok_step.
  rewrite (exit_if_no (_ || _)) by (by rw_bool). ok_step.
  rewrite (exit_if_no (negb (klen + 64 =? _))) by (by rw_bool). ok_step. rewrite Hoff. ok_step.
  assert (read mem1 (1572864 + 64) klen = kernel) as ->.
  { pose proof (has_sub _ _ _ 64 (64 + klen) Hw ltac:(lia) ltac:(lia)) as Hh. rewrite Hs in Hh.
    apply (has_slice _ _ _ _ Hh). lia. }
  assert (len (write mem1 1048576 kernel) = len mem1) as Hl2 by (apply length_write; lia).
  assert (has (write mem1 1048576 kernel) 1048576 kernel) as Hk by (apply has_put; lia).
  remember (write mem1 1048576 kernel) as mem2 eqn:E2.
  assert (len (zeros (total - klen)) = Z.max 0 (total - klen)) as Hz by list_lia.
  assert (len (write mem2 (1048576 + klen) (zeros (total - klen))) = len mem2) as Hl3 by (apply length_write; lia).
  eexists. split; [done|]. split; [unfold mem_size; lia|].
  split; [split; change LY.KTEXT with 1048576|split; [done|]].
  - apply has_keep; [lia|lia|lia|done].
  - rewrite Hkl. apply has_put; lia.
  - intros o d Ho Hod. apply has_keep; [lia..|]. rewrite E2. apply has_keep; [lia..|].
    rewrite E1. apply has_keep; [lia..|exact Hod].
Qed.

(** ** The memory map *)

Lemma check_regions_ok rs :
  (∀ a c, (a, c) ∈ zip rs (tail rs) → r_end a ≤ r_start c) → check_regions rs = Ok tt.
Proof.
  unfold check_regions. generalize (zip rs (tail rs)). intros l. induction l as [|[a c] l IH]; intros H; [done|].
  rewrite for_each_cons. rewrite exit_if_no by (apply Z.ltb_ge, H, list_elem_of_here).
  cbn [mbind res_bind]. apply IH. intros a' c' ?. by apply H, list_elem_of_further.
Qed.

Lemma regions_sorted klen total :
  sort_regions (regions klen total) = [
    Region "bootinfo" 0x10000 0x10700; Region "stage2+blob" 0x20000 0x40000;
    Region "e820" 0x41000 0x41308; Region "pmstack" 0x43000 0x44000;
    Region "kernel" 0x100000 (0x100000 + Z.max klen total); Region "scratch" 0x180000 0x200040;
    Region "pages" 0x300000 0x306000; Region "fault idt" 0x307000 0x307200]%string.
Proof. reflexivity. Qed.

Lemma regions_disjoint klen total :
  klen ≤ LY.KERNEL_MAX → total ≤ LY.KERNEL_MAX → check_regions (sort_regions (regions klen total)) = Ok tt.
Proof.
  change LY.KERNEL_MAX with 524288. intros. rewrite regions_sorted. apply check_regions_ok.
  intros a c Hin. cbn [zip zip_with tail] in Hin.
  repeat (apply elem_of_cons in Hin as [[= -> ->]|Hin]; [cbn [r_start r_end]; lia|]).
  by apply not_elem_of_nil in Hin.
Qed.

(** ** The whole run *)

Lemma length_Mem : len (Mem mem_size) = mem_size.
Proof. unfold Mem. rewrite length_zeros. by apply Z2Nat.id. Qed.

(** The first sector of a disk says where the blob is, how long and with which
    checksum. *)
Record described (disk : bytes) (lba total crc : Z) (blob : bytes) : Prop := {
  ds_lba : has disk 468 (le_bytes 4 lba) ∧ 0 ≤ lba;
  ds_total : has disk 472 (le_bytes 2 total);
  ds_crc : has disk 476 (le_bytes 4 crc) ∧ fits 4 crc = true;
  ds_range : STAGE2_SECTORS < total ≤ 256;
  ds_room : (lba + total) * 512 ≤ len disk ∧ lba + total < 2 ^ 32;
  ds_blob : has disk ((lba + STAGE2_SECTORS) * 512) blob;
  ds_len : len blob = (total - STAGE2_SECTORS) * 512;
}.

(** A disk that can be booted: the blob it describes unpacks to a module. *)
Record bootable (disk : bytes) (lba total : Z) (blob : bytes) (klen entry ktotal : Z) (kernel : bytes) : Prop := {
  bb_described : described disk lba total (checksum blob) blob;
  bb_module : ∃ out, decompress blob = Ok out ∧ module_of out klen entry ktotal kernel;
}.

(** The first two stages, on any blob. *)
Lemma boot_front disk lba total crc blob :
  described disk lba total crc blob →
  ∃ mem1 mem2,
    stage1 (Mem mem_size) disk 0x80 = Ok (total * 512, mem1) ∧ loaded mem1 disk 0x80 lba total ∧
    stage2_real mem1 = Ok mem2 ∧ len mem2 = mem_size ∧ has mem2 LY.BLOB_PHYS blob ∧
    handoff mem2 0x80 lba total crc.
Proof.
  intros [[Hlba Hl0] Htotal [Hcrc Hcf] Hrange [Hroom Hl32] Hblob Hbl].
  change STAGE2_SECTORS with 8 in *. change (2 ^ 32) with 4294967296 in *.
  destruct (stage1_spec (Mem mem_size) disk 0x80 lba total) as (mem1 & H1 & Hld);
    [apply length_Mem|reflexivity|lia..|assumption|assumption|].
  pose proof Hld as [Hl1 Hdr Hargs Hsec].
  destruct (stage2_real_spec mem1 0x80 lba total crc) as (mem2 & H2 & [Hl2 Hf2] & Hho);
    [assumption|reflexivity|apply fits_4; lia|lia|assumption|assumption| | | |].
  { apply (Hargs 468); [lia|rewrite length_le_bytes; lia|assumption]. }
  { apply (Hargs 472); [lia|rewrite length_le_bytes; lia|assumption]. }
  { apply (Hargs 476); [lia|rewrite length_le_bytes; lia|assumption]. }
  exists mem1, mem2. split_and!; try assumption; [lia|].
  apply Hf2; [right; done|]. rewrite (slice_split disk _ ((lba + 8) * 512)) in Hsec by lia.
  apply has_app in Hsec as [_ Hsec]. rewrite length_slice in Hsec by lia.
  rewrite (has_slice _ _ _ _ Hblob) in Hsec by lia.
  change LY.STAGE2 with 131072 in Hsec. change LY.BLOB_PHYS with 135168.
  replace (131072 + _) with 135168 in Hsec by lia. exact Hsec.
Qed.

(** The three stages on such a disk. *)
Lemma boot_stages disk lba total blob klen entry ktotal kernel src :
  bootable disk lba total blob klen entry ktotal kernel → copy_offset src = Ok 64 →
  ∃ mem1 mem2 mem3,
    stage1 (Mem mem_size) disk 0x80 = Ok (total * 512, mem1) ∧ loaded mem1 disk 0x80 lba total ∧
    stage2_real mem1 = Ok mem2 ∧
    stage2_pm32 src mem2 = Ok (klen, entry, ktotal, mem3) ∧ len mem3 = mem_size ∧ len kernel = klen ∧
    in_place mem3 ktotal kernel ∧ handoff mem3 0x80 lba total (checksum blob).
Proof.
  intros [Hds (out & Hdec & Hmod)] Hoff. destruct (boot_front _ _ _ _ _ Hds) as (mem1 & mem2 & H1 & Hld & H2 & Hl2 & Hb2 & Hho).
  destruct Hds as [_ _ _ Hrange _ _ Hbl]. change STAGE2_SECTORS with 8 in *.
  pose proof (ho_size _ _ _ _ _ Hho) as Hsize. pose proof (ho_crc _ _ _ _ _ Hho) as Hsum.
  change LY.STAGE2_BYTES with 4096 in Hsize. replace (total * 512 - 4096) with (len blob) in Hsize by lia.
  destruct (stage2_pm32_spec src mem2 blob out klen entry ktotal kernel) as (mem3 & H3 & Hl3 & Hin & Hkl & Hf3);
    [assumption|lia|assumption..|].
  exists mem1, mem2, mem3. split_and!; try assumption. apply (handoff_frame _ mem3) in Hho; assumption.
Qed.

(** The whole run. *)
Lemma boot_bootable disk lba total blob klen entry ktotal kernel src :
  bootable disk lba total blob klen entry ktotal kernel → copy_offset src = Ok 64 →
  ∃ mem lines, main disk kernel src = Ok (mem, lines) ∧ in_place mem ktotal kernel ∧
    handoff mem 0x80 lba total (checksum blob).
Proof.
  intros Hbb Hoff.
  destruct (boot_stages _ _ _ _ _ _ _ _ src Hbb Hoff) as (mem1 & mem2 & mem3 & H1 & _ & H2 & H3 & Hl & Hkl & Hin & Hho).
  destruct (bb_module _ _ _ _ _ _ _ _ Hbb) as (out & _ & [_ _ _ _ _ _ He Ht]). pose proof (ds_range _ _ _ _ _ (bb_described _ _ _ _ _ _ _ _ Hbb)) as Hr.
  change STAGE2_SECTORS with 8 in Hr. exists mem3. eexists.
  unfold main. rewrite H1. ok_step.
  change LY.STAGE2_BYTES with 4096. rewrite exit_if_no by (by rw_bool). ok_step. rewrite H2. ok_step.
  rewrite H3. ok_step. pose proof (ip_kernel _ _ _ Hin) as Hk.
  assert (read mem3 LY.KTEXT klen = kernel) as -> by (apply (has_slice _ _ _ _ Hk); by rewrite Hkl).
  rewrite (bool_decide_false (_ ≠ _)) by (intros Hn; apply Hn; reflexivity). ok_step.
  destruct kernel as [|x kern]; [cbn [length] in Hkl; lia|].
  unfold u8. rewrite <-(Z.add_0_r LY.KTEXT), (has_bget _ _ _ 0 x Hk), (bget_lookup _ 0 x) by (lia || reflexivity). ok_step.
  rewrite (exit_if_no (negb _)) by (rewrite Z.eqb_refl; reflexivity). ok_step.
  rewrite regions_disjoint by (change LY.KERNEL_MAX with 524288 in *; lia). ok_step.
  split_and!; [reflexivity|assumption..].
Qed.

(** A disk that was built can be booted. *)
Lemma bootable_build o k blob total l img :
  build_ok o k blob total l → o_raw o = false → Bytes (o_kernel_bin o) → k_entry_off k < k_len k →
  disk o k blob total l img →
  bootable img PART_LBA (STAGE2_SECTORS + sectors_of blob) (pad_sectors blob) (k_len k) (k_entry_off k) (k_total k) (o_kernel_bin o).
Proof.
  intros Hok Hraw Hbk He Hd. pose proof (build_ok_span _ _ _ _ _ Hok) as Hsp.
  pose proof (build_ok_layout _ _ _ _ _ Hok) as Hlo.
  pose proof (kernel_of_inv _ _ _ _ (bo_kernel _ _ _ _ _ Hok)) as (Hkl & _).
  destruct (payload_fits k _ Hsp Hkl Hbk) as [Hpb Hpf].
  pose proof (bo_blob _ _ _ _ _ Hok) as Hp. rewrite Hraw in Hp. cbn [pack_blob] in Hp.
  pose proof (sectors_bound _ (bo_blob_max _ _ _ _ _ Hok)) as Hbs.
  pose proof (pack_blob_length false _ _ Hpb Hpf Hp). pose proof (sector_count_bounds (len blob) ltac:(lia)).
  pose proof (pad_sectors_length blob) as Hpl. destruct Hd as [Hlen _ _ _ Hlba Htotal Hcrc _ _ Hblob _].
  change SECTOR with 512 in *. unfold sectors_of in *.
  assert (BLOB_LBA = PART_LBA + STAGE2_SECTORS) as Hb by done. rewrite Hb in Hblob.
  split; [split; try assumption; change STAGE2_SECTORS with 8 in *; change PART_LBA with 16 in *; [| |lia| |lia]|].
  - split; [assumption|done].
  - split; [assumption|apply fits_spec, checksum_range].
  - destruct Hblob as (_ & Hle & _). change (2 ^ 32) with 4294967296. lia.
  - exists (header_bytes k ++ o_kernel_bin o). split; [by apply codec_decodes|by apply module_of_build].
Qed.

(** ** Any disk *)

Lemma put_inv n mem a v mem' :
  0 ≤ a → a + Z.of_nat n ≤ len mem → pack_into n mem a v = Ok mem' →
  fits n v = true ∧ mem' = write mem a (le_bytes n v).
Proof.
  intros ?? H. assert (fits n v = true) as Hf.
  { unfold pack_into, pack_le in H. by destruct (fits n v). }
  split; [done|]. rewrite put_ok in H by done. by injection H.
Qed.

Lemma runs_put n mem a v (Q : bytes → Prop) :
  0 ≤ a → a + Z.of_nat n ≤ len mem → (fits n v = true → Q (write mem a (le_bytes n v))) →
  runs (pack_into n mem a v) Q (λ _, True).
Proof.
  intros ?? HQ. unfold pack_into, pack_le. destruct (fits n v) eqn:Hf; [|done].
  cbn [mbind res_bind]. rewrite struct_offset_ok by done. cbn [mbind res_bind runs].
  unfold write in HQ. rewrite length_le_bytes in HQ. by apply HQ.
Qed.

(** A field that is not written keeps its value, whatever the bytes. *)
Lemma unpack_frame n mem mem' o :
  len mem' = len mem → 0 ≤ o → o + Z.of_nat n ≤ len mem →
  (∀ d, len d = Z.of_nat n → has mem o d → has mem' o d) → unpack_le n mem' o = unpack_le n mem o.
Proof.
  intros Hl ?? Hf. rewrite !unpack_le_ok by lia. f_equal. f_equal.
  apply has_slice; [apply Hf; [|apply has_intro; lia]|]; rewrite length_slice by lia; lia.
Qed.

(** The packet is filled in, or a field does not fit. *)
Lemma fill_dap_any mem bx count :
  DAP + 16 ≤ len mem →
  runs (fill_dap mem bx count) (λ mem', frame DAP (DAP + 16) mem mem' ∧
    ∃ base, u32 mem (ARG + 4) = Ok base ∧ dap_asks mem' count (base + bx) (0x2000 + 32 * bx) ∧
      fits 2 count = true ∧ fits 2 (0x2000 + 32 * bx) = true ∧ fits 4 (base + bx) = true) (λ _, True).
Proof.
  intros Hlen. unfold fill_dap. cbv zeta.
  change DAP with 0x7E00 in *. change (ARG + Q "QIZO_ARG_LBA") with (ARG + 4). change ARG with 0x7DD0.
  change LY.STAGE2 with 0x20000. change LY.SECTOR with 512. rewrite dap_offset, dap_segment. rewrite put_u8_ok by (lia || reflexivity). ok_step.
  name_put. apply runs_bind. apply runs_put; [lia|lia|intros Hc]. name_put.
  rewrite put_u16_ok by (lia || reflexivity). ok_step. name_put.
  apply runs_bind. apply runs_put; [lia|lia|intros Hs]. name_put. unfold u32 at 1.
  rewrite (unpack_frame 4 mem) by first [lia | intros; mem_solve].
  destruct (unpack_le 4 mem (0x7DD0 + 4)) as [lba|e|] eqn:Hlba;
    [|exact I|pose proof (returns_unpack 4 mem (0x7DD0 + 4)) as Hr; by rewrite Hlba in Hr].
  ok_step. apply runs_bind. apply runs_put; [lia|lia|intros Hl]. name_put.
  apply runs_put; [lia|lia|intros _]. name_put.
  split; [frame_solve|]. exists lba. split; [exact Hlba|]. split; [|done]. split; change DAP with 0x7E00; mem_solve.
Qed.

Lemma runs_exit_if {A} c msg (m : res A) Q :
  (c = false → runs m Q (λ _, True)) → runs (exit_if c msg ≫= λ _, m) Q (λ _, True).
Proof. destruct c; [done|]. intros H. by apply H. Qed.

Lemma int13_any mem disk count lba seg :
  dap_asks mem count lba seg → fits 2 count = true → fits 2 seg = true → fits 4 lba = true →
  runs (int13_read mem disk DAP) (λ r, r.1.1 = count ∧ r.1.2 = seg * 16 ∧ 1 ≤ count ≤ 127 ∧
    (lba + count) * 512 ≤ len disk ∧
    ∃ src, len src = count * 512 ∧ r.2 = write mem (seg * 16) src) (λ _, True).
Proof.
  intros [H0 H2 H4 H6 H8] Hc Hs Hl. unfold int13_read, u16, u32.
  apply runs_exit_if; intros _. rewrite (has_u8 _ _ _ H0). ok_step. apply runs_exit_if; intros _.
  rewrite (has_unpack _ _ _ _ H2), (has_unpack _ _ _ _ H4), (has_unpack _ _ _ _ H6), (has_unpack _ _ _ _ H8)
    by (assumption || reflexivity).
  ok_step. apply runs_exit_if; intros _. apply runs_exit_if; intros Hcnt.
  apply runs_exit_if; intros Hsrc. change LY.SECTOR with 512 in *. rewrite Z.add_0_r.
  apply orb_false_iff in Hcnt as [Hz%Z.eqb_neq Hmax%Z.ltb_ge]. apply negb_false_iff, Z.eqb_eq in Hsrc.
  apply fits_spec in Hc, Hl. cbn [runs fst snd]. split_and!; [done|done|lia|lia| |by eexists].
  assert (0 ≤ lba * 512) as Hl0 by lia. pose proof (length_slice_max disk (lba * 512) (lba * 512 + count * 512) Hl0). lia.
Qed.

(** One round of the loop reads the next sectors, 64 at most, into the area
    that ends with the blob; the disk has them. *)
Lemma read_chunk_any disk total mem0 bx mem :
  len mem0 = mem_size → 0 ≤ bx ≤ 256 → only_loads bx mem0 mem →
  runs (read_chunk disk total (bx, mem))
    (step_to (λ s, bx < s.1 ≤ 256 ∧ s.1 ≤ total ∧ only_loads s.1 mem0 s.2 ∧
      ∃ base, u32 mem0 (ARG + 4) = Ok base ∧ 0 ≤ base + bx ∧ (base + s.1) * 512 ≤ len disk) (λ _, False)) (λ _, True).
Proof.
  intros Hsz Hbx [Hl Hf]. assert (len mem0 = 67108864) as Hsz' by exact Hsz. unfold read_chunk.
  set (n := Z.min 64 (total - bx)). apply runs_bind.
  eapply runs_mono; [apply fill_dap_any; change DAP with 32256; lia| |done].
  intros mem1 ([Hl1 Hf1] & base & Hbase & Hd & Hcf & Hsf & Hlf). apply runs_bind.
  eapply runs_mono; [by apply (int13_any mem1 disk n (base + bx))| |done].
  intros [[n' dest] mem2] (Hn' & Hdest & Hn & Hroom & src & Hsrc & Hmem2). cbn [fst snd] in *. subst n' dest mem2.
  change (LY.BLOB_PHYS + LY.BLOB_MAX) with 262144. change LY.SECTOR with 512.
  apply runs_exit_if; intros Hend%Z.ltb_ge. cbn [runs step_to fst snd]. split; [lia|]. split; [lia|].
  apply fits_spec in Hlf. split; [|exists base; split; [|lia]]; change LY.STAGE2 with 131072 in *.
  - split; [apply Nat2Z.inj; rewrite length_write by lia; lia|].
    change LY.STAGE2 with 131072. intros o d Ho1 Ho2 Hod. apply has_keep; [lia|lia|lia|].
    apply Hf1; [done|]. apply Hf; [done|lia|done].
  - rewrite <-Hbase. unfold u32. symmetry. change ARG with 32208. change DAP with 32256 in *.
    apply unpack_frame; [lia..|]. intros d Hdl Hd0. apply Hf; [lia|lia|done].
Qed.

Lemma stage1_any mem disk drive :
  len mem = mem_size →
  runs (stage1 mem disk drive) (λ r, 0 ≤ r.1 ≤ LY.BLOB_PHYS + LY.BLOB_MAX - LY.STAGE2 ∧ len r.2 = mem_size ∧
    ∀ o d, o + len d ≤ 0x7C00 ∨ DAP + 16 ≤ o → o + len d ≤ LY.STAGE2 ∨ LY.BLOB_PHYS + LY.BLOB_MAX ≤ o →
      has mem o d → has r.2 o d) (λ _, True).
Proof.
  intros Hsz. assert (len mem = 67108864) as Hsz' by exact Hsz. unfold stage1.
  change (ARG + Q "QIZO_ARG_DRIVE") with 32208. set (first := slice disk 0 512).
  assert (len first ≤ 512) as Hfl.
  { unfold first, slice, clamp. case_bool; list_lia. }
  assert (len (write mem 0x7C00 first) = len mem) as H1 by (apply length_write; lia).
  remember (write mem 0x7C00 first) as mem1 eqn:E1. unfold put_u8.
  assert (is_byte (Z.land drive 0xFF) = true) as Hd.
  { apply is_byte_spec. change 0xFF with (Z.ones 8). rewrite Z.land_ones by lia. by apply Z.mod_pos_bound. }
  rewrite bset_ok by (lia || assumption). ok_step.
  assert (slice_set mem1 32208 (32208 + 1) [Z.land drive 0xFF] = write mem1 32208 [Z.land drive 0xFF]) as -> by reflexivity.
  assert (len (write mem1 32208 [Z.land drive 0xFF]) = len mem1) as H2 by (apply length_write; wlen).
  remember (write mem1 32208 _) as mem2 eqn:E2.
  apply runs_bind_returns; [apply returns_unpack|intros total]. apply runs_bind.
  eapply runs_mono.
  - apply (runs_while (λ s, 0 ≤ s.1 ≤ 256 ∧ only_loads s.1 mem2 s.2)
      (λ s, 0 ≤ s.1 ≤ 256 ∧ only_loads s.1 mem2 s.2) _ (λ s, Z.to_nat (total - s.1))).
    + intros [bx m] [Hb Ho] Hlt%Z.ltb_lt. cbn [fst snd] in *.
      eapply runs_mono; [apply (read_chunk_any disk total mem2); [lia|done|done]| |done].
      intros [[bx' m']|s]; [|done]. cbn [step_to fst snd]. intros (? & _ & ? & _). split; [split; [lia|done]|lia].
    + done.
    + split; [done|by split].
    + cbn [fst]. lia.
  - intros [bx m] [Hb [Hl Hf]]. cbn [runs fst snd] in *.
    change LY.SECTOR with 512. change LY.BLOB_PHYS with 135168. change LY.BLOB_MAX with 126976.
    change LY.STAGE2 with 131072 in *. change DAP with 32256 in *. split_and!; [lia|lia|unfold mem_size; lia|].
    intros o d Ho1 Ho2 Hod. apply Hf; [lia|lia|]. rewrite E2. apply has_keep; [lia|wlen|cbn [length]; lia|].
    rewrite E1. apply has_keep; [lia|lia|lia|exact Hod].
  - done.
Qed.

Lemma returns_put n mem a v : returns (pack_into n mem a v).
Proof. unfold pack_into, pack_le, struct_offset. by repeat case_match. Qed.
Lemma returns_put_u8 mem a v : returns (put_u8 mem a v).
Proof. unfold put_u8, bset. by repeat case_match. Qed.

(** [returns_solve] for the operations of this file. *)
Ltac boot_returns :=
  repeat match goal with
  | |- returns (_ ≫= _) => apply returns_bind; [|intros ?]
  | |- returns (pack_into _ _ _ _) => apply returns_put
  | |- returns (put_u8 _ _ _) => apply returns_put_u8
  | |- returns (unpack_le _ _ _) => apply returns_unpack
  | |- returns (bget _ _) => apply returns_bget
  | |- returns (decompress _) => apply decompress_returns
  | |- returns (exit_if ?c _) => unfold exit_if, raise_if; destruct c; exact I
  | |- returns (if ?c then _ else _) => destruct c
  | |- returns (match ?c with _ => _ end) => destruct c
  | |- returns (Ok _) => exact I
  | |- returns (Raise _) => exact I
  end.

Lemma returns_stage2_real mem : returns (stage2_real mem).
Proof. unfold stage2_real, put_u16, put_u32, u8, u16, u32. cbv zeta. boot_returns. Qed.

Lemma returns_copy_offset src : returns (copy_offset src).
Proof. unfold copy_offset, or_raise. repeat (apply returns_bind; [|intros ?]); by repeat case_match. Qed.

Lemma returns_stage2_pm32 src mem : returns (stage2_pm32 src mem).
Proof.
  unfold stage2_pm32, u32, raise_if. cbv zeta.
  boot_returns. apply returns_copy_offset.
Qed.

Lemma returns_check_regions rs : returns (check_regions rs).
Proof. apply returns_for_each. intros [a c] _. boot_returns. Qed.

(** ** Theorems *)


(** The lines of [boot/stage2.S] around the one [copy_offset] looks for. *)
Definition ex_stage2_S : string := "	movl QIZO_BOOTINFO + QIZO_BI_SCRATCH, %esi
	addl $QIZO_QIZOK_HDR, %esi
	movl QIZO_BOOTINFO + QIZO_BI_KTEXT, %edi
".




(** The model of the boot ends on every input, with the memory and its
    report or with an error. *)
Theorem boot_returns disk kernel src : returns (main disk kernel src).
Proof.
  unfold main. apply runs_bind. eapply runs_mono; [apply stage1_any, length_Mem| |done].
  intros [sectors mem] _. match goal with |- runs ?m _ _ => change (returns m) end.
  unfold first_diff, or_raise, u8. boot_returns;
    [apply returns_stage2_real|apply returns_stage2_pm32|apply returns_check_regions].
Qed.

End BM.
