(* ===== verification/BootExact.v ===== *)
(** * Which disks boot: [tools/qizocheck/qizobootmodel.py], on every disk

    The model of the boot succeeds exactly on the disks that the abstract
    description [BM.bootable] describes: the arguments in the first sector, the
    blob they lead to, its checksum, the module in it.  With the soundness of the
    image check this says which of the images that [qizocheck] accepts boot. *)

From S2P Require Export BootModel CheckSound.

Module BE.
Import BM.

(** ** The first stage, backwards *)

(** The first sector in memory, behind the drive number. *)
Lemma first_sector mem disk mem2 :
  len mem = mem_size → put_u8 (write mem 0x7C00 (slice disk 0 512)) ARG 0x80 = Ok mem2 →
  len mem2 = mem_size ∧
  (512 ≤ len disk → ∀ n o, 465 ≤ o → o + Z.of_nat n ≤ 512 → unpack_le n mem2 (0x7C00 + o) = unpack_le n disk o).
Proof.
  intros Hsz. assert (len mem = 67108864) as Hsz' by exact Hsz. set (first := slice disk 0 512).
  assert (len first ≤ 512) as Hfl by (unfold first, slice, clamp; case_bool; list_lia).
  assert (len (write mem 0x7C00 first) = len mem) as H1 by (apply length_write; lia).
  change ARG with 32208. rewrite put_u8_ok by (lia || reflexivity). intros <-%Ok_inj.
  assert (len (write (write mem 0x7C00 first) 32208 [0x80]) = len mem) as H2 by (rewrite length_write; cbn [length]; lia).
  split; [lia|]. intros Hd n o ??. clear Hfl.
  assert (len first = 512) as Hfl by (unfold first; rewrite length_slice; lia).
  rewrite !unpack_le_ok by lia. f_equal. f_equal.
  apply has_slice; [|rewrite length_slice; lia].
  apply has_keep; [lia|cbn [length]; lia|rewrite length_slice by lia; cbn [length]; lia|].
  apply (has_trans _ _ first); [apply has_put; lia|].
  replace (slice disk o (o + Z.of_nat n)) with (slice first o (o + Z.of_nat n)); [apply has_intro; lia|].
  unfold first. rewrite slice_slice by lia. by rewrite !Z.add_0_l.
Qed.

(** The read loop ends with as many sectors as it was told to read; each was on
    the disk. *)
Lemma chunks_inv disk total mem0 bx mem :
  len mem0 = mem_size →
  while (S (Z.to_nat total)) (λ s, s.1 <? total) (read_chunk disk total) (0, mem0) = Ok (bx, mem) → 0 < bx →
  bx = total ∧ bx ≤ 256 ∧ ∃ base, u32 mem0 (ARG + 4) = Ok base ∧ 1 ≤ base + bx ∧ (base + bx) * 512 ≤ len disk.
Proof.
  intros Hsz H. revert H.
  set (read := λ s : Z * bytes, 0 < s.1 → s.1 ≤ total ∧
    ∃ base, u32 mem0 (ARG + 4) = Ok base ∧ 1 ≤ base + s.1 ∧ (base + s.1) * 512 ≤ len disk).
  intros H. cut ((0 ≤ bx ≤ 256 ∧ only_loads bx mem0 mem ∧ read (bx, mem)) ∧ total ≤ bx).
  { unfold read. cbn [fst]. intros [(? & _ & Hrd) ?] Hpos. destruct (Hrd Hpos) as [? Hb].
    split; [lia|]. split; [lia|exact Hb]. }
  revert H. apply (while_Ok_inv (λ s, 0 ≤ s.1 ≤ 256 ∧ only_loads s.1 mem0 s.2 ∧ read s)
    (λ s, (0 ≤ s.1 ≤ 256 ∧ only_loads s.1 mem0 s.2 ∧ read s) ∧ total ≤ s.1)).
  - intros [bx' m] c (Hb & Ho & _) _ Hc. cbn [fst snd] in *.
    pose proof (runs_Ok_inv _ _ _ _ Hc (read_chunk_any disk total mem0 bx' m Hsz Hb Ho)) as Hstep.
    destruct c as [[bx2 m2]|?]; [|done]. cbn [step_to fst snd] in *.
    destruct Hstep as (? & ? & Ho2 & base & Hbase & ? & ?). split; [lia|]. split; [exact Ho2|].
    intros _. cbn [fst]. split; [lia|]. exists base. split; [exact Hbase|lia].
  - intros s Hs Hc%Z.ltb_ge. split; [exact Hs|exact Hc].
  - split; [cbn; lia|]. split; [by split|]. intros Hlt. cbn [fst] in Hlt. lia.
Qed.

(** When it has read more than the second stage, the arguments on the disk
    describe what it has read. *)
Lemma stage1_inv mem disk r mem' :
  len mem = mem_size → Bytes disk → stage1 mem disk 0x80 = Ok (r, mem') → LY.STAGE2_BYTES < r →
  ∃ lba total, r = total * 512 ∧ has disk 468 (le_bytes 4 lba) ∧ 0 ≤ lba ∧ has disk 472 (le_bytes 2 total) ∧
    STAGE2_SECTORS < total ≤ 256 ∧ (lba + total) * 512 ≤ len disk.
Proof.
  intros Hsz Hb H Hr. unfold stage1 in H. change (ARG + Q "QIZO_ARG_DRIVE") with ARG in H.
  change (ARG + Q "QIZO_ARG_TOTAL") with (0x7C00 + 472) in H.
  apply bind_Ok in H as (mem2 & Hm2 & H). apply bind_Ok in H as (total & Htotal & H).
  apply bind_Ok in H as ([bx m] & Hloop & H). apply Ok_inj in H. injection H as Hrb _. cbn [fst] in Hrb.
  change LY.SECTOR with 512 in Hrb. change LY.STAGE2_BYTES with 4096 in Hr.
  destruct (first_sector _ _ _ Hsz Hm2) as [Hl2 Hargs].
  destruct (chunks_inv _ _ _ _ _ Hl2 Hloop ltac:(lia)) as (-> & Hmax & base & Hbase & Hpos & Hroom).
  assert (512 ≤ len disk) as Hlen by lia. change (ARG + 4) with (0x7C00 + 468) in Hbase.
  unfold u32, u16 in *. rewrite (Hargs Hlen) in Hbase, Htotal by lia.
  destruct (unpack_has 4 disk 468 base Hb ltac:(lia) Hbase) as [Hlba ?].
  destruct (unpack_has 2 disk 472 total Hb ltac:(lia) Htotal) as [Htot ?].
  exists base, total. change STAGE2_SECTORS with 8. split_and!; try assumption; lia.
Qed.

(** ** The second stage, backwards *)

Lemma slice_empty (l : bytes) i j : 0 ≤ j ≤ i → slice l i j = [].
Proof. intros. apply nil_length_inv. unfold slice, clamp. case_bool; list_lia. Qed.

Lemma exit_if_Ok c msg u : exit_if c msg = Ok u → c = false.
Proof. by destruct c. Qed.

(** When it ends with a kernel in place, its blob unpacks to a module with that
    kernel, and has the checksum the boot information says. *)
Lemma stage2_pm32_inv src mem blob crc klen entry total mem' :
  len mem = mem_size → Bytes blob → len blob < 4294967296 → has mem LY.BLOB_PHYS blob →
  has mem (BIA + LY.value_of "QIZO_BI_BLOB_SIZE") (le_bytes 4 (len blob)) →
  has mem (BIA + LY.value_of "QIZO_BI_BLOB_CRC") (le_bytes 4 crc) → fits 4 crc = true →
  copy_offset src = Ok 64 → stage2_pm32 src mem = Ok (klen, entry, total, mem') →
  read mem' LY.KTEXT klen ≠ [] →
  crc = checksum blob ∧ ∃ out, decompress blob = Ok out ∧ module_of out klen entry total (read mem' LY.KTEXT klen).
Proof.
  intros Hsz Hb Hbl Hblob Hsize Hcrc Hcf Hoff H Hne. unfold stage2_pm32 in H. cbv zeta in H. unfold Q, u32 in H.
  rewrite (has_unpack _ _ 4 _ Hsize), (has_unpack _ _ 4 _ Hcrc) in H by first [assumption | apply fits_4; lia].
  rewrite !bind_of_Ok in H. cbv beta in H.
  assert (read mem LY.BLOB_PHYS (len blob) = blob) as Hrd by by apply (has_slice _ _ _ _ Hblob).
  rewrite Hrd in H. apply bind_Ok in H as (u & Hck & H). apply exit_if_Ok in Hck.
  apply negb_false_iff, Z.eqb_eq in Hck. apply bind_Ok in H as (out & Hout & H).
  pose proof (runs_Ok_inv _ _ _ _ Hout (decompress_runs blob Hb)) as Hob.
  change LY.SCRATCH with 1572864 in H. change LY.KTEXT with 1048576 in *. change LY.KERNEL_MAX with 524288 in H.
  change LY.QIZOK_HDR with 64 in H. assert (len mem = 67108864) as Hsz' by exact Hsz.
  remember (write mem 1572864 out) as mem1 eqn:E1. remember (read mem1 1572864 16) as hdr eqn:Eh.
  apply bind_Ok in H as (u2 & _ & H).
  apply bind_Ok in H as (magic & H0 & H). apply bind_Ok in H as (klen' & H4 & H).
  apply bind_Ok in H as (entry' & H8 & H). apply bind_Ok in H as (total' & H12 & H).
  apply bind_Ok in H as (u3 & Hm & H). apply exit_if_Ok, negb_false_iff, Z.eqb_eq in Hm.
  apply bind_Ok in H as (u4 & Hr & H). apply exit_if_Ok in Hr.
  apply orb_false_iff in Hr as [[Hr1%Z.ltb_ge Hr2%Z.ltb_ge]%orb_false_iff Hr3%Z.leb_gt].
  apply bind_Ok in H as (u5 & Hlen & H). apply exit_if_Ok, negb_false_iff, Z.eqb_eq in Hlen.
  rewrite Hoff, bind_of_Ok in H. cbv beta in H.
  remember (read mem1 (1572864 + 64) klen') as image eqn:Ei.
  remember (write mem1 1048576 image) as mem2 eqn:E2.
  apply Ok_inj in H. injection H as -> -> -> E3.
  assert (1 ≤ klen) as Hk1.
  { destruct (Z.le_gt_cases klen 0); [|lia]. exfalso. apply Hne. unfold read. apply slice_empty; lia. }
  split; [done|]. exists out. split; [exact Hout|].
  assert (has mem1 1572864 out) as Hw by (rewrite E1; apply has_put; lia).
  assert (len mem1 = len mem) as Hl1 by (rewrite E1; apply length_write; lia).
  assert (image = slice out 64 (64 + klen)) as Himg.
  { rewrite Ei. pose proof (has_sub _ _ _ 64 (64 + klen) Hw ltac:(lia) ltac:(lia)) as Hh.
    apply (has_slice _ _ _ _ Hh). rewrite length_slice by lia. lia. }
  assert (len image = klen) as Hil by (rewrite Himg, length_slice by lia; lia).
  assert (hdr = slice out 0 16) as Hhdr.
  { rewrite Eh. pose proof (has_sub _ _ _ 0 16 Hw ltac:(lia) ltac:(lia)) as Hh. rewrite Z.add_0_r in Hh.
    apply (has_slice _ _ _ _ Hh). rewrite length_slice by lia. lia. }
  assert (read mem' 1048576 klen = image) as ->.
  { apply has_slice; [|lia]. rewrite <-E3. apply has_keep; [lia| |lia|].
    - rewrite E2, length_write by lia. list_lia.
    - rewrite E2. apply has_put; lia. }
  rewrite Hhdr in H0, H4, H8, H12.
  assert (∀ o v, 0 ≤ o → unpack_le 4 (slice out 0 16) o = Ok v → unpack_le 4 out o = Ok v) as Hu.
  { intros o v ? Hu. rewrite <-(Z.add_0_l o). apply (unpack_slice_Ok 4 out 0 16); [lia..|exact Hu]. }
  apply Hu in H0, H4, H8, H12; [|lia..]. pose proof (unpack_nonneg 4 out 8 entry Hob ltac:(lia) H8).
  split; try assumption; change LY.QIZOK_HDR with 64; change LY.KERNEL_MAX with 524288; [congruence|lia|done|lia].
Qed.

(** ** The whole run *)

(** The model of the boot succeeds exactly on the disks that can be booted. *)
Lemma boot_iff disk kernel src :
  Bytes disk → len disk < 2 ^ 41 → copy_offset src = Ok 64 →
  (∃ r, main disk kernel src = Ok r) ↔
  ∃ lba total blob klen entry ktotal, bootable disk lba total blob klen entry ktotal kernel.
Proof.
  intros Hb Hmax Hoff. change (2 ^ 41) with 2199023255552 in Hmax. split.
  2: { intros (lba & total & blob & klen & entry & ktotal & Hbb).
       destruct (boot_bootable _ _ _ _ _ _ _ _ src Hbb Hoff) as (mem & lines & H & _). exists (mem, lines). exact H. }
  intros [res H]. unfold main in H. apply bind_Ok in H as ([r mem1] & H1 & H).
  apply bind_Ok in H as (u & Hr%exit_if_Ok%Z.leb_gt & H). apply bind_Ok in H as (mem2 & H2 & H).
  apply bind_Ok in H as ([[[klen entry] ktotal] mem3] & H3 & H). cbv zeta in H.
  apply bind_Ok in H as (u2 & Hgot & H). destruct (bool_decide (_ ≠ kernel)) eqn:Hk.
  { apply bind_Ok in Hgot as (? & _ & ?). done. }
  apply bool_decide_eq_false, dec_stable in Hk. apply bind_Ok in H as (x & _ & H). apply bind_Ok in H as (y & Hy & _).
  destruct (stage1_inv _ _ _ _ length_Mem Hb H1 Hr) as (lba & total & -> & Hlba & Hl0 & Htotal & Hrange & Hroom).
  change STAGE2_SECTORS with 8 in Hrange.
  set (blob := slice disk ((lba + 8) * 512) ((lba + total) * 512)).
  assert (has disk ((lba + 8) * 512) blob) as Hblob by (apply has_intro; lia).
  assert (len blob = (total - 8) * 512) as Hbl by (unfold blob; rewrite length_slice; lia).
  destruct (unpack_has 4 disk 476 _ Hb ltac:(lia) (unpack_le_ok 4 disk 476 ltac:(lia) ltac:(lia))) as [Hcrc Hcr].
  set (crc := le_val _) in *.
  assert (described disk lba total crc blob) as Hds.
  { split; try assumption; change STAGE2_SECTORS with 8; [by split| |].
    - split; [assumption|]. apply fits_4. exact Hcr.
    - change (2 ^ 32) with 4294967296. lia. }
  destruct (boot_front _ _ _ _ _ Hds) as (mem1' & mem2' & H1' & _ & H2' & Hl2 & Hblob2 & Hho).
  rewrite H1 in H1'. apply Ok_inj in H1'. injection H1' as <-. rewrite H2 in H2'. apply Ok_inj in H2' as <-.
  pose proof (ho_size _ _ _ _ _ Hho) as Hsize. change LY.STAGE2_BYTES with 4096 in Hsize.
  replace (total * 512 - 4096) with (len blob) in Hsize by lia.
  assert (kernel ≠ []) as Hne by (intros ->; done).
  destruct (stage2_pm32_inv src mem2 blob crc klen entry ktotal mem3) as (Hck & Hmod);
    [assumption|by apply slice_Bytes|lia|assumption|assumption|apply (ho_crc _ _ _ _ _ Hho)| |assumption|assumption| |].
  { apply (ds_crc _ _ _ _ _ Hds). }
  { by rewrite Hk. }
  rewrite Hk in Hmod. rewrite Hck in Hds. exists lba, total, blob, klen, entry, ktotal. split; assumption.
Qed.

(** A described blob is the one in the accepted image. *)
Lemma described_accepted img total blob out klen entry mtotal kernel lba' total' crc' blob' :
  accepted img total blob out klen entry mtotal kernel → described img lba' total' crc' blob' →
  lba' = PART_LBA ∧ total' = total ∧ blob' = blob.
Proof.
  intros Ha [[Hl ?] Ht _ Hr [Hroom H32] Hb Hlen]. change (2 ^ 32) with 4294967296 in *. change STAGE2_SECTORS with 8 in *.
  assert (∀ n o v v', has img o (le_bytes n v) → has img o (le_bytes n v') → fits n v = true → fits n v' = true → v = v') as Hinj.
  { intros n o v v' H1 H2 F1 F2. pose proof (has_unpack _ _ _ _ H1 F1) as E. rewrite (has_unpack _ _ _ _ H2 F2) in E.
    by apply Ok_inj in E. }
  assert (lba' = PART_LBA) as ->.
  { apply (Hinj 4%nat 468); [assumption|apply (ac_lba _ _ _ _ _ _ _ _ Ha)|apply fits_4; lia|done]. }
  pose proof (ac_room _ _ _ _ _ _ _ _ Ha) as Hro. pose proof (ac_len _ _ _ _ _ _ _ _ Ha) as Hlen'.
  pose proof (ac_range _ _ _ _ _ _ _ _ Ha) as Hra. change STAGE2_SECTORS with 8 in *. change SECTOR with 512 in *.
  change LY.BLOB_PHYS with 135168 in Hro. change LY.E820_BUF with 266240 in Hro.
  assert (total' = total) as ->.
  { apply (Hinj 2%nat 472); [assumption|apply (ac_total _ _ _ _ _ _ _ _ Ha)|apply fits_2; lia|apply fits_2; lia]. }
  split; [done|]. split; [done|].
  pose proof (ac_blob _ _ _ _ _ _ _ _ Ha) as Hb'. change (BLOB_LBA * SECTOR) with ((PART_LBA + 8) * 512) in Hb'.
  rewrite <-(has_slice _ _ _ _ Hb eq_refl). rewrite Hlen, <-Hlen'. apply (has_slice _ _ _ _ Hb' eq_refl).
Qed.

Lemma accepted_iff img total blob out klen entry mtotal kernel src :
  Bytes img → len img < 2 ^ 41 → accepted img total blob out klen entry mtotal kernel → copy_offset src = Ok 64 →
  (∃ r, main img kernel src = Ok r) ↔ decompress blob = Ok out ∧ total ≤ 256.
Proof.
  intros Hb Hmax Ha Hoff. rewrite boot_iff by assumption. split.
  - intros (lba' & total' & blob' & klen' & entry' & mtotal' & [Hds (out' & Hdec & _)]).
    destruct (described_accepted _ _ _ _ _ _ _ _ _ _ _ _ Ha Hds) as (-> & -> & ->).
    split; [|apply (ds_range _ _ _ _ _ Hds)].
    destruct (ac_unpacked _ _ _ _ _ _ _ _ Ha) as [|(Hz & _)]; [assumption|].
    unfold decompress in Hdec. rewrite Hz, bind_of_Ok in Hdec. apply bind_Ok in Hdec as (? & _ & Hdec). done.
  - intros [Hdec Ht]. pose proof (ac_range _ _ _ _ _ _ _ _ Ha) as Hra.
    exists PART_LBA, total, blob, klen, entry, mtotal. split; [|exists out; split; [assumption|apply Ha]].
    pose proof (ac_blob _ _ _ _ _ _ _ _ Ha) as Hblob. pose proof (ac_len _ _ _ _ _ _ _ _ Ha) as Hlen.
    pose proof Hblob as (? & Hle & _). change (2 ^ 41) with 2199023255552 in Hmax.
    change (BLOB_LBA * SECTOR) with 12288 in *. change SECTOR with 512 in *.
    split; try apply Ha; change PART_LBA with 16; change STAGE2_SECTORS with 8 in *; change (2 ^ 32) with 4294967296.
    + split; [apply (ac_lba _ _ _ _ _ _ _ _ Ha)|lia].
    + split; [apply (ac_crc _ _ _ _ _ _ _ _ Ha)|apply fits_spec, checksum_range].
    + lia.
    + lia.
Qed.

(** ** Theorems *)

(** C5 - The model of the boot succeeds exactly on the disks that can be booted:
    those whose first sector describes, by its address, its length and its
    checksum, a blob on the disk that unpacks to a module with the given kernel.
    When it succeeds, the memory holds that kernel at its load address and the
    boot information describes that blob. *)
Theorem boot_exact disk kernel src :
  Bytes disk → len disk < 2 ^ 41 → copy_offset src = Ok 64 →
  ((∃ r, main disk kernel src = Ok r) ↔
     ∃ lba total blob klen entry ktotal, bootable disk lba total blob klen entry ktotal kernel) ∧
  ∀ mem lines, main disk kernel src = Ok (mem, lines) →
    ∃ lba total blob klen entry ktotal, bootable disk lba total blob klen entry ktotal kernel ∧
      in_place mem ktotal kernel ∧ handoff mem 0x80 lba total (checksum blob).
Proof.
  intros Hb Hmax Hoff. pose proof (boot_iff disk kernel src Hb Hmax Hoff) as Hiff. split; [exact Hiff|].
  intros mem lines H. destruct (proj1 Hiff) as (lba & total & blob & klen & entry & ktotal & Hbb); [exists (mem, lines); exact H|].
  destruct (boot_bootable _ _ _ _ _ _ _ _ src Hbb Hoff) as (mem' & lines' & H' & Hin & Hho).
  rewrite H in H'. apply Ok_inj in H'. injection H' as <- _. exists lba, total, blob, klen, entry, ktotal. split_and!; assumption.
Qed.

(** C4 - Of the images that pass the check exactly those boot whose blob is
    compressed and, with the second stage, at most 256 sectors long.  The check
    also passes blobs of up to 264 sectors, and modules that are not compressed. *)
Theorem accepted_boots a src :
  Bytes (QC.c_image a) → len (QC.c_image a) < 2 ^ 41 → QC.main a = Ok Pass → copy_offset src = Ok 64 →
  ∃ total blob out klen entry mtotal kernel,
    accepted (QC.c_image a) total blob out klen entry mtotal kernel ∧
    ((∃ r, main (QC.c_image a) kernel src = Ok r) ↔ decompress blob = Ok out ∧ total ≤ 256).
Proof.
  intros Hb Hmax Hpass Hoff.
  destruct (check_main_sound a Hb Hpass) as [(total & blob & out & klen & entry & mtotal & kernel & Ha) _].
  exists total, blob, out, klen, entry, mtotal, kernel. split; [exact Ha|].
  exact (accepted_iff _ _ _ _ _ _ _ _ src Hb Hmax Ha Hoff).
Qed.

Lemma boot_exact_witness :
  copy_offset ex_stage2_S = Ok 64 ∧
  ((∃ r, main (QC.c_image ex_check) (o_kernel_bin (ex_options false)) ex_stage2_S = Ok r) ↔
     ∃ lba total blob klen entry ktotal,
       bootable (QC.c_image ex_check) lba total blob klen entry ktotal (o_kernel_bin (ex_options false))).
Proof.
  assert (copy_offset ex_stage2_S = Ok 64) as Hoff by by vm_compute. split; [exact Hoff|].
  exact (proj1 (boot_exact (QC.c_image ex_check) (o_kernel_bin (ex_options false)) ex_stage2_S
    ex_accepted_Bytes ex_accepted_small Hoff)).
Defined.

Lemma accepted_boots_witness :
  copy_offset ex_stage2_S = Ok 64 ∧ QC.main ex_check = Ok Pass ∧
  ∃ total blob out klen entry mtotal kernel,
    accepted (QC.c_image ex_check) total blob out klen entry mtotal kernel ∧
    ((∃ r, main (QC.c_image ex_check) kernel ex_stage2_S = Ok r) ↔ decompress blob = Ok out ∧ total ≤ 256).
Proof.
  assert (copy_offset ex_stage2_S = Ok 64) as Hoff by by vm_compute.
  split; [exact Hoff|]. split; [exact ex_accepted_passes|].
  exact (accepted_boots ex_check ex_stage2_S ex_accepted_Bytes ex_accepted_small ex_accepted_passes Hoff).
Defined.

End BE.
