(* ===== verification/Regex.v ===== *)
(** * The patterns of the tools: a semantics of [re]

    The tools read the layout file, the assembly sources and the linker script
    with regular expressions; the models of those readers ([LY.match_set],
    [QT.section_here], [QT.placed_here], [BM.copy_offset]) are written without
    them.  This file defines what a pattern matches, with the order in which the
    backtracking matcher of [re] tries the ways to match, and shows that the
    readers are the patterns of the sources. *)

From S2P Require Export BootModel Tests BootInfo.

#[local] Arguments String.append : simpl nomatch.

Module RE.

(** ** Patterns *)

(** A pattern over single character classes, which is all the tools use. *)
Inductive re :=
  | Lit (l : string)                                          (* the text [l] *)
  | Rep (greedy : bool) (least : nat) (p : ascii → bool)        (* [p*], [p+], [p+?] *)
  | Seq (r1 r2 : re)
  | Cap (r : re)                                              (* a group *)
  | Bol (multi : bool)                                        (* [^], with [re.M] or not *)
  | Eol.                                                      (* [$] *)

(** A position in a text: the character before it, if any, and the rest. *)
Abbreviation pos := (option ascii * string)%type.

(** A way to match: the text, the position behind it, the groups. *)
Abbreviation outcome := (string * pos * list string)%type.

(** The character before what follows [u]. *)
Fixpoint last_char (prev : option ascii) (u : string) : option ascii :=
  match u with EmptyString => prev | String c u => last_char (Some c) u end.

(** The prefixes of [s] in the class [p], the shortest first. *)
Fixpoint splits (p : ascii → bool) (prev : option ascii) (s : string) : list (string * pos) :=
  (EmptyString, (prev, s)) ::
  match s with
  | String c s' => if p c then (λ x, (String c x.1, x.2)) <$> splits p (Some c) s' else []
  | EmptyString => []
  end.

(** The ways to match at a position, in the order they are tried. *)
Fixpoint results (r : re) (q : pos) : list outcome :=
  match r with
  | Lit l => match after l q.2 with Some s => [(l, (last_char q.1 l, s), [])] | None => [] end
  | Rep greedy least p =>
      let ways := drop least (splits p q.1 q.2) in
      (λ x, (x.1, x.2, [])) <$> (if greedy then rev ways else ways)
  | Seq r1 r2 =>
      results r1 q ≫= λ x,
        (λ y : outcome, ((x.1.1 +:+ y.1.1)%string, y.1.2, x.2 ++ y.2)) <$> results r2 x.1.2
  | Cap r => (λ x : outcome, (x.1, x.1.1 :: x.2)) <$> results r q
  | Bol multi =>
      match q.1 with
      | None => [(EmptyString, q, [])]
      | Some c => if multi && (c =? NL)%char then [(EmptyString, q, [])] else []
      end
  | Eol => if bool_decide (q.2 = EmptyString ∨ q.2 = String NL EmptyString) then [(EmptyString, q, [])] else []
  end.

(** The first way, which is the one [re] takes. *)
Definition first (r : re) (q : pos) : option outcome := head (results r q).

(** [re.match]: the groups *)
Definition re_match (r : re) (s : string) : option (list string) := snd <$> first r (None, s).

(** [re.search]: the groups of the leftmost match *)
Fixpoint search_at (r : re) (prev : option ascii) (s : string) : option (list string) :=
  match first r (prev, s) with
  | Some x => Some x.2
  | None => match s with String c s => search_at r (Some c) s | EmptyString => None end
  end.
Definition re_search (r : re) (s : string) : option (list string) := search_at r None s.

(** [re.findall] for a pattern with one group that does not match the empty text *)
Fixpoint findall_at (fuel : nat) (r : re) (prev : option ascii) (s : string) : list string :=
  match fuel with
  | O => []
  | S fuel =>
      match first r (prev, s) with
      | Some (_, (prev, s), groups) => default EmptyString (head groups) :: findall_at fuel r prev s
      | None => match s with EmptyString => [] | String c s => findall_at fuel r (Some c) s end
      end
  end.
Definition re_findall (r : re) (s : string) : list string := findall_at (S (String.length s)) r None s.

(** ** The patterns of the tools *)

Definition not_nl (c : ascii) : bool := negb (c =? NL)%char.
Definition not_char (d c : ascii) : bool := negb (c =? d)%char.

#[local] Infix "⨾" := Seq (at level 60, right associativity).

Definition blanks : re := Rep true 0 is_space.
Definition blanks1 : re := Rep true 1 is_space.
Definition word1 : re := Rep true 1 is_word.

(** [^\s*\.set\s+(\w+)\s*,\s*(.+?)\s*$] *)
Definition SET : re :=
  Bol false ⨾ blanks ⨾ Lit ".set" ⨾ blanks1 ⨾ Cap word1 ⨾ blanks ⨾ Lit "," ⨾ blanks ⨾
  Cap (Rep false 1 not_nl) ⨾ blanks ⨾ Eol.

(** [\.section\s+(\.qizo_[A-Za-z0-9_]+)] *)
Definition SECTION : re := Lit ".section" ⨾ blanks1 ⨾ Cap (Lit ".qizo_" ⨾ word1).

(** [^\s*(\.qizo_[A-Za-z0-9_]+)\s*:\s*\{] *)
Definition PLACED : re :=
  Bol true ⨾ blanks ⨾ Cap (Lit ".qizo_" ⨾ word1) ⨾ blanks ⨾ Lit ":" ⨾ blanks ⨾ Lit "{".

(** The two patterns of the line that takes the kernel image, up to the first
    bracket and up to the first comma. *)
Definition COPY : re := Lit "addl $(" ⨾ Cap (Rep true 0 (not_char ")")) ⨾ Lit "), %esi".
Definition COPY_HDR : re := Lit "addl $" ⨾ Cap (Lit "QIZO_QIZOK_HDR" ⨾ Rep true 0 (not_char ",")) ⨾ Lit ", %esi".

(** ** Repetitions *)

Lemma splits_span p prev s :
  let '(u, v) := str_span p s in
  ∃ init, splits p prev s = init ++ [(u, (last_char prev u, v))] ∧ length init = String.length u ∧
    Forall (λ x : string * pos, ∃ c t, p c = true ∧ x.2.2 = String c t) init.
Proof.
  revert prev. induction s as [|c s IH]; intros prev; cbn [str_span splits]; [by exists []|].
  destruct (p c) eqn:Hc; [|by exists []]. destruct (str_span p s) as [u v].
  destruct (IH (Some c)) as (init & -> & Hl & Hf). exists ((EmptyString, (prev, String c s)) :: ((λ x, (String c x.1, x.2)) <$> init)).
  rewrite fmap_app. split; [done|]. split; [cbn [length String.length]; by rewrite length_fmap, Hl|].
  constructor; [by exists c, s|]. apply Forall_fmap. exact Hf.
Qed.

(** When what follows does not start in the class, only the longest run counts. *)
Lemma bind_last {A B} (f : A → list B) init x m :
  Forall (λ y, f y = []) init →
  rev (drop m (init ++ [x])) ≫= f = if bool_decide (m ≤ length init)%nat then f x else [].
Proof.
  intros Hf. case_bool_decide.
  - rewrite drop_app_le, rev_unit by done. cbn [mbind list_bind].
    assert (rev (drop m init) ≫= f = []) as ->; [|by rewrite (right_id_L [] (++))].
    assert (Forall (λ y, f y = []) (rev (drop m init))) as Hr.
    { apply Forall_rev, Forall_drop, Hf. }
    induction Hr as [|y l Hy _ IH]; [done|]. cbn [mbind list_bind]. by rewrite Hy.
  - by rewrite drop_ge by (rewrite length_app; cbn [length]; lia).
Qed.

(** The position and the groups of the way that is taken. *)
Definition taken (x : outcome) : pos * list string := (x.1.2, x.2).
Definition got (r : re) (q : pos) : option (pos * list string) := taken <$> first r q.

Definition rejects (r : re) (p : ascii → bool) : Prop :=
  ∀ prev c s, p c = true → results r (prev, String c s) = [].

Lemma got_lit l r q : got (Lit l ⨾ r) q = after l q.2 ≫= λ s, got r (last_char q.1 l, s).
Proof.
  unfold got, first. cbn [results]. destruct (after l q.2) as [s|]; [|done]. cbn [mbind list_bind option_bind].
  rewrite (right_id_L [] (++)). by destruct (results r _) as [|[[? ?] ?] ?].
Qed.

Lemma got_rep p m r prev s :
  rejects r p →
  got (Rep true m p ⨾ r) (prev, s) =
    let '(u, v) := str_span p s in
    if bool_decide (m ≤ String.length u)%nat then got r (last_char prev u, v) else None.
Proof.
  intros Hr. pose proof (splits_span p prev s) as H. destruct (str_span p s) as [u v].
  destruct H as (init & Hs & Hl & Hf). unfold got, first. cbn [results fst snd]. rewrite Hs.
  rewrite list_fmap_bind, bind_last, Hl.
  - case_bool_decide; [|done]. unfold compose. cbn [fst snd]. by destruct (results r _) as [|[[? ?] ?] ?].
  - eapply Forall_impl; [|exact Hf]. intros [w [prev' w']] (c & t & Hc & E). cbn [fst snd] in *. subst w'. unfold compose. cbn [fst snd]. by rewrite Hr.
Qed.

Lemma got_cap_rep p m r prev s :
  rejects r p →
  got (Cap (Rep true m p) ⨾ r) (prev, s) =
    let '(u, v) := str_span p s in
    if bool_decide (m ≤ String.length u)%nat then (λ y, (y.1, u :: y.2)) <$> got r (last_char prev u, v) else None.
Proof.
  intros Hr. pose proof (splits_span p prev s) as H. destruct (str_span p s) as [u v].
  destruct H as (init & Hs & Hl & Hf). unfold got, first. cbn [results fst snd]. rewrite Hs.
  rewrite <-list_fmap_compose, list_fmap_bind, bind_last, Hl.
  - case_bool_decide; [|done]. unfold compose. cbn [fst snd]. by destruct (results r _) as [|[[? ?] ?] ?].
  - eapply Forall_impl; [|exact Hf]. intros [w [prev' w']] (c & t & Hc & E). cbn [fst snd] in *. subst w'. unfold compose. cbn [fst snd]. by rewrite Hr.
Qed.

(** The same behind a text that belongs to the group. *)
Lemma got_cap_lit l p m r q :
  rejects r p →
  got (Cap (Lit l ⨾ Rep true m p) ⨾ r) q =
    after l q.2 ≫= λ s, let '(u, v) := str_span p s in
    if bool_decide (m ≤ String.length u)%nat
    then (λ y, (y.1, (l +:+ u)%string :: y.2)) <$> got r (last_char (last_char q.1 l) u, v) else None.
Proof.
  intros Hr. unfold got, first. cbn [results]. destruct (after l q.2) as [s|]; [|done]. cbn [option_bind mbind].
  cbn [mbind list_bind]. rewrite (right_id_L [] (++)). cbn [fst snd]. set (prev := last_char q.1 l).
  pose proof (splits_span p prev s) as H. destruct (str_span p s) as [u v].
  destruct H as (init & Hs & Hl & Hf). rewrite Hs.
  rewrite <-!list_fmap_compose, list_fmap_bind, bind_last, Hl.
  - case_bool_decide; [|done]. unfold compose. cbn [fst snd]. by destruct (results r _) as [|[[? ?] ?] ?].
  - eapply Forall_impl; [|exact Hf]. intros [w [prev' w']] (c & t & Hc & E). cbn [fst snd] in *. subst w'. unfold compose. cbn [fst snd]. by rewrite Hr.
Qed.

(** The same at the end of a pattern. *)
Lemma got_lit_end l q : got (Lit l) q = (λ s, ((last_char q.1 l, s), [])) <$> after l q.2.
Proof. unfold got, first. cbn [results]. by destruct (after l q.2). Qed.

Lemma got_cap_lit_end l p m q :
  got (Cap (Lit l ⨾ Rep true m p)) q =
    after l q.2 ≫= λ s, let '(u, v) := str_span p s in
    if bool_decide (m ≤ String.length u)%nat
    then Some ((last_char (last_char q.1 l) u, v), [(l +:+ u)%string]) else None.
Proof.
  unfold got, first. cbn [results]. destruct (after l q.2) as [s|]; [|done]. cbn [option_bind mbind].
  cbn [mbind list_bind]. rewrite (right_id_L [] (++)). cbn [fst snd]. set (prev := last_char q.1 l).
  pose proof (splits_span p prev s) as H. destruct (str_span p s) as [u v].
  destruct H as (init & Hs & Hl & _). rewrite Hs. case_bool_decide.
  - by rewrite drop_app_le, rev_unit by lia.
  - by rewrite drop_ge by (rewrite length_app; cbn [length]; lia).
Qed.

(** *** Patterns that do not start in a class *)

Lemma rejects_lit p d l r : p d = false → rejects (Lit (String d l) ⨾ r) p.
Proof.
  intros Hd prev c s Hc. cbn [results fst snd after]. destruct (Ascii.eqb_spec d c) as [->|]; [congruence|done].
Qed.

Lemma rejects_lit_end p d l : p d = false → rejects (Lit (String d l)) p.
Proof.
  intros Hd prev c s Hc. cbn [results fst snd after]. destruct (Ascii.eqb_spec d c) as [->|]; [congruence|done].
Qed.

Lemma rejects_cap p r0 r : rejects r0 p → rejects (Cap r0 ⨾ r) p.
Proof. intros H prev c s Hc. cbn [results]. by rewrite H. Qed.

Lemma rejects_cap_end p r0 : rejects r0 p → rejects (Cap r0) p.
Proof. intros H prev c s Hc. cbn [results]. by rewrite H. Qed.

Lemma rejects_rep1 p p' : (∀ c, p c = true → p' c = false) → rejects (Rep true 1 p') p.
Proof. intros H prev c s Hc. cbn [results fst snd splits]. by rewrite H. Qed.

Lemma rejects_rep p p' r : (∀ c, p c = true → p' c = false) → rejects r p → rejects (Rep true 0 p' ⨾ r) p.
Proof. intros H Hr prev c s Hc. cbn [results fst snd splits]. rewrite H by done. cbn. by rewrite Hr. Qed.

Lemma word_is_not_blank c : is_word c = true → is_space c = false.
Proof. by intros [? _]%LY.word_not_space. Qed.

Lemma space_not_word c : is_space c = true → is_word c = false.
Proof. intros H. destruct (is_word c) eqn:E; [|done]. apply word_is_not_blank in E. congruence. Qed.

(** ** The sections *)

(** A reader finds what a pattern with one group finds, and leaves off behind a
    character that does not end a line. *)
Definition same_find (o : option (pos * list string)) (f : option (string * string)) : Prop :=
  match o, f with
  | Some ((Some c, rest), groups), Some (name, rest') => c ≠ NL ∧ rest = rest' ∧ groups = [name]
  | None, None => True
  | _, _ => False
  end.

(** The position is at the start of a line. *)
Definition at_bol (prev : option ascii) : bool := match prev with None => true | Some c => (c =? NL)%char end.

Lemma findall_same r here fuel prev s :
  (∀ prev s, same_find (got r (prev, s)) (here (at_bol prev) s)) →
  findall_at fuel r prev s = QT.findall fuel here (at_bol prev) s.
Proof.
  intros H. revert prev s. induction fuel as [|fuel IH]; intros prev s; [done|]. cbn [findall_at QT.findall].
  specialize (H prev s). unfold got in H. destruct (first r (prev, s)) as [[[w [q rest]] groups]|]; cbn in H.
  - destruct q as [c|], (here (at_bol prev) s) as [[name rest']|]; try done. destruct H as (Hc & -> & ->).
    cbn [head default]. f_equal. rewrite IH. unfold at_bol. by rewrite (proj2 (Ascii.eqb_neq c NL) Hc).
  - destruct (here (at_bol prev) s); [done|]. destruct s as [|c s]; [done|]. apply IH.
Qed.

Lemma last_word prev u : all_chars is_word u = true → u ≠ EmptyString → ∃ c, last_char prev u = Some c ∧ c ≠ NL.
Proof.
  revert prev. induction u as [|c u IH]; [done|]. intros prev [Hc Hu]%andb_true_iff _. cbn [last_char].
  destruct u as [|d u]; [|by apply IH]. exists c. split; [done|]. by intros ->.
Qed.

Lemma span_all p s : all_chars p (str_span p s).1 = true.
Proof.
  induction s as [|c s IH]; [done|]. cbn [str_span]. destruct (p c) eqn:Hc; [|done].
  destruct (str_span p s). cbn [fst all_chars] in *. by rewrite Hc, IH.
Qed.

Lemma section_same prev s : same_find (got SECTION (prev, s)) (QT.section_here (at_bol prev) s).
Proof.
  unfold SECTION. rewrite got_lit. cbn [snd fst]. unfold QT.section_here.
  destruct (after ".section" s) as [s1|]; [|done]. cbn [option_bind mbind].
  unfold blanks1. rewrite got_rep by (apply rejects_cap_end, rejects_lit; done).
  destruct (str_span is_space s1) as [ws s2]. 
  assert (bool_decide (1 ≤ String.length ws)%nat = negb (bool_decide (ws = EmptyString))) as ->
    by (destruct ws; by vm_compute).
  destruct (bool_decide (ws = EmptyString)); [done|]. cbn [negb].
  unfold word1. rewrite got_cap_lit_end. cbn [snd fst]. unfold QT.section_name.
  destruct (after ".qizo_" s2) as [s3|]; [|done]. cbn [option_bind mbind].
  pose proof (span_all is_word s3) as Hw. destruct (str_span is_word s3) as [w rest].
  assert (bool_decide (1 ≤ String.length w)%nat = negb (bool_decide (w = EmptyString))) as ->
    by (destruct w; by vm_compute).
  case_bool_decide as Hne; [done|]. cbn [negb].
  destruct (last_word (last_char (last_char (last_char prev ".section") ws) ".qizo_") w Hw Hne) as (c & Hc & Hnl).
  unfold same_find. by rewrite Hc.
Qed.

Lemma got_bol multi r q :
  got (Bol multi ⨾ r) q = if match q.1 with None => true | Some c => multi && (c =? NL)%char end then got r q else None.
Proof.
  unfold got, first. cbn [results]. destruct q as [[c|] s]; cbn [fst].
  - destruct (multi && _); [|done]. cbn [mbind list_bind]. rewrite (right_id_L [] (++)).
    by destruct (results r _) as [|[[? ?] ?] ?].
  - cbn [mbind list_bind]. rewrite (right_id_L [] (++)). by destruct (results r _) as [|[[? ?] ?] ?].
Qed.

Lemma got_blanks r prev s :
  rejects r is_space →
  got (blanks ⨾ r) (prev, s) = got r (last_char prev (str_span is_space s).1, (str_span is_space s).2).
Proof. intros Hr. unfold blanks. rewrite got_rep by done. by destruct (str_span is_space s). Qed.

Lemma last_char_lit prev u : u ≠ EmptyString → ∃ c, last_char prev u = Some c ∧ ∀ prev', last_char prev' u = Some c.
Proof.
  revert prev. induction u as [|c u IH]; intros prev Hu; [done|]. cbn [last_char].
  destruct u as [|d u]; [by exists c|]. apply IH. done.
Qed.

Lemma placed_same prev s : same_find (got PLACED (prev, s)) (QT.placed_here (at_bol prev) s).
Proof.
  unfold PLACED. rewrite got_bol. cbn [fst]. unfold QT.placed_here, at_bol.
  destruct (match prev with None => true | Some c => true && (c =? NL)%char end) eqn:Hb.
  2: { destruct prev as [c|]; [|done]. cbn [andb] in Hb. by rewrite Hb. }
  assert (match prev with None => true | Some c => (c =? NL)%char end = true) as -> by (by destruct prev). cbn [negb].
  rewrite got_blanks by (apply rejects_cap, rejects_lit; done). unfold word1.
  rewrite got_cap_lit by (apply rejects_rep; [apply word_is_not_blank|apply rejects_lit; done]).
  cbn [snd fst]. unfold QT.section_name. destruct (after ".qizo_" _) as [s3|]; [|done]. cbn [option_bind mbind].
  destruct (str_span is_word s3) as [w s4].
  assert (bool_decide (1 ≤ String.length w)%nat = negb (bool_decide (w = EmptyString))) as ->
    by (destruct w; by vm_compute).
  destruct (bool_decide (w = EmptyString)); [done|]. cbn [negb option_bind mbind].
  rewrite got_blanks, got_lit by (apply rejects_lit; done). cbn [snd fst].
  destruct (after ":" _) as [s5|]; [|done]. cbn [option_bind mbind].
  rewrite got_blanks, got_lit_end by (apply rejects_lit_end; done). cbn [snd fst].
  by destruct (after "{" _).
Qed.

(** ** The layout file *)

(** The text ends with its first newline, if it has one. *)
Fixpoint one_line (s : string) : bool :=
  match s with
  | EmptyString => true
  | String c s => if (c =? NL)%char then bool_decide (s = EmptyString) else one_line s
  end.

(** The rest of the pattern behind the group of the value. *)
Definition rest_re : re := blanks ⨾ Eol.
Definition value_re : re := Cap (Rep false 1 not_nl) ⨾ rest_re.

(** The shortest prefix within the line that leaves only blanks. *)
Fixpoint shortest (s : string) : option string :=
  if all_chars is_space s then Some EmptyString
  else match s with
       | String c s => if not_nl c then String c <$> shortest s else None
       | EmptyString => None
       end.

(** The groups of all ways to match. *)
Definition groups (r : re) (q : pos) : list (list string) := snd <$> results r q.

Lemma groups_rep greedy m p r prev s :
  groups (Rep greedy m p ⨾ r) (prev, s) =
    (let ways := drop m (splits p prev s) in if greedy then rev ways else ways) ≫= λ x, groups r x.2.
Proof.
  unfold groups. cbn [results fst snd]. cbv zeta. rewrite list_fmap_bind.
  generalize (if greedy then rev (drop m (splits p prev s)) else drop m (splits p prev s)). intros l.
  induction l as [|x l IH]; [done|]. cbn [mbind list_bind]. rewrite fmap_app, IH. f_equal.
  unfold compose. cbn [fst snd]. by rewrite <-list_fmap_compose.
Qed.

Lemma groups_cap_rep greedy m p r prev s :
  groups (Cap (Rep greedy m p) ⨾ r) (prev, s) =
    (let ways := drop m (splits p prev s) in if greedy then rev ways else ways) ≫= λ x, cons x.1 <$> groups r x.2.
Proof.
  unfold groups. cbn [results fst snd]. cbv zeta. rewrite <-list_fmap_compose, list_fmap_bind.
  generalize (if greedy then rev (drop m (splits p prev s)) else drop m (splits p prev s)). intros l.
  induction l as [|x l IH]; [done|]. cbn [mbind list_bind]. rewrite fmap_app, IH. f_equal.
  unfold compose. cbn [fst snd]. by rewrite <-!list_fmap_compose.
Qed.

Lemma splits_blank prev s :
  Forall (λ x : string * pos, all_chars is_space x.2.2 = all_chars is_space s) (splits is_space prev s).
Proof.
  revert prev. induction s as [|c s IH]; intros prev; cbn [splits]; [by repeat constructor|].
  destruct (is_space c) eqn:Hc; [|by repeat constructor]. constructor; [done|]. apply Forall_fmap.
  eapply Forall_impl; [|apply IH]. intros x Hx. cbn [compose snd all_chars]. unfold compose. cbn [snd].
  by rewrite Hc, Hx.
Qed.

Lemma rest_groups prev s :
  if all_chars is_space s then ∃ l, groups rest_re (prev, s) = [] :: l else groups rest_re (prev, s) = [].
Proof.
  unfold rest_re, blanks. rewrite groups_rep. cbv zeta. change (drop 0 (splits is_space prev s)) with (splits is_space prev s).
  destruct (all_chars is_space s) eqn:Hs.
  - pose proof (splits_span is_space prev s) as H. destruct (str_span is_space s) as [u v] eqn:Hsp.
    destruct H as (init & -> & _). rewrite rev_unit. cbn [mbind list_bind].
    assert (v = EmptyString) as ->; [|by eexists].
    revert u Hsp Hs. induction s as [|c s IH]; intros u; cbn [str_span all_chars]; [by intros [= _ <-]|].
    destruct (is_space c); [|done]. destruct (str_span is_space s) as [u' v']. intros [= <- ->] Hs. by eapply IH.
  - pose proof (Forall_rev (splits_blank prev s)) as Hb. rewrite Hs in Hb.
    induction Hb as [|[w [q t]] l Hx _ IH]; [done|]. cbn [mbind list_bind]. rewrite IH. cbn [snd] in *.
    unfold groups. cbn [results snd]. rewrite bool_decide_false; [done|].
    intros [->| ->]; by vm_compute in Hx.
Qed.

Lemma shortest_spec pre prev s :
  head (((λ x : string * pos, ((pre +:+ x.1)%string, x.2)) <$> splits not_nl prev s) ≫= λ x, cons x.1 <$> groups rest_re x.2)
    = (λ u, [(pre +:+ u)%string]) <$> shortest s.
Proof.
  revert pre prev. induction s as [|c s IH]; intros pre prev.
  - pose proof (rest_groups prev EmptyString) as [l Hl]. cbn [splits fmap list_fmap mbind list_bind fst snd].
    by rewrite Hl.
  - pose proof (rest_groups prev (String c s)) as Hr. cbn [splits fmap list_fmap mbind list_bind fst snd].
    change (shortest (String c s)) with (if all_chars is_space (String c s) then Some EmptyString else
      if not_nl c then String c <$> shortest s else None).
    destruct (all_chars is_space (String c s)).
    + destruct Hr as [l ->]. done.
    + rewrite Hr. cbn [fmap list_fmap app]. destruct (not_nl c); [|done].
      rewrite <-list_fmap_compose. specialize (IH (pre +:+ String c EmptyString)%string (Some c)).
      destruct (shortest s) as [u|]; cbn [fmap option_fmap option_map] in *.
      * replace (pre +:+ String c u)%string with ((pre +:+ String c "") +:+ u)%string by by rewrite LY.append_assoc.
        rewrite <-IH. f_equal. f_equal. apply list_fmap_ext. intros _ x _. unfold compose. cbn [fst snd].
        by rewrite LY.append_assoc.
      * rewrite <-IH. f_equal. f_equal. apply list_fmap_ext. intros _ x _. unfold compose. cbn [fst snd].
        by rewrite LY.append_assoc.
Qed.

(** *** The value *)

Lemma rstrip_blank s : rstrip s = EmptyString ↔ all_chars is_space s = true.
Proof.
  induction s as [|c s IH]; [done|]. cbn [rstrip all_chars]. rewrite andb_true_iff, <-IH.
  destruct (rstrip s); [|split; [done|by intros [_ ?]]]. destruct (is_space c); split; [done|done|done|by intros [? _]].
Qed.

Lemma lstrip_blank s : lstrip s = EmptyString ↔ all_chars is_space s = true.
Proof.
  induction s as [|c s IH]; [done|]. cbn [lstrip all_chars]. destruct (is_space c); [exact IH|]. by split.
Qed.

Lemma one_line_tail c s : one_line (String c s) = true → one_line s = true.
Proof. cbn [one_line]. destruct (c =? NL)%char; [|done]. by intros ->%bool_decide_eq_true. Qed.

Lemma nl_space c : is_space c = false → not_nl c = true.
Proof. destruct c as [[] [] [] [] [] [] [] []]; vm_compute; done. Qed.

Lemma shortest_rstrip s : one_line s = true → shortest s = Some (rstrip s).
Proof.
  induction s as [|c s IH]; [done|]. intros Hs. cbn [shortest].
  destruct (all_chars is_space (String c s)) eqn:Hb; [by apply rstrip_blank in Hb as ->|].
  assert (not_nl c = true) as ->.
  { destruct (not_nl c) eqn:Hc; [done|]. apply negb_false_iff in Hc. cbn [one_line] in Hs. rewrite Hc in Hs.
    apply bool_decide_eq_true in Hs as ->. apply Ascii.eqb_eq in Hc as ->. by vm_compute in Hb. }
  rewrite IH by by eapply one_line_tail. cbn [rstrip fmap option_fmap option_map].
  destruct (rstrip s) eqn:Hr; [|done]. destruct (is_space c) eqn:Hc; [|done].
  apply rstrip_blank in Hr. cbn [all_chars] in Hb. by rewrite Hc, Hr in Hb.
Qed.

Lemma value_head prev s :
  head (groups value_re (prev, s)) =
    match s with
    | String c s' => if not_nl c then (λ u, [String c u]) <$> shortest s' else None
    | EmptyString => None
    end.
Proof.
  unfold value_re. rewrite groups_cap_rep. cbv zeta. destruct s as [|c s]; [done|]. cbn [splits].
  destruct (not_nl c); [|done]. change (drop 1 (?x :: ?l)) with l.
  exact (shortest_spec (String c EmptyString) (Some c) s).
Qed.

Lemma head_app {A} (l k : list A) : head (l ++ k) = match head l with Some x => Some x | None => head k end.
Proof. by destruct l. Qed.

(** Behind the comma: blanks, the value, blanks to the end. *)
Lemma blank_value prev s :
  one_line s = true → head (groups (blanks ⨾ value_re) (prev, s)) = (λ v, [v]) <$> LY.value_group s.
Proof.
  unfold blanks. rewrite groups_rep. cbv zeta. change (drop 0 (splits is_space prev s)) with (splits is_space prev s).
  revert prev. induction s as [|c s IH]; intros prev Hs; [done|]. pose proof (one_line_tail c s Hs) as Hs'.
  cbn [splits]. unfold LY.value_group. cbn [lstrip]. destruct (is_space c) eqn:Hc.
  - cbn [rev]. rewrite bind_app, head_app.
    rewrite <-map_rev, list_fmap_bind. change (?f ∘ _) with f.
    specialize (IH (Some c) Hs'). unfold compose. cbn [snd]. rewrite IH. clear IH.
    unfold LY.value_group. destruct (lstrip s) eqn:Hl; [|done].
    cbn [mbind list_bind snd]. rewrite (right_id_L [] (++)), value_head, shortest_rstrip by done.
    apply lstrip_blank, rstrip_blank in Hl as ->. cbn [String.list_ascii_of_string]. rewrite filter_cons.
    unfold not_nl. destruct (Ascii.eqb_spec c NL) as [->|Hne]; cbn [negb].
    + rewrite decide_False by (intros Hn; by apply Hn). by destruct (rev _).
    + rewrite decide_True by done. cbn [rev]. by destruct (rev (filter _ _)) as [|d l].
  - cbn [rev app mbind list_bind snd]. rewrite (right_id_L [] (++)), value_head, nl_space, shortest_rstrip by done.
    cbn [fmap option_fmap option_map rstrip]. rewrite Hc. by destruct (rstrip s).
Qed.

(** *** The line *)

Lemma one_line_span p s : one_line s = true → one_line (str_span p s).2 = true.
Proof.
  induction s as [|c s IH]; [done|]. intros Hs. cbn [str_span]. destruct (p c); [|exact Hs].
  apply one_line_tail in Hs. specialize (IH Hs). by destruct (str_span p s).
Qed.

Lemma one_line_after l s t : one_line s = true → after l s = Some t → one_line t = true.
Proof.
  revert s. induction l as [|d l IH]; intros s Hs; [by intros [= <-]|]. destruct s as [|c s]; [done|].
  cbn [after]. destruct (d =? c)%char; [|done]. apply IH. by eapply one_line_tail.
Qed.

Lemma span_lstrip s : (str_span is_space s).2 = lstrip s.
Proof.
  induction s as [|c s IH]; [done|]. cbn [str_span lstrip]. destruct (is_space c); [|done].
  destruct (str_span is_space s). exact IH.
Qed.

Lemma one_line_lstrip s : one_line s = true → one_line (lstrip s) = true.
Proof. rewrite <-span_lstrip. apply one_line_span. Qed.

Lemma got_groups r q : snd <$> got r q = head (groups r q).
Proof. unfold got, first, groups. by destruct (results r q). Qed.

Lemma match_set_got line :
  one_line line = true →
  snd <$> got SET (None, line) = (λ nv : string * string, [nv.1; nv.2]) <$> LY.match_set line.
Proof.
  intros Hl. unfold SET. rewrite got_bol. cbn [fst]. rewrite got_blanks, got_lit by (apply rejects_lit; done).
  cbn [fst snd]. rewrite span_lstrip. unfold LY.match_set. apply one_line_lstrip in Hl.
  destruct (after ".set" (lstrip line)) as [s|] eqn:Hs; [|done]. cbn [option_bind mbind].
  apply (one_line_after _ _ _ Hl) in Hs. clear Hl. unfold blanks1 at 1, word1.
  rewrite got_rep by (apply rejects_cap, rejects_rep1, space_not_word).
  destruct s as [|c s]; [done|]. destruct (is_space c) eqn:Hc.
  2: { cbn [str_span]. by rewrite Hc. }
  assert (str_span is_space (String c s) = (String c (str_span is_space s).1, lstrip (String c s))) as ->.
  { cbn [str_span lstrip]. rewrite Hc, <-span_lstrip. by destruct (str_span is_space s). }
  rewrite bool_decide_true by (cbn [String.length]; lia). set (prev := last_char _ _).
  change (lstrip (String c s)) with (if is_space c then lstrip s else String c s). rewrite Hc.
  apply one_line_tail, one_line_lstrip in Hs. set (t := lstrip s) in *. clearbody t prev. clear s c Hc.
  rewrite got_cap_rep by (apply rejects_rep; [apply word_is_not_blank|apply rejects_lit; done]).
  pose proof (one_line_span is_word t Hs) as Ht. destruct (str_span is_word t) as [name s]. cbn [snd] in Ht.
  destruct name as [|d name]; [done|]. rewrite bool_decide_true by (cbn [String.length]; lia).
  rewrite got_blanks, got_lit by (apply rejects_lit; done). cbn [fst snd]. rewrite span_lstrip.
  apply one_line_lstrip in Ht. set (u := lstrip s) in *. set (prev2 := last_char _ _). clearbody u prev2. clear s Hs.
  destruct u as [|e u]; [done|]. cbn [after]. destruct (Ascii.eqb_spec "," e) as [<-|Hne].
  2: { cbn [option_bind mbind fmap option_fmap option_map].
       destruct e as [[] [] [] [] [] [] [] []]; done. }
  cbn [option_bind mbind]. apply one_line_tail in Ht.
  change (Cap (Rep false 1 not_nl) ⨾ blanks ⨾ Eol) with value_re.
  match goal with |- context [got (blanks ⨾ value_re) (?p, u)] =>
    pose proof (got_groups (blanks ⨾ value_re) (p, u)) as Hg; rewrite (blank_value p u Ht) in Hg; set (q := (p, u)) in *
  end.
  destruct (got (blanks ⨾ value_re) q) as [[q' gs]|], (LY.value_group u); cbn in *; congruence.
Qed.

(** A line as the file object gives it ends with its newline; [file_lines] drops
    it, and the pattern does not see the difference. *)
Definition with_nl (s : string) : string := (s +:+ String NL EmptyString)%string.

Lemma with_nl_cons c s : with_nl (String c s) = String c (with_nl s).
Proof. done. Qed.

Lemma one_line_nl s : all_chars not_nl s = true → one_line s = true ∧ one_line (with_nl s) = true.
Proof.
  induction s as [|c s IH]; [done|]. rewrite with_nl_cons. cbn [all_chars one_line].
  intros [Hc Hs]%andb_true_iff. apply negb_true_iff in Hc. rewrite Hc. by apply IH.
Qed.

Lemma lstrip_nl s : lstrip (with_nl s) = match lstrip s with EmptyString => EmptyString | r => with_nl r end.
Proof. induction s as [|c s IH]; [done|]. rewrite with_nl_cons. cbn [lstrip]. by destruct (is_space c). Qed.

Lemma rstrip_nl s : rstrip (with_nl s) = rstrip s.
Proof. induction s as [|c s IH]; [done|]. rewrite with_nl_cons. cbn [rstrip]. by rewrite IH. Qed.

Lemma after_nl l s :
  all_chars not_nl l = true → after l (with_nl s) = with_nl <$> after l s.
Proof.
  revert s. induction l as [|d l IH]; intros s; [done|]. cbn [all_chars]. intros [Hd Hl]%andb_true_iff.
  apply negb_true_iff in Hd. destruct s as [|c s].
  - change (with_nl EmptyString) with (String NL EmptyString). cbn [after]. by rewrite Hd.
  - rewrite with_nl_cons. cbn [after]. destruct (d =? c)%char; [by apply IH|done].
Qed.

Lemma span_nl s : str_span is_word (with_nl s) = ((str_span is_word s).1, with_nl (str_span is_word s).2).
Proof.
  induction s as [|c s IH]; [done|]. rewrite with_nl_cons. cbn [str_span]. destruct (is_word c); [|done].
  rewrite IH. by destruct (str_span is_word s).
Qed.

Lemma value_group_nl s : LY.value_group (with_nl s) = LY.value_group s.
Proof.
  unfold LY.value_group. rewrite lstrip_nl. destruct (lstrip s) as [|c r];
    [|change (Some (rstrip (with_nl (String c r))) = Some (rstrip (String c r))); by rewrite rstrip_nl].
  assert (String.list_ascii_of_string (with_nl s) = String.list_ascii_of_string s ++ [NL]) as ->.
  { induction s as [|d s IH]; [done|]. rewrite with_nl_cons. cbn [String.list_ascii_of_string app]. by rewrite IH. }
  rewrite list.filter_app, filter_cons_False by (intros Hn; by apply Hn). rewrite filter_nil. by rewrite (right_id_L [] (++)).
Qed.

Lemma match_set_nl line : LY.match_set (with_nl line) = LY.match_set line.
Proof.
  unfold LY.match_set. rewrite lstrip_nl. destruct (lstrip line) as [|c0 t0]; [done|].
  set (t := String c0 t0). rewrite after_nl by done. clearbody t. clear c0 t0.
  destruct (after ".set" t) as [s|]; [|done]. cbn [fmap option_fmap option_map option_bind mbind].
  destruct s as [|c s]; [done|]. rewrite with_nl_cons. destruct (is_space c) eqn:Hc; [|done].
  rewrite <-with_nl_cons, lstrip_nl. set (u := lstrip (String c s)). clearbody u. clear t c s Hc.
  destruct u as [|d u]; [done|]. rewrite span_nl. destruct (str_span is_word (String d u)) as [name v]. cbn [fst snd].
  destruct name as [|e name]; [done|]. rewrite lstrip_nl. destruct (lstrip v) as [|g w]; [done|].
  rewrite with_nl_cons. destruct g as [[] [] [] [] [] [] [] []]; try done. by rewrite value_group_nl.
Qed.

(** ** Searches *)

(** A pattern whose way to match, wherever it is tried, has what [here] finds as
    its only group. *)
Lemma search_same r here prev s :
  (∀ prev s, snd <$> got r (prev, s) = (λ m : string, [m]) <$> here s) →
  search_at r prev s = (λ m : string, [m]) <$> BM.search here s.
Proof.
  intros H. revert prev. induction s as [|c s IH]; intros prev; cbn [search_at BM.search];
    specialize (H prev) as Hp; [specialize (Hp EmptyString)|specialize (Hp (String c s))];
    unfold got in Hp; destruct (first r _) as [x|], (here _) as [m|]; cbn in Hp; try done;
    try (injection Hp as Hp; cbn; congruence).
Qed.

Lemma copy_same prev s :
  snd <$> got COPY (prev, s) = (λ m : string, [m]) <$> BM.group_until "addl $(" ")" "), %esi" s.
Proof.
  unfold COPY. rewrite got_lit. cbn [fst snd]. unfold BM.group_until. destruct (after "addl $(" s) as [t|]; [|done].
  cbn [option_bind mbind]. rewrite got_cap_rep by (apply rejects_lit_end; done).
  change (λ x, negb (x =? ")")%char) with (not_char ")"). destruct (str_span (not_char ")") t) as [u v].
  rewrite bool_decide_true by lia. rewrite got_lit_end. cbn [fst snd]. by destruct (after "), %esi" v).
Qed.

Lemma after_app l k s : after (l +:+ k)%string s = after l s ≫= after k.
Proof.
  revert s. induction l as [|d l IH]; intros s; [done|]. destruct s as [|c s]; [done|].
  change (after (String d (l +:+ k)) (String c s) = after (String d l) (String c s) ≫= after k).
  cbn [after]. by destruct (d =? c)%char.
Qed.

Lemma search_fmap {A B} (f : A → B) here s : BM.search (λ s, f <$> here s) s = f <$> BM.search here s.
Proof. induction s as [|c s IH]; cbn [BM.search]; destruct (here _); done. Qed.

Lemma copy_hdr_same prev s :
  snd <$> got COPY_HDR (prev, s) =
    (λ m : string, [m]) <$> ((λ m, "QIZO_QIZOK_HDR" +:+ m)%string <$> BM.group_until "addl $QIZO_QIZOK_HDR" "," ", %esi" s).
Proof.
  unfold COPY_HDR. rewrite got_lit. cbn [fst snd]. unfold BM.group_until.
  assert (after "addl $QIZO_QIZOK_HDR" s = after "addl $" s ≫= after "QIZO_QIZOK_HDR") as ->.
  { change "addl $QIZO_QIZOK_HDR"%string with ("addl $" +:+ "QIZO_QIZOK_HDR")%string. apply after_app. }
  destruct (after "addl $" s) as [t|]; [|done]. cbn [option_bind mbind].
  rewrite got_cap_lit by (apply rejects_lit_end; done). cbn [fst snd].
  destruct (after "QIZO_QIZOK_HDR" t) as [w|]; [|done]. cbn [option_bind mbind].
  change (λ x, negb (x =? ",")%char) with (not_char ","). destruct (str_span (not_char ",") w) as [u v].
  rewrite bool_decide_true by lia. rewrite got_lit_end. cbn [fst snd]. by destruct (after ", %esi" v).
Qed.

(** ** Theorems *)

(** C32 - The reader of a [.set] line is the pattern of the sources: on a line of
    the file, with its newline or without, [re.match] succeeds exactly when
    [match_set] does, with the name and the expression as groups. *)
Theorem match_set_regex line :
  all_chars not_nl line = true →
  re_match SET line = (λ nv : string * string, [nv.1; nv.2]) <$> LY.match_set line ∧
  re_match SET (with_nl line) = (λ nv : string * string, [nv.1; nv.2]) <$> LY.match_set line.
Proof.
  assert (∀ s, re_match SET s = snd <$> got SET (None, s)) as Hr
    by (intros s; unfold re_match, got; by destruct (first SET (None, s))).
  intros [H1 H2]%one_line_nl. split.
  - by rewrite Hr, match_set_got.
  - by rewrite Hr, match_set_got, match_set_nl.
Qed.

Lemma match_set_regex_witness :
  re_match SET ".set QIZO_BLOB_MAX, 248 * 512 " = Some ["QIZO_BLOB_MAX"; "248 * 512"]%string.
Proof. exact (proj1 (match_set_regex ".set QIZO_BLOB_MAX, 248 * 512 " eq_refl)). Defined.

(** The readers of the test program and of the boot model are the patterns
    of the sources: [re.findall] over the sources and over the linker script finds
    the sections that [sections_used] and [sections_placed] list, and [copy_offset]
    evaluates the group that [re.search] finds first. *)
Theorem readers_regex src lds :
  re_findall SECTION src = QT.sections_used src ∧
  re_findall PLACED lds = QT.sections_placed lds ∧
  BM.copy_offset src =
    (m ← or_raise (SystemExit "model: cannot find where stage2 takes the kernel image from")
       (match re_search COPY src with Some gs => Some gs | None => re_search COPY_HDR src end ≫= head);
     vals ← LY.LAYOUT;
     or_raise EvalError (eval vals (replace_all " " "+" (strip m)))).
Proof.
  split; [apply findall_same, section_same|]. split; [apply findall_same, placed_same|].
  unfold BM.copy_offset, re_search. rewrite (search_same COPY _ None src copy_same).
  rewrite (search_same COPY_HDR _ None src copy_hdr_same), search_fmap.
  destruct (BM.search _ src); [done|]. by destruct (BM.search _ src).
Qed.

End RE.
