(* ===== verification/Pipeline.v ===== *)
(** * Files, commands and the build: [read], [write] and [size_bytes] of
    [tools/qizoartifacts/qizoartifacts.py], the programs over files, [Makefile]

    The models of the tools take and return contents.  Here the tools are
    programs over a store of files, in the order in which the sources read and
    write them, and the rules of the Makefile are sequences of such programs.
    What [nm] and [objdump] print for a file is a parameter. *)

From S2P Require Export CheckMain BootModel.

Module FILES.

(** ** Programs over files *)

Abbreviation store := (gmap string bytes).

(** A program returns or raises; either way it leaves a store. *)
Definition io (A : Type) : Type := store → res A * store.
Definition ret {A} (a : A) : io A := λ fs, (Ok a, fs).
Definition lift {A} (m : res A) : io A := λ fs, (m, fs).
Definition bind {A B} (m : io A) (k : A → io B) : io B := λ fs,
  let '(r, fs) := m fs in
  match r with Ok a => k a fs | Raise e => (Raise e, fs) | Diverge => (Diverge, fs) end.
Notation "x ⇐ m ; k" := (bind m (λ x, k)) (at level 100, m at level 99, right associativity).

(** [read(path)], [write(path, data)] and [size_bytes(path)]; the directories
    exist and can be written, as the rules of the Makefile see to. *)
Definition read (path : string) : io bytes := λ fs,
  (match fs !! path with Some data => Ok data | None => Raise OSError end, fs).
Definition write (path : string) (data : bytes) : io unit := λ fs, (Ok tt, <[path := data]> fs).
Definition size_bytes (path : string) : io Z := λ fs,
  (match fs !! path with Some data => Ok (len data) | None => Raise OSError end, fs).

Section commands.
(** [nm -n path] and the listing of [objdump], if it is installed, given the
    contents of the file. *)
Variable nm_cmd : option bytes → ART.completed.
Variable objdump_cmd : bytes → option string.
(** The text of [boot/stage2.S]. *)
Variable stage2_S : string.

(** The text [nm(elfpath)] reads; a command that fails ends the program. *)
Definition nm_text (elfpath : string) : io string := λ fs,
  (text ← (ART.run ["nm"; "-n"; elfpath]%string true (nm_cmd (fs !! elfpath))).2;
   or_raise TypeError text, fs).

(** ** The tools *)

(** The command line of [mkqizoimg.py]. *)
Record img_args := ImgArgs {
  a_stage1 : string; a_stage2 : string; a_kernel_bin : string; a_kernel_elf : string; a_out : string;
  a_entry : option Z; a_image_sectors : Z; a_raw : bool; a_label : string;
}.

(** The checks between the reads come first again in [Image.main], where they
    pass. *)
Definition mkqizoimg (a : img_args) : io (list string) :=
  stage1 ⇐ read (a_stage1 a);
  _ ⇐ lift (load_stage1 stage1);
  stage2 ⇐ read (a_stage2 a);
  _ ⇐ lift (exit_if (STAGE2_BYTES <? len stage2)
        ("qizo: stage2 code " +:+ fmt_d (len stage2) +:+ " bytes exceeds " +:+ fmt_d STAGE2_BYTES));
  kernel ⇐ read (a_kernel_bin a);
  nm ⇐ nm_text (a_kernel_elf a);
  r ⇐ lift (Image.main (Options stage1 stage2 kernel nm (a_out a) (a_entry a) (a_image_sectors a) (a_raw a) (a_label a)));
  _ ⇐ write (a_out a) r.1;
  ret r.2.

(** [mkqizoiso.py]: the size it prints is that of the file it wrote. *)
Definition mkqizoiso (image out volume : string) : io (list string) :=
  img ⇐ read image;
  r ⇐ lift (ISO.main img volume);
  _ ⇐ write out r.1;
  _ ⇐ size_bytes out;
  ret [r.2].

(** [qizocheck.py] with all its files.  The files are read in front: the rule
    that runs the check only runs when they exist. *)
Definition qizocheck (image stage1 stage2 kernel_elf iso : string) : io verdict :=
  img ⇐ read image;
  s1 ⇐ read stage1;
  s2 ⇐ read stage2;
  nm ⇐ nm_text kernel_elf;
  i ⇐ read iso;
  lift (QC.main (QC.Args img (Some s1) (objdump_cmd s1) (Some s2) (Some nm) (Some i))).

(** [qizobootmodel.py] *)
Definition qizobootmodel (image kernel_bin : string) : io (list string) :=
  disk ⇐ read image;
  kernel ⇐ read kernel_bin;
  r ⇐ lift (BM.main disk kernel stage2_S);
  ret r.2.

(** ** The rules *)

Definition STAGE1_BIN : string := "build/boot/stage1.bin".
Definition STAGE2_BIN : string := "build/boot/stage2.bin".
Definition KERNEL_BIN : string := "build/qizo.bin".
Definition KERNEL_ELF : string := "build/qizo.elf".
Definition IMG : string := "build/artifacts/qizo.img".
Definition ISO_IMG : string := "build/artifacts/qizo.iso".

(** [$(ART)/qizo.img] *)
Definition img_rule : io (list string) :=
  mkqizoimg (ImgArgs STAGE1_BIN STAGE2_BIN KERNEL_BIN KERNEL_ELF IMG None 0 false "QIZO_BOOT").

(** [$(ART)/qizo.iso] *)
Definition iso_rule : io (list string) := mkqizoiso IMG ISO_IMG "QIZO".

(** The first two commands of [check]; a command with a status ends the rule. *)
Definition check_rule : io (list string) :=
  v ⇐ qizocheck IMG STAGE1_BIN STAGE2_BIN KERNEL_ELF ISO_IMG;
  match v with
  | Pass => qizobootmodel IMG KERNEL_BIN
  | Failed _ => lift (Raise (SystemExit "1"))
  end.

(** [make check] on a fresh tree, once the boot code and the kernel are built. *)
Definition make_check : io (list string) :=
  l1 ⇐ img_rule;
  l2 ⇐ iso_rule;
  l3 ⇐ check_rule;
  ret (l1 ++ l2 ++ l3).

(** [make size]: the report on the files of the tree, given what [size -A]
    prints for the kernel. *)
Definition size_rule (elf_sizes : bytes → string) : io (list string * Z) := λ fs,
  let size path := (λ data : bytes, len data) <$> (fs !! path) in
  (Ok (Size.main (Size.Sizes (size IMG) (size (IMG +:+ ".xz")) (size ISO_IMG) (size (ISO_IMG +:+ ".xz"))
         (size KERNEL_BIN) (size STAGE1_BIN) (size STAGE2_BIN)) (elf_sizes <$> (fs !! KERNEL_ELF))), fs).

(** ** What a program does to the store *)

Lemma io_bind_Ok {A B} (m : io A) (k : A → io B) fs a fs' : m fs = (Ok a, fs') → bind m k fs = k a fs'.
Proof. intros H. unfold bind. by rewrite H. Qed.

Lemma read_Ok path fs data : fs !! path = Some data → read path fs = (Ok data, fs).
Proof. intros H. unfold read. by rewrite H. Qed.

Lemma io_lift_Ok {A} (m : res A) fs a : m = Ok a → lift m fs = (Ok a, fs).
Proof. by intros ->. Qed.

(** The program leaves the store as it is. *)
Definition pure {A} (m : io A) : Prop := ∀ fs, (m fs).2 = fs.

Lemma pure_read path : pure (read path).
Proof. done. Qed.
Lemma pure_lift {A} (m : res A) : pure (lift m).
Proof. done. Qed.
Lemma pure_nm path : pure (nm_text path).
Proof. done. Qed.
Lemma pure_bind {A B} (m : io A) (k : A → io B) : pure m → (∀ a, pure (k a)) → pure (bind m k).
Proof.
  intros Hm Hk fs. specialize (Hm fs). unfold bind. destruct (m fs) as [[a|e|] fs']; cbn [snd] in *; [|done..].
  subst fs'. apply Hk.
Qed.

(** It changes at most the file [out], and only when it succeeds. *)
Definition writes_only {A} (out : string) (m : io A) : Prop := ∀ fs,
  match m fs with
  | (Ok _, fs') => ∃ data, fs' = <[out := data]> fs
  | (_, fs') => fs' = fs
  end.

Lemma writes_only_bind {A B} out (m : io A) (k : A → io B) :
  pure m → (∀ a, writes_only out (k a)) → writes_only out (bind m k).
Proof.
  intros Hm Hk fs. specialize (Hm fs). unfold bind. destruct (m fs) as [[a|e|] fs']; cbn [snd] in *; [|done..].
  subst fs'. apply Hk.
Qed.

Lemma mkqizoimg_writes a : writes_only (a_out a) (mkqizoimg a).
Proof.
  unfold mkqizoimg. repeat (apply writes_only_bind; [apply pure_read || apply pure_lift || apply pure_nm|intros ?]).
  intros fs. cbn. eauto.
Qed.

Lemma mkqizoiso_writes image out volume : writes_only out (mkqizoiso image out volume).
Proof.
  unfold mkqizoiso. repeat (apply writes_only_bind; [apply pure_read || apply pure_lift|intros ?]).
  intros fs. unfold bind, write, size_bytes. rewrite lookup_insert_eq. cbn. eauto.
Qed.

(** ** The build *)

(** The tree after the boot code and the kernel are built: the files of the build
    [o], with which [mkqizoimg] is called by the rule, and the checks of the
    inputs that the tools do not make. *)
Record tree_ok (fs : store) (o : options) (k : kernel_span) (blob : bytes) (total : Z) (l : layout) : Prop := {
  tr_stage1 : fs !! STAGE1_BIN = Some (o_stage1 o);
  tr_stage2 : fs !! STAGE2_BIN = Some (o_stage2 o);
  tr_kernel : fs !! KERNEL_BIN = Some (o_kernel_bin o);
  tr_elf : nm_cmd (fs !! KERNEL_ELF) = ART.Completed 0 (o_kernel_nm o);
  tr_rule : o_out o = IMG ∧ o_entry o = None ∧ o_image_sectors o = 0 ∧ o_raw o = false ∧ o_label o = "QIZO_BOOT"%string;
  tr_build : build_ok o k blob total l;
  tr_kernel_bytes : Bytes (o_kernel_bin o);
  tr_entry : k_entry_off k < k_len k;
  tr_bss : k_len k + 64 ≤ k_total k;
  tr_dap : check_stage1_dap (objdump_cmd (o_stage1 o)) = Ok Pass;
  tr_code : slice (o_stage2 o) 0 3 = [0xFA; 0xFC; 0x31] ∧ check_stage2_gdt (o_stage2 o) = Ok Pass ∧
    check_stage2_transition (o_stage2 o) = Ok Pass;
  tr_symbols : ∀ n, n ∈ QC.need → is_Some (ART.nm (o_kernel_nm o) !! n);
  tr_source : BM.copy_offset stage2_S = Ok 64;
}.

Section build.
Variables (fs : store) (o : options) (k : kernel_span) (blob : bytes) (total : Z) (l : layout).
Hypothesis Htree : tree_ok fs o k blob total l.

Lemma nm_text_ok fs' : fs' !! KERNEL_ELF = fs !! KERNEL_ELF → nm_text KERNEL_ELF fs' = (Ok (o_kernel_nm o), fs').
Proof. intros E. unfold nm_text. rewrite E, (tr_elf _ _ _ _ _ _ Htree). done. Qed.

Lemma img_rule_ok img lines :
  Image.main o = Ok (img, lines) → img_rule fs = (Ok lines, <[IMG := img]> fs).
Proof.
  intros Hm. destruct Htree as [H1 H2 H3 _ (Ho1 & Ho2 & Ho3 & Ho4 & Ho5) _ _ _ _ _ _ _ _].
  pose proof Hm as Hm'. unfold Image.main in Hm'.
  apply Prelude.bind_Ok in Hm' as (st & Hst & Hm'). apply Prelude.bind_Ok in Hm' as (u & Hu & _).
  destruct u. unfold img_rule, mkqizoimg. cbn [a_stage1 a_stage2 a_kernel_bin a_kernel_elf a_out a_entry a_image_sectors a_raw a_label].
  rewrite (io_bind_Ok _ _ _ _ _ (read_Ok _ _ _ H1)), (io_bind_Ok _ _ _ _ _ (io_lift_Ok _ _ _ Hst)),
    (io_bind_Ok _ _ _ _ _ (read_Ok _ _ _ H2)), (io_bind_Ok _ _ _ _ _ (io_lift_Ok _ _ _ Hu)),
    (io_bind_Ok _ _ _ _ _ (read_Ok _ _ _ H3)), (io_bind_Ok _ _ _ _ _ (nm_text_ok fs eq_refl)).
  rewrite (io_bind_Ok (lift (Image.main _)) _ fs (img, lines) fs); [done|]. apply io_lift_Ok. rewrite <-Hm. f_equal.
  destruct o. cbn in *. by subst.
Qed.

(** The files of the tree after the two images are written. *)
Lemma tree_lookup img iso path :
  path ≠ IMG → path ≠ ISO_IMG → <[ISO_IMG := iso]> (<[IMG := img]> fs) !! path = fs !! path.
Proof. intros. by rewrite !lookup_insert_ne. Qed.

Lemma check_rule_ok img iso :
  disk o k blob total l img → ISO.check_iso iso img = Ok Pass →
  ∃ lines, check_rule (<[ISO_IMG := iso]> (<[IMG := img]> fs)) = (Ok lines, <[ISO_IMG := iso]> (<[IMG := img]> fs)).
Proof.
  intros Hd Hiso. destruct Htree as [H1 H2 H3 _ (_ & _ & _ & Hraw & Hlabel) Hb Hbk He Hbss Hdap (Hpro & Hgdt & Htr) Hsym Hsrc].
  set (fs' := <[ISO_IMG := iso]> _).
  assert (∀ path data, path ≠ IMG → path ≠ ISO_IMG → fs !! path = Some data → read path fs' = (Ok data, fs')) as Hread
    by (intros path data Hp1 Hp2 E; apply read_Ok; unfold fs'; by rewrite tree_lookup).
  assert (read IMG fs' = (Ok img, fs')) as Hi.
  { apply read_Ok. unfold fs'. by rewrite lookup_insert_ne, lookup_insert_eq. }
  assert (QC.main (QC.Args img (Some (o_stage1 o)) (objdump_cmd (o_stage1 o)) (Some (o_stage2 o)) (Some (o_kernel_nm o)) (Some iso)) = Ok Pass) as Hqc.
  { apply (QC.check_disk _ o k blob total l iso); cbn [QC.c_image]; try assumption; [by rewrite Hlabel|].
    split; cbn [QC.c_stage1 QC.c_stage2 QC.c_kernel_nm QC.c_iso QC.c_objdump]; by intros ? [= <-]. }
  destruct (BM.boot_bootable _ _ _ _ _ _ _ _ stage2_S (BM.bootable_build _ _ _ _ _ _ Hb Hraw Hbk He Hd) Hsrc)
    as (mem & lines & Hboot & _).
  exists lines. unfold check_rule, qizocheck.
  rewrite (io_bind_Ok _ _ fs' Pass fs').
  - unfold qizobootmodel. rewrite (io_bind_Ok _ _ _ _ _ Hi), (io_bind_Ok _ _ _ _ _ (Hread KERNEL_BIN _ ltac:(done) ltac:(done) H3)).
    unfold bind, lift. rewrite Hboot. reflexivity.
  - rewrite (io_bind_Ok _ _ _ _ _ Hi), (io_bind_Ok _ _ _ _ _ (Hread STAGE1_BIN _ ltac:(done) ltac:(done) H1)),
      (io_bind_Ok _ _ _ _ _ (Hread STAGE2_BIN _ ltac:(done) ltac:(done) H2)).
    rewrite (io_bind_Ok _ _ _ _ _ (nm_text_ok fs' ltac:(by apply tree_lookup))).
    rewrite (io_bind_Ok _ _ fs' iso fs') by (apply read_Ok, lookup_insert_eq). by apply io_lift_Ok.
Qed.

(** The rules up to the check, with what they leave. *)
Lemma make_check_ok :
  ∃ img iso lines, make_check fs = (Ok lines, <[ISO_IMG := iso]> (<[IMG := img]> fs)) ∧
    disk o k blob total l img ∧ has iso (21 * 2048) img ∧ len iso = (21 + ISO.iso_sectors (len img)) * 2048.
Proof.
  destruct (main_spec _ _ _ _ _ (tr_build _ _ _ _ _ _ Htree)) as (img & lines & Hm & Hd).
  destruct (QC.iso_of_build _ _ _ _ _ _ "QIZO" (tr_build _ _ _ _ _ _ Htree) Hd) as (iso & info & Hb & Hiso & Hp).
  destruct (check_rule_ok img iso Hd Hiso) as [lines' Hc]. exists img, iso.
  assert (∃ line, iso_rule (<[IMG := img]> fs) = (Ok [line], <[ISO_IMG := iso]> (<[IMG := img]> fs))) as [line Hi].
  { unfold iso_rule, mkqizoiso. rewrite (io_bind_Ok _ _ _ _ _ (read_Ok _ _ _ (lookup_insert_eq _ _ _))).
    eexists. unfold ISO.main. rewrite Hb. cbn [mbind res_bind].
    rewrite (io_bind_Ok _ _ _ _ _ (io_lift_Ok _ _ _ eq_refl)). cbn [fst snd].
    rewrite (io_bind_Ok (write _ _) _ _ tt _ eq_refl). unfold bind, size_bytes. rewrite lookup_insert_eq. reflexivity. }
  eexists. split; [|split; [exact Hd|split; [apply (ISO.ip_image _ _ _ Hp)|apply (ISO.ip_len _ _ _ Hp)]]].
  unfold make_check. rewrite (io_bind_Ok _ _ _ _ _ (img_rule_ok _ _ Hm)), (io_bind_Ok _ _ _ _ _ Hi), (io_bind_Ok _ _ _ _ _ Hc).
  reflexivity.
Qed.

(** The sizes of the two images. *)
Lemma image_sizes (img iso : bytes) :
  disk o k blob total l img → len iso = (21 + ISO.iso_sectors (len img)) * 2048 →
  len img ≤ 2392064 ∧ len iso ≤ 2437120.
Proof.
  intros Hd Hi. destruct Htree as [_ _ _ _ (_ & _ & Hsec & _) Hb _ _ _ _ _ _ _].
  pose proof (bo_layout _ _ _ _ _ Hb) as Hlay. pose proof (sectors_bound _ (bo_blob_max _ _ _ _ _ Hb)) as Hbs.
  unfold choose_layout in Hlay. destruct (Z.eqb_spec (o_image_sectors o) 0); [|done].
  rewrite pick_layout_eq in Hlay. cbv zeta in Hlay. change BLOB_LBA with 24 in Hlay.
  destruct (_ <? _) in Hlay; [|done]. injection Hlay as Htot _.
  pose proof (d_len _ _ _ _ _ _ Hd) as Hlen. change SECTOR with 512 in Hlen.
  unfold ISO.iso_sectors in Hi. rewrite Hlen in *. split; [lia|].
  assert ((total * 512 + 2047) / 2048 < 1169) by (apply Z.div_lt_upper_bound; lia). lia.
Qed.

(** The rows of the size report, after the build. *)
Lemma size_rows (img iso : bytes) :
  disk o k blob total l img → len iso = (21 + ISO.iso_sectors (len img)) * 2048 →
  let fs' := <[ISO_IMG := iso]> (<[IMG := img]> fs) in
  let size path := (λ data : bytes, len data) <$> (fs' !! path) in
  List.filter Size.over_budget (Size.checks (Size.Sizes (size IMG) (size (IMG +:+ ".xz")%string) (size ISO_IMG)
    (size (ISO_IMG +:+ ".xz")%string) (size KERNEL_BIN) (size STAGE1_BIN) (size STAGE2_BIN))) = [] ↔
  ∀ path, path ∈ [IMG +:+ ".xz"; ISO_IMG +:+ ".xz"]%string → ∃ data, fs !! path = Some data ∧ len data ≤ 65536.
Proof.
  intros Hd Hil. cbv zeta. destruct (image_sizes img iso Hd Hil) as [Hs1 Hs2].
  destruct Htree as [H1 H2 H3 _ _ Hb _ _ _ _ _ _ _].
  destruct (kernel_of_inv _ _ _ _ (bo_kernel _ _ _ _ _ Hb)) as (Hkl & _).
  pose proof (span_total_fits k (build_ok_span _ _ _ _ _ Hb)) as [Hk _].
  pose proof (bo_stage1 _ _ _ _ _ Hb) as Hl1. pose proof (bo_stage2 _ _ _ _ _ Hb) as Hl2.
  change STAGE2_BYTES with 4096 in Hl2. unfold Size.checks. cbn [Size.img Size.img_xz Size.iso Size.iso_xz Size.kernel_bin Size.stage1_bin Size.stage2_bin].
  rewrite (tree_lookup img iso (IMG +:+ ".xz")%string), (tree_lookup img iso (ISO_IMG +:+ ".xz")%string),
    (tree_lookup img iso KERNEL_BIN), (tree_lookup img iso STAGE1_BIN), (tree_lookup img iso STAGE2_BIN) by done.
  rewrite H1, H2, H3, lookup_insert_eq, lookup_insert_ne, lookup_insert_eq by done.
  assert (∀ (name : string) n limit, 0 ≤ n ≤ limit → Size.over_budget (name, n, limit) = false) as Hin
    by (intros; unfold Size.over_budget; cbn [fst snd]; by rw_bool).
  assert (∀ (name : string) (x : option bytes), Size.over_budget (name, Size.size ((λ d, len d) <$> x), Z.shiftl 64 10) = false ↔
    ∃ data, x = Some data ∧ len data ≤ 65536) as Hxz.
  { intros name x. unfold Size.over_budget, Size.size. cbn [fst snd]. change (Z.shiftl 64 10) with 65536.
    destruct x as [d|]; cbn [fmap option_fmap option_map].
    - split; [|intros (? & [= <-] & ?); by rw_bool]. exists d. split; [done|].
      apply negb_false_iff, andb_true_iff in H as [_ ?%Z.leb_le]. done.
    - split; [done|by intros (? & [=] & _)]. }
  cbn [List.filter fmap option_fmap option_map Size.size].
  rewrite (Hin "qizo.img"%string), (Hin "qizo.iso"%string), (Hin "kernel flat image"%string), (Hin "stage1"%string), (Hin "stage2"%string)
    by (change (Z.shiftl 4 20) with 4194304; change LY.KERNEL_MAX with 524288; change LY.STAGE2_BYTES with 4096; lia).
  pose proof (Hxz "qizo.img.xz"%string (fs !! (IMG +:+ ".xz")%string)) as Ha.
  pose proof (Hxz "qizo.iso.xz"%string (fs !! (ISO_IMG +:+ ".xz")%string)) as Hb'.
  split.
  - intros Hnil path Hpath.
    destruct (Size.over_budget ("qizo.img.xz"%string, _, _)); [done|].
    destruct (Size.over_budget ("qizo.iso.xz"%string, _, _)); [done|].
    apply elem_of_cons in Hpath as [->|[->|[]%not_elem_of_nil]%elem_of_cons]; [by apply Ha|by apply Hb'].
  - intros Hall. rewrite (proj2 Ha), (proj2 Hb'); [done|apply Hall..]; [apply elem_of_cons; right|]; apply list_elem_of_here.
Qed.
End build.

(** ** Theorems *)

(** The image builders write their output file and nothing else, and when
    they fail they leave every file as it was. *)
Theorem builders_write a image out volume fs :
  (match mkqizoimg a fs with
   | (Ok _, fs') => ∃ data, fs' = <[a_out a := data]> fs
   | (_, fs') => fs' = fs
   end) ∧
  (match mkqizoiso image out volume fs with
   | (Ok _, fs') => ∃ data, fs' = <[out := data]> fs
   | (_, fs') => fs' = fs
   end).
Proof. split; [apply mkqizoimg_writes|apply mkqizoiso_writes]. Qed.

(** C6 - The build goes through: on a tree whose boot code and kernel are
    acceptable, [make check] builds the disk image and the optical image, and the
    image check and the boot model succeed on them; the store gains these two
    files and nothing else, and the size report afterwards only depends on the
    compressed images, which must exist and fit 64 KiB. *)
Theorem make_check_passes fs o k blob total l sizes :
  tree_ok fs o k blob total l →
  ∃ img iso lines fs', make_check fs = (Ok lines, fs') ∧ fs' = <[ISO_IMG := iso]> (<[IMG := img]> fs) ∧
    disk o k blob total l img ∧ has iso (21 * 2048) img ∧
    ∃ report status, size_rule sizes fs' = (Ok (report, status), fs') ∧
      (status = 0 ↔ ∀ path, path ∈ [IMG +:+ ".xz"; ISO_IMG +:+ ".xz"]%string →
         ∃ data, fs !! path = Some data ∧ len data ≤ 65536).
Proof.
  intros Htree. destruct (make_check_ok _ _ _ _ _ _ Htree) as (img & iso & lines & Hm & Hd & Hi & Hil).
  exists img, iso, lines, (<[ISO_IMG := iso]> (<[IMG := img]> fs)). do 4 (split; [done|]).
  do 2 eexists. split; [unfold size_rule; rewrite (surjective_pairing (Size.main _ _)); reflexivity|].
  rewrite (proj1 (size_main_spec _ _)). exact (size_rows fs o k blob total l Htree img iso Hd Hil).
Qed.
End commands.

(** The example build, under the names of the rules. *)
Definition ex_make : options :=
  let o := ex_options false in
  Options (o_stage1 o) (o_stage2 o) (o_kernel_bin o)
    "0000000000100000 T __qizo_phys_base
0000000000100000 T qizo_pg_tables
0000000000100000 T qizo_idt
0000000000100002 T qizo_kmain
0000000000100004 T qizo_kernel_entry
0000000000100017 B __qizo_image_end
0000000000100080 B __qizo_bss_end
" IMG None 0 false "QIZO_BOOT".

Definition ex_tree : store :=
  {[ STAGE1_BIN := o_stage1 ex_make; STAGE2_BIN := o_stage2 ex_make; KERNEL_BIN := o_kernel_bin ex_make;
     KERNEL_ELF := b "ELF" ]}.

Lemma ex_tree_ok :
  tree_ok (λ _, ART.Completed 0 (o_kernel_nm ex_make)) (λ _, None) BM.ex_stage2_S
    ex_tree ex_make ex_span (ex_blob false) 4425 ex_layout.
Proof.
  split; try (apply (bool_decide_unpack _); by vm_compute).
  - reflexivity.
  - split; apply (bool_decide_unpack _); by vm_compute.
  - intros n Hn%list_elem_of_In. revert n Hn. apply Forall_forall. apply (bool_decide_unpack _). by vm_compute.
Qed.

Lemma make_check_passes_witness :
  ∃ img iso lines fs',
    make_check (λ _, ART.Completed 0 (o_kernel_nm ex_make)) (λ _, None) BM.ex_stage2_S ex_tree = (Ok lines, fs') ∧
    fs' = <[ISO_IMG := iso]> (<[IMG := img]> ex_tree) ∧
    disk ex_make ex_span (ex_blob false) 4425 ex_layout img ∧ has iso (21 * 2048) img ∧
    ∃ report status, size_rule (λ _, ""%string) fs' = (Ok (report, status), fs') ∧
      (status = 0 ↔ ∀ path, path ∈ [IMG +:+ ".xz"; ISO_IMG +:+ ".xz"]%string →
         ∃ data, ex_tree !! path = Some data ∧ len data ≤ 65536).
Proof. exact (make_check_passes _ _ _ _ _ _ _ _ _ (λ _, ""%string) ex_tree_ok). Defined.

End FILES.
