(* ===== verification/AsmRun.v ===== *)
(** * The assembly tests: [tools/qizoasm/qizoasmrun.py]

    [main] runs the test programs of [AsmText.v] and checks what they wrote:
    that the second stage unpacks the blob of an image to what the reference
    decompressor gives, that its page tables are right ([PageTables.v]), and that
    the gates of both interrupt tables are.  Assembling, linking and running a
    program is the [host], a parameter.  The theorems say what the gate checks
    stand for, what the blob of a built image is, and what a run that passes
    has established. *)

From S2P Require Export Image AsmText PageTables.

#[local] Ltac Zify.zify_post_hook ::= Z.to_euclidean_division_equations.

Module AR.

(** ** The host

    Running a program gives the file it wrote, if it wrote one, and what [nm]
    prints for it; or the host cannot assemble or run it. *)

Inductive outcome :=
  | Unsupported (detail : string)
  | Ran (dump : option bytes) (nm_out : string).

(** [assemble_run] and [assemble_run64]: from the word size, the name of the
    program and its text. *)
Abbreviation host := (bool → string → string → outcome).

Definition assemble_run (h : host) (name asm : string) : res (option bytes) :=
  match h false name asm with
  | Unsupported d => Raise (HostUnsupported d)
  | Ran dump _ => Ok dump
  end.

(** A line of [nm] with an address. *)
Definition sym_line (line : string) (syms : gmap string Z) : res (ctl (gmap string Z)) :=
  match ART.split_words line with
  | [address; _; name] =>
      v ← or_raise (ValueError "invalid literal for int() with base 16") (int16 address);
      Ok (Next (<[name := v]> syms))
  | _ => Ok (Next syms)
  end.

Definition assemble_run64 (h : host) (name asm : string) : res (option bytes * gmap string Z) :=
  match h true name asm with
  | Unsupported d => Raise (HostUnsupported d)
  | Ran dump out => syms ← for_each sym_line (split_on NL out) ∅; Ok (dump, syms)
  end.

(** [open(dump, "rb").read()] *)
Definition open_dump (dump : option bytes) : res bytes := or_raise OSError dump.

(** ** The kernel's gates *)

(** The fields of the gate of [vec]. *)
Record gate := Gate { g_off : Z; g_sel : Z; g_attr : Z; g_ist : Z; g_rsv : Z }.

Definition read_gate (data : bytes) (vec : Z) : res gate :=
  let gate := slice data (vec * 16) (vec * 16 + 16) in
  off_lo ← unpack_le 2 gate 0; sel ← unpack_le 2 gate 2; attr_w ← unpack_le 2 gate 4;
  off_mid ← unpack_le 2 gate 6; off_hi ← unpack_le 4 gate 8; rsv ← unpack_le 4 gate 12;
  Ok (Gate (Z.lor (Z.lor off_lo (Z.shiftl off_mid 16)) (Z.shiftl off_hi 32)) sel
    (Z.land (Z.shiftr attr_w 8) 0xFF) (Z.land attr_w 0x0F) rsv).

Definition stub_name (vec : Z) : string :=
  if vec <? 32 then "qizo_stub_" +:+ fmt_d vec else "qizo_irq_" +:+ fmt_d vec.

(** The first thing wrong with a gate. *)
Definition gate_problem (syms : gmap string Z) (vec : Z) (g : gate) : option string :=
  let want_name := stub_name vec in
  match syms !! want_name with
  | None => Some ("gate " +:+ fmt_d vec +:+ ": no stub symbol " +:+ want_name)
  | Some want =>
      if negb (g_off g =? want) then
        Some ("gate " +:+ fmt_d vec +:+ " points at 0x" +:+ fmt_x (g_off g) +:+ ", its stub is at 0x" +:+ fmt_x want)
      else if negb (g_sel g =? 0x08) then
        Some ("gate " +:+ fmt_d vec +:+ " loads selector 0x" +:+ fmt_x (g_sel g) +:+
              " instead of the 64 bit code segment")
      else if negb (g_attr g =? 0x8E) || PT.nonzero (g_ist g) then
        Some ("gate " +:+ fmt_d vec +:+ " has attributes " +:+ fmt_02x (g_attr g) +:+ " ist " +:+
              fmt_d (g_ist g) +:+ ", expected 8e ist 0")
      else if PT.nonzero (g_rsv g) then Some ("gate " +:+ fmt_d vec +:+ " has a non zero reserved word")
      else None
  end.

Definition gate_step (data : bytes) (syms : gmap string Z) (vec : Z) (bad : list string)
    : res (ctl (list string)) :=
  g ← read_gate data vec;
  match gate_problem syms vec g with
  | Some msg => Ok (Break (bad ++ [msg]))
  | None => Ok (Next bad)
  end.

Definition check_gates (data : bytes) (syms : gmap string Z) : res (list string) :=
  if len data <? 4096 then Ok ["idt dump truncated at " +:+ fmt_d (len data) +:+ " bytes"]%string
  else for_each (gate_step data syms) (range 0 256) [].

Definition idt_case (h : host) (text tmp : string) : res (list string) :=
  asm ← AT.idt_asm text (tmp +:+ "/idt.bin");
  r ← assemble_run64 h "idt" asm;
  let '(dump, syms) := r in
  data ← open_dump dump;
  check_gates data syms.

(** ** The fault report *)

(** [repr] of a byte string. *)
Definition repr_byte (q : ascii) (v : Z) : string :=
  if (v =? code q) || (v =? 92) then String (chr 92) (String (chr v) "")
  else if v =? 9 then "\t"
  else if v =? 10 then "\n"
  else if v =? 13 then "\r"
  else if (32 <=? v) && (v <? 127) then String (chr v) ""
  else "\x" +:+ fmt_02x v.
Definition repr_bytes (d : bytes) : string :=
  let q := if bool_decide (39 ∈ d) && negb (bool_decide (34 ∈ d)) then chr 34 else chr 39 in
  "b" +:+ String q (join "" (repr_byte q <$> d) +:+ String q "").

(** [b"F%016X%016X%016X%016X" % (13, 0, 0x100040, 0xDEADBEEF)] *)
Definition report_want : bytes :=
  b ("F" +:+ pad_left "0" 16 (fmt_X 13) +:+ pad_left "0" 16 (fmt_X 0) +:+
     pad_left "0" 16 (fmt_X 0x100040) +:+ pad_left "0" 16 (fmt_X 0xDEADBEEF)).

Definition fault_report_case (h : host) (src tmp : string) : res (list string) :=
  asm ← AT.fault_report_asm src (tmp +:+ "/report.txt");
  r ← assemble_run64 h "report" asm;
  got ← open_dump r.1;
  if starts_with got report_want then Ok []
  else Ok ["report printed " +:+ repr_bytes (slice got 0 (len report_want)) +:+ ", expected " +:+
           repr_bytes report_want +:+ "..."]%string.

(** ** The boot's fault gates *)

Definition fault_gate_problem (vec lo mid lo2 hi2 : Z) : option string :=
  let want_off := 0x20000 + vec * 16 in
  if negb (Z.land lo 0xFFFF =? Z.land want_off 0xFFFF) || negb (Z.shiftr lo 16 =? 0x0028) then
    Some ("gate " +:+ fmt_d vec +:+ " first word " +:+ fmt_08x lo +:+ ", expected offset " +:+
          pad_left "0" 4 (fmt_x (Z.land want_off 0xFFFF)) +:+ " with selector 0x0028")
  else if negb (Z.shiftr mid 16 =? Z.shiftr want_off 16) || negb (Z.land mid 0xFFFF =? 0x8E00) then
    Some ("gate " +:+ fmt_d vec +:+ " second word " +:+ fmt_08x mid +:+ ", expected offset " +:+
          pad_left "0" 4 (fmt_x (Z.shiftr want_off 16)) +:+ " with attributes 8e00")
  else if negb (bool_decide ((lo2, hi2) = (0, 0))) then
    Some ("gate " +:+ fmt_d vec +:+ " has a non zero high half")
  else None.

Definition fault_gate_step (data : bytes) (vec : Z) (bad : list string) : res (ctl (list string)) :=
  lo ← unpack_le 4 data (vec * 16); mid ← unpack_le 4 data (vec * 16 + 4);
  lo2 ← unpack_le 4 data (vec * 16 + 8); hi2 ← unpack_le 4 data (vec * 16 + 12);
  match fault_gate_problem vec lo mid lo2 hi2 with
  | Some msg => Ok (Break (bad ++ [msg]))
  | None => Ok (Next bad)
  end.

Definition check_fault_gates (data : bytes) : res (list string) :=
  if len data <? 512 then Ok ["idt dump truncated at " +:+ fmt_d (len data) +:+ " bytes"]%string
  else for_each (fault_gate_step data) (range 0 32) [].

Definition fault_gates_case (h : host) (src tmp : string) : res (list string) :=
  asm ← AT.fault_gates_asm src (tmp +:+ "/fidt.bin");
  dump ← assemble_run h "fidt" asm;
  data ← open_dump dump;
  check_fault_gates data.

(** ** The page tables *)

Definition pages_case (h : host) (src tmp : string) : res (list string) :=
  asm ← AT.pages_asm src (tmp +:+ "/tables.bin");
  dump ← assemble_run h "pages" asm;
  tables ← open_dump dump;
  if len tables <? 0x6000 then Ok ["page table dump truncated at " +:+ fmt_d (len tables) +:+ " bytes"]%string
  else PT.check_tables tables.

(** ** The blob *)

(** The loop of [blob_of]: trailing zeros are dropped. *)
Fixpoint drop_zeros (img : bytes) (off : Z) (n : nat) : res Z :=
  match n with
  | O => Ok off
  | S m =>
      x ← bget img (off + Z.of_nat n - 1);
      if x =? 0 then drop_zeros img off m else Ok (off + Z.of_nat n)
  end.

Definition blob_of (img : bytes) : res bytes :=
  lba ← LY.g "QIZO_BLOB_LBA";
  let off := lba * LY.SECTOR in
  max ← LY.g "QIZO_BLOB_MAX";
  let end_ := Z.min (off + max) (len img) in
  end_ ← (if off <? end_ then drop_zeros img off (Z.to_nat (end_ - off)) else Ok end_);
  Ok (slice img off end_).

(** ** The run

    [main] prints as it goes and catches [HostUnsupported] around its two
    halves, so it is written with the lines printed so far as a state that an
    exception keeps. *)

Definition prog (A : Type) : Type := list string → list string * res A.
Definition say (line : string) : prog unit := λ out, (out ++ [line], Ok tt).
Definition lift {A} (m : res A) : prog A := λ out, (out, m).
Definition done_ {A} (a : A) : prog A := lift (Ok a).
Definition and_then {A B} (m : prog A) (k : A → prog B) : prog B := λ out,
  let '(out, r) := m out in
  match r with Ok a => k a out | Raise e => (out, Raise e) | Diverge => (out, Diverge) end.
(** [try: m except HostUnsupported as exc: handler] *)
Definition try_host {A} (m : prog A) (handler : string → prog A) : prog A := λ out,
  let '(out, r) := m out in
  match r with Raise (HostUnsupported d) => handler d out | _ => (out, r) end.

Notation "x ⇐ m ; k" := (and_then m (λ x, k)) (at level 100, m at level 99, right associativity).

(** The body of [if problems: ...]: every problem, and where the files are. *)
Fixpoint report (label : string) (problems : list string) : prog unit :=
  match problems with
  | [] => done_ tt
  | line :: problems => _ ⇐ say ("qizo: " +:+ label +:+ ": " +:+ line); report label problems
  end.

(** A return from [main] out of the middle is [Some] status. *)
Definition fail_with (label : string) (problems : list string) (tmp : string) : prog (option Z) :=
  _ ⇐ report label problems; _ ⇐ say ("qizo: kept " +:+ tmp); done_ (Some 1).

(** [d.hex(" ")] *)
Definition hex (d : bytes) : string := join " " (fmt_02x <$> d).

Definition first_diff (got real : bytes) : Z :=
  let n := Z.min (len got) (len real) in
  default n (List.find (λ i, negb (bool_decide (got !! Z.to_nat i = real !! Z.to_nat i))) (range 0 n)).

(** The marker the kernel must open with. *)
Definition marker : bytes := [0xB0; 0x45; 0xBA; 0xF8; 0x03; 0x00; 0x00; 0xEE].

Section run.
Variables (h : host) (src idt_src tmp : string).

(** The first half: the 32 bit programs. *)
Definition boot_half (blob real : bytes) : prog (option Z) :=
  asm ⇐ lift (AT.decompress_asm src (tmp +:+ "/in.bin") (tmp +:+ "/out.bin"));
  dump ⇐ lift (assemble_run h "decomp" asm);
  let got := default [] dump in
  if negb (bool_decide (got = real)) then
    let bad := first_diff got real in
    _ ⇐ say ("qizo: stage2 decompressor DIFFERS at " +:+ fmt_d bad +:+ ": got " +:+ hex (slice got bad (bad + 8)) +:+
             " want " +:+ hex (slice real bad (bad + 8)) +:+ " (" +:+ fmt_d (len got) +:+ " bytes vs " +:+
             fmt_d (len real) +:+ ")");
    _ ⇐ say ("qizo: kept " +:+ tmp);
    done_ (Some 1)
  else
  _ ⇐ say ("qizo: stage2 decompressor reproduces the reference over " +:+ fmt_d (len real) +:+ " bytes");
  problems ⇐ lift (pages_case h src tmp);
  if bool_decide (problems ≠ []) then fail_with "stage2 page tables" problems tmp else
  _ ⇐ say "qizo: stage2 page tables identity map 4 GiB with 2 MiB pages, no reserved bits set";
  let head := slice real LY.QIZOK_HDR (LY.QIZOK_HDR + 8) in
  if negb (bool_decide (head = marker)) then
    _ ⇐ say ("qizo: kernel entry opens with " +:+ hex head +:+
             ", expected a COM1 write of its stage marker (" +:+ hex marker +:+ ")");
    _ ⇐ say ("qizo: kept " +:+ tmp);
    done_ (Some 1)
  else
  _ ⇐ say "qizo: kernel entry writes its marker to COM1 before it touches the stack";
  done_ None.

(** The second half: the 64 bit programs, and the boot's fault gates. *)
Definition fault_cases : list (string * (host → string → string → res (list string))) :=
  [("report", fault_report_case); ("gate build", fault_gates_case)]%string.

Fixpoint run_cases (cases : list (string * (host → string → string → res (list string)))) : prog (option Z) :=
  match cases with
  | [] => done_ None
  | (label, case_) :: cases =>
      problems ⇐ lift (case_ h src tmp);
      if bool_decide (problems ≠ []) then fail_with ("boot fault " +:+ label) problems tmp else
      _ ⇐ say ("qizo: boot fault " +:+ label +:+ " verified");
      run_cases cases
  end.

Definition kernel_half : prog (option Z) :=
  problems ⇐ lift (idt_case h idt_src tmp);
  if bool_decide (problems ≠ []) then fail_with "kernel idt" problems tmp else
  _ ⇐ say "qizo: kernel idt gates all point at their own stub, selector and type correct";
  run_cases fault_cases.

(** [main()], on the image: the lines it prints, and its exit status.  [say_exc]
    renders the exception of the reference decompressor. *)
Variable say_exc : exc → string.

Definition main (img : bytes) : prog Z :=
  blob ⇐ lift (blob_of img);
  match decompress blob with
  | Raise e =>
      _ ⇐ say ("qizo: reference decompressor refused the image blob: " +:+ say_exc e); done_ 1
  | Diverge => lift Diverge
  | Ok real =>
      r ⇐ try_host (boot_half blob real) (λ _,
        _ ⇐ say "qizo: skipping the boot asm test, this host cannot build or run 32 bit code";
        done_ (Some 0));
      match r with
      | Some status => done_ status
      | None =>
          r ⇐ try_host kernel_half (λ d,
            _ ⇐ say ("qizo: skipping the idt asm test, this host cannot build or run 64 bit harness code (HostUnsupported " +:+
                     str_take 80 (strip d) +:+ ")");
            done_ (Some 0));
          done_ (default 0 r)
      end
  end.
End run.

(** ** The gates *)

(** The gate that sends a vector to [off] in the segment [sel]: present, for
    privilege level 0, an interrupt gate; [x] has the stack index in its low
    bits and four bits the processor ignores above them. *)
Definition encode_gate (off sel x : Z) : bytes :=
  le_bytes 2 off ++ le_bytes 2 sel ++ [x; 0x8E] ++ le_bytes 2 (off / 2 ^ 16) ++ le_bytes 4 (off / 2 ^ 32) ++ zeros 4.

Lemma unpack_2 x y l o d :
  has l o ([x; y] ++ d) → 0 ≤ x < 256 → 0 ≤ y < 256 → unpack_le 2 l o = Ok (x + 256 * y).
Proof.
  intros [H _]%has_app Hx Hy. pose proof H as (? & Hle & Hs). cbn [length] in *.
  rewrite unpack_le_ok by lia. rewrite Hs.
  cbn [le_val]. f_equal. lia.
Qed.

Lemma unpack_4 x y z w l o d :
  has l o ([x; y; z; w] ++ d) → 0 ≤ x < 256 → 0 ≤ y < 256 → 0 ≤ z < 256 → 0 ≤ w < 256 →
  unpack_le 4 l o = Ok (x + 256 * y + 65536 * z + 16777216 * w).
Proof.
  intros [H _]%has_app Hx Hy Hz Hw. pose proof H as (? & Hle & Hs). cbn [length] in *.
  rewrite unpack_le_ok by lia. rewrite Hs.
  cbn [le_val]. f_equal. lia.
Qed.

(** The fields, from the bytes of the gate. *)
Lemma read_gate_fields data vec x0 x1 x2 x3 x4 x5 x6 x7 x8 x9 x10 x11 x12 x13 x14 x15 :
  let d := [x0; x1; x2; x3; x4; x5; x6; x7; x8; x9; x10; x11; x12; x13; x14; x15] in
  Bytes d → slice data (vec * 16) (vec * 16 + 16) = d →
  read_gate data vec = Ok (Gate
    (x0 + 256 * x1 + 65536 * (x6 + 256 * x7) + 4294967296 * (x8 + 256 * x9 + 65536 * x10 + 16777216 * x11))
    (x2 + 256 * x3) x5 (x4 mod 16) (x12 + 256 * x13 + 65536 * x14 + 16777216 * x15)).
Proof.
  intros d Hb Hs. unfold read_gate. rewrite Hs.
  assert (∀ k e, drop k d = e → (k ≤ 16)%nat → has d (Z.of_nat k) e) as Hdrop.
  { intros k e <- Hk. pose proof (has_intro d (Z.of_nat k) 16) as H. rewrite slice_over, Nat2Z.id in H by (simpl; lia).
    apply H; simpl; lia. }
  unfold d in Hb. repeat (apply Forall_cons_iff in Hb as [?%is_byte_spec Hb]).
  rewrite (unpack_2 x0 x1 d 0 [x2; x3; x4; x5; x6; x7; x8; x9; x10; x11; x12; x13; x14; x15]) by (lia || (apply (Hdrop 0%nat); [reflexivity|lia])).
  rewrite (unpack_2 x2 x3 d 2 [x4; x5; x6; x7; x8; x9; x10; x11; x12; x13; x14; x15]) by (lia || (apply (Hdrop 2%nat); [reflexivity|lia])).
  rewrite (unpack_2 x4 x5 d 4 [x6; x7; x8; x9; x10; x11; x12; x13; x14; x15]) by (lia || (apply (Hdrop 4%nat); [reflexivity|lia])).
  rewrite (unpack_2 x6 x7 d 6 [x8; x9; x10; x11; x12; x13; x14; x15]) by (lia || (apply (Hdrop 6%nat); [reflexivity|lia])).
  rewrite (unpack_4 x8 x9 x10 x11 d 8 [x12; x13; x14; x15]) by (lia || (apply (Hdrop 8%nat); [reflexivity|lia])).
  rewrite (unpack_4 x12 x13 x14 x15 d 12 []) by (lia || (apply (Hdrop 12%nat); [reflexivity|lia])).
  ok_bind. f_equal. f_equal.
  - rewrite Z.lor_comm, (Z.lor_comm (x0 + 256 * x1)), !lor_shiftl_add; change (2 ^ 16) with 65536; change (2 ^ 32) with 4294967296;
      try lia. rewrite lor_shiftl_add; change (2 ^ 16) with 65536; lia.
  - rewrite Z.shiftr_div_pow2 by lia. change 0xFF with (Z.ones 8). rewrite Z.land_ones by lia. change (2 ^ 8) with 256.
    rewrite (Z.mul_comm 256), Z.div_add, (Z.div_small x4) by lia. apply Z.mod_small. lia.
  - change 0x0F with (Z.ones 4). rewrite Z.land_ones by lia. change (2 ^ 4) with 16.
    replace (x4 + 256 * x5) with (x4 + 16 * x5 * 16) by lia. by rewrite Z.mod_add by lia.
Qed.

(** The gate of [vec] leads to its stub. *)
Definition gate_ok (data : bytes) (syms : gmap string Z) (vec : Z) : Prop :=
  ∃ want x, syms !! stub_name vec = Some want ∧ 0 ≤ want < 2 ^ 64 ∧ 0 ≤ x < 256 ∧ x mod 16 = 0 ∧
    slice data (vec * 16) (vec * 16 + 16) = encode_gate want 0x08 x.

(** Words from their bytes. *)
Lemma le_digits_2 x y : 0 ≤ x < 256 → 0 ≤ y < 256 → le_bytes 2 (x + 256 * y) = [x; y].
Proof.
  intros. cbn [le_bytes]. rewrite (Z.mul_comm 256), Z.mod_add, Z.div_add, (Z.div_small x), Z.add_0_l by lia.
  by rewrite !Z.mod_small by lia.
Qed.

Lemma le_digits_4 x y z w :
  0 ≤ x < 256 → 0 ≤ y < 256 → 0 ≤ z < 256 → 0 ≤ w < 256 →
  le_bytes 4 (x + 256 * y + 65536 * z + 16777216 * w) = [x; y; z; w].
Proof.
  intros. replace (x + 256 * y + 65536 * z + 16777216 * w) with (x + (y + (z + w * 256) * 256) * 256) by lia.
  cbn [le_bytes]. rewrite !Z.mod_add, !Z.div_add, (Z.div_small x), !Z.add_0_l by lia.
  rewrite !Z.mod_add, !Z.div_add, (Z.div_small y), !Z.add_0_l by lia.
  rewrite !Z.mod_add, !Z.div_add, (Z.div_small z), !Z.add_0_l by lia.
  by rewrite !Z.mod_small by lia.
Qed.

(** The parts of a handler's address. *)
Lemma offset_parts lo mid hi :
  0 ≤ lo < 65536 → 0 ≤ mid < 65536 →
  let off := lo + 65536 * mid + 4294967296 * hi in
  off mod 65536 = lo ∧ (off / 65536) mod 65536 = mid ∧ off / 4294967296 = hi.
Proof.
  intros Hlo Hmid off. unfold off.
  replace (lo + 65536 * mid + 4294967296 * hi) with (lo + (mid + hi * 65536) * 65536) by lia.
  rewrite Z.mod_add, Z.div_add, (Z.div_small lo), (Z.mod_small lo) by lia. split_and!; [done|..].
  - rewrite Z.add_0_l, Z.mod_add by lia. by apply Z.mod_small.
  - change 4294967296 with (65536 * 65536). rewrite <-Z.div_div by lia.
    rewrite Z.div_add, (Z.div_small lo), Z.add_0_l, Z.div_add, (Z.div_small mid) by lia. lia.
Qed.

Lemma le_bytes_mod n v : le_bytes n (v mod 256 ^ Z.of_nat n) = le_bytes n v.
Proof.
  revert v. induction n as [|n IH]; intros v; [done|]. cbn [le_bytes]. rewrite pow_256, Z.rem_mul_r by lia.
  rewrite (Z.mul_comm 256), Z.mod_add, Z.div_add, Z.mod_mod by lia.
  rewrite (Z.div_small (v mod 256)) by (apply Z.mod_pos_bound; lia). by rewrite Z.add_0_l, IH.
Qed.

(** The address in a gate whose bytes are known. *)
Definition gate_off (x0 x1 x6 x7 x8 x9 x10 x11 : Z) : Z :=
  x0 + 256 * x1 + 65536 * (x6 + 256 * x7) + 4294967296 * (x8 + 256 * x9 + 65536 * x10 + 16777216 * x11).

Lemma encode_parts x0 x1 x6 x7 x8 x9 x10 x11 sel x :
  Bytes [x0; x1; x6; x7; x8; x9; x10; x11] →
  encode_gate (gate_off x0 x1 x6 x7 x8 x9 x10 x11) sel x =
    [x0; x1] ++ le_bytes 2 sel ++ [x; 0x8E] ++ [x6; x7; x8; x9; x10; x11; 0; 0; 0; 0].
Proof.
  intros Hb. repeat (apply Forall_cons_iff in Hb as [?%is_byte_spec Hb]). unfold encode_gate, gate_off.
  change (2 ^ 16) with 65536. change (2 ^ 32) with 4294967296.
  set (hi := x8 + 256 * x9 + 65536 * x10 + 16777216 * x11).
  destruct (offset_parts (x0 + 256 * x1) (x6 + 256 * x7) hi) as (Ho1 & Ho2 & Ho3); [lia|lia|]. cbv zeta in *.
  set (off := x0 + 256 * x1 + 65536 * (x6 + 256 * x7) + 4294967296 * hi) in *.
  rewrite <-(le_bytes_mod 2 off), <-(le_bytes_mod 2 (off / 65536)).
  change (256 ^ Z.of_nat 2) with 65536. rewrite Ho1, Ho2, Ho3. unfold hi.
  by rewrite !le_digits_2, le_digits_4 by lia.
Qed.

Lemma gate_off_digits v : 0 ≤ v < 2 ^ 64 →
  ∃ x0 x1 x6 x7 x8 x9 x10 x11, Bytes [x0; x1; x6; x7; x8; x9; x10; x11] ∧ v = gate_off x0 x1 x6 x7 x8 x9 x10 x11.
Proof.
  intros Hv. pose proof (le_bytes_Bytes 8 v) as Hb. assert (le_val (le_bytes 8 v) = v) as He
    by (apply le_val_pack, fits_spec; exact Hv).
  cbn [le_bytes le_val] in *. do 8 eexists. split; [exact Hb|]. unfold gate_off. rewrite <-He at 1. lia.
Qed.

Lemma gate_exact data syms vec :
  Bytes data → 0 ≤ vec → vec * 16 + 16 ≤ len data →
  ∃ g, read_gate data vec = Ok g ∧ (gate_problem syms vec g = None ↔ gate_ok data syms vec).
Proof.
  intros Hb Hv Hlen. pose proof (slice_Bytes data (vec * 16) (vec * 16 + 16) Hb) as Hd.
  assert (length (slice data (vec * 16) (vec * 16 + 16)) = 16%nat) as Hl by (rewrite length_slice; lia).
  unfold gate_ok. remember (slice data (vec * 16) (vec * 16 + 16)) as d eqn:E. symmetry in E.
  destruct d as [|x0 [|x1 [|x2 [|x3 [|x4 [|x5 [|x6 [|x7 [|x8 [|x9 [|x10 [|x11 [|x12 [|x13 [|x14 [|x15 [|??]]]]]]]]]]]]]]]]];
    try discriminate.
  eexists. split; [by apply read_gate_fields|]. clear E Hl.
  fold (gate_off x0 x1 x6 x7 x8 x9 x10 x11).
  assert (Bytes [x0; x1; x6; x7; x8; x9; x10; x11]) as Hoff
    by (clear -Hd; repeat (apply Forall_cons_iff in Hd as [? Hd]); by repeat constructor).
  repeat (apply Forall_cons_iff in Hd as [?%is_byte_spec Hd]). clear Hd. unfold gate_problem, PT.nonzero.
  cbn [g_off g_sel g_attr g_ist g_rsv]. destruct (syms !! stub_name vec) as [want|]; cycle 1.
  { split; [done|]. by intros (? & ? & [=] & _). }
  split.
  - intros Hp. exists want, x4. case_bool; cbn [negb orb] in Hp; try discriminate. subst want.
    rewrite encode_parts by done. change (2 ^ 64) with 18446744073709551616.
    split_and!; [done|unfold gate_off; lia|unfold gate_off; lia|lia|lia|lia|].
    assert (x2 = 8 ∧ x3 = 0) as [-> ->] by lia. subst x5.
    assert (x12 = 0 ∧ x13 = 0 ∧ x14 = 0 ∧ x15 = 0) as (-> & -> & -> & ->) by lia. done.
  - intros (w & x & [= <-] & Hw & Hx & Hm & Henc).
    apply gate_off_digits in Hw as (y0 & y1 & y6 & y7 & y8 & y9 & y10 & y11 & Hy & ->).
    rewrite encode_parts in Henc by done. change (le_bytes 2 8) with [8; 0] in Henc. cbn [app] in Henc.
    injection Henc as -> -> -> -> -> -> -> -> -> -> -> -> -> -> -> ->.
    rewrite Z.eqb_refl, Hm. done.
Qed.

Lemma gate_step_reports data syms : PT.reports (gate_step data syms).
Proof.
  intros vec bad c. unfold gate_step. intros (g & _ & H)%bind_Ok.
  case_match; injection H as <-; [by eexists [], _|]. exists []. by rewrite (right_id_L [] (++)).
Qed.

(** ** The boot's fault gates *)

(** The gate the boot must build for [vec]. *)
Definition boot_gate (vec : Z) : bytes :=
  le_bytes 2 (vec * 16) ++ le_bytes 2 0x28 ++ le_bytes 2 0x8E00 ++ le_bytes 2 2 ++ zeros 8.

Lemma halves_of v a c : 0 ≤ v → Z.land v 0xFFFF = a → Z.shiftr v 16 = c → v = a + 65536 * c.
Proof.
  intros Hv. change 0xFFFF with (Z.ones 16). rewrite Z.land_ones, Z.shiftr_div_pow2 by lia.
  change (2 ^ 16) with 65536. intros <- <-. pose proof (Z.div_mod v 65536). lia.
Qed.

Lemma halves_of_sum a c : 0 ≤ a < 65536 → Z.land (a + 65536 * c) 0xFFFF = a ∧ Z.shiftr (a + 65536 * c) 16 = c.
Proof.
  intros. change 0xFFFF with (Z.ones 16). rewrite Z.land_ones, Z.shiftr_div_pow2 by lia. change (2 ^ 16) with 65536.
  rewrite (Z.mul_comm 65536), Z.mod_add, Z.div_add, (Z.div_small a), (Z.mod_small a) by lia. lia.
Qed.

Lemma fault_gate_exact data vec :
  Bytes data → 0 ≤ vec < 32 → vec * 16 + 16 ≤ len data →
  ∃ lo mid lo2 hi2, unpack_le 4 data (vec * 16) = Ok lo ∧ unpack_le 4 data (vec * 16 + 4) = Ok mid ∧
    unpack_le 4 data (vec * 16 + 8) = Ok lo2 ∧ unpack_le 4 data (vec * 16 + 12) = Ok hi2 ∧
    (fault_gate_problem vec lo mid lo2 hi2 = None ↔ slice data (vec * 16) (vec * 16 + 16) = boot_gate vec).
Proof.
  intros Hb Hv Hlen. set (o := vec * 16) in *.
  assert (∀ k, 0 ≤ k → k + 4 ≤ 16 → ∃ v, unpack_le 4 data (o + k) = Ok v ∧ 0 ≤ v < 4294967296 ∧
    slice data (o + k) (o + k + 4) = le_bytes 4 v) as Hw.
  { intros k Hk Hk4. exists (le_val (slice data (o + k) (o + k + 4))). pose proof (slice_Bytes data (o + k) (o + k + 4) Hb) as Hs.
    pose proof (le_val_bounds _ Hs) as Hr. pose proof (le_bytes_le_val _ Hs) as He.
    assert (length (slice data (o + k) (o + k + 4)) = 4%nat) as Hl by (rewrite length_slice; lia). rewrite Hl in *.
    split_and!; [apply unpack_le_ok; lia|apply Hr|apply Hr|by rewrite He]. }
  destruct (Hw 0) as (lo & H0 & Hlo & S0); [lia|lia|]. destruct (Hw 4) as (mid & H4 & Hmid & S4); [lia|lia|].
  destruct (Hw 8) as (lo2 & H8 & Hlo2 & S8); [lia|lia|]. destruct (Hw 12) as (hi2 & H12 & Hhi2 & S12); [lia|lia|].
  rewrite Z.add_0_r in H0, S0. exists lo, mid, lo2, hi2. split_and!; try done.
  rewrite (slice_split data o (o + 4)), (slice_split data (o + 4) (o + 8)), (slice_split data (o + 8) (o + 12)) by lia.
  rewrite S0. replace (o + 8) with (o + 4 + 4) at 1 by lia. rewrite S4.
  replace (o + 12) with (o + 8 + 4) at 1 by lia. rewrite S8. replace (o + 16) with (o + 12 + 4) by lia. rewrite S12.
  assert (boot_gate vec = le_bytes 4 (o + 65536 * 0x28) ++ le_bytes 4 (0x8E00 + 65536 * 2) ++ le_bytes 4 0 ++ le_bytes 4 0) as ->.
  { unfold boot_gate. fold o. assert (∃ x y, o = x + 256 * y ∧ 0 ≤ x < 256 ∧ 0 ≤ y < 256) as (x & y & -> & Hx & Hy)
      by (exists (o mod 256), (o / 256); lia).
    replace (x + 256 * y + 65536 * 40) with (x + 256 * y + 65536 * 40 + 16777216 * 0) by lia.
    by rewrite le_digits_2, le_digits_4 by lia. }
  unfold fault_gate_problem. fold o.
  assert (Z.land (0x20000 + o) 0xFFFF = o ∧ Z.shiftr (0x20000 + o) 16 = 2) as [-> ->].
  { replace (0x20000 + o) with (o + 65536 * 2) by lia. apply halves_of_sum. lia. }
  split.
  - intros H. case_bool; cbn [negb orb] in H; try discriminate. case_bool_decide as H2; [|done]. injection H2 as -> ->.
    rewrite (halves_of lo o 0x28), (halves_of mid 0x8E00 2) by (done || lia). done.
  - intros H. apply app_inj_1 in H as [E0 H]; [|by rewrite !length_le_bytes].
    apply app_inj_1 in H as [E4 H]; [|by rewrite !length_le_bytes]. apply app_inj_1 in H as [E8 E12]; [|by rewrite !length_le_bytes].
    apply (f_equal le_val) in E0, E4, E8, E12. rewrite !le_val_pack in E0, E4, E8, E12 by (apply fits_spec; change (256 ^ Z.of_nat 4) with 4294967296; lia).
    subst. destruct (halves_of_sum o 0x28) as [-> ->]; [lia|]. by rewrite Z.eqb_refl.
Qed.

Lemma fault_gate_step_reports data : PT.reports (fault_gate_step data).
Proof.
  intros vec bad c. unfold fault_gate_step. intros (lo & _ & H)%bind_Ok. do 3 (apply bind_Ok in H as (? & _ & H)).
  case_match; injection H as <-; [by eexists [], _|]. exists []. by rewrite (right_id_L [] (++)).
Qed.

(** ** The blob of an image *)

Lemma drop_zeros_spec img off n p x :
  0 ≤ off → off + Z.of_nat n ≤ len img → off ≤ p < off + Z.of_nat n → bget img p = Ok x → x ≠ 0 →
  ∃ e, drop_zeros img off n = Ok e ∧ p < e ≤ off + Z.of_nat n.
Proof.
  intros Hoff. revert p. induction n as [|n IH]; intros p Hlen Hp Hx Hnz; [lia|]. cbn [drop_zeros].
  replace (off + Z.of_nat (S n) - 1) with (off + Z.of_nat n) by lia.
  destruct (bget_ok img (off + Z.of_nat n)) as (y & _ & Hy); [lia|]. rewrite Hy. ok_bind.
  destruct (Z.eqb_spec y 0) as [->|]; [|eexists; split; [done|lia]].
  destruct (decide (p = off + Z.of_nat n)) as [->|]; [congruence|].
  destruct (IH p) as (e & -> & ?); [lia|lia|done|done|]. exists e. split; [done|lia].
Qed.

Lemma blob_of_disk o k blob total l img :
  build_ok o k blob total l → disk o k blob total l img → sectors_of blob < 248 →
  ∃ rest, blob_of img = Ok (pad_sectors blob ++ rest).
Proof.
  intros Hok Hd Hs. pose proof (build_ok_layout _ _ _ _ _ Hok) as Hlo.
  pose proof (sectors_bound _ (bo_blob_max _ _ _ _ _ Hok)) as Hbs.
  pose proof (layout_ok_pos _ _ _ Hlo (proj1 Hbs)) as (_ & _ & _ & Htot).
  destruct (d_volume _ _ _ _ _ _ Hd) as [fat Hvol]. pose proof (v_boot _ _ _ _ _ _ Hvol) as Hboot.
  pose proof (d_len _ _ _ _ _ _ Hd) as Hlen. pose proof (d_blob _ _ _ _ _ _ Hd) as Hblob.
  pose proof (pad_sectors_length blob) as Hpl. rewrite (lo_part _ _ _ Hlo) in Hboot.
  change SECTOR with 512 in *. change BLOB_LBA with 24 in *. set (n := sectors_of blob) in *.
  assert (bget img ((24 + n) * 512) = Ok 0xEB) as Hx.
  { rewrite <-(Z.add_0_r ((24 + n) * 512)). by apply (has_bget _ _ _ 0 _ Hboot). }
  unfold blob_of. change (LY.g "QIZO_BLOB_LBA") with (Ok 24 : res Z). change (LY.g "QIZO_BLOB_MAX") with (Ok 126976 : res Z).
  ok_bind. change LY.SECTOR with 512. rewrite Z.min_l by lia. rw_bool.
  destruct (drop_zeros_spec img (24 * 512) (Z.to_nat (24 * 512 + 126976 - 24 * 512)) ((24 + n) * 512) 0xEB) as (e & -> & He);
    [lia|lia|lia|done|done|]. ok_bind.
  exists (slice img ((24 + n) * 512) e). f_equal. rewrite (slice_split img (24 * 512) ((24 + n) * 512)) by lia.
  f_equal. apply (has_slice _ _ _ _ Hblob). lia.
Qed.

(** ** Runs *)

Lemma and_then_Ok {A B} (m : prog A) (k : A → prog B) out out' r :
  and_then m k out = (out', Ok r) → ∃ out1 a, m out = (out1, Ok a) ∧ k a out1 = (out', Ok r).
Proof. unfold and_then. destruct (m out) as [out1 [a|e|]]; [by eauto|by intros [=]..]. Qed.

Lemma lift_Ok {A} (m : res A) out out' r : lift m out = (out', Ok r) → out' = out ∧ m = Ok r.
Proof. by intros [= -> ->]. Qed.

Lemma say_Ok line out out' r : say line out = (out', Ok r) → out' = out ++ [line].
Proof. by intros [= <-]. Qed.

Lemma fail_with_Ok label problems tmp out out' r : fail_with label problems tmp out = (out', Ok r) → r = Some 1.
Proof.
  unfold fail_with. intros (o1 & [] & _ & H)%and_then_Ok. apply and_then_Ok in H as (o2 & [] & _ & H).
  by apply lift_Ok in H as [_ [= <-]].
Qed.

(** A handler that prints a line and returns: the line is the last one. *)
Lemma try_host_Ok {A} (m : prog A) (line : string → string) (a : A) out out' r :
  try_host m (λ d, _ ⇐ say (line d); done_ a) out = (out', Ok r) →
  m out = (out', Ok r) ∨ r = a ∧ ∃ d out1, out' = out1 ++ [line d].
Proof.
  unfold try_host. destruct (m out) as [o1 [a'|[]|]]; try by intros [= <- <-]; left.
  intros H. right. unfold and_then, say, done_, lift in H. injection H as <- <-. eauto.
Qed.

(** Decompose a run of which the result is known. *)
Ltac run_step H :=
  match type of H with
  | and_then (lift _) _ _ = _ =>
      let o := fresh "o" in let x := fresh "x" in let Hx := fresh "Hx" in
      apply and_then_Ok in H as (o & x & Hx & H); apply lift_Ok in Hx as [-> Hx]
  | and_then (say _) _ _ = _ =>
      let o := fresh "o" in let x := fresh "x" in let Hx := fresh "Hx" in
      apply and_then_Ok in H as (o & x & Hx & H); apply say_Ok in Hx as ->
  | done_ _ _ = _ => apply lift_Ok in H as [-> H]; apply Ok_inj in H
  end.

Section runs.
Variables (h : host) (src idt_src tmp : string).

(** What the programs of the first half wrote. *)
Definition boot_passed (real : bytes) : Prop :=
  (∃ asm d nm, AT.decompress_asm src (tmp +:+ "/in.bin") (tmp +:+ "/out.bin") = Ok asm ∧
     h false "decomp" asm = Ran d nm ∧ default [] d = real) ∧
  pages_case h src tmp = Ok [] ∧ slice real LY.QIZOK_HDR (LY.QIZOK_HDR + 8) = marker.

Lemma boot_half_inv blob real out out' r :
  boot_half h src tmp blob real out = (out', Ok r) → r = Some 1 ∨ r = None ∧ boot_passed real.
Proof.
  unfold boot_half. intros H. run_step H. rename x into asm, Hx into Hasm. run_step H. cbv zeta in H.
  unfold assemble_run in Hx. destruct (h false "decomp" asm) as [|d nm] eqn:Hh; [done|]. injection Hx as <-.
  case_bool_decide as Hgot; cbn [negb] in H; [|left; do 3 run_step H; done].
  run_step H. run_step H. case_bool_decide as Hp; [left; by apply fail_with_Ok in H|].
  run_step H. case_bool_decide as Hm; cbn [negb] in H; [|left; do 3 run_step H; done].
  run_step H. run_step H. right. split; [done|]. split_and!; [by eauto 7| |done].
  destruct x0 as [|]; [done|]. by destruct Hp.
Qed.

(** And those of the second half. *)
Definition kernel_passed : Prop :=
  idt_case h idt_src tmp = Ok [] ∧ fault_report_case h src tmp = Ok [] ∧ fault_gates_case h src tmp = Ok [].

Lemma kernel_half_inv out out' r :
  kernel_half h src idt_src tmp out = (out', Ok r) → r = Some 1 ∨ r = None ∧ kernel_passed.
Proof.
  unfold kernel_half. intros H. run_step H. case_bool_decide as Hp; [left; by apply fail_with_Ok in H|].
  subst x. run_step H. unfold fault_cases in H. cbn [run_cases] in H.
  run_step H. case_bool_decide as Hp2; [left; by apply fail_with_Ok in H|]. subst.
  run_step H. run_step H. case_bool_decide as Hp3; [left; by apply fail_with_Ok in H|]. subst.
  run_step H. run_step H. right. done.
Qed.

(** The last line of a run that skipped nothing. *)
Definition last_line : string := "qizo: boot fault gate build verified".

Lemma main_inv say_exc img out :
  main h src idt_src tmp say_exc img [] = (out, Ok 0) → list.last out = Some last_line →
  ∃ blob real, blob_of img = Ok blob ∧ decompress blob = Ok real ∧ boot_passed real ∧ kernel_passed.
Proof.
  unfold main. intros H Hlast. run_step H. destruct (decompress x) as [real|e|] eqn:Hd; cycle 1.
  { run_step H. by run_step H. } { by apply lift_Ok in H as [_ ?]. }
  apply and_then_Ok in H as (o1 & r & Hr & H).
  apply try_host_Ok in Hr as [Hr|[-> (d & o2 & ->)]].
  2: { apply lift_Ok in H as [-> _]. rewrite last_snoc in Hlast. discriminate. }
  apply boot_half_inv in Hr as [->|[-> Hboot]]; [by apply lift_Ok in H as [_ ?]|].
  apply and_then_Ok in H as (o3 & r & Hr & H). run_step H.
  apply try_host_Ok in Hr as [Hr|[-> (d & o2 & ->)]].
  2: { rewrite last_snoc in Hlast. discriminate. }
  apply kernel_half_inv in Hr as [->|[-> Hk]]; [done|]. exists x, real. split_and!; assumption.
Qed.
End runs.

(** ** The checks of the dumps *)

Lemma check_gates_spec data syms :
  Bytes data → check_gates data syms = Ok [] ↔ 4096 ≤ len data ∧ ∀ vec, 0 ≤ vec < 256 → gate_ok data syms vec.
Proof.
  intros Hb. unfold check_gates. destruct (Z.ltb_spec (len data) 4096) as [Hlt|Hge].
  { split; [done|]. intros [? _]. lia. }
  split.
  - intros H. split; [done|]. apply PT.reports_nothing in H as [_ H]; [|apply gate_step_reports]. intros vec Hv.
    specialize (H vec (proj2 (elem_of_range 0 256 vec) Hv)). unfold gate_step in H.
    destruct (gate_exact data syms vec) as (g & Hg & <-); [done|lia|lia|]. rewrite Hg in H. cbn [mbind res_bind] in H.
    by destruct (gate_problem syms vec g).
  - intros [_ H]. apply PT.for_each_quiet. intros vec Hv%elem_of_range. unfold gate_step.
    destruct (gate_exact data syms vec) as (g & -> & Hiff); [done|lia|lia|]. ok_bind.
    by rewrite (proj2 Hiff (H vec Hv)).
Qed.

Lemma check_fault_gates_spec data :
  Bytes data → check_fault_gates data = Ok [] ↔
    512 ≤ len data ∧ ∀ vec, 0 ≤ vec < 32 → slice data (vec * 16) (vec * 16 + 16) = boot_gate vec.
Proof.
  intros Hb. unfold check_fault_gates. destruct (Z.ltb_spec (len data) 512) as [Hlt|Hge].
  { split; [done|]. intros [? _]. lia. }
  split.
  - intros H. split; [done|]. apply PT.reports_nothing in H as [_ H]; [|apply fault_gate_step_reports]. intros vec Hv.
    specialize (H vec (proj2 (elem_of_range 0 32 vec) Hv)). unfold fault_gate_step in H.
    destruct (fault_gate_exact data vec) as (a & c & d & e & Ha & Hc & Hd & He & <-); [done|lia|lia|].
    rewrite Ha, Hc, Hd, He in H. cbn [mbind res_bind] in H. by destruct (fault_gate_problem vec a c d e).
  - intros [_ H]. apply PT.for_each_quiet. intros vec Hv%elem_of_range. unfold fault_gate_step.
    destruct (fault_gate_exact data vec) as (a & c & d & e & -> & -> & -> & -> & Hiff); [done|lia|lia|]. ok_bind.
    by rewrite (proj2 Hiff (H vec Hv)).
Qed.

(** ** Theorems *)

(** C30 - The interrupt gates of the kernel are checked completely: nothing is
    reported exactly when the dump holds 256 gates and every one of them is, byte
    for byte, a present interrupt gate for privilege level 0 in the 64 bit code
    segment, without an alternate stack, that leads to the vector's own stub. *)
Theorem check_gates_exact data syms :
  Bytes data → check_gates data syms = Ok [] ↔ 4096 ≤ len data ∧ ∀ vec, 0 ≤ vec < 256 → gate_ok data syms vec.
Proof. apply check_gates_spec. Qed.

(** A table of 256 gates, and what [nm] prints for their stubs. *)
Definition ex_gates : bytes := range 0 256 ≫= λ vec, encode_gate (0x401000 + vec * 16) 0x08 0.
Definition ex_nm : string :=
  join (String NL "") ((λ vec, fmt_x (0x401000 + vec * 16) +:+ " t " +:+ stub_name vec) <$> range 0 256).
Definition ex_syms : gmap string Z :=
  ok_or ∅ (for_each sym_line (split_on NL ex_nm) (∅ : gmap string Z)).

Lemma check_gates_exact_witness :
  check_gates ex_gates ex_syms = Ok [] ∧ gate_ok ex_gates ex_syms 13.
Proof.
  assert (check_gates ex_gates ex_syms = Ok []) as H by by vm_compute. split; [exact H|].
  apply (check_gates_exact ex_gates ex_syms); [apply (bool_decide_unpack _); by vm_compute|exact H|by split].
Defined.

(** The fault gates of the boot are checked completely: nothing is reported
    exactly when the dump holds, for each of the 32 vectors, the gate that sends
    it to its stub in the segment 0x28. *)
Theorem check_fault_gates_exact data :
  Bytes data → check_fault_gates data = Ok [] ↔
    512 ≤ len data ∧ ∀ vec, 0 ≤ vec < 32 → slice data (vec * 16) (vec * 16 + 16) = boot_gate vec.
Proof. apply check_fault_gates_spec. Qed.

Definition ex_fault_gates : bytes := range 0 32 ≫= boot_gate.

Lemma check_fault_gates_exact_witness :
  check_fault_gates ex_fault_gates = Ok [] ∧ slice ex_fault_gates (3 * 16) (3 * 16 + 16) = boot_gate 3.
Proof.
  assert (check_fault_gates ex_fault_gates = Ok []) as H by by vm_compute. split; [exact H|].
  apply (check_fault_gates_exact ex_fault_gates); [apply (bool_decide_unpack _); by vm_compute|exact H|by split].
Defined.

(** [blob_of] takes the blob of a built image for the whole area reserved
    for blobs, volume included; unless the blob fills that area, the reference
    decompressor still gives the module that was packed. *)
Theorem blob_of_build o k blob total l :
  build_ok o k blob total l → o_raw o = false → Bytes (o_kernel_bin o) → sectors_of blob < 248 →
  ∃ img lines data, Image.main o = Ok (img, lines) ∧ blob_of img = Ok data ∧
    decompress data = Ok (header_bytes k ++ o_kernel_bin o).
Proof.
  intros Hok Hraw Hbk Hs. destruct (main_spec _ _ _ _ _ Hok) as (img & lines & Hm & Hd).
  destruct (blob_of_disk _ _ _ _ _ _ Hok Hd Hs) as [rest Hb].
  exists img, lines, (pad_sectors blob ++ rest). split_and!; [done|done|].
  pose proof (build_ok_span _ _ _ _ _ Hok) as Hsp.
  pose proof (kernel_of_inv _ _ _ _ (bo_kernel _ _ _ _ _ Hok)) as (Hkl & _).
  destruct (payload_fits k _ Hsp Hkl Hbk) as [Hpb Hpf].
  pose proof (bo_blob _ _ _ _ _ Hok) as Hp. rewrite Hraw in Hp. cbn [pack_blob] in Hp.
  unfold pad_sectors. rewrite <-(assoc_L (++)). by apply codec_decodes.
Qed.

Lemma blob_of_build_witness :
  ∃ img lines data, Image.main (ex_options false) = Ok (img, lines) ∧ blob_of img = Ok data ∧
    decompress data = Ok (header_bytes ex_span ++ o_kernel_bin (ex_options false)).
Proof.
  apply (blob_of_build (ex_options false) ex_span (ex_blob false) 4425 ex_layout);
    [apply ex_build_ok|done|apply (bool_decide_unpack _); by vm_compute|by vm_compute].
Defined.

(** C24 - What a run that passes has established, whatever the host: when the
    tool returns 0 and its last line says that the last test was verified, the
    second stage unpacked the blob of the image to what the reference gives, its
    page tables are an identity mapping, the kernel opens with its marker, and
    both interrupt tables the programs wrote hold the right gates. *)
Theorem run_sound (h : host) src idt_src tmp say_exc img out :
  (∀ w name asm d nm, h w name asm = Ran (Some d) nm → Bytes d) →
  main h src idt_src tmp say_exc img [] = (out, Ok 0) → list.last out = Some last_line →
  ∃ blob real, blob_of img = Ok blob ∧ decompress blob = Ok real ∧
    slice real LY.QIZOK_HDR (LY.QIZOK_HDR + 8) = marker ∧
    (∃ asm d nm, h false "decomp" asm = Ran d nm ∧ default [] d = real) ∧
    (∃ asm tables nm base, h false "pages" asm = Ran (Some tables) nm ∧ ∀ la, 0 ≤ la < 2 ^ 48 →
       PT.walk tables base la = if la <? 2 ^ 32 then Some la else None) ∧
    (∃ asm data nm syms, h true "idt" asm = Ran (Some data) nm ∧ ∀ vec, 0 ≤ vec < 256 → gate_ok data syms vec) ∧
    (∃ asm data nm, h false "fidt" asm = Ran (Some data) nm ∧
       ∀ vec, 0 ≤ vec < 32 → slice data (vec * 16) (vec * 16 + 16) = boot_gate vec).
Proof.
  intros Hb Hm Hlast. destruct (main_inv _ _ _ _ _ _ _ Hm Hlast) as (blob & real & H1 & H2 & (H3 & H4 & H5) & H6 & _ & H8).
  exists blob, real. split; [exact H1|]. split; [exact H2|]. split; [exact H5|].
  split; [destruct H3 as (asm & d & nm & _ & ? & ?); exists asm, d, nm; split; assumption|]. split; [|split].
  - unfold pages_case in H4. apply bind_Ok in H4 as (asm & _ & H). apply bind_Ok in H as (dump & Hr & H).
    apply bind_Ok in H as (tables & Hd & H). unfold open_dump, or_raise in Hd. destruct dump as [d|]; [|done].
    injection Hd as ->. unfold assemble_run in Hr. destruct (h false "pages" asm) as [|d nm] eqn:Hh; [done|]. injection Hr as ->.
    destruct (len tables <? 0x6000); [done|]. assert (∃ base, PT.table_base tables = Ok base) as [base Hbase].
    { unfold PT.check_tables in H. apply bind_Ok in H as (base & ? & _). by exists base. }
    exists asm, tables, nm, base. split; [exact Hh|]. intros la Hla. apply PT.walk_mapped; [by eapply Hb| |exact Hla].
    by apply PT.check_tables_mapped.
  - unfold idt_case in H6. apply bind_Ok in H6 as (asm & _ & H). apply bind_Ok in H as ([dump syms] & Hr & H).
    apply bind_Ok in H as (data & Hd & H). unfold open_dump, or_raise in Hd. destruct dump as [d|]; [|done].
    injection Hd as ->. unfold assemble_run64 in Hr. destruct (h true "idt" asm) as [|d nm] eqn:Hh; [done|].
    apply bind_Ok in Hr as (syms' & _ & Hr). injection Hr as -> ->. exists asm, data, nm, syms. split; [exact Hh|].
    by apply check_gates_spec in H as [_ H]; [|by eapply Hb].
  - unfold fault_gates_case in H8. apply bind_Ok in H8 as (asm & _ & H). apply bind_Ok in H as (dump & Hr & H).
    apply bind_Ok in H as (data & Hd & H). unfold open_dump, or_raise in Hd. destruct dump as [d|]; [|done].
    injection Hd as ->. unfold assemble_run in Hr. destruct (h false "fidt" asm) as [|d nm] eqn:Hh; [done|]. injection Hr as ->.
    exists asm, data, nm. split; [exact Hh|]. by apply check_fault_gates_spec in H as [_ H]; [|by eapply Hb].
Qed.

(** A host on which everything passes, with sources that have the routines the
    tool looks for, and an image of zeros but for its blob. *)
Definition ex_real : bytes := zeros 64 ++ marker.
Definition ex_host : host := λ _ name _,
  Ran (Some (if bool_decide (name = "decomp"%string) then ex_real
             else if bool_decide (name = "pages"%string) then PT.built LY.PAGE_PML4
             else if bool_decide (name = "idt"%string) then ex_gates
             else if bool_decide (name = "report"%string) then report_want
             else ex_fault_gates)) ex_nm.
Definition ex_src : string := "qizo_zero:
	ret
fail_c1:
qizo_decompress:
decomp_ret:
	ret
	movl $qizo_fstub_table, %esi
	lidt qizo_fidt_ptr
.section .qizo_fault
25:
	hlt

".
Definition ex_idt_src : string := "qizo_isr_common:
qizo_idt_install:
.size qizo_idt_install, . - qizo_idt_install
".
Definition ex_img : bytes :=
  zeros (24 * 512) ++ ok_or [] (compress ex_real).
Definition ex_out : list string := [
  "qizo: stage2 decompressor reproduces the reference over 72 bytes";
  "qizo: stage2 page tables identity map 4 GiB with 2 MiB pages, no reserved bits set";
  "qizo: kernel entry writes its marker to COM1 before it touches the stack";
  "qizo: kernel idt gates all point at their own stub, selector and type correct";
  "qizo: boot fault report verified";
  last_line]%string.

Lemma ex_host_Bytes w name asm d nm : ex_host w name asm = Ran (Some d) nm → Bytes d.
Proof.
  unfold ex_host. intros H. injection H as <- <-.
  repeat case_bool_decide; [|apply PT.built_Bytes|..]; apply (bool_decide_unpack _); by vm_compute.
Qed.

Lemma run_sound_witness :
  main ex_host ex_src ex_idt_src "/tmp" (λ _, "") ex_img [] = (ex_out, Ok 0) ∧
  ∃ blob real, blob_of ex_img = Ok blob ∧ decompress blob = Ok real ∧
    slice real LY.QIZOK_HDR (LY.QIZOK_HDR + 8) = marker.
Proof.
  assert (main ex_host ex_src ex_idt_src "/tmp" (λ _, ""%string) ex_img [] = (ex_out, Ok 0)) as Hm.
  { destruct (PT.built_mapped LY.PAGE_PML4) as [Hmp Hb]; [done|done|done|].
    assert (pages_case ex_host ex_src "/tmp" = Ok []) as Hp.
    { unfold pages_case. destruct (AT.pages_asm ex_src _) as [asm| |] eqn:E; [|by vm_compute in E..]. ok_bind.
      change (assemble_run ex_host "pages" asm) with (@Ok (option bytes) (Some (PT.built LY.PAGE_PML4))). ok_bind.
      change (open_dump (Some ?d)) with (@Ok bytes d). ok_bind.
      assert (len (PT.built LY.PAGE_PML4) = 8 * 3072) as Hl by (apply PT.length_entries; lia).
      rewrite Hl. exact (PT.mapped_check _ _ Hb Hmp). }
    unfold main, boot_half. unfold and_then, lift, say. rewrite Hp. vm_compute. reflexivity. }
  split; [exact Hm|].
  destruct (run_sound ex_host ex_src ex_idt_src "/tmp" (λ _, ""%string) ex_img ex_out) as (blob & real & H1 & H2 & H3 & _);
    [exact ex_host_Bytes|exact Hm|reflexivity|].
  exists blob, real. split_and!; assumption.
Defined.

End AR.
