(* ===== verification/Clang.v ===== *)
(** * The C of the kernel: [kernel/qizo.h]

    What the models of the kernel share: integers at their width, arrays that are
    accessed within their bounds only, loops and characters.  A computation is an
    [option]: [None] is what C leaves undefined, an access outside an array, and
    a loop that needs more rounds than it is given.  A theorem that a function
    returns [Some] says that it ends and stays inside its arrays. *)

From S2P Require Export Prelude.

(** ** Integers *)

(** A number stored in an unsigned type. *)
Definition u8 (x : Z) : Z := x mod 2 ^ 8.
Definition u16 (x : Z) : Z := x mod 2 ^ 16.
Definition u32 (x : Z) : Z := x mod 2 ^ 32.
Definition u64 (x : Z) : Z := x mod 2 ^ 64.

(** A number stored in a signed type, as gcc does it. *)
Definition i8 (x : Z) : Z := (x + 2 ^ 7) mod 2 ^ 8 - 2 ^ 7.
Definition i32 (x : Z) : Z := (x + 2 ^ 31) mod 2 ^ 32 - 2 ^ 31.
Definition i64 (x : Z) : Z := (x + 2 ^ 63) mod 2 ^ 64 - 2 ^ 63.

Lemma u8_small x : 0 ≤ x < 256 → u8 x = x.
Proof. intros. by apply Z.mod_small. Qed.
Lemma u16_small x : 0 ≤ x < 65536 → u16 x = x.
Proof. intros. by apply Z.mod_small. Qed.
Lemma u32_small x : 0 ≤ x < 4294967296 → u32 x = x.
Proof. intros. by apply Z.mod_small. Qed.
Lemma u64_small x : 0 ≤ x < 18446744073709551616 → u64 x = x.
Proof. intros. by apply Z.mod_small. Qed.
Lemma u8_range x : 0 ≤ u8 x < 256.
Proof. by apply Z.mod_pos_bound. Qed.
Lemma u16_range x : 0 ≤ u16 x < 65536.
Proof. by apply Z.mod_pos_bound. Qed.
Lemma u32_range x : 0 ≤ u32 x < 4294967296.
Proof. by apply Z.mod_pos_bound. Qed.
Lemma u64_range x : 0 ≤ u64 x < 18446744073709551616.
Proof. by apply Z.mod_pos_bound. Qed.

Lemma i8_small x : -128 ≤ x < 128 → i8 x = x.
Proof. intros. unfold i8. rewrite Z.mod_small; lia. Qed.
Lemma i32_small x : -2147483648 ≤ x < 2147483648 → i32 x = x.
Proof. intros. unfold i32. rewrite Z.mod_small; lia. Qed.

(** A byte read as a [char], which is signed. *)
Lemma i8_byte x : 0 ≤ x < 256 → i8 x = if x <? 128 then x else x - 256.
Proof.
  intros. unfold i8. case_bool; [rewrite Z.mod_small; lia|].
  replace (x + 2 ^ 7) with (x - 128 + 1 * 2 ^ 8) by lia. rewrite Z.mod_add, Z.mod_small; lia.
Qed.

(** ** Arrays *)

(** [a[i]] *)
Definition aget {A} (a : list A) (i : Z) : option A :=
  if 0 <=? i then a !! Z.to_nat i else None.

(** [a[i] = v] *)
Definition aset {A} (a : list A) (i : Z) (v : A) : option (list A) :=
  if (0 <=? i) && (i <? len a) then Some (<[Z.to_nat i := v]> a) else None.

Section arrays.
Context {A : Type}.
Implicit Types (a : list A) (i j : Z) (v : A).

Lemma aget_Some a i : 0 ≤ i < len a → ∃ v, aget a i = Some v.
Proof. intros. unfold aget. rw_bool. apply lookup_lt_is_Some. lia. Qed.

Lemma aget_total `{Inhabited A} a i : 0 ≤ i < len a → aget a i = Some (a !!! Z.to_nat i).
Proof. intros. unfold aget. rw_bool. apply list_lookup_lookup_total_lt. lia. Qed.

Lemma aget_lookup a i : 0 ≤ i → aget a i = a !! Z.to_nat i.
Proof. intros. unfold aget. by rw_bool. Qed.

Lemma aget_range a i v : aget a i = Some v → 0 ≤ i < len a.
Proof. unfold aget. case_bool; [|done]. intros ?%lookup_lt_Some. lia. Qed.

Lemma aget_elem a i v : aget a i = Some v → v ∈ a.
Proof. unfold aget. case_bool; [|done]. apply list_elem_of_lookup_2. Qed.

Lemma aset_Some a i v : 0 ≤ i < len a → aset a i v = Some (<[Z.to_nat i := v]> a).
Proof. intros. unfold aset. by rw_bool. Qed.

Lemma aset_inv a i v a' : aset a i v = Some a' → 0 ≤ i < len a ∧ a' = <[Z.to_nat i := v]> a.
Proof. unfold aset. case_bool; [|done..]. simpl. by intros [= <-]. Qed.

Lemma aget_insert a i j v :
  0 ≤ i < len a → aget (<[Z.to_nat i := v]> a) j = if j =? i then Some v else aget a j.
Proof.
  intros Hi. unfold aget. destruct (Z.leb_spec 0 j) as [Hj|Hj]; [|by rw_bool].
  destruct (Z.eqb_spec j i) as [->|]; [rewrite list_lookup_insert_eq by lia; done|].
  apply list_lookup_insert_ne. lia.
Qed.
End arrays.

(** What is in an array after an assignment. *)
Lemma elem_of_insert_inv {A} (l : list A) i v x : x ∈ <[i := v]> l → x = v ∨ x ∈ l.
Proof.
  intros [j Hj]%list_elem_of_lookup. destruct (decide (i = j)) as [<-|Hne].
  - apply list_lookup_insert_Some in Hj as [(_ & <- & _)|[? _]]; [by left|done].
  - rewrite list_lookup_insert_ne in Hj by done. right. by apply list_elem_of_lookup_2 in Hj.
Qed.

(** *** Intervals of indices *)

Lemma range_split a m b : a ≤ m ≤ b → range a b = range a m ++ range m b.
Proof.
  intros. unfold range. replace (b - a) with ((m - a) + (b - m)) by lia.
  rewrite seqZ_app by lia. by replace (a + (m - a)) with m by lia.
Qed.

Lemma drop_range a b k : 0 ≤ k ≤ b - a → drop (Z.to_nat k) (range a b) = range (a + k) b.
Proof.
  intros. rewrite (range_split a (a + k) b) by lia.
  replace (Z.to_nat k) with (length (range a (a + k))) by (rewrite range_length; lia). apply drop_app_length.
Qed.

Lemma range_single a : range a (a + 1) = [a].
Proof. unfold range. by replace (a + 1 - a) with 1 by lia. Qed.

(** ** Computations *)

(** [m] is defined and what it computes satisfies [Q]. *)
Definition safe {A} (m : option A) (Q : A → Prop) : Prop :=
  match m with Some a => Q a | None => False end.

Section safe.
Context {A B : Type}.
Implicit Types (Q : A → Prop).

Lemma safe_Some (m : option A) Q : safe m Q ↔ ∃ a, m = Some a ∧ Q a.
Proof. split; [destruct m; [by eauto|done]|by intros (a & -> & ?)]. Qed.

Lemma safe_bind (m : option B) (k : B → option A) Q :
  safe m (λ b, safe (k b) Q) → safe (m ≫= k) Q.
Proof. by destruct m. Qed.

Lemma safe_mono (m : option A) Q Q' : safe m Q → (∀ a, Q a → Q' a) → safe m Q'.
Proof. destruct m; simpl; auto. Qed.

Lemma safe_inv (m : option A) Q a : m = Some a → safe m Q → Q a.
Proof. by intros ->. Qed.
End safe.

(** ** Loops *)

(** [n] rounds of [for (;; i++) body], from [i] on. *)
Fixpoint for_n {S} (n : nat) (i : Z) (body : Z → S → option (ctl S)) (s : S) : option S :=
  match n with
  | O => Some s
  | Datatypes.S n =>
      c ← body i s;
      match c with
      | Next s => for_n n (i + 1) body s
      | Break s => Some s
      end
  end.

(** [for (i = a; i < b; i++) body] *)
Definition for_up {S} (a b : Z) (body : Z → S → option (ctl S)) (s : S) : option S :=
  for_n (Z.to_nat (b - a)) a body s.

(** [while (cond) body], at most [fuel] times. *)
Fixpoint while_up {S} (fuel : nat) (cond : S → bool) (body : S → option S) (s : S) : option S :=
  if cond s then
    match fuel with
    | O => None
    | Datatypes.S fuel => body s ≫= while_up fuel cond body
    end
  else Some s.

Section loops.
Context {S : Type}.
Implicit Types (body : Z → S → option (ctl S)).

Lemma safe_for_up (Inv : Z → S → Prop) (Post : S → Prop) a b body s :
  a ≤ b →
  (∀ i s, a ≤ i < b → Inv i s → safe (body i s) (step_to (Inv (i + 1)) Post)) →
  (∀ s, Inv b s → Post s) →
  Inv a s → safe (for_up a b body s) Post.
Proof.
  intros Hab Hbody Hexit HI. unfold for_up. remember (Z.to_nat (b - a)) as n eqn:Hn.
  revert a s Hab Hn Hbody HI. induction n as [|n IH]; intros a s Hab Hn Hbody HI; simpl.
  - apply Hexit. by replace b with a by lia.
  - apply safe_bind. eapply safe_mono; [apply Hbody; [lia|done]|].
    intros [s'|s'] Hs'; simpl in Hs'; [|done]. apply IH; [lia|lia| |done].
    intros i s2 ?. apply Hbody. lia.
Qed.

(** A loop that does not break. *)
Lemma safe_for_all (Inv : Z → S → Prop) a b body s :
  a ≤ b →
  (∀ i s, a ≤ i < b → Inv i s → safe (body i s) (step_to (Inv (i + 1)) (λ _, False))) →
  Inv a s → safe (for_up a b body s) (Inv b).
Proof.
  intros Hab Hbody HI. apply (safe_for_up Inv); [done| |done|done].
  intros i s' Hi Hs'. eapply safe_mono; [by apply Hbody|]. by intros [?|?].
Qed.

Lemma for_up_empty a b body s : b ≤ a → for_up a b body s = Some s.
Proof. intros. unfold for_up. by replace (Z.to_nat (b - a)) with O by lia. Qed.

Lemma for_up_step a b body s :
  a < b → for_up a b body s =
    body a s ≫= λ c, match c with Next s => for_up (a + 1) b body s | Break s => Some s end.
Proof.
  intros. unfold for_up. replace (Z.to_nat (b - a)) with (Datatypes.S (Z.to_nat (b - (a + 1)))) by lia.
  done.
Qed.

(** A loop whose body only steps is a fold over the counter. *)
Lemma for_up_fold (f : Z → S → S) a b body s :
  (∀ i s, a ≤ i < b → body i s = Some (Next (f i s))) →
  for_up a b body s = Some (fold_left (λ s i, f i s) (seqZ a (b - a)) s).
Proof.
  unfold for_up. remember (Z.to_nat (b - a)) as n eqn:Hn. revert a s Hn.
  induction n as [|n IH]; intros a s Hn Hf; simpl.
  - by rewrite seqZ_nil by lia.
  - rewrite Hf by lia. simpl. rewrite IH by (lia || (intros; apply Hf; lia)).
    rewrite (seqZ_cons a) by lia. simpl. by replace (Z.pred (b - a)) with (b - (a + 1)) by lia.
Qed.

Lemma safe_while (Inv Post : S → Prop) (μ : S → nat) fuel cond (body : S → option S) s :
  (∀ s, Inv s → cond s = true → safe (body s) (λ s', Inv s' ∧ (μ s' < μ s)%nat)) →
  (∀ s, Inv s → cond s = false → Post s) →
  Inv s → (μ s ≤ fuel)%nat → safe (while_up fuel cond body s) Post.
Proof.
  intros Hbody Hexit. revert s. induction fuel as [|fuel IH]; intros s HI Hμ; simpl;
    destruct (cond s) eqn:Hc; [|by apply Hexit| |by apply Hexit].
  - specialize (Hbody s HI Hc). destruct (body s); simpl in Hbody; [destruct Hbody; lia|done].
  - apply safe_bind. eapply safe_mono; [by apply Hbody|]. intros s' [??]. apply IH; [done|lia].
Qed.
End loops.

(** A loop over the first [n] elements of an array. *)
Lemma safe_for_array {A S} (Inv : list A → S → Prop) (a : list A) n (body : A → S → option (ctl S)) s :
  0 ≤ n ≤ len a →
  (∀ l x s, x ∈ a → Inv l s → safe (body x s) (step_to (Inv (l ++ [x])) (λ _, False))) →
  Inv [] s → safe (for_up 0 n (λ i s, x ← aget a i; body x s) s) (Inv (take (Z.to_nat n) a)).
Proof.
  intros Hn Hbody HI. apply (safe_for_all (λ i, Inv (take (Z.to_nat i) a))); [lia| |done].
  intros i s' Hi Hs'. destruct (aget_Some a i) as [x Hx]; [lia|]. rewrite Hx. cbn [mbind option_bind].
  pose proof (aget_elem _ _ _ Hx). rewrite aget_lookup in Hx by lia.
  replace (Z.to_nat (i + 1)) with (Datatypes.S (Z.to_nat i)) by lia.
  rewrite (take_S_r _ _ x) by done. by apply Hbody.
Qed.

#[global] Arguments for_up : simpl never.
#[global] Arguments while_up : simpl never.

(** ** Characters and strings *)

(** A string literal, as the codes of its characters. *)
Definition chars (s : string) : list Z := (λ c, Z.of_nat (Ascii.nat_of_ascii c)) <$> String.list_ascii_of_string s.

(** A string constant in memory ends with a zero. *)
Definition c_str (s : string) : list Z := chars s ++ [0].

(** What a pointer into a character array points at, up to the first zero. *)
Fixpoint str_at (a : list Z) : option (list Z) :=
  match a with
  | [] => None
  | c :: a => if c =? 0 then Some [] else (cons c <$> str_at a)
  end.

Lemma chars_app s t : chars (s +:+ t) = chars s ++ chars t.
Proof.
  unfold chars. rewrite <-fmap_app. f_equal. induction s as [|c s IH]; [done|]. simpl. by f_equal.
Qed.

Lemma str_at_c_str (l r : list Z) : 0 ∉ l → str_at (l ++ 0 :: r) = Some l.
Proof.
  induction l as [|c l IH]; simpl; [done|]. rewrite not_elem_of_cons. intros [? ?].
  destruct (Z.eqb_spec c 0); [lia|]. by rewrite IH.
Qed.

Lemma str_at_inv (a s : list Z) : str_at a = Some s → (0 ∉ s) ∧ (∃ r, a = s ++ 0 :: r).
Proof.
  revert s. induction a as [|c a IH]; intros s; simpl; [done|].
  destruct (Z.eqb_spec c 0) as [->|Hc].
  - intros [= <-]. split; [apply not_elem_of_nil|by exists a].
  - destruct (str_at a) as [t|]; [|done]. intros [= <-]. destruct (IH t eq_refl) as (? & r & ->).
    split; [apply not_elem_of_cons; split; [lia|done]|by exists r].
Qed.

(** ** Proof automation *)

(** Take one step of a computation apart. *)
Ltac safe_step :=
  match goal with
  | |- safe (_ ≫= _) _ => apply safe_bind
  | |- safe (Some _) _ => cbn [safe]
  end.

(** Take the two branches of a test apart. *)
Ltac safe_if :=
  match goal with
  | |- safe (if ?b then _ else _) _ => let E := fresh "E" in destruct b eqn:E
  end.

(** Decide boolean tests and finish with arithmetic. *)
Ltac by_bool := case_bool; cbn [andb orb negb]; first [done | lia | congruence].
