(* ===== verification/Libc.v ===== *)
(** * The C library of the kernel: [kernel/lib/libc.c]

    Functions on a memory, a list of bytes with addresses from 0 on, and on strings
    in arrays.  [memmove_spec]: a block is moved whole, also onto itself.
    [strcmp_spec]: the sign of [qizo_strcmp] is the order of the strings. *)

From S2P Require Export Clang PyBytes.

Module LIBC.

(** ** Memory *)

(** [d[i] = s[j]] in one memory *)
Definition move_byte (d s : Z) (m : list Z) : option (list Z) := v ← aget m s; aset m d v.

Definition qizo_memcpy (dst src n : Z) (m : list Z) : option (list Z) :=
  for_up 0 n (λ i m, m ← move_byte (dst + i) (src + i) m; Some (Next m)) m.

Definition qizo_memset (dst value n : Z) (m : list Z) : option (list Z) :=
  for_up 0 n (λ i m, m ← aset m (dst + i) (u8 value); Some (Next m)) m.

(** The loop that counts down has the index [n - j] in round [j]. *)
Definition memmove (dst src n : Z) (m : list Z) : option (list Z) :=
  if (dst =? src) || (n =? 0) then Some m
  else if dst <? src
  then for_up 0 n (λ i m, m ← move_byte (dst + i) (src + i) m; Some (Next m)) m
  else for_up 0 n (λ j m, let i := n - j in
    m ← move_byte (dst + (i - 1)) (src + (i - 1)) m; Some (Next m)) m.

(** The difference of the first bytes that differ. *)
Definition memcmp (a b n : Z) (m : list Z) : option Z :=
  for_up 0 n (λ i _, x ← aget m (a + i); y ← aget m (b + i);
    Some (if negb (x =? y) then Break (x - y) else Next 0)) 0.

(** The checked variants: no more than [size] bytes. *)
Definition __memcpy_chk (dst src n size : Z) (m : list Z) : option (list Z) :=
  qizo_memcpy dst src (if size <? n then size else n) m.
Definition __memset_chk (dst value n size : Z) (m : list Z) : option (list Z) :=
  qizo_memset dst value (if size <? n then size else n) m.

(** ** Strings

    A pointer is what lies behind it; the characters are bytes. *)

Fixpoint qizo_strlen (s : list Z) : option Z :=
  match s with
  | [] => None
  | c :: s => if c =? 0 then Some 0 else (λ n, n + 1) <$> qizo_strlen s
  end.

Fixpoint qizo_strcmp (a b : list Z) : option Z :=
  match a, b with
  | x :: a, y :: b => if negb (x =? 0) && (x =? y) then qizo_strcmp a b else Some (x - y)
  | _, _ => None
  end.

Definition qizo_strncmp (a b : list Z) (n : Z) : option Z :=
  for_up 0 n (λ i _, x ← aget a i; y ← aget b i;
    Some (if negb (x =? y) then Break (x - y) else if x =? 0 then Break 0 else Next 0)) 0.

Definition qizo_isdigit (c : Z) : bool := (48 <=? c) && (c <=? 57).
Definition qizo_tolower (c : Z) : Z := if (65 <=? c) && (c <=? 90) then c + 32 else c.

Fixpoint qizo_strcasecmp (a b : list Z) : option Z :=
  match a, b with
  | x :: a, y :: b =>
      let ca := qizo_tolower x in
      let cb := qizo_tolower y in
      if negb (ca =? cb) then Some (ca - cb) else if ca =? 0 then Some 0 else qizo_strcasecmp a b
  | _, _ => None
  end.

(** The index of the character, [None] inside when there is none. *)
Fixpoint qizo_strchr (s : list Z) (c : Z) : option (option Z) :=
  match s with
  | [] => None
  | x :: s =>
      if x =? 0 then Some (if c =? 0 then Some 0 else None)
      else if x =? u8 c then Some (Some 0)
      else option_map (option_map (λ n, n + 1)) (qizo_strchr s c)
  end.

(** ** Moving blocks *)

Section moving.
Implicit Types (m : list Z) (d s i n k : Z).

Lemma move_byte_spec d s m :
  0 ≤ d < len m → 0 ≤ s < len m →
  ∃ v, m !! Z.to_nat s = Some v ∧ move_byte d s m = Some (<[Z.to_nat d := v]> m).
Proof.
  intros Hd Hs. destruct (lookup_lt_is_Some_2 m (Z.to_nat s)) as [v Hv]; [lia|]. exists v. split; [done|].
  unfold move_byte. rewrite aget_lookup, Hv by lia. cbn [mbind option_bind]. by apply aset_Some.
Qed.

(** [m'] is [m] with the bytes from [a] to [c] of the block already at their place. *)
Record moved (m : list Z) (d s a c : Z) (m' : list Z) : Prop := {
  mv_len : length m' = length m;
  mv_in : ∀ k, a ≤ k < c → m' !! Z.to_nat (d + k) = m !! Z.to_nat (s + k);
  mv_out : ∀ j, 0 ≤ j → j < d + a ∨ d + c ≤ j → m' !! Z.to_nat j = m !! Z.to_nat j;
}.

Lemma moved_step m d s a c m' k a' c' :
  moved m d s a c m' → 0 ≤ d + k < len m → 0 ≤ s + k < len m → 0 ≤ d + a →
  (k = c ∧ a' = a ∧ c' = c + 1 ∨ k = a - 1 ∧ a' = a - 1 ∧ c' = c) → a ≤ c →
  s + k < d + a ∨ d + c ≤ s + k →
  ∃ m2, move_byte (d + k) (s + k) m' = Some m2 ∧ moved m d s a' c' m2.
Proof.
  intros [Hl Hin Hout] Hd Hs Ha Hk Hac Hsrc.
  destruct (move_byte_spec (d + k) (s + k) m') as (v & Hv & E); [lia|lia|]. exists (<[Z.to_nat (d + k) := v]> m').
  split; [done|]. rewrite Hout in Hv by (done || lia). split.
  - by rewrite length_insert.
  - intros j Hj. destruct (Z.eq_dec j k) as [->|Hne]; [rewrite list_lookup_insert_eq by lia; done|].
    rewrite list_lookup_insert_ne by lia. apply Hin. lia.
  - intros j Hj0 Hj. rewrite list_lookup_insert_ne by lia. apply Hout; lia.
Qed.

Lemma moved_all m d s n m' :
  moved m d s 0 n m' → 0 ≤ n → 0 ≤ d → 0 ≤ s → d + n ≤ len m → s + n ≤ len m →
  m' = slice_set m d (d + n) (slice m s (s + n)).
Proof.
  intros [Hl Hin Hout] Hn Hd Hs Hdn Hsn. assert (len (slice m s (s + n)) = n) as Hln by (rewrite length_slice; lia).
  apply list_eq. intros i. rewrite lookup_slice_set by lia. case_decide as Hi.
  - specialize (Hin (Z.of_nat i - d) ltac:(lia)). rewrite lookup_slice by lia. rewrite decide_True by lia.
    replace (Z.to_nat (d + (Z.of_nat i - d))) with i in Hin by lia. rewrite Hin. f_equal. lia.
  - specialize (Hout (Z.of_nat i) ltac:(lia)). rewrite Nat2Z.id in Hout. apply Hout. lia.
Qed.

(** The loop from the first byte on is right when the block does not start inside
    the source. *)
Lemma memcpy_spec dst src n m :
  0 ≤ n → 0 ≤ dst → 0 ≤ src → dst + n ≤ len m → src + n ≤ len m → dst ≤ src ∨ src + n ≤ dst →
  qizo_memcpy dst src n m = Some (slice_set m dst (dst + n) (slice m src (src + n))).
Proof.
  intros Hn Hd Hs Hdn Hsn Hov. assert (safe (qizo_memcpy dst src n m) (moved m dst src 0 n)) as H.
  { apply (safe_for_all (λ i, moved m dst src 0 i)); [lia| |split; [done|lia|done]].
    intros i m' Hi Hm. destruct (moved_step m dst src 0 i m' i 0 (i + 1) Hm) as (m2 & -> & H2); try lia.
    done. }
  destruct (qizo_memcpy dst src n m) as [m'|]; [|done]. f_equal. by apply moved_all.
Qed.

End moving.

(** A block is moved whole, also when it overlaps the place it goes to. *)
Theorem memmove_spec dst src n m :
  0 ≤ n → 0 ≤ dst → 0 ≤ src → dst + n ≤ len m → src + n ≤ len m →
  memmove dst src n m = Some (slice_set m dst (dst + n) (slice m src (src + n))).
Proof.
  intros Hn Hd Hs Hdn Hsn. unfold memmove. destruct (Z.eqb_spec dst src) as [->|Hne]; [|destruct (Z.eqb_spec n 0) as [->|Hn0]]; cbn [orb].
  - f_equal. symmetry. apply list_eq. intros i. assert (len (slice m src (src + n)) = n) by (rewrite length_slice; lia).
    rewrite lookup_slice_set by lia. case_decide; [|done]. rewrite lookup_slice by lia. rewrite decide_True by lia. f_equal. lia.
  - f_equal. rewrite Z.add_0_r, Z.add_0_r, slice_nil by lia. rewrite slice_set_eq by (cbn [length]; lia). cbn [app].
    by rewrite take_drop.
  - destruct (Z.ltb_spec dst src) as [Hlt|Hge]; [apply memcpy_spec; lia|].
    set (loop := for_up _ _ _ _). assert (safe loop (moved m dst src 0 n)) as H.
    { apply (safe_for_up (λ j, moved m dst src (n - j) n)); [lia| | |split; [done|lia|]].
      - intros j m' Hj Hm. cbv zeta.
        destruct (moved_step m dst src (n - j) n m' (n - j - 1) (n - (j + 1)) n Hm) as (m2 & -> & H2); try lia. done.
      - intros m' Hm. by rewrite Z.sub_diag in Hm.
      - intros j ? Hj. done. }
    destruct loop as [m'|]; [|done]. f_equal. by apply moved_all.
Qed.

Lemma memmove_spec_witness : memmove 1 0 3 [1; 2; 3; 4] = Some [1; 1; 2; 3].
Proof. exact (memmove_spec 1 0 3 [1; 2; 3; 4] ltac:(lia) ltac:(lia) ltac:(lia) ltac:(cbn; lia) ltac:(cbn; lia)). Defined.

(** [qizo_memcpy] is not [memmove]: forwards onto itself a block repeats. *)
Example memcpy_overlap : qizo_memcpy 1 0 3 [1; 2; 3; 4] = Some [1; 1; 1; 1].
Proof. reflexivity. Qed.

(** ** Comparing *)

(** The order of strings, byte by byte. *)
Fixpoint before (x y : list Z) : bool :=
  match x, y with
  | [], _ :: _ => true
  | a :: x, b :: y => (a <? b) || ((a =? b) && before x y)
  | _, [] => false
  end.

Definition text_bytes (x : list Z) : Prop := ∀ c, c ∈ x → 0 < c < 256.

Lemma strcmp_cases x y r r' :
  text_bytes x → text_bytes y →
  ∃ c, qizo_strcmp (x ++ 0 :: r) (y ++ 0 :: r') = Some c ∧ (c = 0 ↔ x = y) ∧ (c < 0 ↔ before x y = true).
Proof.
  revert y. induction x as [|a x IH]; intros [|b y] Hx Hy; cbn [app qizo_strcmp before].
  - exists 0. by repeat split.
  - pose proof (Hy b ltac:(apply list_elem_of_here)). cbn [negb Z.eqb andb]. exists (0 - b). split; [done|].
    split; (split; [intros; first [lia|done]|intros; first [lia|done]]).
  - pose proof (Hx a ltac:(apply list_elem_of_here)). rewrite (proj2 (Z.eqb_neq a 0)), andb_true_l by lia.
    exists (a - 0). split; [done|]. split; (split; intros; first [lia|done]).
  - pose proof (Hx a ltac:(apply list_elem_of_here)). rewrite (proj2 (Z.eqb_neq a 0)) by lia. cbn [negb andb].
    destruct (Z.eqb_spec a b) as [->|Hne].
    + destruct (IH y) as (c & E & H0 & Hl); [by intros c ?; apply Hx; right|by intros c ?; apply Hy; right|].
      exists c. rewrite E, Z.ltb_irrefl. cbn [orb andb]. split; [done|]. split; [|done]. rewrite H0. split; congruence.
    + exists (a - b). split; [done|]. rewrite andb_false_l, orb_false_r, Z.ltb_lt. split; [|lia].
      split; [lia|intros [= ? _]; lia].
Qed.

(** [qizo_strcmp] ends on strings, with 0 exactly for equal ones, and with a
    negative number exactly when the first comes before the second. *)
Theorem strcmp_spec x y r r' :
  text_bytes x → text_bytes y →
  safe (qizo_strcmp (x ++ 0 :: r) (y ++ 0 :: r')) (λ c, (c = 0 ↔ x = y) ∧ (c < 0 ↔ before x y = true)).
Proof. intros Hx Hy. destruct (strcmp_cases x y r r' Hx Hy) as (c & -> & H). exact H. Qed.

Lemma strcmp_spec_witness :
  safe (qizo_strcmp (chars "cpu" ++ [0]) (chars "cpuid" ++ [0]))
    (λ c, (c = 0 ↔ chars "cpu" = chars "cpuid") ∧ (c < 0 ↔ before (chars "cpu") (chars "cpuid") = true)).
Proof.
  apply (strcmp_spec (chars "cpu") (chars "cpuid") [] []);
    refine (proj1 (list.Forall_forall (λ c, 0 < c < 256) _) _); apply (bool_decide_unpack _); vm_compute; exact I.
Defined.

End LIBC.
