(* ===== verification/Frames.v ===== *)
(** * The frame allocator of the kernel: [kernel/drivers/pma.c]

    One bit per page frame, set when the frame is free.  The theorems say which
    frames are free after the start ([init_frames]), that an allocation finds a
    free frame or a run of free frames exactly when there is one ([alloc_spec],
    [page_alloc_spec]), and that blocks in use never overlap, whatever sequence of
    calls the kernel makes ([blocks_disjoint]). *)

From S2P Require Export Clang Layout.

Module PMA.

Definition QIZO_PAGE_SIZE : Z := 4096.
Definition QIZO_HHDM_VIRT : Z := 0xFFFF888000000000.
Definition QIZO_PMAP_PAGES : Z := 512.
Definition QIZO_E820_MAX : Z := Eval vm_compute in LY.value_of "QIZO_E820_MAX".

Definition PMA_MAX_FRAMES : Z := QIZO_PMAP_PAGES * 512.
Definition PMA_MIN_USABLE : Z := 24 * 1024 * 1024.
(** Words of [bitmap]. *)
Definition BITMAP_WORDS : Z := PMA_MAX_FRAMES / 64 + 2.

Record pma := Pma {
  bitmap : list Z;
  total_frames : Z;
  free_frames : Z;
  used_frames : Z;
  max_phys : Z;
  hint : Z;
}.

Definition set_bitmap (s : pma) (b : list Z) : pma :=
  Pma b (total_frames s) (free_frames s) (used_frames s) (max_phys s) (hint s).

(** The fields of the boot information the allocator reads. *)
Record e820 := E820 { e_base : Z; e_size : Z; e_type : Z }.
Record bootinfo := Bootinfo {
  map : list e820;
  map_count : Z;
  total_ram : Z;
  ktext : Z;
  kernel_total : Z;
  blob_phys : Z;
  blob_size : Z;
  scratch : Z;
}.

(** The symbols of [kernel.ld]. *)
Record symbols := Symbols { phys_base : Z; image_end : Z; bss_end : Z }.

Definition phys_to_virt (phys : Z) : Z := u64 (phys + QIZO_HHDM_VIRT).

(** [x & ~(QIZO_PAGE_SIZE - 1)] *)
Definition page_down (x : Z) : Z := Z.land x (Z.lnot (QIZO_PAGE_SIZE - 1)).

Definition frame_ok (s : pma) (frame : Z) : option bool :=
  if total_frames s <=? frame then Some false
  else
    w ← aget (bitmap s) (Z.shiftr frame 6);
    Some (negb (Z.land w (Z.shiftl 1 (Z.land frame 63)) =? 0)).

Definition mark (s : pma) (frame : Z) (good : bool) : option pma :=
  if total_frames s <=? frame then Some s
  else
    w ← aget (bitmap s) (Z.shiftr frame 6);
    let bit := Z.shiftl 1 (Z.land frame 63) in
    b ← aset (bitmap s) (Z.shiftr frame 6) (if good then Z.lor w bit else Z.land w (Z.lnot bit));
    Some (set_bitmap s b).

(** [last] is a multiple of the page size, so the test [frame * QIZO_PAGE_SIZE <
    last] of the loop is [frame < last / QIZO_PAGE_SIZE]. *)
Definition mark_range (s : pma) (base len : Z) (good : bool) : option pma :=
  let first := page_down base in
  let last := page_down (u64 (base + len + QIZO_PAGE_SIZE - 1)) in
  for_up (first / QIZO_PAGE_SIZE) (last / QIZO_PAGE_SIZE)
    (λ frame s, s ← mark s frame good; Some (Next s)) s.

(** The end of the usable memory. *)
Definition find_top (info : option bootinfo) (count : Z) : option Z :=
  top ← for_up 0 count
    (λ i top,
      e ← (info ≫= λ info, aget (map info) i);
      let e_end := u64 (e_base e + e_size e) in
      if negb (e_type e =? 1) then Some (Next top)
      else if QIZO_PMAP_PAGES * 0x200000 <=? e_base e then Some (Next top)
      else Some (Next (if top <? e_end then e_end else top))) 0;
  let top := match info with
             | Some info => if (top =? 0) && negb (total_ram info =? 0) then total_ram info else top
             | None => top
             end in
  let top := if top <? PMA_MIN_USABLE then PMA_MIN_USABLE else top in
  Some (if PMA_MAX_FRAMES * QIZO_PAGE_SIZE <? top then PMA_MAX_FRAMES * QIZO_PAGE_SIZE else top).

(** Mark what the entries call usable: the body of the loop and the loop. *)
Definition mark_entry (top : Z) (e : e820) (s : pma) : option (ctl pma) :=
  if negb (e_type e =? 1) then Some (Next s)
  else
    let base := page_down (e_base e) in
    let len := page_down (u64 (e_base e + e_size e)) in
    if len <=? base then Some (Next s)
    else
      let len := if top <? len then top else len in
      if top <=? base then Some (Next s)
      else s ← mark_range s base (len - base) true; Some (Next s).

Definition mark_usable (info : option bootinfo) (count top : Z) (s : pma) : option pma :=
  for_up 0 count (λ i s, e ← (info ≫= λ info, aget (map info) i); mark_entry top e s) s.

(** Take back the first megabyte, the kernel, the blob and the scratch area.  The
    sums of two [u32] wrap at 32 bits. *)
Definition mark_reserved (sym : symbols) (info : option bootinfo) (top : Z) (s : pma) : option pma :=
  s ← mark_range s 0 (1024 * 1024) false;
  let kernel_end := u64 (bss_end sym - phys_base sym + phys_base sym) in
  let kernel_end := match info with
                    | Some info => if negb (kernel_total info =? 0)
                                   then u32 (ktext info + kernel_total info) else kernel_end
                    | None => kernel_end
                    end in
  let kernel_end := page_down (u64 (kernel_end + QIZO_PAGE_SIZE - 1)) in
  match info with
  | Some info =>
      s ← mark_range s (ktext info) (u64 (kernel_end - ktext info)) false;
      s ← mark_range s (blob_phys info) (blob_size info) false;
      if u32 (scratch info + 0x80000) <=? top then mark_range s (scratch info) 0x80000 false
      else Some s
  | None => mark_range s (phys_base sym) (u64 (image_end sym - phys_base sym)) false
  end.

(** The loop that counts the free frames. *)
Definition count_frames (s : pma) : option Z :=
  for_up 0 (total_frames s) (λ i n, b ← frame_ok s i; Some (Next (if b : bool then n + 1 else n))) 0.

Definition qizo_pma_init (sym : symbols) (info : option bootinfo) : option pma :=
  let count := match info with Some info => map_count info | None => 0 end in
  let count := if QIZO_E820_MAX <? count then QIZO_E820_MAX else count in
  top ← find_top info count;
  let s := Pma (replicate (Z.to_nat BITMAP_WORDS) 0) (top / QIZO_PAGE_SIZE) 0 0 top 0 in
  s ← mark_usable info count top s;
  s ← mark_reserved sym info top s;
  n ← count_frames s;
  Some (Pma (bitmap s) (total_frames s) n 0 (max_phys s) 0).

(** The address of a frame, 0 when there is none. *)
Definition qizo_pma_alloc (s : pma) : option (Z * pma) :=
  let start := hint s in
  r ← for_up 0 (total_frames s)
    (λ i (r : option (Z * pma)),
      let frame := u64 (start + i) in
      let frame := if total_frames s <=? frame then frame - total_frames s else frame in
      ok ← frame_ok s frame;
      if negb ok then Some (Next r)
      else
        s' ← mark s frame false;
        let h := frame + 1 in
        Some (Break (Some (phys_to_virt (frame * QIZO_PAGE_SIZE),
          Pma (bitmap s') (total_frames s)
            (if free_frames s =? 0 then free_frames s else free_frames s - 1)
            (u64 (used_frames s + 1)) (max_phys s) (if total_frames s <=? h then 0 else h))))) None;
  Some (default (0, s) r).

Definition qizo_pma_free (s : pma) (addr : Z) : option pma :=
  if addr <? QIZO_HHDM_VIRT then Some s
  else
    let frame := (addr - QIZO_HHDM_VIRT) / QIZO_PAGE_SIZE in
    ok ← frame_ok s frame;
    if negb ok then Some s
    else
      s ← mark s frame true;
      Some (Pma (bitmap s) (total_frames s)
        (if free_frames s <? total_frames s then free_frames s + 1 else free_frames s)
        (if used_frames s =? 0 then used_frames s else used_frames s - 1) (max_phys s) (hint s)).

Definition qizo_pma_total (s : pma) : Z := total_frames s.
Definition qizo_pma_free_count (s : pma) : Z := free_frames s.
Definition qizo_pma_reserved (s : pma) : Z := used_frames s.
Definition qizo_pma_max_phys (s : pma) : Z := max_phys s.

(** The search for a run of [pages] free frames: its first frame and length. *)
Definition find_run (s : pma) (pages : Z) : option (Z * Z) :=
  for_up 0 (total_frames s)
    (λ i fr,
      let '(first, run) := fr in
      ok ← frame_ok s i;
      if ok : bool then
        let first := if run =? 0 then i else first in
        let run := run + 1 in
        Some (if run =? pages then Break (first, run) else Next (first, run))
      else Some (Next (first, 0))) (0, 0).

Definition qizo_page_alloc (s : pma) (pages : Z) : option (Z * pma) :=
  let pages := if pages =? 0 then 1 else pages in
  fr ← find_run s pages;
  let '(first, run) := fr in
  if run <? pages then Some (0, s)
  else
    s ← for_up 0 pages (λ j s, s ← mark s (first + j) false; Some (Next s)) s;
    Some (phys_to_virt (first * QIZO_PAGE_SIZE),
      Pma (bitmap s) (total_frames s) (u64 (free_frames s - pages)) (u64 (used_frames s + pages))
        (max_phys s) (hint s)).

Definition qizo_page_free (s : pma) (addr pages : Z) : option pma :=
  if addr =? 0 then Some s
  else
    let frame := u64 (addr - QIZO_HHDM_VIRT) / QIZO_PAGE_SIZE in
    s ← for_up 0 pages (λ j s, s ← mark s (u64 (frame + j)) true; Some (Next s)) s;
    Some (Pma (bitmap s) (total_frames s) (u64 (free_frames s + pages))
      (u64 (used_frames s - pages)) (max_phys s) (hint s)).

(** ** The set of free frames *)

Definition is_free (s : pma) (g : Z) : bool :=
  (g <? total_frames s) && Z.testbit (bitmap s !!! Z.to_nat (g / 64)) (g mod 64).

Record wf (s : pma) : Prop := {
  wf_words : len (bitmap s) = BITMAP_WORDS;
  wf_total : 0 ≤ total_frames s ≤ PMA_MAX_FRAMES;
}.

(** [s'] is [s] with the frames from [lo] up to [hi] marked, and nothing else. *)
Record marks (lo hi : Z) (good : bool) (s s' : pma) : Prop := {
  mk_wf : wf s';
  mk_same : s' = set_bitmap s (bitmap s');
  mk_free : ∀ g, 0 ≤ g →
    is_free s' g = if (lo <=? g) && (g <? hi) && (g <? total_frames s) then good else is_free s g;
}.

Lemma page_down_eq x : page_down x = QIZO_PAGE_SIZE * (x / QIZO_PAGE_SIZE).
Proof.
  unfold page_down. change (QIZO_PAGE_SIZE - 1) with (Z.ones 12).
  rewrite <-Z.ldiff_land, Z.ldiff_ones_r, Z.shiftl_mul_pow2, Z.shiftr_div_pow2 by lia.
  change (2 ^ 12) with QIZO_PAGE_SIZE. lia.
Qed.

Lemma page_down_div x : page_down x / QIZO_PAGE_SIZE = x / QIZO_PAGE_SIZE.
Proof. rewrite page_down_eq, Z.mul_comm. by apply Z.div_mul. Qed.

Lemma frame_word g : Z.shiftr g 6 = g / 64 ∧ Z.land g 63 = g mod 64.
Proof.
  split; [by rewrite Z.shiftr_div_pow2 by lia|].
  change 63 with (Z.ones 6). by rewrite Z.land_ones by lia.
Qed.

Lemma word_in_bitmap s g : wf s → 0 ≤ g < total_frames s → 0 ≤ g / 64 < len (bitmap s).
Proof.
  intros [Hw [? Ht]] Hg. rewrite Hw. unfold BITMAP_WORDS, PMA_MAX_FRAMES, QIZO_PMAP_PAGES in *.
  split; [apply Z.div_pos; lia|]. apply Z.div_lt_upper_bound; [lia|]. vm_compute (_ / 64). lia.
Qed.

Lemma frame_ok_spec s g : wf s → 0 ≤ g → frame_ok s g = Some (is_free s g).
Proof.
  intros Hwf Hg. unfold frame_ok, is_free. destruct (Z.leb_spec (total_frames s) g); rw_bool; [done|].
  pose proof (word_in_bitmap s g Hwf ltac:(lia)). destruct (frame_word g) as [-> ->].
  rewrite aget_total by done. cbn [mbind option_bind]. rewrite land_bit_test; [done|].
  apply Z.mod_pos_bound. lia.
Qed.

(** Setting or clearing bit [k] of a word. *)
Lemma testbit_mark w k j (good : bool) :
  0 ≤ k → 0 ≤ j →
  Z.testbit (if good then Z.lor w (Z.shiftl 1 k) else Z.land w (Z.lnot (Z.shiftl 1 k))) j =
    if k =? j then good else Z.testbit w j.
Proof.
  intros Hk Hj. rewrite Z.shiftl_1_l.
  destruct good; rewrite ?Z.lor_spec, ?Z.land_spec, ?Z.lnot_spec, Z.pow2_bits_eqb by lia;
    destruct (k =? j); by rewrite ?orb_true_r, ?orb_false_r, ?andb_false_r, ?andb_true_r.
Qed.

Lemma mark_spec s g good : wf s → 0 ≤ g → safe (mark s g good) (marks g (g + 1) good s).
Proof.
  intros Hwf Hg. unfold mark. destruct (Z.leb_spec (total_frames s) g).
  - split; [done|by destruct s|]. intros h Hh. rewrite andb_comm. by_bool.
  - pose proof (word_in_bitmap s g Hwf ltac:(lia)) as Hi. destruct (frame_word g) as [-> ->].
    rewrite aget_total by done. cbn [mbind option_bind]. rewrite aset_Some by done.
    cbn [mbind option_bind safe].
    split; [split; [cbn; rewrite length_insert; apply Hwf|apply Hwf]|done|]. intros h Hh. unfold is_free.
    cbn [bitmap total_frames set_bitmap].
    destruct (Z.ltb_spec h (total_frames s)); [|by rewrite andb_false_r]. rewrite andb_true_r. cbn [andb].
    destruct (Z.eq_dec (h / 64) (g / 64)) as [He|He].
    + rewrite He, list_lookup_total_insert_eq by lia.
      rewrite testbit_mark by (apply Z.mod_pos_bound; lia).
      pose proof (Z.div_mod h 64 ltac:(lia)). pose proof (Z.div_mod g 64 ltac:(lia)). by_bool.
    + assert (h ≠ g) by (by intros ->). pose proof (Z.div_pos h 64 Hh eq_refl).
      rewrite list_lookup_total_insert_ne by lia. by_bool.
Qed.

Lemma marks_refl s lo hi good : wf s → hi ≤ lo → marks lo hi good s s.
Proof. intros. split; [done|by destruct s|]. intros g ?. by_bool. Qed.

Lemma marks_trans s s1 s2 lo mid hi good :
  lo ≤ mid ≤ hi → marks lo mid good s s1 → marks mid hi good s1 s2 → marks lo hi good s s2.
Proof.
  intros Hm [_ E1 F1] [Hwf E2 F2]. split; [done|by rewrite E2, E1|]. intros g Hg.
  rewrite F2, F1 by done. rewrite E1. cbn [total_frames set_bitmap]. by_bool.
Qed.

Lemma marks_total lo hi good s s' : marks lo hi good s s' → total_frames s' = total_frames s.
Proof. intros [_ -> _]. done. Qed.

Lemma marks_fields lo hi good s s' :
  marks lo hi good s s' → total_frames s' = total_frames s ∧ free_frames s' = free_frames s ∧
    used_frames s' = used_frames s ∧ hint s' = hint s.
Proof. intros [_ -> _]. done. Qed.

(** Marking one frame after the other. *)
Lemma mark_loop (f : Z → Z) s a b lo good :
  wf s → a ≤ b → 0 ≤ lo → (∀ i, a ≤ i < b → f i = lo + (i - a)) →
  safe (for_up a b (λ i s, s ← mark s (f i) good; Some (Next s)) s) (marks lo (lo + (b - a)) good s).
Proof.
  intros Hwf Hab Hlo Hf.
  apply (safe_for_all (λ i, marks lo (lo + (i - a)) good s)); [done| |apply marks_refl; [done|lia]].
  intros i s' Hi Hs'. apply safe_bind. rewrite Hf by done.
  eapply safe_mono; [apply mark_spec; [apply Hs'|lia]|]. intros s2 Hs2. cbn [safe step_to].
  eapply marks_trans; [|exact Hs'|]; [lia|]. by replace (lo + (i + 1 - a)) with (lo + (i - a) + 1) by lia.
Qed.

Lemma mark_range_spec s base l good :
  wf s → 0 ≤ base →
  safe (mark_range s base l good)
    (marks (base / QIZO_PAGE_SIZE) (u64 (base + l + QIZO_PAGE_SIZE - 1) / QIZO_PAGE_SIZE) good s).
Proof.
  intros Hwf Hb. unfold mark_range. rewrite !page_down_div.
  pose proof (Z.div_pos base QIZO_PAGE_SIZE Hb eq_refl). set (lo := base / _) in *. set (hi := u64 _ / _).
  destruct (Z.le_gt_cases lo hi).
  - eapply safe_mono; [apply (mark_loop id); [done..|]; unfold id; lia|]. intros s'.
    by replace (lo + (hi - lo)) with hi by lia.
  - rewrite for_up_empty by lia. apply marks_refl; [done|lia].
Qed.

(** ** Counting *)

(** The free frames of an interval. *)
Definition free_in (s : pma) (a b : Z) : Z := len (List.filter (is_free s) (range a b)).
Definition nfree (s : pma) : Z := free_in s 0 (total_frames s).

Lemma free_in_split s a m b : a ≤ m ≤ b → free_in s a b = free_in s a m + free_in s m b.
Proof. intros. unfold free_in. rewrite (range_split a m b), List.filter_app by done. list_lia. Qed.

Lemma free_in_ext s s' a b : (∀ g, a ≤ g < b → is_free s g = is_free s' g) → free_in s a b = free_in s' a b.
Proof.
  intros H. unfold free_in. do 2 f_equal. apply List.filter_ext_in. intros g Hg.
  apply H. by apply elem_of_range, list_elem_of_In.
Qed.

Lemma free_in_all s a b v :
  a ≤ b → (∀ g, a ≤ g < b → is_free s g = v) → free_in s a b = if v then b - a else 0.
Proof.
  intros Hab H. unfold free_in.
  rewrite (List.filter_ext_in _ (λ _, v)).
  - destruct v; [|by rewrite List.filter_false]. rewrite List.filter_true, range_length. lia.
  - intros g Hg. apply H. by apply elem_of_range, list_elem_of_In.
Qed.

Lemma free_in_bound s a b : a ≤ b → 0 ≤ free_in s a b ≤ b - a.
Proof.
  intros. unfold free_in. pose proof (List.filter_length_le (is_free s) (range a b)).
  rewrite range_length in *. lia.
Qed.

Lemma count_frames_spec s : wf s → count_frames s = Some (nfree s).
Proof.
  intros Hwf. pose proof (wf_total s Hwf). assert (safe (count_frames s) (λ n, n = nfree s)) as Hs;
    [|destruct (count_frames s); [by rewrite Hs|done]].
  apply (safe_for_all (λ i n, n = free_in s 0 i)); [lia| |done].
  intros i n Hi ->. rewrite frame_ok_spec by (done || lia). cbn [mbind option_bind safe step_to].
  rewrite (free_in_split s 0 i (i + 1)) by lia.
  rewrite (free_in_all s i (i + 1) (is_free s i)) by (lia || (intros g ?; f_equal; lia)).
  destruct (is_free s i); lia.
Qed.

(** Marking frames that are all in the other state changes the count by their
    number. *)
Lemma nfree_marks s s' lo hi good :
  marks lo hi good s s' → 0 ≤ lo ≤ hi → hi ≤ total_frames s →
  (∀ g, lo ≤ g < hi → is_free s g = negb good) →
  nfree s' = nfree s + if good then hi - lo else - (hi - lo).
Proof.
  intros Hm Hlo Hhi Hold. pose proof (mk_free _ _ _ _ _ Hm) as HF. unfold nfree.
  rewrite (marks_total _ _ _ _ _ Hm).
  rewrite !(free_in_split _ 0 lo (total_frames s)), !(free_in_split _ lo hi (total_frames s)) by lia.
  rewrite (free_in_ext s' s 0 lo) by (intros g ?; rewrite HF by lia; by_bool).
  rewrite (free_in_ext s' s hi (total_frames s)) by (intros g ?; rewrite HF by lia; by_bool).
  rewrite (free_in_all s' lo hi good) by (lia || (intros g ?; rewrite HF by lia; by_bool)).
  rewrite (free_in_all s lo hi (negb good)) by (lia || done). destruct good; cbn [negb]; lia.
Qed.

(** ** The start *)

(** What is in memory when the kernel starts: arrays of their size, fields of
    their width. *)
Record valid_info (i : bootinfo) : Prop := {
  vi_map : len (map i) = QIZO_E820_MAX;
  vi_entries : ∀ e, e ∈ map i → 0 ≤ e_base e < 2 ^ 64 ∧ 0 ≤ e_size e < 2 ^ 64;
  vi_count : 0 ≤ map_count i < 2 ^ 32;
  vi_ram : 0 ≤ total_ram i < 2 ^ 64;
  vi_ktext : 0 ≤ ktext i < 2 ^ 32;
  vi_total : 0 ≤ kernel_total i < 2 ^ 32;
  vi_blob : 0 ≤ blob_phys i < 2 ^ 32 ∧ 0 ≤ blob_size i < 2 ^ 32;
  vi_scratch : 0 ≤ scratch i < 2 ^ 32;
}.

Definition entries (i : bootinfo) : list e820 :=
  take (Z.to_nat (Z.min (map_count i) QIZO_E820_MAX)) (map i).

Definition entry_end (e : e820) : Z := u64 (e_base e + e_size e).

(** The end of the highest usable entry that starts in the first GiB. *)
Definition highest (i : bootinfo) : Z :=
  fold_left (λ top e,
    if (e_type e =? 1) && (e_base e <? QIZO_PMAP_PAGES * 0x200000) then Z.max top (entry_end e) else top)
    (entries i) 0.

(** How far the allocator looks: at least 24 MiB, at most 1 GiB. *)
Definition top_of (i : bootinfo) : Z :=
  Z.min (PMA_MAX_FRAMES * QIZO_PAGE_SIZE)
    (Z.max PMA_MIN_USABLE (if highest i =? 0 then total_ram i else highest i)).

(** Frame [g] is touched by the [size] bytes at [base]. *)
Definition touches (base size g : Z) : bool :=
  (base / QIZO_PAGE_SIZE <=? g) && (g <? u64 (base + size + QIZO_PAGE_SIZE - 1) / QIZO_PAGE_SIZE).

(** An entry calls the frame usable; its first frame counts even when the entry
    starts in the middle of it. *)
Definition covers (e : e820) (g : Z) : bool :=
  (e_type e =? 1) && (e_base e / QIZO_PAGE_SIZE <=? g) && (g <? entry_end e / QIZO_PAGE_SIZE).

Definition usable_frame (i : bootinfo) (g : Z) : bool :=
  existsb (λ e, covers e g) (entries i).

Definition kernel_end (sym : symbols) (i : bootinfo) : Z :=
  if kernel_total i =? 0 then u64 (bss_end sym) else u32 (ktext i + kernel_total i).

Definition reserved_frame (sym : symbols) (i : bootinfo) (g : Z) : bool :=
  touches 0 (1024 * 1024) g ||
  ((ktext i / QIZO_PAGE_SIZE <=? g) &&
    (g <? u64 (kernel_end sym i + QIZO_PAGE_SIZE - 1) / QIZO_PAGE_SIZE)) ||
  touches (blob_phys i) (blob_size i) g ||
  ((u32 (scratch i + 0x80000) <=? top_of i) && touches (scratch i) 0x80000 g).

Lemma find_top_spec i :
  valid_info i → find_top (Some i) (Z.min (map_count i) QIZO_E820_MAX) = Some (top_of i).
Proof.
  intros Hi. pose proof (vi_map i Hi). pose proof (vi_count i Hi). unfold find_top.
  set (loop := for_up _ _ _ _). assert (loop = Some (highest i)) as ->.
  { assert (safe loop (λ t, t = highest i)) as Hs; [|destruct loop; [by rewrite Hs|done]].
    apply (safe_for_array (λ l t, t = fold_left (λ top e,
      if (e_type e =? 1) && (e_base e <? QIZO_PMAP_PAGES * 0x200000) then Z.max top (entry_end e) else top) l 0)
      (map i) _ (λ e top, if negb (e_type e =? 1) then Some (Next top)
        else if QIZO_PMAP_PAGES * 0x200000 <=? e_base e then Some (Next top)
        else Some (Next (if top <? u64 (e_base e + e_size e) then u64 (e_base e + e_size e) else top))));
      [lia| |done].
    intros l e t _ ->. rewrite fold_left_app. cbn [fold_left]. set (t := fold_left _ l 0).
    unfold entry_end. destruct (e_type e =? 1); cbn [negb andb]; [|done].
    case_bool; cbn [safe step_to]; lia. }
  cbn [mbind option_bind]. f_equal. unfold top_of. pose proof (vi_ram i Hi).
  change (PMA_MAX_FRAMES * QIZO_PAGE_SIZE) with (2 ^ 30).
  change PMA_MIN_USABLE with 25165824.
  destruct (Z.eqb_spec (highest i) 0) as [->|]; destruct (Z.eqb_spec (total_ram i) 0) as [->|];
    cbn [negb andb]; case_bool; lia.
Qed.

Lemma top_of_range i : PMA_MIN_USABLE ≤ top_of i ≤ PMA_MAX_FRAMES * QIZO_PAGE_SIZE.
Proof.
  unfold top_of. change (PMA_MAX_FRAMES * QIZO_PAGE_SIZE) with (2 ^ 30).
  change PMA_MIN_USABLE with 25165824. lia.
Qed.

(** The state the marking starts from. *)
Definition blank (i : bootinfo) : pma :=
  Pma (replicate (Z.to_nat BITMAP_WORDS) 0) (top_of i / QIZO_PAGE_SIZE) 0 0 (top_of i) 0.

Lemma blank_wf i : wf (blank i).
Proof.
  split; [by vm_compute|]. cbn [total_frames blank]. pose proof (top_of_range i).
  change PMA_MIN_USABLE with 25165824 in *.
  split; [apply Z.div_pos; done || lia|]. apply Z.div_le_upper_bound; [done|]. lia.
Qed.

Lemma is_free_bound s g : total_frames s ≤ g → is_free s g = false.
Proof. intros. unfold is_free. by rw_bool. Qed.

Lemma blank_free i g : 0 ≤ g → is_free (blank i) g = false.
Proof.
  intros Hg. destruct (Z.le_gt_cases (total_frames (blank i)) g); [by apply is_free_bound|].
  unfold is_free. pose proof (word_in_bitmap _ g (blank_wf i) ltac:(lia)) as Hw. cbn [bitmap blank] in *.
  rewrite length_replicate in Hw. rewrite lookup_total_replicate_2 by lia.
  by rewrite Z.bits_0, andb_false_r.
Qed.

Lemma marks_false lo hi s s' g :
  marks lo hi false s s' → 0 ≤ g → is_free s' g = is_free s g && negb ((lo <=? g) && (g <? hi)).
Proof.
  intros [_ _ HF] Hg. rewrite HF by done.
  destruct (Z.le_gt_cases (total_frames s) g); [rewrite is_free_bound by lia|]; rw_bool;
    destruct ((lo <=? g) && (g <? hi)); by rewrite ?andb_true_r, ?andb_false_r.
Qed.

Lemma marks_true lo hi s s' g :
  marks lo hi true s s' → 0 ≤ g →
  is_free s' g = is_free s g || ((lo <=? g) && (g <? hi) && (g <? total_frames s)).
Proof. intros [_ _ HF] Hg. rewrite HF by done. destruct (_ && _); by rewrite ?orb_true_r, ?orb_false_r. Qed.

(** [s'] is [s] with another bitmap. *)
Definition keeps (s s' : pma) : Prop := wf s' ∧ s' = set_bitmap s (bitmap s').

Lemma keeps_total s s' : keeps s s' → total_frames s' = total_frames s.
Proof. intros [_ ->]. done. Qed.

Lemma marks_keeps lo hi good s s1 s2 : keeps s s1 → marks lo hi good s1 s2 → keeps s s2.
Proof. intros [_ E1] [Hwf E2 _]. split; [done|by rewrite E2, E1]. Qed.

(** Marking the part of an entry below [top]: from its first frame on. *)
Lemma range_end base l :
  0 ≤ base → 0 ≤ l → base + l ≤ 2 ^ 30 → u64 (base + l + QIZO_PAGE_SIZE - 1) = base + l + QIZO_PAGE_SIZE - 1.
Proof. intros. apply u64_small. unfold QIZO_PAGE_SIZE. lia. Qed.

(** The frames below [top] that the part of an entry below it touches. *)
Lemma ceil_min top e g :
  0 ≤ g < top / QIZO_PAGE_SIZE →
  (g <? ((if top <? QIZO_PAGE_SIZE * e then top else QIZO_PAGE_SIZE * e) + QIZO_PAGE_SIZE - 1) / QIZO_PAGE_SIZE)
    = (g <? e).
Proof.
  unfold QIZO_PAGE_SIZE. intros Hg. pose proof (Z.mul_div_le top 4096 eq_refl).
  destruct (Z.ltb_spec top (4096 * e)).
  - pose proof (ceil_div_bounds top 4096 eq_refl). by_bool.
  - rewrite (ceil_div_spec _ _ e) by lia. done.
Qed.

Lemma mark_entry_spec i e s :
  keeps (blank i) s → 0 ≤ e_base e < 2 ^ 64 →
  safe (mark_entry (top_of i) e s) (step_to (λ s', keeps (blank i) s' ∧ ∀ g, 0 ≤ g →
    is_free s' g = is_free s g || ((g <? total_frames (blank i)) && covers e g)) (λ _, False)).
Proof.
  intros Hk Hb. pose proof (top_of_range i) as Ht. change (PMA_MAX_FRAMES * QIZO_PAGE_SIZE) with (2 ^ 30) in Ht.
  change PMA_MIN_USABLE with 25165824 in Ht.
  assert (∀ s', s' = s → (∀ g, 0 ≤ g < total_frames (blank i) → covers e g = false) →
    safe (Some (Next s')) (step_to (λ s', keeps (blank i) s' ∧ ∀ g, 0 ≤ g →
    is_free s' g = is_free s g || ((g <? total_frames (blank i)) && covers e g)) (λ _, False))) as Hskip.
  { intros s' -> Hc. split; [done|]. intros g Hg.
    destruct (Z.ltb_spec g (total_frames (blank i))); [rewrite Hc by lia|]; by rewrite orb_false_r. }
  unfold mark_entry. rewrite !page_down_eq. fold (entry_end e).
  pose proof (Z.div_pos (e_base e) QIZO_PAGE_SIZE ltac:(lia) eq_refl) as Hd.
  destruct (Z.eqb_spec (e_type e) 1) as [Hty|Hty]; cbn [negb];
    [|apply Hskip; [done|]; intros g ?; unfold covers; by rw_bool].
  destruct (Z.leb_spec (QIZO_PAGE_SIZE * (entry_end e / QIZO_PAGE_SIZE)) (QIZO_PAGE_SIZE * (e_base e / QIZO_PAGE_SIZE)));
    [apply Hskip; [done|]; intros g ?; unfold covers, QIZO_PAGE_SIZE in *; by_bool|].
  destruct (Z.leb_spec (top_of i) (QIZO_PAGE_SIZE * (e_base e / QIZO_PAGE_SIZE))).
  { apply Hskip; [done|]. cbn [total_frames blank]. intros g Hg. unfold covers, QIZO_PAGE_SIZE in *.
    pose proof (Z.mul_div_le (top_of i) 4096 eq_refl). by_bool. }
  set (last := if top_of i <? QIZO_PAGE_SIZE * (entry_end e / QIZO_PAGE_SIZE) then top_of i
    else QIZO_PAGE_SIZE * (entry_end e / QIZO_PAGE_SIZE)).
  assert (QIZO_PAGE_SIZE * (e_base e / QIZO_PAGE_SIZE) ≤ last ≤ top_of i).
  { unfold last. case_bool; lia. }
  apply safe_bind. eapply safe_mono; [apply mark_range_spec; [apply Hk|unfold QIZO_PAGE_SIZE in *; lia]|].
  intros s' Hm. cbn [safe step_to]. split; [by eapply marks_keeps|]. intros g Hg.
  rewrite (marks_true _ _ _ _ _ Hm Hg), (keeps_total _ _ Hk).
  rewrite (Z.mul_comm QIZO_PAGE_SIZE), Z.div_mul, Z.mul_comm by done.
  rewrite range_end by (unfold QIZO_PAGE_SIZE in *; lia).
  rewrite Zplus_minus. f_equal. rewrite andb_comm. cbn [total_frames blank].
  destruct (Z.ltb_spec g (top_of i / QIZO_PAGE_SIZE)); [|done]. cbn [andb]. unfold last.
  rewrite ceil_min by lia. unfold covers. by rewrite Hty.
Qed.

Lemma mark_usable_spec i :
  valid_info i →
  safe (mark_usable (Some i) (Z.min (map_count i) QIZO_E820_MAX) (top_of i) (blank i)) (λ s,
    keeps (blank i) s ∧ ∀ g, 0 ≤ g → is_free s g = (g <? total_frames (blank i)) && usable_frame i g).
Proof.
  intros Hi. pose proof (vi_map i Hi). pose proof (vi_count i Hi). unfold mark_usable.
  cbn [mbind option_bind].
  apply (safe_for_array (λ l s, keeps (blank i) s ∧ ∀ g, 0 ≤ g → is_free s g =
    (g <? total_frames (blank i)) && existsb (λ e, covers e g) l) (map i)); [lia| |].
  - intros l e s He [Hk Hf]. eapply safe_mono; [apply (mark_entry_spec i); [done|by eapply vi_entries]|].
    intros [s'|s'] Hs'; [|done]. destruct Hs' as [Hk' Hs']. split; [done|]. intros g Hg.
    rewrite Hs', Hf, existsb_app by done. cbn [existsb]. rewrite orb_false_r. by destruct (g <? _).
  - split; [split; [apply blank_wf|done]|]. intros g Hg. rewrite blank_free by done. by rewrite andb_false_r.
Qed.

(** The kernel ends where its last byte does, whatever wraps on the way. *)
Lemma kernel_range a e :
  0 ≤ a < 2 ^ 32 → 0 ≤ e →
  u64 (a + u64 (page_down (u64 (e + QIZO_PAGE_SIZE - 1)) - a) + QIZO_PAGE_SIZE - 1) / QIZO_PAGE_SIZE =
    u64 (e + QIZO_PAGE_SIZE - 1) / QIZO_PAGE_SIZE.
Proof.
  intros Ha He. set (x := u64 (e + QIZO_PAGE_SIZE - 1)). rewrite page_down_eq.
  pose proof (u64_range (e + QIZO_PAGE_SIZE - 1)) as Hx. fold x in Hx.
  pose proof (Z.mul_div_le x QIZO_PAGE_SIZE eq_refl). pose proof (Z.div_pos x QIZO_PAGE_SIZE ltac:(lia) eq_refl).
  assert (x / QIZO_PAGE_SIZE < 2 ^ 52) by (apply Z.div_lt_upper_bound; [done|]; unfold QIZO_PAGE_SIZE; lia).
  set (p := QIZO_PAGE_SIZE * (x / QIZO_PAGE_SIZE)) in *. unfold u64 at 1 2.
  replace (a + (p - a) mod 2 ^ 64 + QIZO_PAGE_SIZE - 1)
    with ((p - a) mod 2 ^ 64 + (a + QIZO_PAGE_SIZE - 1)) by lia.
  rewrite Z.add_mod_idemp_l by done.
  replace (p - a + (a + QIZO_PAGE_SIZE - 1)) with (x / QIZO_PAGE_SIZE * QIZO_PAGE_SIZE + (QIZO_PAGE_SIZE - 1)) by lia.
  rewrite Z.mod_small by (unfold QIZO_PAGE_SIZE in *; lia).
  rewrite Z.div_add_l by done. by rewrite Z.add_0_r.
Qed.

Lemma mark_reserved_spec sym i s :
  valid_info i → keeps (blank i) s →
  safe (mark_reserved sym (Some i) (top_of i) s) (λ s',
    keeps (blank i) s' ∧ ∀ g, 0 ≤ g → is_free s' g = is_free s g && negb (reserved_frame sym i g)).
Proof.
  intros Hi Hk. destruct (vi_blob i Hi) as [Hbp Hbs]. pose proof (vi_ktext i Hi) as Hkt.
  pose proof (vi_scratch i Hi) as Hsc.
  unfold mark_reserved. apply safe_bind.
  eapply safe_mono; [apply mark_range_spec; [apply Hk|done]|]. intros s1 H1.
  pose proof (marks_keeps _ _ _ _ _ _ Hk H1) as K1. cbv zeta. apply safe_bind.
  eapply safe_mono; [apply mark_range_spec; [apply K1|lia]|]. intros s2 H2.
  pose proof (marks_keeps _ _ _ _ _ _ K1 H2) as K2. apply safe_bind.
  eapply safe_mono; [apply mark_range_spec; [apply K2|lia]|]. intros s3 H3.
  pose proof (marks_keeps _ _ _ _ _ _ K2 H3) as K3.
  assert (∀ g, 0 ≤ g → is_free s3 g = is_free s g && negb (touches 0 (1024 * 1024) g) &&
    negb ((ktext i / QIZO_PAGE_SIZE <=? g) &&
      (g <? u64 (kernel_end sym i + QIZO_PAGE_SIZE - 1) / QIZO_PAGE_SIZE)) &&
    negb (touches (blob_phys i) (blob_size i) g)) as HF.
  { intros g Hg. rewrite (marks_false _ _ _ _ g H3), (marks_false _ _ _ _ g H2), (marks_false _ _ _ _ g H1) by done.
    do 3 f_equal. unfold kernel_end. rewrite Z.sub_add.
    destruct (kernel_total i =? 0); cbn [negb]; rewrite kernel_range; try done; apply u64_range || apply u32_range. }
  unfold reserved_frame. destruct (u32 (scratch i + 0x80000) <=? top_of i); cbn [andb].
  - eapply safe_mono; [apply mark_range_spec; [apply K3|lia]|]. intros s4 H4.
    split; [by eapply marks_keeps|]. intros g Hg. rewrite (marks_false _ _ _ _ g H4), HF by done.
    rewrite !negb_orb. by rewrite !andb_assoc.
  - cbn [safe]. split; [done|]. intros g Hg. rewrite HF by done. rewrite orb_false_r, !negb_orb.
    by rewrite !andb_assoc.
Qed.

(** The frames that are free after the start. *)
Definition start_free (sym : symbols) (i : bootinfo) (g : Z) : bool :=
  (g <? top_of i / QIZO_PAGE_SIZE) && usable_frame i g && negb (reserved_frame sym i g).

(** The state of the allocator: the counters count, and [hint] is a frame. *)
Record inv (s : pma) : Prop := {
  inv_wf : wf s;
  inv_free : free_frames s = nfree s;
  inv_hint : 0 ≤ hint s < total_frames s;
  inv_used : 0 ≤ used_frames s ≤ total_frames s - free_frames s;
}.

(** The state after the start. *)
Lemma init_start sym i :
  valid_info i →
  ∃ s, qizo_pma_init sym (Some i) = Some s ∧ inv s ∧ used_frames s = 0 ∧
    total_frames s = top_of i / QIZO_PAGE_SIZE ∧
    ∀ g, 0 ≤ g → is_free s g = start_free sym i g.
Proof.
  intros Hi. apply safe_Some. unfold qizo_pma_init.
  replace (if QIZO_E820_MAX <? map_count i then QIZO_E820_MAX else map_count i)
    with (Z.min (map_count i) QIZO_E820_MAX) by (case_bool; lia).
  rewrite find_top_spec by done. cbn [mbind option_bind]. fold (blank i). apply safe_bind.
  eapply safe_mono; [by apply mark_usable_spec|]. intros s1 [K1 F1]. apply safe_bind.
  eapply safe_mono; [by apply mark_reserved_spec|]. intros s2 [K2 F2].
  rewrite count_frames_spec by apply K2. cbn [mbind option_bind safe].
  set (s := Pma _ _ _ _ _ _). assert (∀ g, is_free s g = is_free s2 g) as Hs by done.
  assert (wf s) as Hwf by (split; apply K2).
  assert (total_frames s = top_of i / QIZO_PAGE_SIZE) as Ht by apply (keeps_total _ _ K2).
  assert (nfree s = nfree s2) as Hn by (by apply free_in_ext).
  pose proof (free_in_bound s 0 (total_frames s) (proj1 (wf_total s Hwf))) as Hb. fold (nfree s) in Hb.
  assert (free_frames s = nfree s) as Hfree by done.
  split; [|split; [done|split; [done|]]].
  - split; [done|done| |cbn [used_frames s]; lia]. split; [done|]. rewrite Ht.
    pose proof (top_of_range i) as Htop. change PMA_MIN_USABLE with (6144 * QIZO_PAGE_SIZE) in Htop.
    change (hint s) with 0. apply Z.div_str_pos. unfold QIZO_PAGE_SIZE in *. lia.
  - intros g Hg. rewrite Hs, F2, F1 by done. done.
Qed.

(** ** Allocation *)

Lemma total_small s : wf s → total_frames s ≤ 262144.
Proof. intros [_ [_ H]]. exact H. Qed.

Lemma phys_to_virt_frame f :
  0 ≤ f < 262144 → phys_to_virt (f * QIZO_PAGE_SIZE) = QIZO_HHDM_VIRT + f * QIZO_PAGE_SIZE.
Proof.
  intros. unfold phys_to_virt, QIZO_HHDM_VIRT, QIZO_PAGE_SIZE. rewrite u64_small; lia.
Qed.

Lemma virt_frame f : (QIZO_HHDM_VIRT + f * QIZO_PAGE_SIZE - QIZO_HHDM_VIRT) / QIZO_PAGE_SIZE = f.
Proof. rewrite Z.add_simpl_l. by apply Z.div_mul. Qed.

(** [s'] is [s] after [n] frames from [f] on, free in [s], were taken. *)
Record takes (f n : Z) (s s' : pma) : Prop := {
  tk_in : 0 ≤ f ∧ f + n ≤ total_frames s;
  tk_free : ∀ g, f ≤ g < f + n → is_free s g = true;
  tk_inv : inv s';
  tk_total : total_frames s' = total_frames s;
  tk_left : free_frames s' = free_frames s - n;
  tk_used : used_frames s' = used_frames s + n;
  tk_after : ∀ g, 0 ≤ g → is_free s' g = is_free s g && negb ((f <=? g) && (g <? f + n));
}.

(** Taking free frames, by any state with the marked bitmap and counters. *)
Lemma takes_intro f n s s1 s' :
  inv s → 0 < n → 0 ≤ f → f + n ≤ total_frames s → (∀ g, f ≤ g < f + n → is_free s g = true) →
  marks f (f + n) false s s1 →
  bitmap s' = bitmap s1 → total_frames s' = total_frames s →
  free_frames s' = free_frames s - n → used_frames s' = used_frames s + n →
  0 ≤ hint s' < total_frames s → takes f n s s'.
Proof.
  intros Hinv Hn Hf Hfn Hfree Hm Eb Et El Eu Eh.
  assert (∀ g, is_free s' g = is_free s1 g) as Hs.
  { intros g. unfold is_free. by rewrite Eb, Et, (marks_total _ _ _ _ _ Hm). }
  assert (wf s') as Hwf.
  { split; [rewrite Eb; apply Hm|rewrite Et; apply Hinv]. }
  assert (free_frames s' = nfree s') as Hc.
  { rewrite El, (inv_free s Hinv). unfold nfree at 2. rewrite (free_in_ext s' s1), Et by done.
    rewrite <-(marks_total _ _ _ _ _ Hm). fold (nfree s1).
    rewrite (nfree_marks _ _ _ _ _ Hm) by (done || lia). lia. }
  split; try done.
  - split; [done|done|by rewrite Et|]. destruct (inv_used s Hinv). rewrite Eu, Et, El.
    pose proof (free_in_bound s' 0 (total_frames s') (proj1 (wf_total _ Hwf))). fold (nfree s') in *. lia.
  - intros g Hg. rewrite Hs. by apply marks_false.
Qed.

Lemma nfree_pos s f : wf s → 0 ≤ f → is_free s f = true → 1 ≤ nfree s.
Proof.
  intros Hwf Hf H. assert (f < total_frames s).
  { destruct (Z.le_gt_cases (total_frames s) f); [|lia]. by rewrite is_free_bound in H. }
  unfold nfree. rewrite (free_in_split s 0 f), (free_in_split s f (f + 1)) by lia.
  rewrite (free_in_all s f (f + 1) true) by (lia || (intros g ?; by replace g with f by lia)).
  pose proof (free_in_bound s 0 f Hf). pose proof (free_in_bound s (f + 1) (total_frames s) ltac:(lia)). lia.
Qed.

(** Where round [i] of the search looks. *)
Definition probe (s : pma) (i : Z) : Z := (hint s + i) mod total_frames s.

(** An allocation takes the first free frame from [hint] on, round the end; it
    returns 0 exactly when no frame is free. *)
Theorem alloc_spec s :
  inv s →
  safe (qizo_pma_alloc s) (λ r,
    (r = (0, s) ∧ ∀ g, 0 ≤ g → is_free s g = false) ∨
    ∃ i, 0 ≤ i < total_frames s ∧ r.1 = phys_to_virt (probe s i * QIZO_PAGE_SIZE) ∧
      takes (probe s i) 1 s r.2 ∧ ∀ j, 0 ≤ j < i → is_free s (probe s j) = false).
Proof.
  intros Hinv. pose proof (inv_wf s Hinv) as Hwf. pose proof (total_small s Hwf) as Hsmall.
  pose proof (inv_hint s Hinv) as Hh. unfold qizo_pma_alloc. cbv zeta. apply safe_bind.
  apply (safe_for_up (λ i r, r = None ∧ ∀ j, 0 ≤ j < i → is_free s (probe s j) = false)).
  - lia.
  - intros i r Hi [-> Hno].
    assert ((if total_frames s <=? u64 (hint s + i) then u64 (hint s + i) - total_frames s
      else u64 (hint s + i)) = probe s i) as ->.
    { rewrite u64_small by lia. unfold probe. case_bool; [|by rewrite Z.mod_small by lia].
      apply (Z.mod_unique _ _ 1); lia. }
    pose proof (Z.mod_pos_bound (hint s + i) (total_frames s) ltac:(lia)) as Hp. fold (probe s i) in Hp.
    rewrite frame_ok_spec by (done || lia). cbn [mbind option_bind].
    destruct (is_free s (probe s i)) eqn:Hf; cbn [negb].
    + apply safe_bind. eapply safe_mono; [apply mark_spec; [done|lia]|]. intros s1 Hm. cbn [safe step_to default].
      right. exists i. split; [done|]. split; [done|]. split; [|done]. cbn [snd].
      pose proof (nfree_pos s (probe s i) Hwf ltac:(lia) Hf). pose proof (inv_free s Hinv). destruct (inv_used s Hinv).
      eapply takes_intro; try done; cbn; try lia.
      * intros g ?. by replace g with (probe s i) by lia.
      * by rw_bool.
      * rewrite u64_small; lia.
      * case_bool; lia.
    + cbn [safe step_to]. split; [done|]. intros j Hj. destruct (Z.eq_dec j i) as [->|]; [done|].
      apply Hno. lia.
  - intros r [-> Hno]. cbn [safe default]. left. split; [done|]. intros g Hg.
    destruct (Z.le_gt_cases (total_frames s) g); [by apply is_free_bound|].
    rewrite <-(Hno ((g - hint s) mod total_frames s)) by (apply Z.mod_pos_bound; lia).
    f_equal. unfold probe. rewrite Z.add_mod_idemp_r by lia. rewrite Zplus_minus. by rewrite Z.mod_small by lia.
  - split; [done|]. lia.
Qed.

(** All frames of the run of [n] from [f] on are free. *)
Definition run_free (s : pma) (f n : Z) : Prop :=
  0 ≤ f ∧ f + n ≤ total_frames s ∧ ∀ g, f ≤ g < f + n → is_free s g = true.

(** What the search knows before round [i]: the free frames just before [i]. *)
Record scan (s : pma) (n i : Z) (fr : Z * Z) : Prop := {
  sc_run : 0 ≤ fr.2 < n ∧ fr.2 ≤ i;
  sc_first : 0 < fr.2 → fr.1 = i - fr.2;
  sc_free : ∀ g, i - fr.2 ≤ g < i → is_free s g = true;
  sc_edge : fr.2 < i → is_free s (i - fr.2 - 1) = false;
  sc_none : ∀ f, 0 ≤ f → f + n ≤ i → ¬ run_free s f n;
}.

(** The result of the search. *)
Definition found (s : pma) (n : Z) (fr : Z * Z) : Prop :=
  (fr.2 = n ∧ run_free s fr.1 n ∧ ∀ f, f < fr.1 → ¬ run_free s f n) ∨
  (fr.2 < n ∧ ∀ f, ¬ run_free s f n).

Lemma find_run_spec s n : wf s → 0 < n → safe (find_run s n) (found s n).
Proof.
  intros Hwf Hn. pose proof (wf_total s Hwf). unfold find_run.
  apply (safe_for_up (scan s n)); [lia| | |split; cbn; lia || done].
  - intros i [first run] Hi [[Hr Hri] Hfst Hfree Hedge Hnone]. cbn [fst snd] in *.
    rewrite frame_ok_spec by (done || lia). cbn [mbind option_bind].
    destruct (is_free s i) eqn:Hfi.
    + assert ((if run =? 0 then i else first) = i - run) as -> by (case_bool; [lia|by apply Hfst; lia]).
      assert (∀ g, i - run ≤ g < i + 1 → is_free s g = true) as Hall.
      { intros g Hg. destruct (Z.eq_dec g i) as [->|]; [done|]. apply Hfree. lia. }
      destruct (Z.eqb_spec (run + 1) n) as [He|He]; cbn [safe step_to].
      * left. cbn [fst snd]. split; [done|]. split; [split; [lia|split; [lia|intros g ?; apply Hall; lia]]|].
        intros f Hf Hrun. pose proof Hrun as (? & ? & Hr2). apply (Hnone f); [lia|lia|done].
      * split; cbn [fst snd]; [lia|lia|intros g ?; apply Hall; lia| |].
        -- intros ?. replace (i + 1 - (run + 1) - 1) with (i - run - 1) by lia. apply Hedge. lia.
        -- intros f Hf Hfn Hrun. destruct (Z.eq_dec (f + n) (i + 1)); [|by apply (Hnone f); [|lia|]].
           destruct Hrun as (_ & _ & Hr2). rewrite Hr2 in Hedge by lia. discriminate Hedge. lia.
    + cbn [safe step_to]. split; cbn [fst snd]; [lia|lia|lia| |].
      * intros _. by replace (i + 1 - 0 - 1) with i by lia.
      * intros f Hf Hfn Hrun. destruct (Z.eq_dec (f + n) (i + 1)); [|by apply (Hnone f); [|lia|]].
        destruct Hrun as (_ & _ & Hr2). rewrite Hr2 in Hfi by lia. done.
  - intros [first run] [[Hr _] _ _ _ Hnone]. right. cbn [fst snd] in *. split; [lia|].
    intros f Hrun. pose proof Hrun as (? & ? & _). by apply (Hnone f).
Qed.

(** [qizo_page_alloc] takes the first run of free frames that is long enough, and
    returns 0 exactly when there is none. *)
Theorem page_alloc_spec s n :
  inv s → 0 ≤ n →
  safe (qizo_page_alloc s n) (λ r,
    (r = (0, s) ∧ ∀ f, ¬ run_free s f (Z.max 1 n)) ∨
    ∃ f, r.1 = phys_to_virt (f * QIZO_PAGE_SIZE) ∧ takes f (Z.max 1 n) s r.2 ∧
      ∀ f', f' < f → ¬ run_free s f' (Z.max 1 n)).
Proof.
  intros Hinv Hn. pose proof (inv_wf s Hinv) as Hwf. pose proof (total_small s Hwf). unfold qizo_page_alloc.
  replace (if n =? 0 then 1 else n) with (Z.max 1 n) by (case_bool; lia). set (m := Z.max 1 n).
  assert (0 < m) as Hm0 by lia. clearbody m. apply safe_bind.
  eapply safe_mono; [by apply find_run_spec|]. intros [first run] [(Hr & Hrun & Hmin)|(Hr & Hnone)];
    cbn [fst snd] in *; rw_bool; [|by left].
  pose proof Hrun as (Hf0 & Hft & Hfree). apply safe_bind.
  eapply safe_mono; [apply (mark_loop (λ j, first + j) s 0 m first false); (lia || done)|].
  intros s1 Hmk. rewrite Z.sub_0_r in Hmk. cbn [safe]. right. exists first. split; [done|]. split; [|done].
  cbn [snd]. pose proof (inv_free s Hinv). destruct (inv_used s Hinv).
  assert (m ≤ nfree s).
  { unfold nfree. rewrite (free_in_split s 0 first), (free_in_split s first (first + m)) by lia.
    rewrite (free_in_all s first (first + m) true) by (done || lia).
    pose proof (free_in_bound s 0 first Hf0).
    pose proof (free_in_bound s (first + m) (total_frames s) ltac:(lia)). lia. }
  pose proof (inv_hint s Hinv). destruct (marks_fields _ _ _ _ _ Hmk) as (? & ? & ? & ?).
  eapply takes_intro; try done; cbn; rewrite ?u64_small; lia.
Qed.

(** [s'] is [s] after the [n] frames from [f] on, all in use, were given back. *)
Record gives (f n : Z) (s s' : pma) : Prop := {
  gv_inv : inv s';
  gv_total : total_frames s' = total_frames s;
  gv_left : free_frames s' = free_frames s + n;
  gv_used : used_frames s' = used_frames s - n;
  gv_after : ∀ g, 0 ≤ g → is_free s' g = is_free s g || ((f <=? g) && (g <? f + n));
}.

(** [qizo_page_free] gives back a block that is in use. *)
Theorem page_free_spec s f n :
  inv s → 0 ≤ f → 0 < n → f + n ≤ total_frames s → n ≤ used_frames s →
  (∀ g, f ≤ g < f + n → is_free s g = false) →
  safe (qizo_page_free s (phys_to_virt (f * QIZO_PAGE_SIZE)) n) (gives f n s).
Proof.
  intros Hinv Hf Hn Hfn Hused Hbusy. pose proof (inv_wf s Hinv) as Hwf. pose proof (total_small s Hwf).
  unfold qizo_page_free.
  rewrite phys_to_virt_frame by lia. rewrite (proj2 (Z.eqb_neq _ _)) by (unfold QIZO_HHDM_VIRT, QIZO_PAGE_SIZE; lia).
  assert (u64 (QIZO_HHDM_VIRT + f * QIZO_PAGE_SIZE - QIZO_HHDM_VIRT) / QIZO_PAGE_SIZE = f) as ->.
  { rewrite u64_small by (unfold QIZO_PAGE_SIZE; lia). apply virt_frame. }
  apply safe_bind. eapply safe_mono; [apply (mark_loop (λ j, u64 (f + j)) s 0 n f true); try (lia || done)|].
  { intros j Hj. rewrite u64_small; lia. }
  intros s1 Hm. rewrite Z.sub_0_r in Hm. cbn [safe]. set (s' := Pma _ _ _ _ _ _).
  pose proof (inv_free s Hinv) as Hc. destruct (inv_used s Hinv) as [Hu0 Hu]. pose proof (inv_hint s Hinv).
  pose proof (free_in_bound s 0 (total_frames s) (proj1 (wf_total s Hwf))) as Hb. fold (nfree s) in Hb.
  assert (∀ g, is_free s' g = is_free s1 g) as Hs.
  { done. }
  assert (total_frames s' = total_frames s) as Ht by apply (marks_total _ _ _ _ _ Hm).
  assert (wf s') as Hwf' by (split; [apply Hm|rewrite Ht; apply Hwf]).
  assert (nfree s' = nfree s + n) as Hn'.
  { unfold nfree at 1. rewrite (free_in_ext s' s1) by done. rewrite Ht, <-(marks_total _ _ _ _ _ Hm).
    fold (nfree s1). rewrite (nfree_marks _ _ _ _ _ Hm) by (done || lia). lia. }
  pose proof (free_in_bound s' 0 (total_frames s') (proj1 (wf_total s' Hwf'))) as Hb'. fold (nfree s') in Hb'.
  destruct (marks_fields _ _ _ _ _ Hm) as (_ & Ef & Eu & Eh).
  assert (free_frames s' = free_frames s + n) as Hl by (cbn; rewrite u64_small; lia).
  assert (used_frames s' = used_frames s - n) as Hl' by (cbn; rewrite u64_small; lia).
  split; [split; try done; [lia|rewrite Ht; cbn; by rewrite Eh|lia]|done..|].
  intros g Hg. rewrite Hs, (marks_true _ _ _ _ _ Hm Hg). by_bool.
Qed.

(** [qizo_pma_free] gives nothing back: it only goes on when the frame is free
    already, and then counts it once more. *)
Theorem pma_free_spec s addr :
  wf s → 0 ≤ addr →
  safe (qizo_pma_free s addr) (λ s',
    (∀ g, 0 ≤ g → is_free s' g = is_free s g) ∧
    let frame := (addr - QIZO_HHDM_VIRT) / QIZO_PAGE_SIZE in
    if (QIZO_HHDM_VIRT <=? addr) && is_free s frame && (free_frames s <? total_frames s)
    then free_frames s' = free_frames s + 1
    else free_frames s' = free_frames s ∧ (is_free s frame = false → s' = s)).
Proof.
  intros Hwf Ha. unfold qizo_pma_free. destruct (Z.ltb_spec addr QIZO_HHDM_VIRT); rw_bool; [done|].
  cbn [andb]. cbv zeta. pose proof (Z.div_pos (addr - QIZO_HHDM_VIRT) QIZO_PAGE_SIZE ltac:(lia) eq_refl) as Hf.
  set (f := _ / QIZO_PAGE_SIZE) in *. clearbody f. rewrite frame_ok_spec by done. cbn [mbind option_bind].
  destruct (is_free s f) eqn:E; cbn [negb]; [|done]. apply safe_bind.
  eapply safe_mono; [by apply mark_spec|]. intros s1 Hm. cbn [safe free_frames].
  destruct (marks_fields _ _ _ _ _ Hm) as (-> & -> & _ & _). split; [|by case_bool].
  intros g Hg. unfold is_free at 1. cbn [total_frames bitmap]. rewrite <-(marks_total _ _ _ _ _ Hm).
  fold (is_free s1 g). rewrite (marks_true _ _ _ _ _ Hm Hg).
  destruct (Z.leb_spec f g); [|by rewrite orb_false_r]. destruct (Z.ltb_spec g (f + 1)); [|by rewrite orb_false_r].
  replace g with f by lia. rewrite E. done.
Qed.

(** ** The allocator at work

    The kernel's calls, and the blocks (first frame, number of frames) that were
    handed out and not given back. *)

Definition frame_of (addr : Z) : Z := (addr - QIZO_HHDM_VIRT) / QIZO_PAGE_SIZE.

Definition block : Type := Z * Z.

Inductive step : pma * list block → pma * list block → Prop :=
  | step_alloc s l v s' :
      qizo_pma_alloc s = Some (v, s') →
      step (s, l) (s', if v =? 0 then l else (frame_of v, 1) :: l)
  | step_page_alloc s l n v s' :
      0 ≤ n → qizo_page_alloc s n = Some (v, s') →
      step (s, l) (s', if v =? 0 then l else (frame_of v, Z.max 1 n) :: l)
  | step_free s l f l' s' :
      l ≡ₚ (f, 1) :: l' → qizo_pma_free s (phys_to_virt (f * QIZO_PAGE_SIZE)) = Some s' →
      step (s, l) (s', l')
  | step_page_free s l f n l' s' :
      l ≡ₚ (f, n) :: l' → qizo_page_free s (phys_to_virt (f * QIZO_PAGE_SIZE)) n = Some s' →
      step (s, l) (s', l').

(** The frames of the blocks. *)
Definition frames (l : list block) : list Z := l ≫= λ b, range b.1 (b.1 + b.2).

(** No frame is in two blocks, and none is free or was not free at the start. *)
Record blocks_ok (s0 : pma) (sl : pma * list block) : Prop := {
  bo_inv : inv sl.1;
  bo_total : total_frames sl.1 = total_frames s0;
  bo_sum : free_frames sl.1 + used_frames sl.1 = free_frames s0 + used_frames s0;
  bo_start : ∀ g, 0 ≤ g → is_free sl.1 g = true → is_free s0 g = true;
  bo_size : ∀ b, b ∈ sl.2 → 0 < b.2;
  bo_nodup : NoDup (frames sl.2);
  bo_used : len (frames sl.2) ≤ used_frames sl.1;
  bo_frames : ∀ g, g ∈ frames sl.2 → 0 ≤ g < total_frames s0 ∧ is_free sl.1 g = false ∧ is_free s0 g = true;
}.

Lemma frames_perm l l' : l ≡ₚ l' → frames l ≡ₚ frames l'.
Proof. intros H. unfold frames. by rewrite H. Qed.

Lemma elem_of_frames g l : g ∈ frames l ↔ ∃ b, b ∈ l ∧ b.1 ≤ g < b.1 + b.2.
Proof.
  unfold frames. rewrite list_elem_of_bind. split; intros (b & H1 & H2); exists b;
    rewrite elem_of_range in *; tauto.
Qed.

Lemma blocks_take s0 s l f n s' :
  blocks_ok s0 (s, l) → 0 < n → takes f n s s' → blocks_ok s0 (s', (f, n) :: l).
Proof.
  intros [Hinv Ht Hsum Hst Hsz Hnd Hu Hfr] Hn [[Hf Hfn] Hfree Hinv' Ht' Hl' Hu' Haft]. cbn [fst snd] in *.
  split; cbn [fst snd]; [done|congruence|lia| | | | |].
  - intros g Hg. rewrite Haft by done. intros [??]%andb_true_iff. by apply Hst.
  - intros b [->|?]%elem_of_cons; [done|by apply Hsz].
  - unfold frames. cbn [mbind list_bind]. apply list.NoDup_app. cbn [fst snd]. split; [apply NoDup_seqZ|split; [|done]].
    intros g Hg%elem_of_range Hg'. destruct (Hfr g Hg') as (_ & Hb & _). by rewrite Hfree in Hb.
  - unfold frames in *. cbn [mbind list_bind fst snd]. rewrite length_app, range_length. lia.
  - intros g Hg. apply elem_of_frames in Hg as (b & [->|Hb]%elem_of_cons & Hr); cbn [fst snd] in *.
    + split; [lia|]. rewrite Haft by lia. split; [by rw_bool; rewrite andb_false_r|]. apply Hst, Hfree; lia.
    + destruct (Hfr g) as (? & Hbusy & ?); [apply elem_of_frames; by exists b|]. rewrite Haft, Hbusy by lia. done.
Qed.

Lemma blocks_perm s0 s l l' : l ≡ₚ l' → blocks_ok s0 (s, l) → blocks_ok s0 (s, l').
Proof.
  intros HP [Hinv Ht Hsum Hst Hsz Hnd Hu Hfr]. pose proof (frames_perm _ _ HP) as HF. cbn [fst snd] in *.
  split; cbn [fst snd]; [done..| | | |].
  - intros b. rewrite <-HP. apply Hsz.
  - by rewrite <-HF.
  - by rewrite <-HF.
  - intros g. rewrite <-HF. apply Hfr.
Qed.

(** Dropping a block from the list; its frames stay in use. *)
Lemma blocks_drop s0 s b l : blocks_ok s0 (s, b :: l) → blocks_ok s0 (s, l).
Proof.
  intros [Hinv Ht Hsum Hst Hsz Hnd Hu Hfr]. unfold frames in *. cbn [fst snd mbind list_bind] in *.
  apply list.NoDup_app in Hnd as (_ & _ & Hnd). rewrite length_app in Hu.
  split; cbn [fst snd]; [done..| |done|unfold frames; lia|].
  - intros c ?. apply Hsz. by apply list_elem_of_further.
  - intros g ?. apply Hfr. by apply elem_of_app; right.
Qed.

Lemma blocks_give s0 s f n l s' :
  blocks_ok s0 (s, (f, n) :: l) → gives f n s s' → blocks_ok s0 (s', l).
Proof.
  intros Hok [Hinv' Ht' Hl' Hu' Haft]. pose proof (blocks_drop _ _ _ _ Hok) as Hd.
  destruct Hok as [_ Ht Hsum Hst Hsz Hnd Hu Hfr]. destruct Hd as [_ _ _ _ Hsz' Hnd' _ Hfr'].
  unfold frames in Hnd, Hu, Hfr. cbn [fst snd mbind list_bind] in *.
  apply list.NoDup_app in Hnd as (_ & Hdisj & _). rewrite length_app, range_length in Hu.
  pose proof (Hsz (f, n) ltac:(by apply list_elem_of_here)). cbn [fst snd] in *.
  split; cbn [fst snd]; [done|congruence|lia| |done|done|unfold frames; lia|].
  - intros g Hg. rewrite Haft by done. intros [?|Hr]%orb_true_iff; [by apply Hst|].
    apply Hfr, elem_of_app. left. apply elem_of_range. revert Hr. by_bool.
  - intros g Hg. destruct (Hfr' g Hg) as (? & Hb & ?). split; [done|]. split; [|done].
    rewrite Haft, Hb by lia. destruct ((f <=? g) && (g <? f + n)) eqn:E; [|done].
    exfalso. apply (Hdisj g); [|done]. apply elem_of_range. revert E. by_bool.
Qed.

Lemma virt_nonzero f : 0 ≤ f < 262144 → phys_to_virt (f * QIZO_PAGE_SIZE) ≠ 0 ∧
  frame_of (phys_to_virt (f * QIZO_PAGE_SIZE)) = f.
Proof.
  intros. rewrite phys_to_virt_frame by done. split; [unfold QIZO_HHDM_VIRT, QIZO_PAGE_SIZE; lia|].
  apply virt_frame.
Qed.

(** The result of an allocation: a block that was free, or 0 and no change. *)
Lemma alloc_ok s0 s l n v s' :
  blocks_ok s0 (s, l) → 0 < n →
  (v, s') = (0, s) ∨ (∃ f, v = phys_to_virt (f * QIZO_PAGE_SIZE) ∧ takes f n s s') →
  blocks_ok s0 (s', if v =? 0 then l else (frame_of v, n) :: l).
Proof.
  intros Hok Hn [[= -> ->]|(f & -> & Ht)]; [done|]. pose proof (tk_in _ _ _ _ Ht).
  pose proof (total_small s (inv_wf s (bo_inv _ _ Hok))). destruct (virt_nonzero f ltac:(lia)) as [? ->].
  rewrite (proj2 (Z.eqb_neq _ _)) by done. by apply blocks_take with s.
Qed.

Lemma blocks_in_range s0 s l f n :
  blocks_ok s0 (s, l) → (f, n) ∈ l →
  0 < n ∧ ∀ g, f ≤ g < f + n → 0 ≤ g < total_frames s ∧ is_free s g = false.
Proof.
  intros [_ Ht _ _ Hsz _ _ Hfr] Hin. cbn [fst snd] in *. split; [apply (Hsz _ Hin)|]. intros g Hg.
  destruct (Hfr g) as (? & ? & _); [apply elem_of_frames; by exists (f, n)|]. by rewrite Ht.
Qed.

Lemma step_ok s0 x y : blocks_ok s0 x → step x y → blocks_ok s0 y.
Proof.
  intros Hok Hs. destruct Hs as [s l v s' E|s l n v s' Hn E|s l f l' s' HP E|s l f n l' s' HP E];
    pose proof (bo_inv _ _ Hok) as Hinv; cbn [fst snd] in *.
  - apply alloc_ok with s; [done|lia|]. pose proof (safe_inv _ _ _ E (alloc_spec s Hinv)) as [[? _]|(i & _ & ? & ? & _)];
      [by left|right]. by exists (probe s i).
  - apply alloc_ok with s; [done|lia|].
    pose proof (safe_inv _ _ _ E (page_alloc_spec s n Hinv Hn)) as [[? _]|(f & ? & ? & _)]; [by left|right]. by exists f.
  - apply (blocks_perm _ _ _ _ HP) in Hok. destruct (blocks_in_range _ _ _ f 1 Hok) as [_ Hf]; [apply list_elem_of_here|].
    destruct (Hf f ltac:(lia)) as [Hr Hb]. pose proof (total_small s (inv_wf s Hinv)).
    destruct (virt_nonzero f ltac:(lia)) as [_ Hfr]. unfold frame_of in Hfr.
    pose proof (safe_inv _ _ _ E (pma_free_spec s (phys_to_virt (f * QIZO_PAGE_SIZE)) (inv_wf s Hinv) (proj1 (u64_range _)))) as [_ Hs].
    cbv zeta in Hs. rewrite Hfr, Hb, andb_false_r in Hs. cbn [andb] in Hs. rewrite (proj2 Hs) by done. by apply blocks_drop with (f, 1).
  - apply (blocks_perm _ _ _ _ HP) in Hok. destruct (blocks_in_range _ _ _ f n Hok) as [Hn Hf]; [apply list_elem_of_here|].
    pose proof (Hf f ltac:(lia)). pose proof (Hf (f + n - 1) ltac:(lia)). pose proof (bo_used _ _ Hok) as Hu.
    unfold frames in Hu. cbn [fst snd mbind list_bind] in Hu. rewrite length_app, range_length in Hu.
    eapply blocks_give; [done|]. eapply safe_inv; [done|]. apply page_free_spec; [done|lia|done|lia|lia|].
    intros g Hg. by apply Hf.
Qed.

(** C14 - Whatever the kernel asks of the allocator, the blocks in use never share a
    frame, all their frames were free at the start, none of them is free, and the
    counters agree with the bitmap. *)
Theorem blocks_disjoint sym i s0 s l :
  valid_info i → qizo_pma_init sym (Some i) = Some s0 → rtc step (s0, []) (s, l) →
  NoDup (frames l) ∧ (∀ g, g ∈ frames l → start_free sym i g = true ∧ is_free s g = false) ∧
  free_frames s = nfree s ∧ free_frames s + used_frames s = free_frames s0.
Proof.
  intros Hi E Hsteps. destruct (init_start sym i Hi) as (s1 & E1 & Hinv & Hu & Ht & HF).
  rewrite E in E1. injection E1 as <-.
  assert (blocks_ok s0 (s, l)) as [Hinv' Ht' Hsum _ _ Hnd _ Hfr].
  { remember (s0, @nil block) as x eqn:Hx. remember (s, l) as y eqn:Hy. clear Hy.
    assert (blocks_ok s0 x) as Hx0.
    { subst x. split; cbn [fst snd]; try done; [by intros b ?%elem_of_nil|constructor|cbn; lia|by intros g ?%elem_of_nil]. }
    clear Hx. induction Hsteps as [x|x y z Hxy _ IH]; [done|]. apply IH. by eapply step_ok. }
  cbn [fst snd] in *. split; [done|split; [|split; [apply Hinv'|lia]]].
  intros g Hg. destruct (Hfr g Hg) as (? & ? & ?). by rewrite <-HF by lia.
Qed.


(** *** Allocating every frame *)

(** [n] calls of [qizo_pma_alloc], and what they return. *)
Fixpoint alloc_many (n : nat) (s : pma) : option (list Z * pma) :=
  match n with
  | O => Some ([], s)
  | S n => '(v, s) ← qizo_pma_alloc s; '(vs, s) ← alloc_many n s; Some (v :: vs, s)
  end.

Lemma nfree_zero s : inv s → (∀ g, 0 ≤ g → is_free s g = false) → free_frames s = 0.
Proof.
  intros Hinv H. rewrite (inv_free s Hinv). unfold nfree.
  rewrite (free_in_all s 0 (total_frames s) false); [done|apply Hinv|]. intros g Hg. apply H. lia.
Qed.

(** What [n] allocations took from [s]. *)
Record took (n : nat) (s : pma) (r : list Z * pma) : Prop := {
  to_inv : inv r.2;
  to_left : free_frames r.2 = free_frames s - Z.of_nat n;
  to_mono : ∀ g, 0 ≤ g → is_free r.2 g = true → is_free s g = true;
  to_nodup : NoDup r.1;
  to_elems : ∀ v, v ∈ r.1 ↔ ∃ g, 0 ≤ g ∧ is_free s g = true ∧ is_free r.2 g = false ∧ v = phys_to_virt (g * QIZO_PAGE_SIZE);
}.

Lemma is_free_small s g : wf s → is_free s g = true → g < 262144.
Proof.
  intros Hwf H. pose proof (total_small s Hwf). destruct (Z.le_gt_cases (total_frames s) g); [|lia].
  by rewrite is_free_bound in H.
Qed.

Lemma alloc_many_spec n s : inv s → Z.of_nat n ≤ free_frames s → safe (alloc_many n s) (took n s).
Proof.
  revert s. induction n as [|n IH]; intros s Hinv Hn; cbn [alloc_many].
  { cbn [safe]. split; cbn [fst snd]; [done|lia|done|constructor|]. intros v. split; [by intros ?%elem_of_nil|].
    intros (g & _ & H1 & H2 & _). congruence. }
  pose proof (alloc_spec s Hinv) as Ha. destruct (qizo_pma_alloc s) as [[v s1]|]; [|done]. cbn [safe fst snd mbind option_bind] in *.
  destruct Ha as [[_ Hno]|(i & _ & -> & Ht & _)]; [by pose proof (nfree_zero s Hinv Hno); lia|].
  set (f := probe s i) in *. clearbody f. pose proof Ht as [[Hf0 Hf1] Hfree H1 Etot Hl _ Haft].
  specialize (IH s1 H1 ltac:(lia)). destruct (alloc_many n s1) as [[vs s2]|]; [|done].
  destruct IH as [H2 Hl2 Hmono Hnd Hel]. cbn [safe fst snd mbind option_bind] in *.
  assert (is_free s1 f = false) as Hf1' by (rewrite Haft by lia; by_bool).
  assert (∀ g, 0 ≤ g → is_free s1 g = true → is_free s g = true) as Hm1.
  { intros g Hg. rewrite Haft by done. by intros [? _]%andb_true_iff. }
  assert (is_free s2 f = false) as Hf2.
  { destruct (is_free s2 f) eqn:E; [|done]. apply Hmono in E; [congruence|done]. }
  pose proof (inv_wf s Hinv) as Hwf. pose proof (is_free_small s f Hwf (Hfree f ltac:(lia))).
  split; cbn [fst snd]; [done|lia|auto| |].
  - constructor; [|done]. rewrite Hel. intros (g & Hg & Hgf & _ & E).
    pose proof (is_free_small s g Hwf (Hm1 g Hg Hgf)). destruct (virt_nonzero f ltac:(lia)) as [_ Ef].
    destruct (virt_nonzero g ltac:(lia)) as [_ Eg]. rewrite E in Ef. rewrite Eg in Ef. congruence.
  - intros v. rewrite elem_of_cons, Hel. split.
    + intros [->|(g & ? & ? & ? & ->)]; [exists f|exists g]; auto using Z.lt_le_incl with lia.
    + intros (g & Hg & Hgf & Hg2 & ->). destruct (Z.eq_dec g f) as [->|Hne]; [by left|]. right. exists g.
      split; [done|]. split; [|done]. rewrite Haft, Hgf by done. by_bool.
Qed.

(** Every free frame can be had: as many allocations as there are free frames
    succeed, return each of them once, and the next one returns 0. *)
Theorem alloc_all sym i s :
  valid_info i → qizo_pma_init sym (Some i) = Some s →
  safe (alloc_many (Z.to_nat (free_frames s)) s) (λ r,
    NoDup r.1 ∧
    (∀ v, v ∈ r.1 ↔ ∃ g, 0 ≤ g ∧ start_free sym i g = true ∧ v = phys_to_virt (g * QIZO_PAGE_SIZE)) ∧
    qizo_pma_alloc r.2 = Some (0, r.2)).
Proof.
  intros Hi E. destruct (init_start sym i Hi) as (s1 & E1 & Hinv & _ & _ & HF). rewrite E in E1. injection E1 as <-.
  assert (0 ≤ free_frames s) as H0.
  { rewrite (inv_free s Hinv). apply free_in_bound, Hinv. }
  eapply safe_mono; [apply alloc_many_spec; [done|lia]|]. intros [vs s'] [H1 Hl Hmono Hnd Hel]. cbn [fst snd] in *.
  assert (∀ g, 0 ≤ g → is_free s' g = false) as Hnone.
  { intros g Hg. destruct (is_free s' g) eqn:Eg; [|done]. pose proof (nfree_pos s' g (inv_wf _ H1) Hg Eg).
    rewrite <-(inv_free s' H1) in *. lia. }
  split; [done|]. split.
  - intros v. rewrite Hel. split; intros (g & Hg & Hgf); exists g; (split; [done|]).
    + destruct Hgf as (? & _ & ?). by rewrite <-HF.
    + destruct Hgf as (? & ?). rewrite HF by done. auto.
  - pose proof (alloc_spec s' H1) as Ha. destruct (qizo_pma_alloc s') as [r|]; [|done]. cbn [safe] in Ha.
    destruct Ha as [[-> _]|(j & _ & _ & Ht & _)]; [done|]. destruct Ht as [[? _] Hfr _ _ _ _ _].
    specialize (Hfr (probe s' j) ltac:(lia)). by rewrite Hnone in Hfr by lia.
Qed.

(** *** Giving frames back *)

(** A frame from [qizo_pma_alloc] that is given back with [qizo_pma_free] is lost:
    the call changes nothing. *)
Theorem free_leaks s v s1 :
  inv s → qizo_pma_alloc s = Some (v, s1) → v ≠ 0 →
  qizo_pma_free s1 v = Some s1 ∧ is_free s (frame_of v) = true ∧ is_free s1 (frame_of v) = false.
Proof.
  intros Hinv E Hv. destruct (safe_inv _ _ _ E (alloc_spec s Hinv)) as [[[= -> _] _]|(i & Hi & Ev & Ht & _)]; [done|].
  cbn [fst snd] in *. set (f := probe s i) in *. clearbody f. pose proof Ht as [[Hf0 Hf1] Hfree H1 _ _ _ Haft].
  pose proof (total_small s (inv_wf s Hinv)). destruct (virt_nonzero f ltac:(lia)) as [_ Ef]. rewrite <-Ev in Ef.
  assert (is_free s1 f = false) as Hn by (rewrite Haft by lia; by_bool).
  rewrite Ef. split; [|split; [apply Hfree; lia|done]].
  pose proof (pma_free_spec s1 v (inv_wf s1 H1) ltac:(subst v; apply u64_range)) as Hp. unfold frame_of in Ef.
  destruct (qizo_pma_free s1 v) as [s2|]; [|done]. cbn [safe] in Hp. destruct Hp as [_ Hp]. cbv zeta in Hp.
  rewrite Ef, Hn, andb_false_r in Hp. cbn [andb] in Hp. by rewrite (proj2 Hp).
Qed.

(** *** A run of frames *)

(** [qizo_page_alloc] fails exactly when no run of free frames is long enough, and
    takes the first one otherwise. *)
Theorem page_alloc_first s n :
  inv s → 0 ≤ n →
  ∃ v s', qizo_page_alloc s n = Some (v, s') ∧ inv s' ∧
    (v = 0 ↔ ∀ f, ¬ run_free s f (Z.max 1 n)) ∧
    (v ≠ 0 → run_free s (frame_of v) (Z.max 1 n) ∧ (∀ f, f < frame_of v → ¬ run_free s f (Z.max 1 n)) ∧
      free_frames s' = free_frames s - Z.max 1 n ∧
      ∀ g, 0 ≤ g → is_free s' g = is_free s g && negb ((frame_of v <=? g) && (g <? frame_of v + Z.max 1 n))).
Proof.
  intros Hinv Hn. pose proof (page_alloc_spec s n Hinv Hn) as Hs.
  destruct (qizo_page_alloc s n) as [[v s']|]; [|done]. cbn [safe fst snd] in Hs. exists v, s'. split; [done|].
  destruct Hs as [[[= -> ->] Hno]|(f & -> & Ht & Hmin)]; [by split|].
  pose proof Ht as [[Hf0 Hf1] Hfree H1 _ Hl _ Haft]. pose proof (total_small s (inv_wf s Hinv)).
  destruct (virt_nonzero f ltac:(lia)) as [Hv Ef]. rewrite Ef. split; [done|].
  assert (run_free s f (Z.max 1 n)) as Hrun by (split; [lia|split; [lia|done]]).
  split; [|done]. split; [by intros ?|]. intros Hno. by destruct (Hno f).
Qed.

(** *** A machine with 26 MiB *)

Definition ex_info : bootinfo :=
  Bootinfo (E820 0 0x9fc00 1 :: E820 0xf0000 0x10000 2 :: E820 0x100000 0x1900000 1 ::
    replicate 29 (E820 0 0 0)) 3 0 0x100000 0x8000 0x21000 0x6000 0x180000.
Definition ex_symbols : symbols := Symbols 0x100000 0x106000 0x108000.

(** From the start [m], allocate a frame and then four in a row. *)
Definition ex_run (m : option pma) : bool :=
  match m with
  | Some s0 =>
      match qizo_pma_alloc s0 with
      | Some (v, s1) =>
          match qizo_page_alloc s1 4 with
          | Some (w, _) => (v =? 0xffff888000108000) && (w =? 0xffff888000109000)
          | None => false
          end
      | None => false
      end
  | None => false
  end.

Lemma ex_run_sound m :
  ex_run m = true →
  ∃ s0 s1 s2, m = Some s0 ∧ qizo_pma_alloc s0 = Some (0xffff888000108000, s1) ∧
    qizo_page_alloc s1 4 = Some (0xffff888000109000, s2).
Proof.
  unfold ex_run. destruct m as [s0|]; [|done].
  destruct (qizo_pma_alloc s0) as [[v s1]|] eqn:E1; [|done].
  destruct (qizo_page_alloc s1 4) as [[w s2]|] eqn:E2; [|done].
  intros [->%Z.eqb_eq ->%Z.eqb_eq]%andb_true_iff. by exists s0, s1, s2.
Qed.

Lemma ex_runs : ex_run (qizo_pma_init ex_symbols (Some ex_info)) = true.
Proof. by vm_compute. Qed.

Lemma ex_valid : valid_info ex_info.
Proof.
  split; try (cbn; lia); [done|].
  assert (Forall (λ e, 0 ≤ e_base e < 2 ^ 64 ∧ 0 ≤ e_size e < 2 ^ 64) (map ex_info)) as H.
  { apply (bool_decide_unpack _). by vm_compute. }
  by rewrite list.Forall_forall in H.
Qed.

(** The kernel takes frames 256 to 263; the blocks come right behind it. *)
Lemma blocks_disjoint_witness :
  ∃ s0 s, qizo_pma_init ex_symbols (Some ex_info) = Some s0 ∧
    rtc step (s0, []) (s, [(265, 4); (264, 1)]) ∧
    NoDup (frames [(265, 4); (264, 1)]) ∧ free_frames s + used_frames s = free_frames s0.
Proof.
  destruct (ex_run_sound _ ex_runs) as (s0 & s1 & s2 & E0 & E1 & E2).
  assert (rtc step (s0, []) (s2, [(265, 4); (264, 1)])) as Hs.
  { eapply rtc_l; [exact (step_alloc _ _ _ _ E1)|]. eapply rtc_l; [exact (step_page_alloc _ _ 4 _ _ ltac:(lia) E2)|].
    exact (rtc_refl step (s2, [(265, 4); (264, 1)])). }
  destruct (blocks_disjoint ex_symbols ex_info s0 s2 _ ex_valid E0 Hs) as (Hnd & _ & _ & Hsum).
  exact (ex_intro _ s0 (ex_intro _ s2 (conj E0 (conj Hs (conj Hnd Hsum))))).
Defined.


(** The start on that machine, and the first allocation. *)
Lemma ex_start :
  ∃ s s1, qizo_pma_init ex_symbols (Some ex_info) = Some s ∧ inv s ∧ qizo_pma_alloc s = Some (0xffff888000108000, s1).
Proof.
  destruct (ex_run_sound _ ex_runs) as (s0 & s1 & s2 & E0 & E1 & _). exists s0, s1. split; [done|]. split; [|done].
  destruct (init_start ex_symbols ex_info ex_valid) as (s' & E' & H & _). congruence.
Qed.

Lemma alloc_all_witness :
  ∃ s, qizo_pma_init ex_symbols (Some ex_info) = Some s ∧
    safe (alloc_many (Z.to_nat (free_frames s)) s) (λ r, NoDup r.1 ∧ qizo_pma_alloc r.2 = Some (0, r.2)).
Proof.
  destruct ex_start as (s & s1 & E & _). exists s. split; [exact E|].
  eapply safe_mono; [exact (alloc_all ex_symbols ex_info s ex_valid E)|]. intros r (H1 & _ & H2). exact (conj H1 H2).
Defined.

Lemma free_leaks_witness :
  ∃ s1, qizo_pma_free s1 0xffff888000108000 = Some s1 ∧ is_free s1 264 = false.
Proof.
  destruct ex_start as (s & s1 & _ & Hinv & E). exists s1.
  destruct (free_leaks s 0xffff888000108000 s1 Hinv E ltac:(discriminate)) as (H & _ & Hf). exact (conj H Hf).
Defined.

Lemma page_alloc_first_witness :
  ∃ s v s', qizo_pma_init ex_symbols (Some ex_info) = Some s ∧ qizo_page_alloc s 4 = Some (v, s') ∧ inv s'.
Proof.
  destruct ex_start as (s & s1 & E & Hinv & _).
  destruct (page_alloc_first s 4 Hinv ltac:(lia)) as (v & s' & Ep & H & _). exact (ex_intro _ s (ex_intro _ v (ex_intro _ s' (conj E (conj Ep H))))).
Defined.

End PMA.
