(* ===== verification/Ports.v ===== *)
(** * The input and output ports

    What the hardware answers is not in the repository: the state of the devices
    is a parameter [D] of the drivers, and an instance of [Ports] says how it
    answers.  [spin] is the loop all drivers wait with. *)

From S2P Require Export Clang.

(** [qizo_inb], [inw] and [qizo_outb] on a device state. *)
Class Ports (D : Type) := {
  inb : Z → D → Z * D;
  inw : Z → D → Z * D;
  outb : Z → Z → D → D;
  inb_byte : ∀ p d, 0 ≤ (inb p d).1 < 256;
  inw_word : ∀ p d, 0 ≤ (inw p d).1 < 65536;
}.

Section spin.
Context {D : Type} `{Ports D}.

(** A loop that reads a port at most [n] times and leaves with the answer of
    [stop], or with [None] when it never has one. *)
Fixpoint spin {A} (n : nat) (port : Z) (stop : Z → option A) (d : D) : option A * D :=
  match n with
  | O => (None, d)
  | S n =>
      let '(v, d) := inb port d in
      match stop v with
      | Some a => (Some a, d)
      | None => spin n port stop d
      end
  end.

(** The loop leaves with what [stop] says of a byte. *)
Lemma spin_stop {A} n port (stop : Z → option A) d a d' :
  spin n port stop d = (Some a, d') → ∃ v, 0 ≤ v < 256 ∧ stop v = Some a.
Proof.
  revert d. induction n as [|n IH]; intros d; simpl; [done|].
  pose proof (inb_byte port d) as Hb. destruct (inb port d) as [v d1]. cbn [fst] in Hb.
  destruct (stop v) as [b|] eqn:E; [intros [= -> ->]; by exists v|apply IH].
Qed.

(** What reading the port keeps, the loop keeps. *)
Lemma spin_keeps {A} (P : D → Prop) n port (stop : Z → option A) d :
  (∀ d, P d → P (inb port d).2) → P d → P (spin n port stop d).2.
Proof.
  intros Hk. revert d. induction n as [|n IH]; intros d Hd; simpl; [done|].
  specialize (Hk d Hd). destruct (inb port d) as [v d1]. destruct (stop v); [done|]. by apply IH.
Qed.
End spin.
