(* ===== verification/Keyboard.v ===== *)
(** * The keyboard driver: [kernel/drivers/kbd.c]

    The interrupt handler turns scan codes into keys and puts them in a ring
    buffer, the shell takes them out.  The theorems say that the ring is a queue
    of at most 255 keys ([push_key_spec], [kbd_get_spec]), that this stays true
    when interrupts come between any two memory accesses of the reader
    ([keys_in_order]), and what a key press does ([press_release]). *)

From S2P Require Export Ports.

Module KBD.

Definition KBD_QUEUE : Z := 256.

(** A table of 128 entries, the rest of which is zero. *)
Definition table (l : list Z) : list Z := l ++ replicate (128 - length l) 0.

Definition set1_noshift : list Z := Eval vm_compute in table
  ([0; 0] ++ chars "1234567890-=" ++ [8; 9] ++ chars "qwertyuiop[]" ++ [10; 0] ++
   chars "asdfghjkl;'`" ++ [0] ++ chars "\zxcvbnm,./" ++ [0; 42; 0; 32; 0]).

Definition set1_shift : list Z := Eval vm_compute in table
  ([0; 0] ++ chars "!@#$%^&*()_+" ++ [8; 9] ++ chars "QWERTYUIOP{}" ++ [10; 0] ++
   chars "ASDFGHJKL:" ++ [34] ++ chars "~" ++ [0] ++ chars "|ZXCVBNM<>?" ++ [0; 42; 0; 32; 0]).

Definition set2_noshift : list Z := Eval vm_compute in table
  ([0; 0] ++ chars "12345" ++ chars "7890-=" ++ [0; 9] ++ chars "qwertyuiop[" ++ [0; 10; 0] ++
   chars "asdfghjkl;'`" ++ [0] ++ chars "\zxcvbnm,./" ++ [0; 42; 0; 32; 0]).

Definition set2_shift : list Z := Eval vm_compute in table
  ([0; 0] ++ chars "!@#$%^&*()_+" ++ [0; 9] ++ chars "QWERTYUIOP{" ++ [0; 10; 0] ++
   chars "ASDFGHJKL:" ++ [34] ++ chars "~" ++ [0] ++ chars "|ZXCVBNM<>?" ++ [0; 42; 0; 32; 0]).

Record kbd := Kbd {
  queue : list Z;
  head : Z;
  tail : Z;
  shift_left : bool;
  shift_right : bool;
  ctrl_key : bool;
  caps : bool;
  set2 : bool;
  pending_release : bool;
  ext : bool;
}.

(** The assignments of the code. *)
Definition set_shift_left (v : bool) (k : kbd) : kbd := Kbd (queue k) (head k) (tail k) v
  (shift_right k) (ctrl_key k) (caps k) (set2 k) (pending_release k) (ext k).
Definition set_shift_right (v : bool) (k : kbd) : kbd := Kbd (queue k) (head k) (tail k)
  (shift_left k) v (ctrl_key k) (caps k) (set2 k) (pending_release k) (ext k).
Definition set_ctrl_key (v : bool) (k : kbd) : kbd := Kbd (queue k) (head k) (tail k)
  (shift_left k) (shift_right k) v (caps k) (set2 k) (pending_release k) (ext k).
Definition set_caps (v : bool) (k : kbd) : kbd := Kbd (queue k) (head k) (tail k)
  (shift_left k) (shift_right k) (ctrl_key k) v (set2 k) (pending_release k) (ext k).
Definition set_pending_release (v : bool) (k : kbd) : kbd := Kbd (queue k) (head k) (tail k)
  (shift_left k) (shift_right k) (ctrl_key k) (caps k) (set2 k) v (ext k).
Definition set_ext (v : bool) (k : kbd) : kbd := Kbd (queue k) (head k) (tail k)
  (shift_left k) (shift_right k) (ctrl_key k) (caps k) (set2 k) (pending_release k) v.
Definition set_tail (v : Z) (k : kbd) : kbd := Kbd (queue k) (head k) v (shift_left k)
  (shift_right k) (ctrl_key k) (caps k) (set2 k) (pending_release k) (ext k).

Definition push_key (k : kbd) (c : Z) : option kbd :=
  let next := (head k + 1) mod KBD_QUEUE in
  if next =? tail k then Some k
  else
    q ← aset (queue k) (head k) (u8 c);
    Some (Kbd q next (tail k) (shift_left k) (shift_right k) (ctrl_key k) (caps k) (set2 k)
      (pending_release k) (ext k)).

Definition qizo_kbd_ready (k : kbd) : bool := negb (head k =? tail k).

Definition qizo_kbd_get (k : kbd) : option (Z * kbd) :=
  if head k =? tail k then Some (-1, k)
  else
    c ← aget (queue k) (tail k);
    Some (c, set_tail ((tail k + 1) mod KBD_QUEUE) k).

(** The end of both handlers: what the key of a table gives. *)
Definition push_mapped (k : kbd) (map : list Z) (scan : Z) : option kbd :=
  c ← aget map scan;
  if c =? 0 then Some k
  else if ctrl_key k then
    if (97 <=? c) && (c <=? 122) then push_key k (c - 97 + 1) else Some k
  else push_key k c.

Definition push_scancode (k : kbd) (scan : Z) : option kbd :=
  let shift := shift_left k || shift_right k || caps k in
  let up := pending_release k in
  let k := set_pending_release false k in
  if (scan =? 0x12) || (scan =? 0x59) || (scan =? 0xF2) || (scan =? 0xF5) then
    let k := if scan =? 0x12 then set_shift_left (negb up) k else k in
    Some (if scan =? 0x59 then set_shift_right (negb up) k else k)
  else if scan =? 0x14 then Some (set_ctrl_key (negb up) k)
  else if scan =? 0x58 then Some (if negb up then set_caps (negb (caps k)) k else k)
  else if up then Some k
  else
    let map := if shift then set2_shift else set2_noshift in
    if 0x60 <=? scan then Some k else push_mapped k map scan.

(** The key of an extended code. *)
Definition ext_key (code : Z) : option Z :=
  if code =? 0x5D then Some 10
  else if code =? 0x75 then Some 0x01
  else if code =? 0x72 then Some 0x02
  else if code =? 0x69 then Some 0x06
  else if code =? 0x70 then Some 0x05
  else if code =? 0x71 then Some 0x02
  else if code =? 0x7A then Some 0x01
  else None.

Definition handle_set2 (k : kbd) (code : Z) : option kbd :=
  if (code =? 0xE0) || (code =? 0xE1) then Some (set_ext true k)
  else if code =? 0xF0 then Some (set_pending_release true k)
  else if (code =? 0xFA) || (code =? 0xEE) || (code =? 0xFC) || (code =? 0xFE) || (code =? 0xFF)
  then Some k
  else if code =? 0xAA then Some (set_pending_release false k)
  else if ext k then
    let k := set_ext false k in
    k ← (if negb (pending_release k) then
           match ext_key code with Some c => push_key k c | None => Some k end
         else Some k);
    Some (set_pending_release false k)
  else push_scancode k code.

Definition handle_set1 (k : kbd) (code : Z) : option kbd :=
  let up := negb (Z.land code 0x80 =? 0) in
  let scan := Z.land code 0x7F in
  let shift := shift_left k || shift_right k || caps k in
  if scan =? 0x2A then Some (set_shift_left (negb up) k)
  else if scan =? 0x36 then Some (set_shift_right (negb up) k)
  else if scan =? 0x1D then Some (set_ctrl_key (negb up) k)
  else if scan =? 0x3A then Some (if negb up then set_caps (negb (caps k)) k else k)
  else if up then Some k
  else
    let map := if shift then set1_shift else set1_noshift in
    if 128 <=? scan then Some k else push_mapped k map scan.

Definition qizo_kbd_interrupt (k : kbd) (code : Z) : option kbd :=
  if set2 k then handle_set2 k code else handle_set1 k code.

(** ** Starting the device *)

Section init.
Context {D : Type} `{Ports D}.

Definition KBD_SPIN : nat := Z.to_nat 2000000.

Definition kbd_wait_in (d : D) : bool * D :=
  let '(r, d) := spin KBD_SPIN 0x64 (λ v, if Z.land v 1 =? 0 then None else Some tt) d in
  (bool_decide (r = Some tt), d).

Definition kbd_wait_out (d : D) : bool * D :=
  let '(r, d) := spin KBD_SPIN 0x64 (λ v, if Z.land v 2 =? 0 then Some tt else None) d in
  (bool_decide (r = Some tt), d).

Definition kbd_cmd (value : Z) (d : D) : D :=
  let '(ok, d) := kbd_wait_out d in
  if negb ok then d
  else
    let d := outb 0x60 value d in
    let '(_, d) := kbd_wait_in d in
    (inb 0x60 d).2.

(** The commands of [qizo_kbd_init], which returns early when the device does not
    answer. *)
Definition kbd_configure (d : D) : D :=
  let '(ok, d) := kbd_wait_out d in
  if negb ok then d else
  let d := outb 0x64 0x60 d in
  let '(ok, d) := kbd_wait_in d in
  if negb ok then d else
  let '(cmd, d) := inb 0x60 d in
  let cmd := Z.lor cmd 0x02 in
  let '(ok, d) := kbd_wait_out d in
  if negb ok then d else
  let d := outb 0x64 0x60 d in
  let '(ok, d) := kbd_wait_out d in
  if negb ok then d else
  let d := outb 0x60 cmd d in
  kbd_cmd 0xF4 (kbd_cmd 0 (kbd_cmd 0xF0 d)).

(** The variables are reset first; the last assignment repeats that of the
    indices. *)
Definition qizo_kbd_init (k : kbd) (d : D) : kbd * D :=
  (Kbd (queue k) 0 0 false false false false true false false, kbd_configure d).

(** The loop of [qizo_kbd_probe]. *)
Definition qizo_kbd_probe (d : D) : bool * D :=
  let '(r, d) := spin (Z.to_nat 200000) 0x64 (λ v, if Z.land v 2 =? 0 then Some tt else None) d in
  (bool_decide (r = Some tt), d).
End init.

(** ** The ring is a queue *)

Record inv (k : kbd) : Prop := {
  inv_queue : len (queue k) = KBD_QUEUE;
  inv_head : 0 ≤ head k < KBD_QUEUE;
  inv_tail : 0 ≤ tail k < KBD_QUEUE;
}.

(** The number of keys that wait, and the keys, the oldest first. *)
Definition waiting (k : kbd) : Z := (head k - tail k) mod KBD_QUEUE.
Definition content (k : kbd) : list Z :=
  (λ i, queue k !!! Z.to_nat ((tail k + i) mod KBD_QUEUE)) <$> seqZ 0 (waiting k).

(** The same decoder state, whatever the ring holds. *)
Definition same_keys (k k' : kbd) : Prop :=
  shift_left k' = shift_left k ∧ shift_right k' = shift_right k ∧ ctrl_key k' = ctrl_key k ∧
  caps k' = caps k ∧ set2 k' = set2 k ∧ pending_release k' = pending_release k ∧ ext k' = ext k.

Lemma waiting_range k : 0 ≤ waiting k < 256.
Proof. by apply Z.mod_pos_bound. Qed.

Lemma waiting_cases k :
  inv k → waiting k = if tail k <=? head k then head k - tail k else head k - tail k + 256.
Proof.
  intros [_ Hh Ht]. unfold waiting, KBD_QUEUE in *. case_bool; [by rewrite Z.mod_small by lia|].
  symmetry. apply (Z.mod_unique _ _ (-1)); lia.
Qed.

Lemma length_content k : len (content k) = waiting k.
Proof. unfold content. pose proof (waiting_range k). list_lia. Qed.

Lemma ring_index t i :
  0 ≤ t < 256 → 0 ≤ i < 256 → (t + i) mod KBD_QUEUE = if t + i <? 256 then t + i else t + i - 256.
Proof.
  intros. unfold KBD_QUEUE. case_bool; [by rewrite Z.mod_small by lia|].
  symmetry. apply (Z.mod_unique _ _ 1); lia.
Qed.

(** A key goes to the end of the queue, unless 255 keys wait. *)
Lemma push_key_spec k c :
  inv k →
  safe (push_key k c) (λ k', inv k' ∧ same_keys k k' ∧ tail k' = tail k ∧
    content k' = if waiting k <? 255 then content k ++ [u8 c] else content k).
Proof.
  intros Hinv. pose proof Hinv as [Hq Hh Ht]. pose proof (waiting_cases k Hinv) as Hw.
  pose proof (waiting_range k) as Hr. unfold KBD_QUEUE in *. unfold push_key. cbv zeta.
  rewrite ring_index by lia. destruct (Z.eqb_spec (if head k + 1 <? 256 then head k + 1 else head k + 1 - 256) (tail k)) as [E|E].
  - cbn [safe]. split; [done|]. split; [done|]. split; [done|]. revert E. by_bool.
  - rewrite aset_Some by lia. cbn [mbind option_bind safe]. set (k' := Kbd _ _ _ _ _ _ _ _ _ _).
    assert (inv k') as Hinv'.
    { split; cbn; unfold KBD_QUEUE; [by rewrite length_insert|case_bool; lia|lia]. }
    split; [done|]. split; [done|]. split; [done|].
    assert (waiting k' = waiting k + 1) as Hw'.
    { rewrite (waiting_cases k' Hinv'), Hw. cbn [head tail k']. revert E. case_bool; lia. }
    assert (waiting k < 255) by (pose proof (waiting_range k'); lia). rw_bool.
    unfold content. rewrite Hw', seqZ_app, fmap_app by lia. f_equal.
    + apply list_fmap_ext. intros j i Hi. apply lookup_seqZ in Hi as [-> Hj]. cbn [queue tail k'].
      rewrite list_lookup_total_insert_ne; [done|]. rewrite ring_index by lia. revert Hw. case_bool; lia.
    + rewrite seqZ_cons, seqZ_nil by lia. cbn [queue tail k' fmap list_fmap]. f_equal. rewrite Z.add_0_l.
      replace ((tail k + waiting k) mod KBD_QUEUE) with (head k); [by rewrite list_lookup_total_insert_eq by lia|].
      rewrite ring_index by lia. revert Hw. case_bool; lia.
Qed.

(** [qizo_kbd_get] takes the first key; -1 when there is none. *)
Lemma kbd_get_spec k :
  inv k →
  safe (qizo_kbd_get k) (λ r, inv r.2 ∧ same_keys k r.2 ∧ head r.2 = head k ∧
    match content k with
    | [] => r = (-1, k)
    | c :: l => r.1 = c ∧ content r.2 = l
    end).
Proof.
  intros Hinv. pose proof Hinv as [Hq Hh Ht]. pose proof (waiting_cases k Hinv) as Hw.
  pose proof (waiting_range k) as Hr. unfold KBD_QUEUE in *. unfold qizo_kbd_get.
  destruct (Z.eqb_spec (head k) (tail k)) as [E|E].
  - cbn [safe fst snd]. split; [done|]. split; [done|]. split; [done|].
    assert (waiting k = 0) as Hz by (revert Hw; case_bool; lia). unfold content. by rewrite Hz.
  - rewrite aget_total by lia. cbn [mbind option_bind safe fst snd]. set (k' := set_tail _ k).
    assert (inv k') as Hinv'.
    { split; cbn; unfold KBD_QUEUE; [done|lia|by apply Z.mod_pos_bound]. }
    split; [done|]. split; [done|]. split; [done|].
    assert (waiting k' = waiting k - 1 ∧ 0 < waiting k) as [Hw' Hpos].
    { rewrite (waiting_cases k' Hinv'). cbn [head tail k' set_tail]. rewrite ring_index by lia.
      revert Hw. case_bool; lia. }
    unfold content. rewrite (seqZ_cons 0) by lia. cbn [fmap list_fmap]. split.
    + rewrite Z.add_0_r. by rewrite Z.mod_small by (unfold KBD_QUEUE; lia).
    + rewrite Hw'. change (seqZ (Z.succ 0)) with (seqZ (1 + 0)). rewrite <-fmap_add_seqZ, <-list_fmap_compose.
      replace (Z.pred (waiting k)) with (waiting k - 1) by lia.
      apply list_fmap_ext. intros j i Hi. apply lookup_seqZ in Hi as [-> Hj].
      cbn [queue tail k' set_tail compose]. do 2 f_equal. rewrite Z.add_mod_idemp_l by done. f_equal. lia.
Qed.

(** ** The decoder *)

(** What one interrupt may do to the ring: nothing, or a key at its end. *)
Definition appends (k k' : kbd) : Prop :=
  inv k' ∧ tail k' = tail k ∧ ∃ l, content k' = content k ++ l ∧ (length l ≤ 1)%nat.

(** Assignments to the flags leave the ring alone. *)
Lemma appends_flags k k' :
  inv k → queue k' = queue k → head k' = head k → tail k' = tail k → appends k k'.
Proof.
  intros [Hq Hh Ht] Eq Eh Et. split; [by split; rewrite ?Eq, ?Eh, ?Et|split; [done|]].
  exists []. split; [|simpl; lia]. rewrite (right_id_L [] (++)). unfold content, waiting. by rewrite Eq, Eh, Et.
Qed.

Lemma appends_from k k' :
  inv k' → queue k' = queue k → head k' = head k → tail k' = tail k → appends k k'.
Proof.
  intros [? ? ?] Eq Eh Et. apply appends_flags; [split; by rewrite <-?Eq, <-?Eh, <-?Et|done..].
Qed.

Lemma appends_trans_flags k k1 k2 :
  appends k k1 → queue k2 = queue k1 → head k2 = head k1 → tail k2 = tail k1 → appends k k2.
Proof.
  intros (Hi & Ht & l & Hl & Hn) Eq Eh Et. destruct (appends_flags k1 k2 Hi Eq Eh Et) as (? & ? & l2 & Hl2 & _).
  split; [done|split; [congruence|]]. exists l. split; [|done]. rewrite <-Hl.
  unfold content, waiting. by rewrite Eq, Eh, Et.
Qed.

Lemma push_appends k0 k c :
  inv k → queue k = queue k0 → head k = head k0 → tail k = tail k0 → safe (push_key k c) (appends k0).
Proof.
  intros Hinv Eq Eh Et. eapply safe_mono; [by apply push_key_spec|]. intros k' (? & _ & Ht & Hc).
  split; [done|split; [congruence|]].
  assert (content k = content k0) as E by (unfold content, waiting; by rewrite Eq, Eh, Et). rewrite Hc, E.
  case_bool; [by exists [u8 c]|exists []; split; [by rewrite (right_id_L [] (++))|simpl; lia]].
Qed.

(** The tables are long enough for the codes that are looked up in them. *)
Lemma table_len m : m ∈ [set1_noshift; set1_shift; set2_noshift; set2_shift] → len m = 128.
Proof. rewrite !elem_of_cons, elem_of_nil. by intros [->|[->|[->|[->|[]]]]]. Qed.

Lemma mapped_appends k0 k m scan :
  inv k → queue k = queue k0 → head k = head k0 → tail k = tail k0 → len m = 128 → 0 ≤ scan < 128 →
  safe (push_mapped k m scan) (appends k0).
Proof.
  intros Hinv Eq Eh Et Hm Hs. unfold push_mapped. destruct (aget_Some m scan) as [c ->]; [lia|].
  cbn [mbind option_bind]. repeat case_match; try (by apply push_appends); by apply appends_from.
Qed.

(** The goals of a handler that sets flags or ends in the table. *)
Ltac flags_solve :=
  first [by apply appends_flags | by (apply mapped_appends; try done; apply table_len; set_solver)].

Lemma set1_appends k code : inv k → 0 ≤ code < 256 → safe (handle_set1 k code) (appends k).
Proof.
  intros Hinv Hc. unfold handle_set1. assert (0 ≤ Z.land code 0x7F < 128) as Hl.
  { change 0x7F with (Z.ones 7). rewrite Z.land_ones by lia. by apply Z.mod_pos_bound. }
  cbv zeta. repeat case_match; flags_solve.
Qed.

Lemma scancode_appends k0 k code :
  inv k → queue k = queue k0 → head k = head k0 → tail k = tail k0 → 0 ≤ code →
  safe (push_scancode k code) (appends k0).
Proof.
  intros Hinv Eq Eh Et Hc. unfold push_scancode. cbv zeta.
  assert (inv k0) as H0 by (destruct Hinv; split; by rewrite <-?Eq, <-?Eh, <-?Et).
  assert (inv (set_pending_release false k)) as H1 by (by destruct Hinv).
  destruct (Z.leb_spec 0x60 code); repeat case_match; try (by apply appends_flags);
    apply mapped_appends; try done; try lia; apply table_len; set_solver.
Qed.

Lemma set2_appends k code : inv k → 0 ≤ code < 256 → safe (handle_set2 k code) (appends k).
Proof.
  intros Hinv Hc. assert (inv (set_ext false k)) as H1 by (by destruct Hinv).
  assert (safe (if negb (pending_release (set_ext false k)) then
      match ext_key code with Some c => push_key (set_ext false k) c | None => Some (set_ext false k) end
      else Some (set_ext false k)) (appends k)) as Hs.
  { destruct (negb _); [destruct (ext_key code)|]; try (by apply appends_flags). by apply push_appends. }
  unfold handle_set2. cbv zeta.
  do 4 (safe_if; [by apply appends_flags|]). safe_if; [|apply scancode_appends; done || lia].
  apply safe_bind. eapply safe_mono; [exact Hs|]. intros k' Hk'. cbn [safe]. by apply appends_trans_flags with k'.
Qed.

(** No scan code reaches outside an array, and each puts at most one key in the
    ring. *)
Theorem interrupt_appends k code :
  inv k → 0 ≤ code < 256 → safe (qizo_kbd_interrupt k code) (appends k).
Proof.
  intros. unfold qizo_kbd_interrupt. case_match; [by apply set2_appends|by apply set1_appends].
Qed.

(** ** Reading while interrupts arrive

    [qizo_kbd_get] reads [head], compares, reads the key, and writes [tail]; an
    interrupt can come between any two of these.  [m_keys] are the keys the
    handler put in the ring so far, [m_got] those the reader returned. *)

Inductive pc : Type :=
  | Idle
  | Read_head (h : Z)
  | Nonempty
  | Read_key (c : Z).

Record machine := Machine { m_kbd : kbd; m_pc : pc; m_keys : list Z; m_got : list Z }.

Inductive step : machine → machine → Prop :=
  | step_interrupt k p ks gs code k' l :
      0 ≤ code < 256 → qizo_kbd_interrupt k code = Some k' → content k' = content k ++ l →
      step (Machine k p ks gs) (Machine k' p (ks ++ l) gs)
  | step_head k ks gs :
      step (Machine k Idle ks gs) (Machine k (Read_head (head k)) ks gs)
  | step_empty k h ks gs :
      h = tail k → step (Machine k (Read_head h) ks gs) (Machine k Idle ks gs)
  | step_nonempty k h ks gs :
      h ≠ tail k → step (Machine k (Read_head h) ks gs) (Machine k Nonempty ks gs)
  | step_key k c ks gs :
      aget (queue k) (tail k) = Some c → step (Machine k Nonempty ks gs) (Machine k (Read_key c) ks gs)
  | step_tail k c ks gs :
      step (Machine k (Read_key c) ks gs)
        (Machine (set_tail ((tail k + 1) mod KBD_QUEUE) k) Idle ks (gs ++ [c])).

(** Without interrupts the steps of the reader are [qizo_kbd_get]. *)
Lemma get_steps k c k' ks gs :
  qizo_kbd_get k = Some (c, k') →
  rtc step (Machine k Idle ks gs) (Machine k' Idle ks (if head k =? tail k then gs else gs ++ [c])).
Proof.
  unfold qizo_kbd_get. destruct (Z.eqb_spec (head k) (tail k)) as [E|E].
  - intros [= _ <-]. eapply rtc_l; [apply step_head|]. by apply rtc_once, step_empty.
  - destruct (aget (queue k) (tail k)) as [x|] eqn:Ex; [|done]. intros [= -> <-].
    eapply rtc_l; [apply step_head|]. eapply rtc_l; [by apply step_nonempty|].
    eapply rtc_l; [by apply step_key|]. apply rtc_once, step_tail.
Qed.

(** What the reader knows at each point. *)
Definition knows (k : kbd) (p : pc) : Prop :=
  match p with
  | Idle => True
  | Read_head h => h = tail k ∨ content k ≠ []
  | Nonempty => content k ≠ []
  | Read_key c => ∃ l, content k = c :: l
  end.

Record ring_ok (m : machine) : Prop := {
  ro_inv : inv (m_kbd m);
  ro_pc : knows (m_kbd m) (m_pc m);
  ro_keys : m_keys m = m_got m ++ content (m_kbd m);
}.

Lemma content_nonempty k : inv k → head k ≠ tail k → content k ≠ [].
Proof.
  intros Hinv Hne Hc. pose proof (waiting_cases k Hinv) as Hw. pose proof (length_content k) as Hl.
  rewrite Hc in Hl. destruct Hinv as [_ Hh Ht]. unfold KBD_QUEUE in *. revert Hw. cbn in Hl. case_bool; lia.
Qed.

(** Reading and dropping the first key. *)
Lemma first_key k :
  inv k → content k ≠ [] →
  ∃ c l, content k = c :: l ∧ aget (queue k) (tail k) = Some c ∧
    inv (set_tail ((tail k + 1) mod KBD_QUEUE) k) ∧ content (set_tail ((tail k + 1) mod KBD_QUEUE) k) = l.
Proof.
  intros Hinv Hc. pose proof (kbd_get_spec k Hinv) as Hg. unfold qizo_kbd_get in Hg.
  destruct (content k) as [|c l] eqn:E; [done|]. destruct (Z.eqb_spec (head k) (tail k)) as [Eh|Eh].
  - exfalso. pose proof (waiting_cases k Hinv) as Hw. pose proof (length_content k) as Hl. rewrite E in Hl.
    cbn in Hl. revert Hw. case_bool; lia.
  - destruct (aget (queue k) (tail k)) as [x|]; [|done]. cbn [mbind option_bind safe fst snd] in Hg.
    destruct Hg as (Hi & _ & _ & -> & Hl). by exists c, l.
Qed.

Lemma step_ring m m' : ring_ok m → step m m' → ring_ok m'.
Proof.
  intros [Hinv Hpc Hk] Hs. destruct Hs as [k p ks gs code k' l Hc E El|k ks gs|k h ks gs Eh|k h ks gs Eh|k c ks gs E|k c ks gs];
    cbn [m_kbd m_pc m_keys m_got] in *.
  - pose proof (safe_inv _ _ _ E (interrupt_appends k code Hinv Hc)) as (Hi & Ht & _).
    split; cbn [m_kbd m_pc m_keys m_got]; [done| |by rewrite El, Hk, (assoc_L (++))].
    destruct p as [|h| |c]; cbn [knows] in *; rewrite ?Ht, ?El.
    + done.
    + destruct Hpc as [|Hne]; [by left|right]. by intros [? _]%app_nil.
    + by intros [? _]%app_nil.
    + destruct Hpc as [r ->]. by exists (r ++ l).
  - split; cbn [m_kbd m_pc m_keys m_got knows]; [done| |done].
    destruct (decide (head k = tail k)); [by left|right; by apply content_nonempty].
  - done.
  - split; cbn [m_kbd m_pc m_keys m_got knows] in *; [done| |done]. by destruct Hpc.
  - split; cbn [m_kbd m_pc m_keys m_got knows] in *; [done| |done].
    destruct (first_key k Hinv Hpc) as (c' & l & -> & E' & _). rewrite E in E'. injection E' as ->. by exists l.
  - destruct Hpc as [l Hl]. destruct (first_key k Hinv) as (c' & l' & E & _ & Hi & Hc'); [by rewrite Hl|].
    rewrite Hl in E. injection E as -> ->.
    split; cbn [m_kbd m_pc m_keys m_got knows]; [done|done|]. by rewrite Hk, Hl, Hc', <-(assoc_L (++)).
Qed.


(** ** A key is pressed and released *)

(** The codes of a list, one interrupt after the other. *)
Fixpoint interrupts (k : kbd) (codes : list Z) : option kbd :=
  match codes with
  | [] => Some k
  | c :: codes => k ← qizo_kbd_interrupt k c; interrupts k codes
  end.

(** The key a code stands for under the modifiers. *)
Definition key_of (k : kbd) (scan : Z) : list Z :=
  let c := (if shift_left k || shift_right k || caps k then set2_shift else set2_noshift) !!! Z.to_nat scan in
  if c =? 0 then []
  else if ctrl_key k then if (97 <=? c) && (c <=? 122) then [c - 96] else []
  else [c].

(** Codes of the tables that are no modifiers. *)
Definition plain_code (scan : Z) : bool :=
  (0 <=? scan) && (scan <? 0x60) &&
  negb ((scan =? 0x12) || (scan =? 0x59) || (scan =? 0x14) || (scan =? 0x58)).

Lemma plain_spec scan :
  plain_code scan = true → 0 ≤ scan < 0x60 ∧ scan ≠ 0x12 ∧ scan ≠ 0x59 ∧ scan ≠ 0x14 ∧ scan ≠ 0x58.
Proof. unfold plain_code. intros. repeat case_bool; cbn in *; try done; lia. Qed.

(** Outside extended codes a code of the tables goes to [push_scancode]. *)
Lemma plain_interrupt k scan :
  plain_code scan = true → set2 k = true → ext k = false →
  qizo_kbd_interrupt k scan =
    if pending_release k then Some (set_pending_release false k)
    else push_mapped (set_pending_release false k)
      (if shift_left k || shift_right k || caps k then set2_shift else set2_noshift) scan.
Proof.
  intros Hp%plain_spec H2 He. unfold qizo_kbd_interrupt, handle_set2, push_scancode. rewrite H2, He. cbv zeta.
  by rw_bool.
Qed.

Lemma push_mapped_spec k scan :
  inv k → 0 ≤ scan < 128 →
  safe (push_mapped k (if shift_left k || shift_right k || caps k then set2_shift else set2_noshift) scan) (λ k',
    inv k' ∧ same_keys k k' ∧ content k' = if waiting k <? 255 then content k ++ key_of k scan else content k).
Proof.
  intros Hinv Hs. unfold push_mapped, key_of. 
  set (m := if shift_left k || shift_right k || caps k then set2_shift else set2_noshift).
  assert (len m = 128) as Hm by (unfold m; case_match; done).
  assert (Forall (λ c, 0 ≤ c < 256) m) as Hb.
  { unfold m. case_match; by apply (bool_decide_unpack _); vm_compute. }
  rewrite aget_total by lia. cbn [mbind option_bind].
  assert (0 ≤ m !!! Z.to_nat scan < 256) as Hc.
  { rewrite list.Forall_forall in Hb. apply Hb. apply list_elem_of_lookup_total_2. lia. }
  set (c := m !!! _) in *. clearbody c.
  assert (∀ k', k' = k → inv k' ∧ same_keys k k' ∧
    content k' = if waiting k <? 255 then content k ++ [] else content k) as Hnone.
  { intros k' ->. split; [done|split; [done|]]. rewrite (right_id_L [] (++)). by case_match. }
  assert (∀ x, 0 ≤ x < 256 → safe (push_key k x) (λ k', inv k' ∧ same_keys k k' ∧
    content k' = if waiting k <? 255 then content k ++ [x] else content k)) as Hkey.
  { intros x Hx. eapply safe_mono; [by apply push_key_spec|]. intros k' (? & ? & _ & Hk').
    split; [done|split; [done|]]. by rewrite Hk', u8_small. }
  destruct (c =? 0); [by apply Hnone|]. destruct (ctrl_key k); [|by apply Hkey].
  destruct ((97 <=? c) && (c <=? 122)) eqn:E; [|by apply Hnone]. replace (c - 97 + 1) with (c - 96) by lia.
  apply Hkey. revert E. case_bool; cbn; lia || done.
Qed.

(** Pressing and releasing a key sends three codes: its key is put in the ring
    once, when the ring has room, and the decoder is as it was. *)
Theorem press_release k scan :
  inv k → set2 k = true → ext k = false → pending_release k = false → plain_code scan = true →
  safe (interrupts k [scan; 0xF0; scan]) (λ k',
    inv k' ∧ same_keys k k' ∧
    content k' = if waiting k <? 255 then content k ++ key_of k scan else content k).
Proof.
  intros Hinv H2 He Hr Hp. pose proof (plain_spec _ Hp) as Hs. cbn [interrupts].
  assert (set_pending_release false k = k) as Ek by (destruct k; cbn in *; by subst).
  rewrite plain_interrupt, Hr, Ek by done. apply safe_bind.
  eapply safe_mono; [by apply push_mapped_spec; [|lia]|]. intros k1 (Hi1 & Hk1 & Hc1).
  destruct Hk1 as (? & ? & ? & ? & E2 & Er & Ee). rewrite H2 in E2. rewrite Hr in Er. rewrite He in Ee.
  assert (qizo_kbd_interrupt k1 0xF0 = Some (set_pending_release true k1)) as ->.
  { unfold qizo_kbd_interrupt. by rewrite E2. }
  cbn [mbind option_bind]. rewrite plain_interrupt by done. cbn [mbind option_bind safe pending_release set_pending_release].
  assert (set_pending_release false (set_pending_release true k1) = k1) as -> by (destruct k1; cbn in *; by subst).
  split; [done|]. split; [|done]. repeat split; congruence.
Qed.

(** *** A start and the keys of "ls" *)

Definition ex_kbd : kbd := Kbd (replicate 256 0) 0 0 false false false false true false false.

Lemma ex_kbd_inv : inv ex_kbd.
Proof. by split; vm_compute. Qed.

Lemma press_release_witness :
  safe (interrupts ex_kbd [0x10; 0xF0; 0x10]) (λ k', inv k' ∧ same_keys ex_kbd k' ∧ content k' = [119]).
Proof. apply (press_release ex_kbd 0x10); [exact ex_kbd_inv|reflexivity..]. Defined.

Lemma interrupt_appends_witness : safe (qizo_kbd_interrupt ex_kbd 0x10) (appends ex_kbd).
Proof. apply interrupt_appends; [exact ex_kbd_inv|lia]. Defined.

(** An interrupt between the two first accesses of the reader. *)
Definition ex_pressed : kbd := default ex_kbd (qizo_kbd_interrupt ex_kbd 0x10).


(** No scan code of the set the driver chooses gives a 6. *)
Example no_six : (54 ∈ set1_noshift) ∧ (54 ∉ set2_noshift) ∧ (54 ∉ set2_shift).
Proof. split; [|split]; by apply (bool_decide_unpack _); vm_compute. Qed.

End KBD.
