(* ===== verification/Mouse.v ===== *)
(** * The mouse driver of the kernel: [kernel/drivers/mouse.c]

    The decoder of the three byte packets, the queue of movements, and the start of
    the device.  [packet_spec]: a packet of a mouse moves the pointer only when all
    of its bytes have bit 3 set, although only its first byte is known to.
    [push_move_spec] and [mouse_read_spec]: the queue holds the last 64 movements in
    order.  The report of the driver is in [Drivers.v]. *)

From S2P Require Export Ports.

Module MOUSE.

Definition M_QUEUE : Z := 64.
Definition M_SPIN : nat := Z.to_nat 200000.

(** [struct qizo_mouse] *)
Record movement := Movement {
  buttons : Z; px : Z; py : Z; dx : Z; dy : Z; packets : Z; errors : Z; is_ready : Z;
}.

Record mouse := Mouse {
  in_packet : list Z;
  in_len : Z;
  m_irqs : Z;
  m_dropped : Z;
  last : movement;
  queue : list movement;
  q_head : Z;
  q_used : Z;
  reporting : bool;
}.

Definition add_error (v : movement) : movement :=
  Movement (buttons v) (px v) (py v) (dx v) (dy v) (packets v) (u64 (errors v + 1)) (is_ready v).

Definition set_packet (p : list Z) (n : Z) (m : mouse) : mouse :=
  Mouse p n (m_irqs m) (m_dropped m) (last m) (queue m) (q_head m) (q_used m) (reporting m).
Definition set_last (v : movement) (m : mouse) : mouse :=
  Mouse (in_packet m) (in_len m) (m_irqs m) (m_dropped m) v (queue m) (q_head m) (q_used m) (reporting m).
Definition set_queue (q : list movement) (h u d : Z) (m : mouse) : mouse :=
  Mouse (in_packet m) (in_len m) (m_irqs m) d (last m) q h u (reporting m).

(** The end of the interrupt: the movement goes to the queue, over the oldest one
    when it is full. *)
Definition push_move (v : movement) (m : mouse) : option mouse :=
  if q_used m <? M_QUEUE then
    q ← aset (queue m) (u32 (q_head m + q_used m) mod M_QUEUE) v;
    Some (set_queue q (q_head m) (u32 (q_used m + 1)) (m_dropped m) m)
  else
    q ← aset (queue m) (q_head m) v;
    Some (set_queue q (u32 (q_head m + 1) mod M_QUEUE) (q_used m) (u32 (m_dropped m + 1)) m).

(** The movement that a packet means. *)
Definition decode (b0 b1 b2 : Z) (v : movement) : movement :=
  let x := if negb (Z.land b0 0x10 =? 0) then b1 - 256 else b1 in
  let y := if negb (Z.land b0 0x20 =? 0) then b2 - 256 else b2 in
  Movement (Z.land b0 0x07) (i32 (px v + x)) (i32 (py v - y)) x (- y) (u64 (packets v + 1)) (errors v) 1.

Definition qizo_mouse_interrupt (m : mouse) (b : Z) : option mouse :=
  let m := Mouse (in_packet m) (in_len m) (u64 (m_irqs m + 1)) (m_dropped m) (last m) (queue m) (q_head m) (q_used m)
    (reporting m) in
  if (Z.land b 0x08 =? 0) || (in_len m =? 3) then
    p ← aset (in_packet m) 0 b;
    Some (set_last (add_error (last m)) (set_packet p 1 m))
  else
    p ← aset (in_packet m) (in_len m) b;
    let m := set_packet p (u32 (in_len m + 1)) m in
    if negb (in_len m =? 3) then Some m
    else
      let m := set_packet p 0 m in
      b0 ← aget p 0; b1 ← aget p 1; b2 ← aget p 2;
      if negb (Z.land b0 0xC0 =? 0) then Some (set_last (add_error (last m)) m)
      else let v := decode b0 b1 b2 (last m) in push_move v (set_last v m).

(** 0 when the queue is empty, 1 and the oldest movement otherwise. *)
Definition qizo_mouse_read (m : mouse) : option (option movement * mouse) :=
  if q_used m =? 0 then Some (None, m)
  else
    v ← aget (queue m) (q_head m);
    Some (Some v, set_queue (queue m) (u32 (q_head m + 1) mod M_QUEUE) (u32 (q_used m - 1)) (m_dropped m) m).

Definition qizo_mouse_flush (m : mouse) : mouse :=
  let v := last m in
  set_last (Movement (buttons v) 0 0 (dx v) (dy v) (packets v) (errors v) (is_ready v))
    (set_queue (queue m) 0 0 (m_dropped m) m).

Definition qizo_mouse_now (m : mouse) : movement := last m.

Definition aux_last (m : mouse) : option Z :=
  if in_len m =? 0 then Some 0 else aget (in_packet m) (in_len m - 1).

(** ** Starting the device *)

Section start.
Context {D : Type} `{Ports D}.

Definition aux_ready_write (d : D) : bool * D :=
  let '(r, d) := spin M_SPIN 0x64 (λ v, if Z.land v 0x02 =? 0 then Some tt else None) d in
  (bool_decide (r = Some tt), d).

Definition aux_ready_read (d : D) : bool * D :=
  let '(r, d) := spin M_SPIN 0x64 (λ v, if Z.land v 0x01 =? 0 then None else Some tt) d in
  (bool_decide (r = Some tt), d).

Definition aux_read_byte (d : D) : Z * D :=
  let '(ok, d) := aux_ready_read d in
  if negb ok then (0, d) else inb 0x60 d.

Definition aux_send (value : Z) (d : D) : D :=
  let '(ok, d) := aux_ready_write d in
  if negb ok then d else
  let d := outb 0x64 0xD4 d in
  let '(ok, d) := aux_ready_write d in
  if negb ok then d else (aux_ready_write (outb 0x60 value d)).2.

Definition aux_config (d : D) : Z * D :=
  let '(ok, d) := aux_ready_write d in
  if negb ok then (0, d) else aux_read_byte (outb 0x64 0x20 d).

Definition aux_set_config (value : Z) (d : D) : D :=
  let '(ok, d) := aux_ready_write d in
  if negb ok then d else (aux_ready_write (outb 0x60 value (outb 0x64 0x60 d))).2.

(** The answer, the identity of the mouse when one was read, and the device. *)
Definition qizo_mouse_probe (d : D) : bool * option Z * D :=
  let '(ok, d) := aux_ready_write d in
  if negb ok then (false, None, d) else
  let '(ok, d) := aux_ready_write (outb 0x64 0xA8 d) in
  if negb ok then (false, None, d) else
  let '(cfg, d) := aux_config d in
  let d := if Z.land cfg 0x20 =? 0 then aux_set_config (Z.lor cfg 0x20) d else d in
  let '(ok, d) := aux_ready_read (aux_send 0xF2 d) in
  if negb ok then (false, None, d) else
  let '(id, d) := aux_read_byte d in
  (true, Some (if (id =? 0xFA) || (id =? 0x00) then 0x00 else id), d).

Definition qizo_mouse_start (m : mouse) (d : D) : mouse * D :=
  let '(cfg, d) := aux_config d in
  let d := if Z.land cfg 0x22 =? 0 then aux_set_config (Z.lor cfg 0x22) d else d in
  let d := aux_send 0xF4 (aux_send 2 (aux_send 0xE8 (aux_send 100 (aux_send 0xF3 d)))) in
  (Mouse (in_packet m) 0 (m_irqs m) (m_dropped m) (Movement 0 0 0 0 0 0 0 1) (queue m) 0 0 true, d).
End start.

(** ** The state *)

Record inv (m : mouse) : Prop := {
  inv_packet : len (in_packet m) = 3;
  inv_len : 0 ≤ in_len m < 3;
  inv_queue : len (queue m) = M_QUEUE;
  inv_head : 0 ≤ q_head m < M_QUEUE;
  inv_used : 0 ≤ q_used m ≤ M_QUEUE;
}.

#[export] Instance movement_inhabited : Inhabited movement := populate (Movement 0 0 0 0 0 0 0 0).

(** The movements that wait, the oldest first. *)
Definition content (m : mouse) : list movement :=
  (λ i, queue m !!! Z.to_nat ((q_head m + i) mod M_QUEUE)) <$> seqZ 0 (q_used m).

(** ** The queue *)

Lemma content_cons m :
  0 ≤ q_head m < M_QUEUE → 0 < q_used m →
  content m = queue m !!! Z.to_nat (q_head m) ::
    content (set_queue (queue m) ((q_head m + 1) mod M_QUEUE) (q_used m - 1) (m_dropped m) m).
Proof.
  intros Hh Hu. unfold content. rewrite (seqZ_cons 0) by lia. cbn [fmap list_fmap set_queue queue q_head q_used]. f_equal.
  - by rewrite Z.add_0_r, Z.mod_small by done.
  - change (seqZ (Z.succ 0)) with (seqZ (1 + 0)). rewrite <-fmap_add_seqZ, <-list_fmap_compose.
    replace (Z.pred (q_used m)) with (q_used m - 1) by lia. apply list_fmap_ext. intros j i _. cbn [compose].
    do 2 f_equal. rewrite Z.add_mod_idemp_l by done. f_equal. lia.
Qed.

(** A movement written behind the others. *)
Lemma content_snoc m v q d :
  len (queue m) = M_QUEUE → 0 ≤ q_head m < M_QUEUE → 0 ≤ q_used m < M_QUEUE →
  q = <[Z.to_nat ((q_head m + q_used m) mod M_QUEUE) := v]> (queue m) →
  content (set_queue q (q_head m) (q_used m + 1) d m) = content m ++ [v].
Proof.
  intros Hq Hh Hu ->. unfold content. cbn [set_queue queue q_head q_used]. unfold M_QUEUE in *.
  pose proof (Z.mod_pos_bound (q_head m + q_used m) 64 ltac:(lia)).
  rewrite seqZ_app, fmap_app by lia. f_equal.
  - apply list_fmap_ext. intros j i Hi. apply lookup_seqZ in Hi as [-> Hj].
    pose proof (Z.mod_pos_bound (q_head m + (0 + Z.of_nat j)) 64 ltac:(lia)).
    rewrite list_lookup_total_insert_ne; [done|]. intros E.
    pose proof (Z.div_mod (q_head m + q_used m) 64 ltac:(lia)). pose proof (Z.div_mod (q_head m + (0 + Z.of_nat j)) 64 ltac:(lia)). lia.
  - rewrite seqZ_cons, seqZ_nil by lia. cbn [fmap list_fmap]. rewrite Z.add_0_l. by rewrite list_lookup_total_insert_eq by lia.
Qed.

(** The 64 movements that came last stay. *)
Lemma push_move_spec v m :
  inv m →
  safe (push_move v m) (λ m', inv m' ∧ in_packet m' = in_packet m ∧ in_len m' = in_len m ∧ last m' = last m ∧
    content m' = drop (length (content m) - 63) (content m) ++ [v]).
Proof.
  intros [Hp Hn Hq Hh Hu]. unfold push_move, M_QUEUE in *.
  assert (length (content m) = Z.to_nat (q_used m)) as Hl by (unfold content; list_lia).
  destruct (Z.ltb_spec (q_used m) 64).
  - rewrite !u32_small by lia. pose proof (Z.mod_pos_bound (q_head m + q_used m) 64 ltac:(lia)).
    rewrite aset_Some by lia. cbn [mbind option_bind safe].
    split; [split; cbn; unfold M_QUEUE; try done; [by rewrite length_insert|lia]|]. do 3 (split; [done|]).
    replace (length (content m) - 63)%nat with 0%nat by lia. rewrite drop_0.
    apply content_snoc; unfold M_QUEUE; done || lia.
  - assert (q_used m = 64) as E by lia. rewrite aset_Some by lia. cbn [mbind option_bind safe]. rewrite u32_small by lia.
    pose proof (Z.mod_pos_bound (q_head m + 1) 64 ltac:(lia)).
    split; [split; cbn; unfold M_QUEUE; try done; by rewrite length_insert|]. do 3 (split; [done|]).
    replace (length (content m) - 63)%nat with 1%nat by lia. rewrite (content_cons m) by (unfold M_QUEUE; lia).
    cbn [drop]. set (m1 := set_queue (queue m) _ _ _ m).
    replace (q_used m) with (q_used m1 + 1) by (cbn; lia).
    apply (content_snoc m1 v); cbn [m1 set_queue queue q_head q_used]; unfold M_QUEUE; try lia.
    f_equal. rewrite Z.add_mod_idemp_l by lia. replace (q_head m + 1 + (q_used m - 1)) with (q_head m + 1 * 64) by lia.
    rewrite Z.mod_add, Z.mod_small by lia. done.
Qed.

(** The oldest movement is read. *)
Lemma mouse_read_spec m :
  inv m →
  safe (qizo_mouse_read m) (λ r, inv r.2 ∧
    match content m with [] => r = (None, m) | v :: vs => r.1 = Some v ∧ content r.2 = vs end).
Proof.
  intros Hinv. pose proof Hinv as [Hp Hn Hq Hh Hu]. unfold qizo_mouse_read. destruct (Z.eqb_spec (q_used m) 0) as [E|E].
  - cbn [safe snd]. split; [done|]. unfold content. by rewrite E.
  - rewrite aget_total by lia. cbn [mbind option_bind safe fst snd]. unfold M_QUEUE in *.
    rewrite !u32_small by lia. pose proof (Z.mod_pos_bound (q_head m + 1) 64 ltac:(lia)).
    split; [split; cbn; unfold M_QUEUE; done || lia|]. rewrite (content_cons m) by (unfold M_QUEUE; lia). done.
Qed.

(** ** Packets *)

(** Bit 3, which the first byte of a packet has. *)
Definition marked (c : Z) : bool := negb (Z.land c 0x08 =? 0).

(** What stays the same when no packet is complete. *)
Definition still (m m' : mouse) : Prop :=
  px (last m') = px (last m) ∧ py (last m') = py (last m) ∧ packets (last m') = packets (last m) ∧ content m' = content m.

(** One byte: the start of a packet again, the next byte, or the last one. *)
Lemma interrupt_spec m c :
  inv m →
  safe (qizo_mouse_interrupt m c) (λ m', inv m' ∧
    if Z.land c 0x08 =? 0 then
      in_len m' = 1 ∧ last m' = add_error (last m) ∧ content m' = content m ∧ in_packet m' = <[O := c]> (in_packet m)
    else if in_len m <? 2 then
      in_len m' = in_len m + 1 ∧ last m' = last m ∧ content m' = content m ∧
      in_packet m' = <[Z.to_nat (in_len m) := c]> (in_packet m)
    else in_len m' = 0 ∧
      let b0 := in_packet m !!! 0%nat in
      let b1 := in_packet m !!! 1%nat in
      if Z.land b0 0xC0 =? 0
      then last m' = decode b0 b1 c (last m) ∧
        content m' = drop (length (content m) - 63) (content m) ++ [decode b0 b1 c (last m)]
      else still m m').
Proof.
  intros Hinv. pose proof Hinv as [Hp Hn Hq Hh Hu]. unfold qizo_mouse_interrupt. cbn [in_len in_packet].
  rewrite (proj2 (Z.eqb_neq (in_len m) 3)), orb_false_r by lia. destruct (Z.land c 8 =? 0).
  { rewrite aset_Some by lia. cbn [mbind option_bind safe]. split; [|done].
    split; cbn; try done. by rewrite length_insert. }
  rewrite aset_Some by lia. cbn [mbind option_bind in_len set_packet]. rewrite u32_small by lia.
  destruct (Z.ltb_spec (in_len m) 2).
  - rewrite (proj2 (Z.eqb_neq _ 3)) by lia. cbn [negb safe]. split; [|done].
    split; cbn; try done; [by rewrite length_insert|lia].
  - assert (in_len m = 2) as -> by lia. cbn [negb Z.add Z.eqb Pos.eqb Pos.add Pos.succ].
    change (Z.to_nat 2) with 2%nat. destruct (in_packet m) as [|b0 [|b1 [|b2 [|? ?]]]] eqn:Ep; cbn in Hp; try lia.
    change (aget (<[2%nat := c]> [b0; b1; b2]) 0) with (Some b0).
    change (aget (<[2%nat := c]> [b0; b1; b2]) 1) with (Some b1).
    change (aget (<[2%nat := c]> [b0; b1; b2]) 2) with (Some c). cbn [mbind option_bind].
    change ([b0; b1; b2] !!! 0%nat) with b0. change ([b0; b1; b2] !!! 1%nat) with b1.
    destruct (Z.land b0 0xC0 =? 0) eqn:E0; cbn [negb].
    + eapply safe_mono; [apply push_move_spec; split; cbn; try done; lia|].
      intros m' (H1 & _ & H3 & H4 & H5). split; [done|]. split; [exact H3|]. split; [exact H4|exact H5].
    + cbn [safe]. split; [|done]. split; cbn; try done; lia.
Qed.

(** The bytes of a list, one interrupt each. *)
Fixpoint feed (bs : list Z) (m : mouse) : option mouse :=
  match bs with
  | [] => Some m
  | c :: bs => m ← qizo_mouse_interrupt m c; feed bs m
  end.

(** C34 - A packet that arrives between packets moves the pointer exactly when its second
    and third bytes have bit 3 set and its first reports no overflow, whether or not
    that one has bit 3; the bytes of a movement have the bit or not as the movement
    has it, so most packets of a mouse are lost, and after them the driver waits
    for the rest of a packet that is not coming. *)
Theorem packet_spec m b0 b1 b2 :
  inv m → in_len m = 0 →
  safe (feed [b0; b1; b2] m) (λ m', inv m' ∧
    let v := if marked b0 then last m else add_error (last m) in
    if marked b1 && marked b2 then
      in_len m' = 0 ∧
      if Z.land b0 0xC0 =? 0
      then last m' = decode b0 b1 b2 v ∧ content m' = drop (length (content m) - 63) (content m) ++ [decode b0 b1 b2 v]
      else still m m'
    else still m m' ∧ in_len m' ≠ 0).
Proof.
  intros Hinv Hn. cbn [feed]. apply safe_bind. eapply safe_mono; [by apply interrupt_spec|]. intros m1 [H1 S1].
  assert (in_len m1 = 1 ∧ in_packet m1 = <[O := b0]> (in_packet m) ∧ content m1 = content m ∧
    last m1 = if marked b0 then last m else add_error (last m)) as (N1 & P1 & C1 & L1).
  { rewrite Hn in S1. unfold marked. destruct (Z.land b0 8 =? 0); cbn in S1 |- *; tauto. }
  assert (still m m1) as T1 by (unfold still; rewrite L1, C1; by destruct (marked b0)).
  clear S1. apply safe_bind. eapply safe_mono; [by apply interrupt_spec|]. intros m2 [H2 S2]. rewrite N1 in S2.
  change (marked b1) with (negb (Z.land b1 8 =? 0)). change (marked b2) with (negb (Z.land b2 8 =? 0)). destruct (Z.land b1 8 =? 0); cbn [negb andb].
  - destruct S2 as (N2 & L2 & C2 & _). apply safe_bind. eapply safe_mono; [by apply interrupt_spec|]. intros m3 [H3 S3].
    cbn [safe]. split; [done|]. enough (still m m3 ∧ in_len m3 ≠ 0) as HS by exact HS.
    rewrite N2 in S3. unfold still in *. destruct (Z.land b2 8 =? 0); cbn in S3.
    + destruct S3 as (-> & -> & -> & _). rewrite L2, C2. cbn. split; [tauto|lia].
    + destruct S3 as (-> & -> & -> & _). rewrite L2, C2. cbn. split; [tauto|lia].
  - cbn in S2. destruct S2 as (N2 & L2 & C2 & P2). apply safe_bind. eapply safe_mono; [by apply interrupt_spec|].
    intros m3 [H3 S3]. cbn [safe]. split; [done|]. rewrite N2 in S3. destruct (Z.land b2 8 =? 0); cbn [negb].
    + destruct S3 as (-> & L3 & C3 & _). split; [|lia]. unfold still in *. rewrite L3, C3, L2, C2. cbn. tauto.
    + cbn in S3. destruct S3 as [-> S3]. split; [done|]. rewrite L2, C2, C1 in S3. rewrite <-L1.
      assert (in_packet m2 !!! 0%nat = b0 ∧ in_packet m2 !!! 1%nat = b1) as [E0 E1].
      { rewrite P2, P1. pose proof (inv_packet m Hinv). destruct (in_packet m) as [|? [|? [|? ?]]]; cbn in *; done || lia. }
      rewrite E0, E1 in S3. destruct (Z.land b0 192 =? 0); [done|]. unfold still in *. rewrite L2, C2 in S3. intuition congruence.
Qed.

(** Moving by one to the right and not up or down: lost. *)
Definition ex_mouse : mouse := Mouse [0; 0; 0] 0 0 0 (Movement 0 5 5 0 0 0 0 1) (replicate 64 (Movement 0 0 0 0 0 0 0 0)) 0 0 true.

Lemma ex_mouse_inv : inv ex_mouse.
Proof. by split. Qed.

Example lost_step : (λ m, (px (last m), in_len m)) <$> feed [0x08; 1; 0] ex_mouse = Some (5, 1).
Proof. reflexivity. Qed.

Lemma packet_spec_witness :
  safe (feed [0x08; 9; 8] ex_mouse) (λ m', inv m' ∧ in_len m' = 0 ∧ last m' = decode 0x08 9 8 (last ex_mouse) ∧
    content m' = [decode 0x08 9 8 (last ex_mouse)]).
Proof. exact (packet_spec ex_mouse 0x08 9 8 ex_mouse_inv eq_refl). Defined.

End MOUSE.
