(* ===== verification/Console.v ===== *)
(** * The console of the kernel: [kernel/console.c]

    Text goes to the serial port and to the 80 by 25 cells of the VGA text mode.
    The theorems say that the terminal never writes outside the cells and is the
    scrolling terminal one expects ([term_putc_spec]), what a line of text leaves
    on the screen ([term_line]), that [put_uint] prints numbers as Python does
    ([put_uint_spec]), and what [qizo_printf] prints ([printf_spec]). *)

From S2P Require Export Ports PyText.

Module CON.

Definition TERM_COLS : Z := 80.
Definition TERM_ROWS : Z := 25.
Definition COM1 : Z := 0x3F8.

(** ** The screen *)

(** The cells at [VGA_BASE], each a character and an attribute, and the cursor. *)
Record term := Term { vga : list Z; cursor_col : Z; cursor_row : Z; base_attr : Z }.

Definition set_vga (t : term) (v : list Z) : term := Term v (cursor_col t) (cursor_row t) (base_attr t).

Definition cell (attr c : Z) : Z := u16 (Z.lor c (Z.shiftl attr 8)).

Definition term_scroll (t : term) : option term :=
  if cursor_row t <? TERM_ROWS then Some t
  else
    v ← for_up 0 ((TERM_ROWS - 1) * TERM_COLS)
      (λ i v, x ← aget v (i + TERM_COLS); v ← aset v i x; Some (Next v)) (vga t);
    v ← for_up ((TERM_ROWS - 1) * TERM_COLS) (TERM_ROWS * TERM_COLS)
      (λ i v, v ← aset v i (cell (base_attr t) 32); Some (Next v)) v;
    Some (Term v (cursor_col t) (TERM_ROWS - 1) (base_attr t)).

(** [cursor_col = 0; cursor_row++; term_scroll()] *)
Definition new_line (t : term) : option term :=
  term_scroll (Term (vga t) 0 (cursor_row t + 1) (base_attr t)).

Definition term_putc (t : term) (c : Z) : option term :=
  if c =? 13 then Some t
  else if c =? 10 then new_line t
  else if c =? 8 then
    if cursor_col t =? 0 then Some t
    else
      let col := cursor_col t - 1 in
      v ← aset (vga t) (cursor_row t * TERM_COLS + col) (cell (base_attr t) 32);
      Some (Term v col (cursor_row t) (base_attr t))
  else
    let c := if (c <? 32) || (126 <? c) then 63 else c in
    t ← (if TERM_COLS <=? cursor_col t then new_line t else Some t);
    v ← aset (vga t) (cursor_row t * TERM_COLS + cursor_col t) (cell (base_attr t) (u8 c));
    Some (Term v (cursor_col t + 1) (cursor_row t) (base_attr t)).

(** The loop of [qizo_console_write] over the screen. *)
Fixpoint term_write (t : term) (data : list Z) : option term :=
  match data with
  | [] => Some t
  | c :: data => t ← term_putc t c; term_write t data
  end.

(** The screen part of [qizo_clear]. *)
Definition term_clear (t : term) : option term :=
  v ← for_up 0 (TERM_COLS * TERM_ROWS)
    (λ i v, v ← aset v i (cell (base_attr t) 32); Some (Next v)) (vga t);
  Some (Term v 0 0 (base_attr t)).

Definition qizo_console_color (t : term) (attr : Z) : term :=
  Term (vga t) (cursor_col t) (cursor_row t) (Z.land attr 0x0F).

(** ** The serial port and the whole console *)

Record console := Console { scr : term; serial_ok : bool; vga_ok : bool; plain_mode : bool }.

Section device.
Context {D : Type} `{Ports D}.

Definition serial_init (d : D) : bool * D :=
  let d := outb (COM1 + 1) 0x00 d in
  let d := outb (COM1 + 3) 0x80 d in
  let d := outb (COM1 + 0) 0x01 d in
  let d := outb (COM1 + 1) 0x00 d in
  let d := outb (COM1 + 3) 0x03 d in
  let d := outb (COM1 + 2) 0xC7 d in
  let d := outb (COM1 + 4) 0x0B d in
  let '(r, d) := spin (Z.to_nat 100000) (COM1 + 5)
    (λ v, if Z.land v 0x60 =? 0x60 then Some tt else None) d in
  (bool_decide (r = Some tt), d).

Definition serial_putc (ok : bool) (c : Z) (d : D) : D :=
  if negb ok then d
  else
    let '(_, d) := spin (Z.to_nat 200000) (COM1 + 5)
      (λ v, if Z.land v 0x20 =? 0 then None else Some tt) d in
    let d := outb COM1 (u8 c) d in
    if c =? 10 then outb (COM1 + 0) 0x0D d else d.

(** What [serial_write] sends: not the newline before a carriage return. *)
Fixpoint serial_chars (data : list Z) : list Z :=
  match data with
  | [] => []
  | c :: rest =>
      if (c =? 10) && (match rest with x :: _ => x =? 13 | [] => false end)
      then serial_chars rest else c :: serial_chars rest
  end.

Definition serial_write (ok : bool) (data : list Z) (d : D) : D :=
  fold_left (λ d c, serial_putc ok c d) (serial_chars data) d.

Definition cursor_update (c : console) (d : D) : D :=
  let pos := u16 (cursor_row (scr c) * TERM_COLS + cursor_col (scr c)) in
  if negb (vga_ok c) || plain_mode c then d
  else
    let d := outb 0x3D4 0x0F d in
    let d := outb 0x3D5 (u8 pos) d in
    let d := outb 0x3D4 0x0E d in
    outb 0x3D5 (u8 (Z.shiftr pos 8)) d.

Definition qizo_console_write (c : console) (data : list Z) (d : D) : option (console * D) :=
  let d := serial_write (serial_ok c) data d in
  if negb (vga_ok c) then Some (c, d)
  else
    t ← term_write (scr c) data;
    let c := Console t (serial_ok c) (vga_ok c) (plain_mode c) in
    Some (c, cursor_update c d).

Definition qizo_clear (c : console) (d : D) : option (console * D) :=
  if negb (vga_ok c) then Some (c, d)
  else
    t ← term_clear (scr c);
    let c := Console t (serial_ok c) (vga_ok c) (plain_mode c) in
    Some (c, cursor_update c d).
End device.

(** ** Numbers *)

Definition digits : list Z := Eval vm_compute in chars "0123456789abcdef".

(** The loop that fills [buf] from the last digit on. *)
Definition put_digits (base : Z) (s : list Z * Z * Z) : option (list Z * Z * Z) :=
  let '(buf, i, value) := s in
  c ← aget digits (value mod base);
  buf ← aset buf i c;
  Some (buf, i + 1, value / base).

(** What [put_uint] prints: [buf], read backwards.  A number has at most 64
    digits. *)
Definition put_uint (value base : Z) (signed_val : bool) : option (list Z) :=
  let buf := replicate 68 0 in
  let neg := signed_val && (i64 value <? 0) in
  let value := if neg then u64 (- i64 value) else value in
  '(buf, i) ← (if value =? 0 then buf ← aset buf 0 48; Some (buf, 1) else Some (buf, 0));
  '(buf, i, _) ← while_up 64 (λ s, negb (s.2 =? 0)) (put_digits base) (buf, i, value);
  '(buf, i) ← (if neg then buf ← aset buf i 45; Some (buf, i + 1) else Some (buf, i));
  Some (rev (take (Z.to_nat i) buf)).

(** ** [qizo_printf] *)

(** What the caller passed: numbers, as 64 bits, and strings. *)
Inductive arg : Type :=
  | Num (n : Z)
  | Str (s : list Z).

(** [__builtin_va_arg] of an integer type, and of a pointer: taking a number for
    a pointer, or an argument that is not there, is undefined. *)
Definition va_num (args : list arg) : option (Z * list arg) :=
  match args with Num n :: args => Some (n, args) | _ => None end.
Definition va_str (args : list arg) : option (list Z * list arg) :=
  match args with
  | Str s :: args => Some (s, args)
  | Num 0 :: args => Some (chars "(null)", args)
  | _ => None
  end.

(** The format is read up to its zero byte, which is not in the list; a percent
    sign (or [%l]) at the end makes the loop go past it. *)
Fixpoint qizo_printf (fmt : list Z) (args : list arg) : option (list Z) :=
  match fmt with
  | [] => Some []
  | p :: fmt =>
      if negb (p =? 37) then cons p <$> qizo_printf fmt args
      else
        match fmt with
        | [] => None
        | p :: fmt =>
            if p =? 99 then
              '(n, args) ← va_num args; app [i8 n] <$> qizo_printf fmt args
            else if (p =? 100) || (p =? 105) then
              '(n, args) ← va_num args; s ← put_uint (u64 (i32 n)) 10 true; app s <$> qizo_printf fmt args
            else if p =? 108 then
              match fmt with
              | [] => None
              | p :: fmt =>
                  if p =? 108 then
                    '(n, args) ← va_num args; s ← put_uint (u64 n) 10 false; app s <$> qizo_printf fmt args
                  else if p =? 120 then
                    '(n, args) ← va_num args; s ← put_uint (u64 n) 16 false; app s <$> qizo_printf fmt args
                  else app [37; 108; p] <$> qizo_printf fmt args
              end
            else if p =? 117 then
              '(n, args) ← va_num args; s ← put_uint (u32 n) 10 false; app s <$> qizo_printf fmt args
            else if p =? 120 then
              '(n, args) ← va_num args; s ← put_uint (u32 n) 16 false; app s <$> qizo_printf fmt args
            else if p =? 112 then
              '(n, args) ← va_num args; s ← put_uint (u64 n) 16 false; app s <$> qizo_printf fmt args
            else if p =? 115 then
              '(s, args) ← va_str args; app s <$> qizo_printf fmt args
            else if p =? 37 then app [37] <$> qizo_printf fmt args
            else app [37; p] <$> qizo_printf fmt args
        end
  end.

(** What [qizo_pad] prints after a text of [n] characters. *)
Definition qizo_pad (n width : Z) : list Z := replicate (Z.to_nat (width - n)) 32.

(** ** The terminal *)

Record inv (t : term) : Prop := {
  inv_cells : len (vga t) = TERM_ROWS * TERM_COLS;
  inv_col : 0 ≤ cursor_col t ≤ TERM_COLS;
  inv_row : 0 ≤ cursor_row t < TERM_ROWS;
}.

(** A line feed: to the next row, and at the last one the screen moves up by a row
    and a blank one follows. *)
Definition line_feed (t : term) : term :=
  if cursor_row t + 1 <? TERM_ROWS then Term (vga t) 0 (cursor_row t + 1) (base_attr t)
  else Term (drop 80 (vga t) ++ replicate 80 (cell (base_attr t) 32)) 0 (cursor_row t) (base_attr t).

(** Put a cell at the cursor. *)
Definition put_cell (t : term) (x : Z) : term :=
  Term (<[Z.to_nat (cursor_row t * TERM_COLS + cursor_col t) := x]> (vga t))
    (cursor_col t + 1) (cursor_row t) (base_attr t).

(** The terminal one expects. *)
Definition putc_spec (t : term) (c : Z) : term :=
  if c =? 13 then t
  else if c =? 10 then line_feed t
  else if c =? 8 then
    if cursor_col t =? 0 then t
    else
      let t := Term (vga t) (cursor_col t - 1) (cursor_row t) (base_attr t) in
      Term (vga (put_cell t (cell (base_attr t) 32))) (cursor_col t) (cursor_row t) (base_attr t)
  else
    let t := if TERM_COLS <=? cursor_col t then line_feed t else t in
    put_cell t (cell (base_attr t) (u8 (if (c <? 32) || (126 <? c) then 63 else c))).

Lemma scroll_spec t :
  len (vga t) = TERM_ROWS * TERM_COLS → cursor_row t = TERM_ROWS →
  term_scroll t = Some (Term (drop 80 (vga t) ++ replicate 80 (cell (base_attr t) 32))
    (cursor_col t) (TERM_ROWS - 1) (base_attr t)).
Proof.
  unfold TERM_ROWS, TERM_COLS. intros Hl Hr. unfold term_scroll, TERM_ROWS, TERM_COLS. rewrite Hr. rw_bool.
  change ((25 - 1) * 80) with 1920. change (25 * 80) with 2000 in *.
  set (up := for_up 0 1920 _ _).
  assert (safe up (λ v, v = take 1920 (drop 80 (vga t)) ++ drop 1920 (vga t))) as Hup.
  { apply (safe_for_all (λ i v, v = take (Z.to_nat i) (drop 80 (vga t)) ++ drop (Z.to_nat i) (vga t)));
      [lia| |by rewrite drop_0].
    intros i v Hi ->. set (v := vga t) in *.
    assert (length (take (Z.to_nat i) (drop 80 v)) = Z.to_nat i) as Hlen by list_lia.
    destruct (lookup_lt_is_Some_2 v (Z.to_nat i + 80)) as [x Hx]; [lia|].
    rewrite aget_lookup by lia. replace (Z.to_nat (i + 80)) with (Z.to_nat i + 80)%nat by lia.
    rewrite lookup_app_r, Hlen, lookup_drop by lia.
    replace (Z.to_nat i + (Z.to_nat i + 80 - Z.to_nat i))%nat with (Z.to_nat i + 80)%nat by lia. rewrite Hx.
    cbn [mbind option_bind]. rewrite aset_Some by list_lia. cbn [mbind option_bind safe step_to].
    destruct (lookup_lt_is_Some_2 v (Z.to_nat i)) as [y Hy]; [lia|].
    rewrite insert_app_r_alt by (by rewrite Hlen). rewrite Hlen, Nat.sub_diag, (drop_S v y (Z.to_nat i)) by done.
    cbn [insert list_insert].
    replace (Z.to_nat (i + 1)) with (S (Z.to_nat i)) by lia.
    rewrite (take_S_r (drop 80 v) _ x) by (by rewrite lookup_drop, Nat.add_comm). by rewrite <-(assoc_L (++)). }
  destruct up as [v1|]; [|done]. cbn [safe] in Hup. subst v1. cbn [mbind option_bind].
  set (fill := for_up 1920 2000 _ _). set (x := cell (base_attr t) 32) in *.
  assert (safe fill (λ v, v = drop 80 (vga t) ++ replicate 80 x)) as Hfill; [|by destruct fill; [rewrite Hfill|]].
  assert (len (drop 80 (vga t)) = 1920) as Hd by list_lia.
  apply (safe_for_up (λ i v, v = drop 80 (vga t) ++ replicate (Z.to_nat (i - 1920)) x ++ drop (Z.to_nat i) (vga t))).
  - lia.
  - intros i v Hi ->. rewrite aset_Some by list_lia. cbn [mbind option_bind safe step_to].
    destruct (lookup_lt_is_Some_2 (vga t) (Z.to_nat i)) as [y Hy]; [lia|].
    rewrite !insert_app_r_alt by list_lia. rewrite length_replicate, (drop_S (vga t) y (Z.to_nat i)) by done.
    replace (Z.to_nat i - length (drop 80 (vga t)) - Z.to_nat (i - 1920))%nat with O by list_lia.
    cbn [insert list_insert]. replace (Z.to_nat (i + 1 - 1920)) with (S (Z.to_nat (i - 1920))) by lia.
    rewrite replicate_S_end. replace (Z.to_nat (i + 1)) with (S (Z.to_nat i)) by lia.
    by rewrite <-!(assoc_L (++)).
  - intros v ->. rewrite (drop_ge (vga t) (Z.to_nat 2000)) by lia. by rewrite (right_id_L [] (++)).
  - rewrite take_ge by list_lia. done.
Qed.

Lemma line_feed_inv t : inv t → inv (line_feed t).
Proof.
  intros [Hl Hc Hr]. unfold line_feed, TERM_ROWS, TERM_COLS in *.
  destruct (Z.ltb_spec (cursor_row t + 1) 25); split; cbn; unfold TERM_ROWS, TERM_COLS; list_lia.
Qed.

Lemma new_line_spec t : inv t → new_line t = Some (line_feed t).
Proof.
  intros [Hl Hc Hr]. unfold new_line, line_feed. destruct (Z.ltb_spec (cursor_row t + 1) TERM_ROWS).
  - unfold term_scroll. cbn [cursor_row]. by rw_bool.
  - rewrite scroll_spec; [|done|cbn; lia]. cbn. do 2 f_equal. unfold TERM_ROWS in *. lia.
Qed.

Lemma put_cell_inv t x : inv t → cursor_col t < TERM_COLS → inv (put_cell t x).
Proof.
  intros [Hl Hc Hr] Hlt. split; cbn; [by rewrite length_insert|lia|done].
Qed.

Lemma put_cell_spec t x :
  inv t → cursor_col t < TERM_COLS →
  aset (vga t) (cursor_row t * TERM_COLS + cursor_col t) x = Some (vga (put_cell t x)).
Proof. intros [Hl Hc Hr] Hlt. rewrite aset_Some; [done|]. unfold TERM_ROWS, TERM_COLS in *. lia. Qed.

(** The terminal stays inside its cells and does what [putc_spec] says. *)
Theorem term_putc_spec t c : inv t → term_putc t c = Some (putc_spec t c) ∧ inv (putc_spec t c).
Proof.
  intros Hinv. pose proof Hinv as [Hl Hc Hr]. unfold term_putc, putc_spec.
  destruct (c =? 13); [done|]. destruct (c =? 10); [by rewrite new_line_spec; [split; [|apply line_feed_inv]|]|].
  destruct (c =? 8).
  - destruct (Z.eqb_spec (cursor_col t) 0); [done|].
    set (t1 := Term (vga t) (cursor_col t - 1) (cursor_row t) (base_attr t)).
    assert (inv t1) as H1 by (split; cbn; [done|lia|done]). set (x := cell (base_attr t) 32).
    pose proof (put_cell_spec t1 x H1 ltac:(cbn; lia)) as Hx.
    pose proof (put_cell_inv t1 x H1 ltac:(cbn; lia)) as [? ? ?].
    cbn [vga cursor_row cursor_col base_attr t1] in Hx. cbv zeta. rewrite Hx. split; [done|]. split; cbn; [done|lia|done].
  - set (x := u8 _). cbv zeta. set (t1 := if TERM_COLS <=? cursor_col t then line_feed t else t).
    assert ((if TERM_COLS <=? cursor_col t then new_line t else Some t) = Some t1) as ->.
    { unfold t1. case_match; [by apply new_line_spec|done]. }
    assert (inv t1 ∧ cursor_col t1 < TERM_COLS) as [H1 Hlt].
    { unfold t1. destruct (Z.leb_spec TERM_COLS (cursor_col t)); [|split; [done|lia]].
      split; [by apply line_feed_inv|]. unfold line_feed. case_match; cbn; unfold TERM_COLS; lia. }
    cbn [mbind option_bind]. assert (base_attr t1 = base_attr t) as Ha.
    { unfold t1, line_feed. repeat case_match; done. }
    rewrite put_cell_spec by (by rewrite ?Ha). cbn [mbind option_bind]. rewrite Ha.
    split; [by unfold put_cell; rewrite Ha|by apply put_cell_inv].
Qed.

(** C33 - Nothing that is printed makes the terminal write outside the cells. *)
Theorem term_write_safe t data : inv t → safe (term_write t data) (λ t', inv t' ∧ t' = fold_left putc_spec data t).
Proof.
  revert t. induction data as [|c data IH]; intros t Hinv; cbn [term_write fold_left]; [done|].
  destruct (term_putc_spec t c Hinv) as [-> Hinv']. cbn [mbind option_bind]. by apply IH.
Qed.

(** Text that fits into the row stands in it, and the rest of the screen is as it
    was. *)
Theorem term_line t text :
  inv t → (∀ c, c ∈ text → 32 ≤ c ≤ 126) → cursor_col t + len text ≤ TERM_COLS →
  let p := Z.to_nat (cursor_row t * TERM_COLS + cursor_col t) in
  term_write t text = Some (Term
    (take p (vga t) ++ (cell (base_attr t) <$> text) ++ drop (p + length text) (vga t))
    (cursor_col t + len text) (cursor_row t) (base_attr t)).
Proof.
  revert t. induction text as [|c text IH]; intros t Hinv Htext Hfit p; cbn [term_write].
  - cbn [fmap list_fmap app length]. rewrite Nat.add_0_r, take_drop, Z.add_0_r. by destruct t.
  - destruct (term_putc_spec t c Hinv) as [-> Hinv']. cbn [mbind option_bind].
    pose proof (Htext c ltac:(apply list_elem_of_here)) as Hc. cbn [length] in Hfit.
    pose proof Hinv as [Hl [Hc0 Hc1] Hr].
    assert (putc_spec t c = put_cell t (cell (base_attr t) c)) as E.
    { unfold putc_spec. rw_bool. rewrite u8_small by lia. done. }
    rewrite E in *. rewrite IH; [|done|intros x Hx; apply Htext; by apply list_elem_of_further|cbn; lia].
    cbn [put_cell cursor_col cursor_row base_attr vga]. f_equal. f_equal; [|cbn [length]; lia].
    replace (Z.to_nat (cursor_row t * TERM_COLS + (cursor_col t + 1))) with (S p) by (unfold p, TERM_COLS in *; lia).
    assert (p < length (vga t))%nat as Hp by (unfold p, TERM_ROWS, TERM_COLS in *; lia). fold p.
    rewrite (take_S_r _ p (cell (base_attr t) c)) by (by apply list_lookup_insert_eq).
    rewrite take_insert_ge by lia. rewrite <-(assoc_L (++)). cbn [fmap list_fmap app length]. do 2 f_equal.
    f_equal. rewrite drop_insert_lt by lia. f_equal. lia.
Qed.

(** ** Digits *)

(** The digits of a number from the last on. *)
Fixpoint lsd (fuel : nat) (base n : Z) : list Z :=
  match fuel with
  | O => []
  | S fuel => if n =? 0 then [] else code (digit_char (n mod base)) :: lsd fuel base (n / base)
  end.

Lemma b_show_digits fuel base n s :
  2 ≤ base → 0 < n < 2 ^ Z.of_nat fuel → b (show_digits fuel base n s) = rev (lsd fuel base n) ++ b s.
Proof.
  intros Hb. revert n s. induction fuel as [|fuel IH]; intros n s Hn; [cbn in Hn; lia|].
  cbn [show_digits lsd]. rw_bool. cbn [rev].
  pose proof (Z.div_pos n base ltac:(lia) ltac:(lia)). destruct (Z.eqb_spec (n / base) 0) as [E|E].
  - rewrite E. destruct fuel; cbn [lsd]; by rewrite ?b_cons.
  - rewrite IH, b_cons, <-(assoc_L (++)); [done|]. split; [lia|].
    apply Z.div_lt_upper_bound; [lia|]. rewrite Nat2Z.inj_succ, Z.pow_succ_r in Hn by lia. nia.
Qed.

Lemma lsd_more fuel k base n : 2 ≤ base → 0 ≤ n < 2 ^ Z.of_nat fuel → lsd (fuel + k) base n = lsd fuel base n.
Proof.
  intros Hb. revert n. induction fuel as [|fuel IH]; intros n Hn.
  - replace n with 0 by (cbn in Hn; lia). by destruct k.
  - cbn [lsd Nat.add]. case_match; [done|]. f_equal. apply IH.
    pose proof (Z.div_pos n base ltac:(lia) ltac:(lia)). split; [done|].
    apply Z.div_lt_upper_bound; [lia|]. rewrite Nat2Z.inj_succ, Z.pow_succ_r in Hn by lia. nia.
Qed.

Lemma length_lsd fuel base n : (length (lsd fuel base n) ≤ fuel)%nat.
Proof. revert n. induction fuel as [|fuel IH]; intros n; cbn [lsd]; [done|]. case_match; cbn; [lia|]. specialize (IH (n / base)). lia. Qed.

Lemma digit_at d : 0 ≤ d < 16 → aget digits d = Some (code (digit_char d)).
Proof.
  intros Hd. assert (Forall (λ d, aget digits d = Some (code (digit_char d))) (range 0 16)) as H.
  { apply (bool_decide_unpack _). by vm_compute. }
  rewrite list.Forall_forall in H. apply H. by apply elem_of_range.
Qed.

(** The loop leaves the digits in [buf], the last one first. *)
Lemma put_digits_loop base value :
  2 ≤ base ≤ 16 → 0 ≤ value < 2 ^ 64 → 
  safe (while_up 64 (λ s, negb (s.2 =? 0)) (put_digits base) (replicate 68 0, 0, value)) (λ s,
    let '(buf, i, _) := s in
    len buf = 68 ∧ i = len (lsd 64 base value) ∧ take (Z.to_nat i) buf = lsd 64 base value).
Proof.
  intros Hb Hv.
  set (Inv := λ s : list Z * Z * Z, len s.1.1 = 68 ∧ 0 ≤ s.1.2 ≤ 64 ∧ 0 ≤ s.2 < 2 ^ (64 - s.1.2) ∧
    take (Z.to_nat s.1.2) s.1.1 ++ lsd (Z.to_nat (64 - s.1.2)) base s.2 = lsd 64 base value).
  apply (safe_while Inv _ (λ s, Z.to_nat (64 - s.1.2))).
  - intros [[buf i] v] (Hl & Hi & Hr & Hd) Hc. cbn [fst snd] in *. apply negb_true_iff, Z.eqb_neq in Hc.
    assert (i < 64) as Hi64.
    { destruct (Z.eq_dec i 64) as [->|]; [change (2 ^ (64 - 64)) with 1 in Hr; lia|lia]. }
    unfold put_digits. pose proof (Z.mod_pos_bound v base ltac:(lia)).
    rewrite digit_at by lia. cbn [mbind option_bind]. rewrite aset_Some by lia. cbn [mbind option_bind safe].
    split; [|cbn [fst snd]; lia]. unfold Inv. cbn [fst snd]. rewrite length_insert.
    split; [done|]. split; [lia|]. split.
    + split; [apply Z.div_pos; lia|]. apply Z.div_lt_upper_bound; [lia|].
      replace (64 - i) with (Z.succ (64 - (i + 1))) in Hr by lia. rewrite Z.pow_succ_r in Hr by lia.
      pose proof (Z.pow_pos_nonneg 2 (64 - (i + 1)) ltac:(lia) ltac:(lia)). nia.
    + rewrite <-Hd. replace (Z.to_nat (i + 1)) with (S (Z.to_nat i)) by lia.
      rewrite (take_S_r _ _ (code (digit_char (v mod base)))) by (apply list_lookup_insert_eq; lia).
      rewrite take_insert_ge, <-(assoc_L (++)) by lia. f_equal.
      replace (Z.to_nat (64 - i)) with (S (Z.to_nat (64 - (i + 1)))) by lia. cbn [lsd]. by rw_bool.
  - intros [[buf i] v] (Hl & Hi & Hr & Hd) Hc. cbn [fst snd] in *. apply negb_false_iff, Z.eqb_eq in Hc. subst v.
    assert (lsd (Z.to_nat (64 - i)) base 0 = []) as E by (by destruct (Z.to_nat (64 - i))).
    rewrite E, (right_id_L [] (++)) in Hd. split; [done|]. split; [|done]. rewrite <-Hd, length_take. lia.
  - unfold Inv. cbn [fst snd]. rewrite length_replicate, take_0. split; [done|]. split; [lia|]. split; [|done].
    by rewrite Z.sub_0_r.
  - cbn [fst snd]. lia.
Qed.

Lemma lsd_show base n : 2 ≤ base → 0 < n < 2 ^ 64 → rev (lsd 64 base n) = b (show_base base n).
Proof.
  intros Hb Hn. unfold show_base. pose proof (Z.log2_nonneg n). pose proof (Z.log2_spec n ltac:(lia)) as [_ Hlt].
  set (f := S (Z.to_nat (Z.log2 n))). assert (0 < n < 2 ^ Z.of_nat f) as Hf.
  { unfold f. rewrite Nat2Z.inj_succ, Z2Nat.id by lia. lia. }
  rewrite b_show_digits by done. change (b "") with (@nil Z). rewrite (right_id_L [] (++)). f_equal.
  assert (Z.log2 n < 64) by (by apply Z.log2_lt_pow2; lia).
  replace 64%nat with (f + (64 - f))%nat by (unfold f; lia). apply lsd_more; [done|lia].
Qed.

(** [put_uint] prints a number, signed or not, as Python's [%d] and [%x] do, and
    its buffer is large enough. *)
Theorem put_uint_spec value base signed :
  2 ≤ base ≤ 16 → 0 ≤ value < 2 ^ 64 →
  put_uint value base signed = Some (b (
    if signed && (i64 value <? 0) then String "-" (show_base base (- i64 value))
    else show_base base value)).
Proof.
  intros Hb Hv. unfold put_uint. cbv zeta.
  assert (- 2 ^ 63 ≤ i64 value < 2 ^ 63) as Hi.
  { unfold i64. pose proof (Z.mod_pos_bound (value + 2 ^ 63) (2 ^ 64) ltac:(lia)). lia. }
  set (neg := signed && (i64 value <? 0)).
  set (v := if neg then u64 (- i64 value) else value).
  assert (v = (if neg then - i64 value else value) ∧ 0 ≤ v < 2 ^ 64 ∧ (neg = true → 0 < v)) as (Ev & Hv' & Hneg).
  { unfold v. destruct neg eqn:E; [|done]. apply andb_true_iff in E as [_ E%Z.ltb_lt].
    rewrite u64_small by lia. split; [done|lia]. }
  clearbody v. destruct (Z.eqb_spec v 0) as [->|Hv0].
  { destruct neg; [specialize (Hneg eq_refl); lia|]. by rewrite <-Ev; destruct Hb; unfold show_base; cbn;
    rewrite Z.mod_0_l by lia. }
  cbn [mbind option_bind]. pose proof (put_digits_loop base v Hb Hv') as Hloop.
  destruct (while_up _ _ _ _) as [[[buf i] w]|]; [|done]. cbn [safe] in Hloop. destruct Hloop as (Hl & Hi' & Ht).
  cbn [mbind option_bind]. pose proof (length_lsd 64 base v) as Hlen.
  assert (b (show_base base v) = rev (lsd 64 base v)) as E by (symmetry; apply lsd_show; lia).
  destruct neg.
  - rewrite aset_Some by lia. cbn [mbind option_bind]. rewrite <-Ev, b_cons, E, <-Ht.
    replace (Z.to_nat (i + 1)) with (S (Z.to_nat i)) by lia.
    rewrite (take_S_r _ _ 45) by (apply list_lookup_insert_eq; lia). by rewrite take_insert_ge, rev_app_distr by lia.
  - cbn [mbind option_bind]. by rewrite <-Ev, E, <-Ht.
Qed.

(** ** What a format prints *)

(** The parts of a format: a character, a directive, or a percent sign (or [%l])
    before a character that makes no directive with it. *)
Inductive piece : Type :=
  | Char (c : Z)
  | Conv (c : Z)
  | LongConv (c : Z).

Definition text_of (p : piece) : list Z :=
  match p with
  | Char c => [c]
  | Conv c => [37; c]
  | LongConv c => [37; 108; c]
  end.

(** A part that reads as such: the percent sign is no text, and [%l] starts a
    long conversion. *)
Definition valid (p : piece) : Prop :=
  match p with Char c => c ≠ 37 | Conv c => c ≠ 108 | LongConv _ => True end.

#[export] Instance valid_dec p : Decision (valid p).
Proof. destruct p; cbn [valid]; apply _. Defined.

(** What a directive does with the next argument. *)
Definition num_piece (f : Z → string) (args : list arg) : option (list Z * list arg) :=
  '(n, args) ← va_num args; Some (b (f n), args).

(** The text of a part and the arguments it leaves. *)
Definition render (p : piece) (args : list arg) : option (list Z * list arg) :=
  match p with
  | Char c => Some ([c], args)
  | Conv c =>
      if c =? 99 then '(n, args) ← va_num args; Some ([i8 n], args)
      else if (c =? 100) || (c =? 105) then num_piece (λ n, fmt_d (i32 n)) args
      else if c =? 117 then num_piece (λ n, fmt_d (u32 n)) args
      else if c =? 120 then num_piece (λ n, fmt_x (u32 n)) args
      else if c =? 112 then num_piece (λ n, fmt_x (u64 n)) args
      else if c =? 115 then va_str args
      else if c =? 37 then Some ([37], args)
      else Some ([37; c], args)
  | LongConv c =>
      if c =? 108 then num_piece (λ n, fmt_d (u64 n)) args
      else if c =? 120 then num_piece (λ n, fmt_x (u64 n)) args
      else Some ([37; 108; c], args)
  end.

Fixpoint render_all (ps : list piece) (args : list arg) : option (list Z) :=
  match ps with
  | [] => Some []
  | p :: ps => '(s, args) ← render p args; app s <$> render_all ps args
  end.

Lemma put_unsigned n base : 2 ≤ base ≤ 16 → 0 ≤ n < 2 ^ 64 → put_uint n base false = Some (b (show_base base n)).
Proof. apply put_uint_spec. Qed.

Lemma put_signed n : put_uint (u64 (i32 n)) 10 true = Some (b (fmt_d (i32 n))).
Proof.
  rewrite put_uint_spec by (lia || apply u64_range). cbn [andb].
  assert (- 2 ^ 31 ≤ i32 n < 2 ^ 31) as Hn.
  { unfold i32. pose proof (Z.mod_pos_bound (n + 2 ^ 31) (2 ^ 32) ltac:(lia)). lia. }
  assert (i64 (u64 (i32 n)) = i32 n) as ->.
  { unfold i64, u64. rewrite Z.add_mod_idemp_l, Z.mod_small by lia. lia. }
  unfold fmt_d. case_match; [done|]. rewrite u64_small by (case_bool; lia). done.
Qed.

Lemma fmt_nonneg n : 0 ≤ n → fmt_d n = show_base 10 n ∧ fmt_x n = show_base 16 n.
Proof. intros. unfold fmt_d, fmt_x. by rw_bool. Qed.

(** A number directive of the code and of [render]. *)
Lemma printf_num (g : Z → Z) base (f : Z → string) rest args :
  (∀ n, put_uint (g n) base false = Some (b (f n))) →
  ('(n, args) ← va_num args; s ← put_uint (g n) base false; app s <$> qizo_printf rest args) =
    ('(s, args) ← num_piece f args; app s <$> qizo_printf rest args).
Proof.
  intros Hf. unfold num_piece. destruct (va_num args) as [[n args']|]; [|done]. cbn [mbind option_bind]. by rewrite Hf.
Qed.

Lemma printf_piece p rest args :
  valid p →
  qizo_printf (text_of p ++ rest) args = '(s, args) ← render p args; app s <$> qizo_printf rest args.
Proof.
  intros Hp. destruct p as [c|c|c]; cbn [valid text_of app qizo_printf render] in *.
  - rewrite (proj2 (Z.eqb_neq c 37)) by done. cbn [negb mbind option_bind]. by destruct (qizo_printf rest args).
  - rewrite Z.eqb_refl. cbn [negb]. rewrite (proj2 (Z.eqb_neq c 108)) by done.
    destruct (c =? 99); [by destruct (va_num args) as [[??]|]|].
    destruct ((c =? 100) || (c =? 105)).
    { unfold num_piece. destruct (va_num args) as [[n args']|]; [|done]. cbn [mbind option_bind].
      by rewrite put_signed. }
    repeat (case_match; [solve [done | apply printf_num; intros n;
      destruct (fmt_nonneg (u32 n) (proj1 (u32_range n))), (fmt_nonneg (u64 n) (proj1 (u64_range n)));
      pose proof (u32_range n); pose proof (u64_range n); rewrite put_unsigned by lia; congruence]|]).
    all: try done.
  - rewrite Z.eqb_refl. cbn [negb]. change (108 =? 99) with false. change (108 =? 100) with false.
    change (108 =? 105) with false. change (108 =? 108) with true. cbn [orb].
    repeat (case_match; [solve [done | apply printf_num; intros n;
      destruct (fmt_nonneg (u64 n) (proj1 (u64_range n))); pose proof (u64_range n);
      rewrite put_unsigned by lia; congruence]|]).
    done.
Qed.

(** A format, part by part. *)
Lemma printf_pieces ps args :
  Forall valid ps → qizo_printf (ps ≫= text_of) args = render_all ps args.
Proof.
  intros Hps. revert args. induction Hps as [|p ps Hp Hps IH]; intros args; [done|].
  cbn [mbind list_bind render_all]. rewrite printf_piece by done.
  destruct (render p args) as [[s args']|]; [|done]. cbn [mbind option_bind]. f_equal. apply IH.
Qed.

(** C28 - [qizo_printf] prints its format part by part, numbers as Python prints them;
    what it does not know, [%lu] and [%02u] among it, it prints as it stands and
    takes no argument for it. *)
Theorem printf_spec ps args :
  Forall valid ps → qizo_printf (ps ≫= text_of) args = render_all ps args.
Proof. apply printf_pieces. Qed.

(** *** Formats that fit their arguments *)

(** What an argument is. *)
Inductive kind : Type := KNum | KStr.
Definition kind_of (a : arg) : kind := match a with Num _ => KNum | Str _ => KStr end.

(** Each directive finds an argument of its kind, and the format does not end
    within one. *)
Fixpoint fits_format (fmt : list Z) (ks : list kind) : bool :=
  match fmt with
  | [] => true
  | p :: fmt =>
      if negb (p =? 37) then fits_format fmt ks
      else
        match fmt with
        | [] => false
        | p :: fmt =>
            if (p =? 99) || (p =? 100) || (p =? 105) || (p =? 117) || (p =? 120) || (p =? 112)
            then match ks with KNum :: ks => fits_format fmt ks | _ => false end
            else if p =? 108 then
              match fmt with
              | [] => false
              | p :: fmt =>
                  if (p =? 108) || (p =? 120)
                  then match ks with KNum :: ks => fits_format fmt ks | _ => false end
                  else fits_format fmt ks
              end
            else if p =? 115 then match ks with KStr :: ks => fits_format fmt ks | _ => false end
            else fits_format fmt ks
        end
  end.

Lemma put_unsigned_some n base : 2 ≤ base ≤ 16 → 0 ≤ n < 2 ^ 64 → ∃ s, put_uint n base false = Some s.
Proof. intros. eexists. by apply put_unsigned. Qed.

(** The next argument is a number, and the rest of the format prints. *)
Ltac take_number IH fmt args Hf :=
  destruct args as [|[n|s] args]; [done| |done]; cbn [va_num mbind option_bind fmap list_fmap kind_of] in *;
  destruct (IH fmt args ltac:(cbn [length]; lia) Hf) as [t ->].

(** A format that fits its arguments prints, whatever their values are. *)
Lemma printf_fits fmt args : fits_format fmt (kind_of <$> args) = true → is_Some (qizo_printf fmt args).
Proof.
  remember (length fmt) as len eqn:Hlen. revert fmt args Hlen.
  induction len as [len IHlen] using lt_wf_ind. intros fmt args Hlen Hf.
  assert (∀ fmt' args', (length fmt' < length fmt)%nat → fits_format fmt' (kind_of <$> args') = true →
    is_Some (qizo_printf fmt' args')) as IH by (intros; eapply IHlen; [|done|done]; lia). clear IHlen Hlen.
  destruct fmt as [|p fmt]; [by eexists|]. cbn [fits_format qizo_printf] in *.
  destruct (negb (p =? 37)); [destruct (IH fmt args ltac:(cbn [length]; lia) Hf) as [t ->]; by eexists|].
  destruct fmt as [|q fmt]; [done|]. pose proof (u32_range) as H32. pose proof (u64_range) as H64.
  destruct (q =? 99) eqn:E99; cbn [orb] in Hf; [take_number IH fmt args Hf; by eexists|].
  destruct (q =? 100) eqn:E100; cbn [orb] in *; [take_number IH fmt args Hf; rewrite put_signed; by eexists|].
  destruct (q =? 105) eqn:E105; cbn [orb] in *; [take_number IH fmt args Hf; rewrite put_signed; by eexists|].
  destruct (Z.eqb_spec q 117) as [->|E117]; cbn [orb Z.eqb Pos.eqb] in *.
  { take_number IH fmt args Hf. destruct (put_unsigned_some (u32 n) 10) as [s ->]; [lia|generalize (H32 n); lia|by eexists]. }
  destruct (Z.eqb_spec q 120) as [->|E120]; cbn [orb Z.eqb Pos.eqb] in *.
  { take_number IH fmt args Hf. destruct (put_unsigned_some (u32 n) 16) as [s ->]; [lia|generalize (H32 n); lia|by eexists]. }
  destruct (Z.eqb_spec q 112) as [->|E112]; cbn [orb Z.eqb Pos.eqb] in *.
  { take_number IH fmt args Hf. destruct (put_unsigned_some (u64 n) 16) as [s ->]; [lia|generalize (H64 n); lia|by eexists]. }
  destruct (q =? 108).
  - destruct fmt as [|r fmt]; [done|]. destruct (r =? 108); cbn [orb] in Hf.
    { take_number IH fmt args Hf. destruct (put_unsigned_some (u64 n) 10) as [s ->]; [lia|generalize (H64 n); lia|by eexists]. }
    destruct (r =? 120).
    { take_number IH fmt args Hf. destruct (put_unsigned_some (u64 n) 16) as [s ->]; [lia|generalize (H64 n); lia|by eexists]. }
    destruct (IH fmt args ltac:(cbn [length]; lia) Hf) as [t ->]. by eexists.
  - destruct (q =? 115).
    + destruct args as [|[n|s] args]; [done|done|]. cbn [va_str mbind option_bind fmap list_fmap kind_of] in *.
      destruct (IH fmt args ltac:(cbn [length]; lia) Hf) as [t ->]. by eexists.
    + destruct (IH fmt args ltac:(cbn [length]; lia) Hf) as [t Et]. destruct (q =? 37); rewrite Et; by eexists.
Qed.

(** [cmd_hist] and [cmd_rtc] of [kernel/shell.c] give a number where a string is
    taken. *)
Example hist_format_misfit : fits_format (chars "  %2u  %s") [KNum; KStr] = false.
Proof. reflexivity. Qed.

Example rtc_format_misfit :
  fits_format (chars "rtc     : 20%u-%02u-%02u %02u:%02u:%02u %s") [KNum; KNum; KNum; KNum; KNum; KNum; KStr] = false.
Proof. reflexivity. Qed.

(** *** Formats of the kernel *)

Definition ex_format : list piece := [Char 120; Conv 117; Char 47; Conv 115; LongConv 117].

Lemma printf_spec_witness :
  qizo_printf (chars "x%u/%s%lu") [Num 7; Str (chars "ok"); Num 9] = Some (chars "x7/ok%lu").
Proof.
  exact (printf_spec ex_format [Num 7; Str (chars "ok"); Num 9]
    ltac:(apply (bool_decide_unpack (Forall valid ex_format)); vm_compute; exact I)).
Defined.

(** [size_line] of [kernel/sysmngr.c] prints no number, [cmd_uptime] of
    [kernel/shell.c] only one of its five. *)
Example size_line_prints n : qizo_printf (chars "%lu KiB") [Num n] = Some (chars "%lu KiB").
Proof. done. Qed.

Example uptime_prints :
  qizo_printf (chars "%u:%02u:%02u.%03u at %u") [Num 1; Num 2; Num 3; Num 4; Num 5] =
    Some (chars "1:%02u:%02u.%03u at 2").
Proof. by vm_compute. Qed.

(** *** A screen *)

Definition ex_term : term := Term (replicate 2000 (cell 7 32)) 0 24 7.

Lemma ex_term_inv : inv ex_term.
Proof. by split; vm_compute. Qed.

Lemma term_putc_spec_witness : term_putc ex_term 65 = Some (putc_spec ex_term 65) ∧ inv (putc_spec ex_term 65).
Proof. exact (term_putc_spec ex_term 65 ex_term_inv). Defined.

Lemma term_write_safe_witness : safe (term_write ex_term [10; 65]) (λ t', inv t' ∧ t' = fold_left putc_spec [10; 65] ex_term).
Proof. exact (term_write_safe ex_term [10; 65] ex_term_inv). Defined.

Lemma put_uint_spec_witness : put_uint 255 16 false = Some (b "ff").
Proof. exact (put_uint_spec 255 16 false ltac:(lia) ltac:(lia)). Defined.

End CON.
