(* ===== verification/Shell.v ===== *)
(** * The shell of the kernel: [kernel/shell.c]

    The line editor, the history, the completion and the choice of the command.
    What the shell does to the rest of the kernel is a list of events.  The
    theorems say that no key makes it leave its arrays ([shell_safe]), what the
    editing keys do to the line ([edit_line_spec]), which command a line runs
    ([enter_spec]), and what is remembered and recalled ([push_history_spec],
    [recall_spec]). *)

From S2P Require Export Console.

Module SH.

Definition LINE_MAX : Z := 128.
Definition HIST_MAX : Z := 16.
Definition NCMD : Z := 24.
Definition KEY_UP : Z := 0x01.
Definition KEY_DOWN : Z := 0x02.

(** What the rest of the kernel sees. *)
Inductive event : Type :=
  | Print (s : list Z)
  | Color (attr : Z)
  | Clear
  | Run (name : string) (arg : list Z).

Record shell := Shell {
  line : list Z;
  slen : Z;
  hist_at : Z;
  hist : list (list Z);
  hist_count : Z;
  keys_mode : bool;
  events : list event;
}.

Definition set_line_len (l : list Z) (n : Z) (s : shell) : shell :=
  Shell l n (hist_at s) (hist s) (hist_count s) (keys_mode s) (events s).
Definition set_hist_at (n : Z) (s : shell) : shell :=
  Shell (line s) (slen s) n (hist s) (hist_count s) (keys_mode s) (events s).
Definition emit (e : event) (s : shell) : shell :=
  Shell (line s) (slen s) (hist_at s) (hist s) (hist_count s) (keys_mode s) (events s ++ [e]).

(** [qizo_puts] of a constant and [qizo_putc] *)
Definition puts (t : string) (s : shell) : shell := emit (Print (chars t)) s.
Definition putc (c : Z) (s : shell) : shell := emit (Print [c]) s.

(** The backspace, space and backspace that erase a character. *)
Definition rubout : list Z := [8; 32; 8].

(** The names and descriptions of [cmds]. *)
Definition cmds : list (string * string) := [
  ("help", "this list, or help <command>");
  ("sysmngr", "memory, vram, volumes, drivers and versions");
  ("mouse", "ps2 mouse state and counters");
  ("info", "kernel and hardware summary");
  ("cpu", "cpu identity, features, clock");
  ("cpuid", "raw cpuid leaf, decimal number");
  ("mem", "frame allocator state");
  ("bench", "memory bandwidth benchmark");
  ("micro", "small copy microbenchmarks");
  ("speed", "raw op timing");
  ("ticks", "tick and interrupt counters");
  ("uptime", "time since boot");
  ("rtc", "cmos clock");
  ("keys", "toggle key code echo");
  ("hist", "command history");
  ("color", "text colour, 0..15");
  ("banner", "draw the boot banner again");
  ("echo", "print the rest of the line");
  ("wait", "sleep for n milliseconds");
  ("clear", "wipe the screen");
  ("fs", "why there is no ls");
  ("about", "project and license");
  ("reboot", "reset the machine");
  ("halt", "stop this cpu")
]%string.

Definition cmd_name (i : Z) : option (list Z) := (λ c, c_str c.1) <$> aget cmds i.

(** ** The history *)

Definition hist_first (s : shell) : Z :=
  if HIST_MAX <? hist_count s then hist_count s - HIST_MAX else 0.

(** [hist[i % HIST_MAX]] *)
Definition hist_line (s : shell) (i : Z) : option (list Z) := aget (hist s) (i mod HIST_MAX).

(** [qizo_memcpy] of the first [n] characters of [src] over those of [dst]. *)
Definition copy_over (dst src : list Z) (n : Z) : option (list Z) :=
  if (0 <=? n) && (n <=? len dst) && (n <=? len src)
  then Some (take (Z.to_nat n) src ++ drop (Z.to_nat n) dst) else None.

Definition push_history (s : shell) : option shell :=
  if slen s =? 0 then Some (set_line_len (line s) 0 s)
  else
    dup ← for_up (hist_first s) (hist_count s)
      (λ i (_ : bool),
        h ← hist_line s i;
        a ← str_at h;
        c ← str_at (line s);
        Some (if bool_decide (a = c) then Break true else Next false)) false;
    if dup : bool then Some (set_line_len (line s) 0 s)
    else
      h ← hist_line s (hist_count s);
      h ← copy_over h (line s) (slen s + 1);
      hs ← aset (hist s) (hist_count s mod HIST_MAX) h;
      Some (Shell (line s) 0 (hist_at s) hs (u32 (hist_count s + 1)) (keys_mode s) (events s)).

(** One round of the loops that erase: the last character goes. *)
Definition erase_last (s : shell) : option shell :=
  let n := slen s - 1 in
  l ← aset (line s) n 0;
  Some (emit (Print rubout) (set_line_len l n s)).

Definition clear_line (s : shell) : option shell :=
  while_up (Z.to_nat LINE_MAX) (λ s, negb (slen s =? 0)) erase_last s.

(** The rounds of [set_line] on the text at [text]: the line, the characters
    printed and the position. *)
Definition set_line (text : list Z) (s : shell) : option shell :=
  '(l, i, evs) ← for_up 0 (LINE_MAX - 1)
    (λ _ (st : list Z * Z * list event),
      let '(l, i, evs) := st in
      c ← aget text i;
      if c =? 0 then Some (Break st)
      else l ← aset l i c; Some (Next (l, i + 1, evs ++ [Print [c]]))) (line s, 0, events s);
  l ← aset l i 0;
  Some (Shell l i (hist_at s) (hist s) (hist_count s) (keys_mode s) evs).

Definition recall (dir : Z) (s : shell) : option shell :=
  let first := hist_first s in
  let walk s :=
    s ← clear_line s;
    if hist_count s <=? hist_at s then Some s
    else h ← hist_line s (u32 (hist_at s - first)); set_line h s in
  if hist_count s =? first then Some s
  else if dir <? 0 then
    if hist_at s =? first then Some s else walk (set_hist_at (u32 (hist_at s - 1)) s)
  else if hist_count s <=? u32 (hist_at s + 1) then clear_line (set_hist_at (hist_count s) s)
  else walk (set_hist_at (u32 (hist_at s + 1)) s).

(** ** Editing *)

(** [line[len - 1]], when there is one *)
Definition last_is (p : Z → bool) (s : shell) : bool :=
  negb (slen s =? 0) && match aget (line s) (slen s - 1) with Some c => p c | None => false end.

Definition erase_word (s : shell) : option shell :=
  s ← while_up (Z.to_nat LINE_MAX) (last_is (λ c, c =? 32)) erase_last s;
  while_up (Z.to_nat LINE_MAX) (last_is (λ c, negb (c =? 32))) erase_last s.

(** The comparison of [name_prefix]: 1 when the [n] first characters agree and
    the name goes on. *)
Definition name_prefix (name text : list Z) (n : Z) : option bool :=
  same ← for_up 0 n
    (λ i (_ : bool),
      a ← aget name i;
      c ← aget text i;
      Some (if a =? c then Next true else Break false)) true;
  if same : bool then c ← aget name n; Some (negb (c =? 0)) else Some false.

(** How far [best] and a name agree. *)
Definition common (best name : list Z) : option Z :=
  while_up (Z.to_nat LINE_MAX)
    (λ n, match aget best n, aget name n with
          | Some a, Some c => negb (a =? 0) && (a =? c)
          | _, _ => false
          end)
    (λ n, Some (n + 1)) 0.

(** The loop over the commands: [best] and the number of matches. *)
Definition complete_scan (s : shell) : option (list Z * Z) :=
  for_up 0 NCMD
    (λ i st,
      let '(best, matches) := st in
      name ← cmd_name i;
      ok ← name_prefix name (line s) (slen s);
      if negb ok then Some (Next (best, matches))
      else if matches =? 0 then best ← copy_over best name (len name); Some (Next (best, matches + 1))
      else n ← common best name; best ← aset best n 0; Some (Next (best, matches + 1)))
    (replicate (Z.to_nat LINE_MAX) 0, 0).

(** Append a character without the zero behind it. *)
Definition append_raw (c : Z) (s : shell) : option shell :=
  l ← aset (line s) (slen s) c;
  Some (putc c (set_line_len l (slen s + 1) s)).

Definition complete (s : shell) : option shell :=
  '(best, matches) ← complete_scan s;
  if matches =? 0 then Some s
  else
    text ← str_at best;
    let n := len text in
    s ← while_up (Z.to_nat LINE_MAX) (λ s, slen s <? n)
      (λ s, c ← aget best (slen s); append_raw c s) s;
    if matches =? 1 then append_raw 32 s else Some s.

(** The keys that are put in the line: no digits. *)
Definition printable (key : Z) : bool :=
  (key =? 32) || ((33 <=? key) && (key <=? 47)) || ((58 <=? key) && (key <=? 64)) ||
  ((97 <=? key) && (key <=? 122)) || ((65 <=? key) && (key <=? 90)) ||
  ((91 <=? key) && (key <=? 96)) || ((123 <=? key) && (key <=? 126)).

Definition edit_line (key : Z) (s : shell) : option shell :=
  if key =? 8 then if slen s =? 0 then Some s else erase_last s
  else if key =? 0x15 then clear_line s
  else if key =? 0x17 then erase_word s
  else if printable key then
    if slen s <? LINE_MAX - 1 then
      l ← aset (line s) (slen s) key;
      l ← aset l (slen s + 1) 0;
      Some (putc key (set_line_len l (slen s + 1) s))
    else Some s
  else Some s.

Definition prompt (s : shell) : shell :=
  puts "> " (emit (Color 0x07) (puts "qizo" (emit (Color 0x0A) s))).

(** ** Commands *)

Definition crlf : list Z := [13; 10].

Definition help_line (c : string * string) (s : shell) : option shell :=
  t ← CON.qizo_printf (chars "  %-10s %s" ++ crlf) [CON.Str (chars c.1); CON.Str (chars c.2)];
  Some (emit (Print t) s).

Definition cmd_help (arg : list Z) (s : shell) : option shell :=
  match arg with
  | _ :: _ =>
      match List.find (λ c, bool_decide (chars c.1 = arg)) cmds with
      | Some c => help_line c s
      | None => Some (emit (Print (chars "help: no such command, try help alone" ++ crlf)) s)
      end
  | [] =>
      let s := emit (Print (chars "  command     what it does" ++ crlf)) s in
      s ← foldl (λ s c, s ≫= help_line c) (Some s) cmds;
      let s := emit (Print (chars "  ctrl-u      erase the line, ctrl-w erase the last word" ++ crlf)) s in
      let s := emit (Print (chars "  ctrl-l      clear the screen, ctrl-c cancel the line" ++ crlf)) s in
      Some (emit (Print (chars "  up down     walk the history, tab completes a command" ++ crlf)) s)
  end.

Definition cmd_echo (arg : list Z) (s : shell) : shell := emit (Print crlf) (emit (Print arg) s).

Definition cmd_keys (s : shell) : option shell :=
  let s := Shell (line s) (slen s) (hist_at s) (hist s) (hist_count s) (negb (keys_mode s)) (events s) in
  t ← CON.qizo_printf (chars "keys    : %s, press any key to see its code" ++ crlf)
    [CON.Str (chars (if keys_mode s then "on" else "off"))];
  Some (emit (Print t) s).

Definition cmd_hist (s : shell) : option shell :=
  let first := hist_first s in
  s' ← for_up first (hist_count s)
    (λ i s',
      h ← hist_line s i;
      a ← str_at h;
      t ← CON.qizo_printf (chars "  %2u  %s" ++ crlf) [CON.Num (i - first + 1); CON.Str a];
      Some (Next (emit (Print t) s'))) s;
  Some (if first =? hist_count s
        then emit (Print (chars "hist    : nothing remembered yet" ++ crlf)) s' else s').

(** The number at the start of [arg]. *)
Fixpoint read_u32 (v : Z) (arg : list Z) : Z :=
  match arg with
  | c :: arg => if (48 <=? c) && (c <=? 57) then read_u32 (u32 (v * 10 + (c - 48))) arg else v
  | [] => v
  end.

Definition cmd_color (arg : list Z) (s : shell) : shell :=
  let v := read_u32 0 arg in
  if 15 <? v
  then emit (Print (chars "color   : pick 0..15, 7 is light grey on black, 14 yellow" ++ crlf)) s
  else
    emit (Color 0x07)
      (emit (Print (chars "qizo: colour set, the prompt goes back to grey" ++ crlf)) (emit (Color v) s)).

(** [cmds[i].run(arg)]: the commands of the shell itself, and [Run] for those that
    only call other parts of the kernel. *)
Definition run_command (name : string) (arg : list Z) (s : shell) : option shell :=
  if bool_decide (name = "help"%string) then cmd_help arg s
  else if bool_decide (name = "echo"%string) then Some (cmd_echo arg s)
  else if bool_decide (name = "keys"%string) then cmd_keys s
  else if bool_decide (name = "hist"%string) then cmd_hist s
  else if bool_decide (name = "color"%string) then Some (cmd_color arg s)
  else if bool_decide (name = "clear"%string) then Some (emit Clear s)
  else Some (emit (Run name arg) s).

(** ** The loop *)

(** [while (p( *q )) q++], for a pointer into the line. *)
Definition skip_while (l : list Z) (p : Z → bool) (q : Z) : option Z :=
  while_up (Z.to_nat LINE_MAX) (λ q, match aget l q with Some c => p c | None => false end)
    (λ q, Some (q + 1)) q.

(** The words of the line: the line with a zero behind the first word, and where
    the word and the rest begin. *)
Definition split_line (l : list Z) : option (list Z * Z * Z) :=
  cmd ← skip_while l (λ c, c =? 32) 0;
  arg ← skip_while l (λ c, negb (c =? 0) && negb (c =? 32)) cmd;
  c ← aget l arg;
  if negb (c =? 0) then
    l ← aset l arg 0;
    arg ← skip_while l (λ c, c =? 32) (arg + 1);
    Some (l, cmd, arg)
  else Some (l, cmd, arg).

(** The first command whose name is the word; [word_eq] is equality of strings. *)
Definition find_command (cmd : list Z) : option string :=
  fst <$> List.find (λ c, bool_decide (cmd = chars c.1)) cmds.

Definition enter (s : shell) : option shell :=
  let s := emit (Print crlf) s in
  l ← aset (line s) (slen s) 0;
  '(l, ci, ai) ← split_line l;
  cmd ← str_at (drop (Z.to_nat ci) l);
  arg ← str_at (drop (Z.to_nat ai) l);
  let s := set_line_len l (slen s) s in
  if bool_decide (cmd = []) then Some (prompt s)
  else
    s ← push_history s;
    let s := set_hist_at (hist_count s) s in
    let cmd := if bool_decide (cmd = chars "?") then chars "help" else cmd in
    s ← match find_command cmd with
        | Some name => run_command name arg s
        | None =>
            Some (emit (Print (chars "' (help, or tab)" ++ crlf))
              (emit (Print cmd) (emit (Print (chars "qizo: unknown command '")) s)))
        end;
    Some (prompt (set_line_len (line s) 0 s)).

(** One round of [qizo_shell] with the key [c]. *)
Definition shell_key (c : Z) (s : shell) : option shell :=
  s ← (if keys_mode s && negb (c =? 10) then
         t ← CON.qizo_printf (chars "key     : %x" ++ crlf) [CON.Num (u32 c)];
         Some (emit (Print t) s)
       else Some s);
  if keys_mode s && ((c =? KEY_UP) || (c =? KEY_DOWN)) then Some s
  else if c =? KEY_UP then recall (-1) s
  else if c =? KEY_DOWN then recall 1 s
  else if c =? 9 then complete s
  else if c =? 0x0C then Some (prompt (emit Clear s))
  else if c =? 0x03 then
    s ← clear_line (emit (Print (chars "^C" ++ crlf)) s);
    Some (prompt s)
  else if c =? 10 then enter s
  else edit_line c s.

(** The start of [qizo_shell]. *)
Definition shell_start (s : shell) : shell :=
  prompt (emit (Print (chars "qizo: type help, or tab to complete, up and down for history" ++ crlf))
    (set_hist_at (hist_count s) s)).

(** The variables before the first command. *)
Definition initial : shell :=
  Shell (replicate (Z.to_nat LINE_MAX) 0) 0 0
    (replicate (Z.to_nat HIST_MAX) (replicate (Z.to_nat LINE_MAX) 0)) 0 false [].

(** The keys of a list, one after the other. *)
Fixpoint shell_keys (cs : list Z) (s : shell) : option shell :=
  match cs with
  | [] => Some s
  | c :: cs => s ← shell_key c s; shell_keys cs s
  end.

(** ** The state *)

(** Characters a key can put in the line. *)
Definition plain (l : list Z) : Prop := ∀ c, c ∈ l → 32 ≤ c ≤ 126.

(** A C string in an array of [LINE_MAX] characters. *)
Definition line_ok (h : list Z) : Prop := len h = LINE_MAX ∧ ∃ w, str_at h = Some w ∧ plain w.

Record inv (s : shell) : Prop := {
  inv_line : len (line s) = LINE_MAX;
  inv_len : 0 ≤ slen s < LINE_MAX;
  inv_text : plain (take (Z.to_nat (slen s)) (line s));
  inv_hist : len (hist s) = HIST_MAX;
  inv_hists : ∀ h, h ∈ hist s → line_ok h;
  inv_count : 0 ≤ hist_count s < 2 ^ 32;
}.

(** What the user typed. *)
Definition text (s : shell) : list Z := take (Z.to_nat (slen s)) (line s).

(** The history is the same. *)
Definition same_hist (s s' : shell) : Prop :=
  hist s' = hist s ∧ hist_count s' = hist_count s ∧ keys_mode s' = keys_mode s.

Lemma length_text s : inv s → len (text s) = slen s.
Proof. intros []. unfold text, LINE_MAX in *. list_lia. Qed.

Lemma emit_inv e s : inv s → inv (emit e s).
Proof. intros []. by split. Qed.

Lemma hist_at_inv n s : inv s → inv (set_hist_at n s).
Proof. intros []. by split. Qed.

#[local] Hint Resolve emit_inv hist_at_inv : core.

(** ** What is on the screen

    The characters printed behind the prompt, with backspaces carried out. *)
Definition display (d : list Z) (cs : list Z) : list Z :=
  foldl (λ d c, if c =? 8 then removelast d else d ++ [c]) d cs.

Definition printed (evs : list event) : list Z :=
  evs ≫= λ e, match e with Print t => t | _ => [] end.

Lemma printed_app e1 e2 : printed (e1 ++ e2) = printed e1 ++ printed e2.
Proof. unfold printed. by rewrite bind_app. Qed.

Lemma display_app d cs cs' : display d (cs ++ cs') = display (display d cs) cs'.
Proof. apply foldl_app. Qed.

Lemma display_rubout d c : display (d ++ [c]) rubout = d.
Proof. unfold display, rubout. cbn [foldl Z.eqb Pos.eqb]. by rewrite !removelast_last. Qed.

(** [s'] follows from [s] by printing, and shows what it holds. *)
Record edited (t : list Z) (s s' : shell) : Prop := {
  ed_inv : inv s';
  ed_text : text s' = t;
  ed_hist : same_hist s s';
  ed_at : hist_at s' = hist_at s;
  ed_events : ∃ evs, events s' = events s ++ evs ∧ display (text s) (printed evs) = t;
}.

Lemma edited_refl s : inv s → edited (text s) s s.
Proof. intros. split; [done..|]. exists []. by rewrite (right_id_L [] (++)). Qed.

Lemma edited_trans t1 t2 s s1 s2 : edited t1 s s1 → edited t2 s1 s2 → edited t2 s s2.
Proof.
  intros [_ T1 H1 A1 (e1 & E1 & D1)] [I2 T2 H2 A2 (e2 & E2 & D2)]. split; [done|done| |congruence|].
  - destruct H1 as (? & ? & ?), H2 as (? & ? & ?). repeat split; congruence.
  - exists (e1 ++ e2). rewrite E2, E1, (assoc_L (++)), printed_app, display_app, D1, <-T1. by split.
Qed.

(** Cutting and extending the line. *)
Lemma take_insert_eq (l : list Z) n x : (n < length l)%nat → take (S n) (<[n := x]> l) = take n l ++ [x].
Proof.
  intros. rewrite (take_S_r _ n x) by (by apply list_lookup_insert_eq). by rewrite take_insert_ge.
Qed.

Lemma erase_last_spec s :
  inv s → slen s ≠ 0 →
  safe (erase_last s) (λ s', edited (removelast (text s)) s s' ∧ slen s' = slen s - 1).
Proof.
  intros Hinv Hne. pose proof Hinv as [Hl Hn Ht Hh Hhs Hc]. unfold erase_last, LINE_MAX in *.
  rewrite aset_Some by lia. cbn [mbind option_bind safe]. cbn [slen]. split; [|done].
  destruct (lookup_lt_is_Some_2 (line s) (Z.to_nat (slen s - 1))) as [c Hc']; [lia|].
  assert (text s = take (Z.to_nat (slen s - 1)) (line s) ++ [c]) as Et.
  { unfold text. replace (Z.to_nat (slen s)) with (S (Z.to_nat (slen s - 1))) by lia. by apply take_S_r. }
  assert (∀ l', text (emit (Print rubout) (set_line_len (<[Z.to_nat (slen s - 1) := 0]> l') (slen s - 1) s)) =
    take (Z.to_nat (slen s - 1)) l') as Et' by (intros l'; apply take_insert_ge; lia).
  rewrite Et, removelast_last. split.
  - split; cbn; unfold LINE_MAX; [by rewrite length_insert|lia| |done..].
    rewrite take_insert_ge by lia. intros x Hx. apply Ht. fold (text s). rewrite Et. by apply elem_of_app; left.
  - apply Et'.
  - done.
  - done.
  - exists [Print rubout]. split; [done|]. cbn [printed mbind list_bind]. rewrite (right_id_L [] (++)).
    rewrite Et. apply display_rubout.
Qed.

Lemma text_nil s : inv s → slen s = 0 ↔ text s = [].
Proof.
  intros Hinv. rewrite <-(length_text s Hinv). split; [|by intros ->]. intros H. apply nil_length_inv. lia.
Qed.

(** The loops that erase while a test on the last character holds. *)
Fixpoint drop_while (p : Z → bool) (l : list Z) : list Z :=
  match l with
  | [] => []
  | c :: l' => if p c then drop_while p l' else l
  end.
Definition rstrip_while (p : Z → bool) (l : list Z) : list Z := rev (drop_while p (rev l)).

Lemma rstrip_snoc p l c : rstrip_while p (l ++ [c]) = if p c then rstrip_while p l else l ++ [c].
Proof.
  unfold rstrip_while. rewrite rev_app_distr. cbn [rev app drop_while].
  destruct (p c); [done|]. cbn [rev]. by rewrite rev_involutive.
Qed.

(** The last character of the line. *)
Lemma last_spec s :
  inv s → slen s ≠ 0 → ∃ t c, text s = t ++ [c] ∧ aget (line s) (slen s - 1) = Some c.
Proof.
  intros Hinv Hne. pose proof (inv_line s Hinv). pose proof (inv_len s Hinv). unfold LINE_MAX in *.
  destruct (aget_Some (line s) (slen s - 1)) as [c Hc]; [lia|]. exists (take (Z.to_nat (slen s - 1)) (line s)), c.
  split; [|done]. unfold text. replace (Z.to_nat (slen s)) with (S (Z.to_nat (slen s - 1))) by lia.
  apply take_S_r. rewrite <-Hc. symmetry. apply aget_lookup. lia.
Qed.

(** A loop of [erase_last] with a test that is that of [rstrip_while]. *)
Lemma erase_while cond p s :
  inv s →
  (∀ s, inv s → slen s = 0 → cond s = false) →
  (∀ s t c, inv s → text s = t ++ [c] → aget (line s) (slen s - 1) = Some c → cond s = p c) →
  safe (while_up (Z.to_nat LINE_MAX) cond erase_last s) (edited (rstrip_while p (text s)) s).
Proof.
  intros Hinv H0 Hp.
  apply (safe_while (λ s', inv s' ∧ ∃ t, edited t s s' ∧ rstrip_while p t = rstrip_while p (text s)) _
    (λ s, Z.to_nat (slen s))).
  - intros s1 [Hi1 (t & Hed & Hr)] Hc.
    assert (slen s1 ≠ 0) as Hne by (intros Hz; by rewrite H0 in Hc).
    destruct (last_spec s1 Hi1 Hne) as (t1 & c & Et & Ec). pose proof (inv_len s1 Hi1).
    eapply safe_mono; [by apply erase_last_spec|]. intros s2 [Hed2 Hl2].
    split; [|lia]. split; [apply Hed2|]. exists t1. rewrite Et, removelast_last in Hed2.
    split; [by eapply edited_trans|]. rewrite <-Hr, <-(ed_text _ _ _ Hed), Et, rstrip_snoc.
    by rewrite <-(Hp s1 t1 c Hi1 Et Ec), Hc.
  - intros s1 [Hi1 (t & Hed & Hr)] Hc. rewrite <-Hr, <-(ed_text _ _ _ Hed).
    replace (rstrip_while p (text s1)) with (text s1); [by rewrite (ed_text _ _ _ Hed)|].
    destruct (decide (slen s1 = 0)) as [Hz|Hne]; [by rewrite (proj1 (text_nil s1 Hi1) Hz)|].
    destruct (last_spec s1 Hi1 Hne) as (t1 & c & Et & Ec). rewrite Et, rstrip_snoc.
    by rewrite <-(Hp s1 t1 c Hi1 Et Ec), Hc.
  - split; [done|]. exists (text s). split; [by apply edited_refl|done].
  - pose proof (inv_len s Hinv). lia.
Qed.

Lemma rstrip_true l : rstrip_while (λ _, true) l = [].
Proof. unfold rstrip_while. by induction (rev l). Qed.

Lemma clear_line_spec s : inv s → safe (clear_line s) (edited [] s).
Proof.
  intros Hinv. rewrite <-(rstrip_true (text s)). apply erase_while; [done| |].
  - intros s1 _ Hz. by rewrite Hz.
  - intros s1 t c Hi Et _. apply negb_true_iff, Z.eqb_neq. intros Hz%text_nil; [|done]. rewrite Hz in Et. by destruct t.
Qed.

Lemma erase_last_is p s :
  inv s → safe (while_up (Z.to_nat LINE_MAX) (last_is p) erase_last s) (edited (rstrip_while p (text s)) s).
Proof.
  intros Hinv. apply erase_while; [done| |]; intros s1; unfold last_is.
  - intros _ Hz. by rewrite Hz.
  - intros t c Hi Et Ec. rewrite Ec. destruct (Z.eqb_spec (slen s1) 0) as [Hz|]; [|done].
    apply text_nil in Hz; [|done]. rewrite Hz in Et. by destruct t.
Qed.

Lemma erase_word_spec s :
  inv s →
  safe (erase_word s) (edited (rstrip_while (λ c, negb (c =? 32)) (rstrip_while (λ c, c =? 32) (text s))) s).
Proof.
  intros Hinv. apply safe_bind. eapply safe_mono; [by apply erase_last_is|].
  intros s1 H1. eapply safe_mono; [apply erase_last_is, H1|].
  intros s2 H2. rewrite (ed_text _ _ _ H1) in H2. by eapply edited_trans.
Qed.

(** ** The editing keys *)

(** What a key of the editor makes of the text. *)
Definition edit_text (key : Z) (t : list Z) : list Z :=
  if key =? 8 then removelast t
  else if key =? 0x15 then []
  else if key =? 0x17 then rstrip_while (λ c, negb (c =? 32)) (rstrip_while (λ c, c =? 32) t)
  else if printable key && (len t <? LINE_MAX - 1) then t ++ [key]
  else t.

(** Appending a character. *)
Lemma append_spec s key l :
  inv s → slen s < LINE_MAX - 1 → 32 ≤ key ≤ 126 →
  len l = LINE_MAX → take (S (Z.to_nat (slen s))) l = text s ++ [key] →
  edited (text s ++ [key]) s (putc key (set_line_len l (slen s + 1) s)).
Proof.
  intros Hinv Hlt Hkey Hl Ht. pose proof Hinv as [Hl0 Hn Ht0 Hh Hhs Hc].
  assert (text (putc key (set_line_len l (slen s + 1) s)) = text s ++ [key]) as Et.
  { rewrite <-Ht. unfold text. cbn. f_equal. lia. }
  split; [split; cbn; [done|lia| |done..]|done|done|done|].
  - unfold text in Et. cbn in Et. rewrite Et. intros c. rewrite elem_of_app, list_elem_of_singleton.
    intros [?| ->]; [by apply Ht0|done].
  - exists [Print [key]]. split; [done|]. cbn. by rewrite (proj2 (Z.eqb_neq key 8)) by lia.
Qed.

Lemma printable_range key : printable key = true → 32 ≤ key ≤ 126.
Proof.
  unfold printable. rewrite !orb_true_iff, !andb_true_iff, Z.eqb_eq, !Z.leb_le. lia.
Qed.

(** The editing keys do to the text what [edit_text] says, and the screen shows
    the text. *)
Theorem edit_line_spec key s : inv s → safe (edit_line key s) (edited (edit_text key (text s)) s).
Proof.
  intros Hinv. pose proof (length_text s Hinv) as Hlt. unfold edit_line, edit_text.
  destruct (Z.eqb_spec key 8).
  { destruct (Z.eqb_spec (slen s) 0) as [Hz|].
    - pose proof (proj1 (text_nil s Hinv) Hz) as Et. rewrite Et. cbn [safe removelast]. rewrite <-Et. by apply edited_refl.
    - eapply safe_mono; [by apply erase_last_spec|]. by intros s' [? _]. }
  destruct (key =? 0x15); [by apply clear_line_spec|]. destruct (key =? 0x17); [by apply erase_word_spec|].
  destruct (printable key) eqn:Hp; [|by apply edited_refl]. cbn [andb]. rewrite Hlt.
  destruct (Z.ltb_spec (slen s) (LINE_MAX - 1)) as [Hlen|]; [|by apply edited_refl].
  pose proof Hinv as [Hl Hn Ht Hh Hhs Hc]. unfold LINE_MAX in *. rewrite aset_Some by lia. cbn [mbind option_bind].
  rewrite aset_Some by (rewrite length_insert; lia). cbn [mbind option_bind safe].
  apply append_spec; [done|done| |by rewrite !length_insert|].
  - by apply printable_range.
  - rewrite take_insert_ge, take_insert_eq by lia. done.
Qed.

(** ** The words of a line *)

Fixpoint take_while (p : Z → bool) (l : list Z) : list Z :=
  match l with
  | [] => []
  | c :: l => if p c then c :: take_while p l else []
  end.

Definition blank (c : Z) : bool := c =? 32.
Definition solid (c : Z) : bool := negb (c =? 32).

(** The blanks before the first word, the word, and the text behind the blanks
    that follow it. *)
Definition leading (t : list Z) : list Z := take_while blank t.
Definition first_word (t : list Z) : list Z := take_while solid (drop_while blank t).
Definition rest_of (t : list Z) : list Z := drop_while blank (drop_while solid (drop_while blank t)).

Lemma take_drop_while p l : take_while p l ++ drop_while p l = l.
Proof. induction l as [|c l IH]; cbn; [done|]. destruct (p c); [|done]. cbn. by rewrite IH. Qed.

Lemma drop_while_stop p t r : p 0 = false → drop_while p (t ++ 0 :: r) = drop_while p t ++ 0 :: r.
Proof. intros H0. induction t as [|c t IH]; cbn; [by rewrite H0|]. by destruct (p c). Qed.

Lemma take_while_stop p t r : p 0 = false → take_while p (t ++ 0 :: r) = take_while p t.
Proof. intros H0. induction t as [|c t IH]; cbn; [by rewrite H0|]. destruct (p c); [by rewrite IH|done]. Qed.

Lemma take_while_ext p q l : (∀ c, c ∈ l → p c = q c) → take_while p l = take_while q l.
Proof.
  induction l as [|c l IH]; intros H; cbn; [done|]. rewrite H by apply list_elem_of_here. case_match; [|done].
  f_equal. apply IH. intros x ?. apply H. by apply list_elem_of_further.
Qed.

Lemma drop_while_first p l : match drop_while p l with [] => True | c :: _ => p c = false end.
Proof. induction l as [|c l IH]; cbn; [done|]. by destruct (p c) eqn:E. Qed.

Lemma not_in_drop_while c p l : c ∉ l → c ∉ drop_while p l.
Proof. rewrite <-(take_drop_while p l) at 1. rewrite not_elem_of_app. tauto. Qed.
Lemma not_in_take_while c p l : c ∉ l → c ∉ take_while p l.
Proof. rewrite <-(take_drop_while p l) at 1. rewrite not_elem_of_app. tauto. Qed.

(** The pointer stops behind the characters that satisfy the test. *)
Lemma skip_while_spec l p pre rest :
  l = pre ++ rest → len l = LINE_MAX → drop_while p rest ≠ [] →
  skip_while l p (len pre) = Some (len pre + len (take_while p rest)).
Proof.
  intros El Hl Hd. assert (safe (skip_while l p (len pre)) (λ q, q = len pre + len (take_while p rest))) as Hs;
    [|by destruct (skip_while _ _ _); [rewrite Hs|]].
  assert (length pre + length rest = 128)%nat as Hlen by (subst l; unfold LINE_MAX in Hl; list_lia).
  apply (safe_while (λ q, ∃ mid rest', rest = mid ++ rest' ∧ q = len pre + len mid ∧ drop_while p rest' ≠ [] ∧
    len mid + len (take_while p rest') = len (take_while p rest)) _ (λ q, Z.to_nat (128 - q))).
  - intros q (mid & rest' & -> & -> & Hd' & Hlen') Hc. cbn [safe].
    assert (aget l (len pre + len mid) = head rest') as Hg.
    { rewrite aget_lookup by lia. subst l. rewrite (assoc_L (++)), lookup_app_r by (rewrite length_app; lia).
      rewrite length_app. replace (Z.to_nat (len pre + len mid) - (length pre + length mid))%nat with O by lia.
      by destruct rest'. }
    rewrite Hg in Hc. destruct rest' as [|c rest']; [done|]. cbn [head] in Hc. cbn [drop_while take_while] in *.
    rewrite Hc in *. rewrite length_app in Hlen. cbn [length] in *. split; [|lia].
    exists (mid ++ [c]), rest'. rewrite <-(assoc_L (++)). rewrite length_app. cbn [length].
    split; [done|]. split; [lia|]. split; [done|]. lia.
  - intros q (mid & rest' & -> & -> & Hd' & Hlen') Hc.
    assert (aget l (len pre + len mid) = head rest') as Hg.
    { rewrite aget_lookup by lia. subst l. rewrite (assoc_L (++)), lookup_app_r by (rewrite length_app; lia).
      rewrite length_app. replace (Z.to_nat (len pre + len mid) - (length pre + length mid))%nat with O by lia.
      by destruct rest'. }
    rewrite Hg in Hc. destruct rest' as [|c rest']; [done|]. cbn [head] in Hc. cbn [take_while] in Hlen'.
    rewrite Hc in Hlen'. cbn [length] in Hlen'. lia.
  - exists [], rest. split; [done|]. split; [cbn; lia|]. split; [done|]. cbn. lia.
  - unfold LINE_MAX. lia.
Qed.

(** The character a pointer behind [pre] points at. *)
Lemma aget_behind (pre rest : list Z) : aget (pre ++ rest) (len pre) = head rest.
Proof.
  rewrite aget_lookup by lia. rewrite Nat2Z.id, lookup_app_r, Nat.sub_diag by done. by destruct rest.
Qed.

(** The string behind a pointer. *)
Lemma str_behind (pre s r : list Z) :
  (0 ∉ s) → str_at (drop (Z.to_nat (len pre)) (pre ++ s ++ 0 :: r)) = Some s.
Proof. intros. rewrite Nat2Z.id, drop_app_length. by apply str_at_c_str. Qed.

Lemma split_line_spec t r :
  (0 ∉ t) → len (t ++ 0 :: r) = LINE_MAX →
  safe (split_line (t ++ 0 :: r)) (λ res, let '(l, ci, ai) := res in
    len l = LINE_MAX ∧ str_at (drop (Z.to_nat ci) l) = Some (first_word t) ∧
    str_at (drop (Z.to_nat ai) l) = Some (rest_of t) ∧ str_at l = Some (leading t ++ first_word t) ∧
    (first_word t = [] → l = t ++ 0 :: r)).
Proof.
  intros Ht Hl. set (l := t ++ 0 :: r) in *. unfold rest_of. set (t1 := drop_while blank t).
  set (t2 := drop_while solid t1). set (w := first_word t). set (ld := leading t).
  assert (w ++ t2 = t1) as E1 by apply take_drop_while.
  assert (t = ld ++ w ++ t2) as Et by (rewrite E1; symmetry; apply take_drop_while).
  assert ((0 ∉ w) ∧ (0 ∉ t2) ∧ (0 ∉ ld)) as (Hw0 & Ht2 & Hl0).
  { rewrite Et in Ht. rewrite !not_elem_of_app in Ht. tauto. }
  assert (l = ld ++ w ++ t2 ++ 0 :: r) as El by (unfold l; rewrite Et at 1; by rewrite <-!(assoc_L (++))).
  unfold split_line. change (skip_while l (λ c, c =? 32) 0) with (skip_while l blank (len (@nil Z))).
  rewrite (skip_while_spec l blank [] l); [|done|done|unfold l; rewrite drop_while_stop by done; by intros [_ ?]%app_nil].
  replace (take_while blank l) with ld by (unfold l; by rewrite take_while_stop). cbn [mbind option_bind length].
  rewrite Z.add_0_l. set (solid0 := λ c, negb (c =? 0) && negb (c =? 32)).
  assert (take_while solid0 (t1 ++ 0 :: r) = w) as Htw.
  { rewrite take_while_stop by done. apply take_while_ext. intros c Hc. unfold solid0.
    rewrite (proj2 (Z.eqb_neq c 0)); [done|]. intros ->. by apply (not_in_drop_while 0 blank t Ht). }
  rewrite (skip_while_spec l solid0 ld (t1 ++ 0 :: r));
    [|by rewrite El, <-E1, <-(assoc_L (++))|done|rewrite drop_while_stop by done; by intros [_ ?]%app_nil].
  rewrite Htw. cbn [mbind option_bind].
  assert (len ld + len w = len (ld ++ w)) as Eq by (rewrite length_app; lia). rewrite Eq.
  assert (l = (ld ++ w) ++ t2 ++ 0 :: r) as El2 by (by rewrite <-(assoc_L (++))).
  rewrite El2, aget_behind. pose proof (drop_while_first solid t1) as Hfst. fold t2 in Hfst.
  destruct t2 as [|x t2']; cbn [app head mbind option_bind].
  - cbn [safe Z.eqb negb]. rewrite El2 in Hl. cbn [app] in *. split; [done|].
    rewrite <-(assoc_L (++)). split; [by apply str_behind|]. split.
    + rewrite (assoc_L (++)). by apply (str_behind (ld ++ w) []).
    + split; [|done]. rewrite (assoc_L (++)). apply str_at_c_str. by apply not_elem_of_app.
  - unfold solid in Hfst. apply negb_false_iff, Z.eqb_eq in Hfst as ->. cbn [Z.eqb Pos.eqb negb].
    rewrite El2 in Hl. rewrite aset_Some by (rewrite !length_app; cbn [length app]; lia). cbn [mbind option_bind].
    rewrite Nat2Z.id, insert_app_r_alt, Nat.sub_diag by done. cbn [app insert list_insert].
    set (l' := (ld ++ w) ++ 0 :: t2' ++ 0 :: r).
    assert (len l' = LINE_MAX) as Hl' by (rewrite <-Hl; unfold l'; rewrite !length_app; cbn [length]; rewrite ?length_app; cbn [length]; lia).
    assert (l' = ((ld ++ w) ++ [0]) ++ t2' ++ 0 :: r) as El' by (unfold l'; by rewrite <-(assoc_L (++) (ld ++ w))).
    assert (len (ld ++ w) + 1 = len ((ld ++ w) ++ [0])) as -> by (rewrite (length_app (ld ++ w)); cbn; lia).
    change (skip_while l' (λ c, c =? 32)) with (skip_while l' blank).
    rewrite (skip_while_spec l' blank _ (t2' ++ 0 :: r));
      [|done|done|rewrite drop_while_stop by done; by intros [_ ?]%app_nil].
    rewrite take_while_stop by done. cbn [mbind option_bind safe]. split; [done|].
    split; [unfold l'; rewrite <-(assoc_L (++)); by apply str_behind|]. split; [|split].
    + assert (len ((ld ++ w) ++ [0]) + len (take_while blank t2') =
        len (((ld ++ w) ++ [0]) ++ take_while blank t2')) as -> by (rewrite (length_app ((ld ++ w) ++ [0])); lia).
      replace l' with ((((ld ++ w) ++ [0]) ++ take_while blank t2') ++ drop_while blank t2' ++ 0 :: r)
        by (rewrite <-(assoc_L (++) _ (take_while blank t2')), (assoc_L (++) (take_while blank t2')), take_drop_while;
          by rewrite El').
      rewrite str_behind; [done|].
      apply not_in_drop_while. rewrite not_elem_of_cons in Ht2. tauto.
    + unfold l'. apply str_at_c_str. by apply not_elem_of_app.
    + intros Ew. exfalso. pose proof (drop_while_first blank t) as Hb. fold t1 in Hb. rewrite <-E1, Ew in Hb. done.
Qed.

(** ** The history *)

(** The text of entry [i], and the texts of the history, the oldest first. *)
Definition hist_text (s : shell) (i : Z) : list Z := default [] (hist_line s i ≫= str_at).
Definition hist_texts (s : shell) : list (list Z) := hist_text s <$> range (hist_first s) (hist_count s).

Lemma hist_first_range s : 0 ≤ hist_count s → 0 ≤ hist_first s ≤ hist_count s ∧ hist_count s - hist_first s ≤ 16.
Proof. unfold hist_first, HIST_MAX. case_bool; lia. Qed.

Lemma hist_line_ok s i :
  len (hist s) = HIST_MAX → (∀ h, h ∈ hist s → line_ok h) →
  ∃ h, hist_line s i = Some h ∧ line_ok h ∧ str_at h = Some (hist_text s i) ∧ plain (hist_text s i).
Proof.
  intros Hl Hh. unfold hist_text, hist_line. pose proof (Z.mod_pos_bound i HIST_MAX eq_refl).
  destruct (aget_Some (hist s) (i mod HIST_MAX)) as [h E]; [lia|]. rewrite E. cbn [mbind option_bind].
  pose proof (Hh h (aget_elem _ _ _ E)) as Hok. pose proof Hok as (_ & w & Ew & Hp). exists h. by rewrite Ew.
Qed.

(** A line with the string [w] and [n] characters behind which there is a zero. *)
Record entered (s : shell) (w : list Z) : Prop := {
  en_line : len (line s) = LINE_MAX;
  en_len : 0 < slen s < LINE_MAX;
  en_zero : line s !! Z.to_nat (slen s) = Some 0;
  en_str : str_at (line s) = Some w;
  en_plain : plain w;
}.

Lemma copy_line s w h :
  entered s w → len h = LINE_MAX →
  ∃ h', copy_over h (line s) (slen s + 1) = Some h' ∧ len h' = LINE_MAX ∧ str_at h' = Some w.
Proof.
  intros [Hl Hn Hz Hs Hp] Hh. unfold copy_over, LINE_MAX in *. rw_bool. eexists. split; [done|].
  destruct (str_at_inv _ _ Hs) as (H0 & r & El).
  assert (length w ≤ Z.to_nat (slen s))%nat as Hw.
  { apply Nat.nlt_ge. intros Hlt. rewrite El, lookup_app_l in Hz by done. by apply list_elem_of_lookup_2 in Hz. }
  split; [list_lia|]. rewrite El, firstn_app, take_ge by lia.
  replace (Z.to_nat (slen s + 1) - length w)%nat with (S (Z.to_nat (slen s) - length w)) by lia.
  cbn [take]. rewrite <-(assoc_L (++)). by apply str_at_c_str.
Qed.

(** Entries before the new one keep their text. *)
Lemma hist_text_after s h i :
  len (hist s) = HIST_MAX → 0 ≤ i < hist_count s → hist_count s - i < 16 →
  ∀ s', hist s' = <[Z.to_nat (hist_count s mod HIST_MAX) := h]> (hist s) → hist_text s' i = hist_text s i.
Proof.
  intros Hl Hi Hd s' E. unfold hist_text, hist_line. rewrite E. unfold HIST_MAX in *.
  pose proof (Z.mod_pos_bound (hist_count s) 16 eq_refl). pose proof (Z.mod_pos_bound i 16 eq_refl).
  rewrite aget_insert by lia. destruct (Z.eqb_spec (i mod 16) (hist_count s mod 16)) as [Em|]; [|done].
  exfalso. pose proof (Z.div_mod i 16 ltac:(lia)). pose proof (Z.div_mod (hist_count s) 16 ltac:(lia)). lia.
Qed.

(** The loop that looks for the line in the history. *)
Lemma find_dup s w :
  entered s w → len (hist s) = HIST_MAX → (∀ h, h ∈ hist s → line_ok h) → 0 ≤ hist_count s →
  for_up (hist_first s) (hist_count s)
    (λ i (_ : bool),
      h ← hist_line s i; a ← str_at h; c ← str_at (line s);
      Some (if bool_decide (a = c) then Break true else Next false)) false =
    Some (bool_decide (w ∈ hist_texts s)).
Proof.
  intros Hen Hl Hh Hc. pose proof (hist_first_range s Hc) as Hf. set (loop := for_up _ _ _ _).
  assert (safe loop (λ b, b = bool_decide (w ∈ hist_texts s))) as Hs; [|by destruct loop; [rewrite Hs|]].
  apply (safe_for_up (λ i b, b = false ∧ w ∉ hist_text s <$> range (hist_first s) i)); [lia| | |].
  - intros i b Hi [-> Hno]. destruct (hist_line_ok s i Hl Hh) as (h & -> & _ & Eh & _).
    cbn [mbind option_bind]. rewrite Eh. cbn [mbind option_bind]. rewrite (en_str s w Hen).
    cbn [mbind option_bind]. case_bool_decide as Ht; cbn [safe step_to].
    + symmetry. apply bool_decide_eq_true. rewrite <-Ht. apply list_elem_of_fmap_2. apply elem_of_range. lia.
    + split; [done|]. intros (j & -> & Hj)%list_elem_of_fmap. apply elem_of_range in Hj.
      destruct (Z.eq_dec j i) as [->|]; [done|]. apply Hno. apply list_elem_of_fmap_2. apply elem_of_range. lia.
  - intros b [-> Hno]. symmetry. by apply bool_decide_eq_false.
  - split; [done|]. unfold range. rewrite Z.sub_diag. by intros ?%elem_of_nil.
Qed.

(** A line is remembered up to its first word, unless the history has it; the
    history keeps the last 16. *)
Theorem push_history_spec s w :
  entered s w → len (hist s) = HIST_MAX → (∀ h, h ∈ hist s → line_ok h) → 0 ≤ hist_count s < 2 ^ 32 - 1 →
  safe (push_history s) (λ s',
    line s' = line s ∧ slen s' = 0 ∧ hist_at s' = hist_at s ∧ keys_mode s' = keys_mode s ∧ events s' = events s ∧
    len (hist s') = HIST_MAX ∧ (∀ h, h ∈ hist s' → line_ok h) ∧
    if bool_decide (w ∈ hist_texts s) then hist s' = hist s ∧ hist_count s' = hist_count s
    else hist_count s' = hist_count s + 1 ∧
      hist_texts s' = drop (length (hist_texts s) - 15) (hist_texts s) ++ [w]).
Proof.
  intros Hen Hl Hh Hc. pose proof (en_len s w Hen). unfold push_history.
  rewrite (proj2 (Z.eqb_neq (slen s) 0)) by lia. rewrite (find_dup s w) by (done || lia). cbn [mbind option_bind].
  destruct (bool_decide (w ∈ hist_texts s)); [by cbn [safe]|].
  destruct (hist_line_ok s (hist_count s) Hl Hh) as (h & -> & [Hlen _] & _). cbn [mbind option_bind].
  destruct (copy_line s w h Hen Hlen) as (h' & -> & Hl' & Es'). cbn [mbind option_bind].
  pose proof (Z.mod_pos_bound (hist_count s) HIST_MAX eq_refl). rewrite aset_Some by lia. cbn [mbind option_bind safe].
  rewrite (u32_small (hist_count s + 1)) by lia. set (s' := Shell _ _ _ _ _ _ _).
  split; [done|]. split; [done|]. split; [done|]. split; [done|]. split; [done|].
  split; [by cbn; rewrite length_insert|]. split.
  { intros x [->|Hx]%elem_of_insert_inv; [|by apply Hh]. split; [done|]. exists w. split; [done|apply Hen]. }
  split; [done|]. pose proof (hist_first_range s ltac:(lia)).
  assert (hist_first s' = Z.max 0 (hist_count s - 15)) as Ef.
  { unfold hist_first, HIST_MAX, s'. cbn [hist_count]. case_bool; lia. }
  unfold hist_texts. rewrite Ef. change (hist_count s') with (hist_count s + 1).
  rewrite length_fmap, range_length, (range_split _ (hist_count s)), range_single, fmap_app by lia. f_equal.
  - rewrite <-fmap_drop.
    replace (Z.to_nat (hist_count s - hist_first s) - 15)%nat
      with (Z.to_nat (Z.max 0 (hist_count s - 15) - hist_first s)) by (unfold hist_first, HIST_MAX in *; case_bool; lia).
    rewrite drop_range by (unfold hist_first, HIST_MAX in *; case_bool; lia). rewrite Zplus_minus.
    apply list_fmap_ext. intros j i Hi%list_elem_of_lookup_2%elem_of_range.
    apply (hist_text_after s h'); [done|lia|lia|done].
  - cbn [fmap list_fmap]. f_equal. unfold hist_text, hist_line. cbn [hist s'].
    rewrite aget_insert, Z.eqb_refl by lia. cbn [mbind option_bind]. by rewrite Es'.
Qed.

(** *** Recalling *)

Lemma display_plain d w : plain w → display d w = d ++ w.
Proof.
  revert d. induction w as [|c w IH]; intros d Hw; [by rewrite (right_id_L [] (++))|].
  pose proof (Hw c ltac:(apply list_elem_of_here)). change (display d (c :: w)) with
    (display (if c =? 8 then removelast d else d ++ [c]) w). rewrite (proj2 (Z.eqb_neq c 8)) by lia.
  rewrite IH by (intros x ?; apply Hw; by apply list_elem_of_further). by rewrite <-(assoc_L (++)).
Qed.

Lemma printed_chars w : printed ((λ c, Print [c]) <$> w) = w.
Proof. unfold printed. induction w as [|c w IH]; [done|]. cbn. by rewrite IH. Qed.

Lemma set_line_spec s h w :
  inv s → text s = [] → len h = LINE_MAX → str_at h = Some w → plain w →
  safe (set_line h s) (edited w s).
Proof.
  intros Hinv Et Hh Eh Hp. pose proof Hinv as [Hl Hn Ht Hhl Hhs Hc].
  destruct (str_at_inv _ _ Eh) as (H0 & r & E). unfold LINE_MAX in *.
  assert (len w < 128) as Hw by (subst h; list_lia). unfold set_line. apply safe_bind.
  set (Inv := λ (k : Z) (st : list Z * Z * list event), let '(l, i, evs) := st in
    i = k ∧ k ≤ len w ∧ len l = 128 ∧ take (Z.to_nat k) l = take (Z.to_nat k) w ∧
    evs = events s ++ ((λ c, Print [c]) <$> take (Z.to_nat k) w)).
  apply (safe_for_up Inv _ 0 127); [lia| | |].
  - intros k [[l i] evs] Hk (-> & Hkw & Hll & Htk & Hev).
    destruct (Z.eq_dec k (len w)) as [->|Hne].
    + rewrite E, aget_behind. cbn [head mbind option_bind Z.eqb safe step_to].
      rewrite aset_Some by lia. cbn [mbind option_bind safe]. rewrite Nat2Z.id in Htk, Hev.
      rewrite firstn_all in Htk, Hev. subst evs.
      assert (text (Shell (<[Z.to_nat (len w) := 0]> l) (len w) (hist_at s) (hist s) (hist_count s) (keys_mode s)
        (events s ++ ((λ c, Print [c]) <$> w))) = w) as Etx.
      { unfold text. cbn [slen line]. by rewrite Nat2Z.id, take_insert_ge, Htk by lia. }
      split; [split; cbn; unfold LINE_MAX; [by rewrite length_insert|lia| |done..]|exact Etx|done|done|].
      * unfold text in Etx. cbn [slen line] in Etx. by rewrite Etx.
      * exists ((λ c, Print [c]) <$> w). split; [done|]. by rewrite printed_chars, Et, display_plain.
    + destruct (lookup_lt_is_Some_2 w (Z.to_nat k)) as [c Hc']; [lia|].
      assert (aget h k = Some c) as -> by (rewrite aget_lookup, E, lookup_app_l by lia; done).
      assert (c ≠ 0) as Hc0 by (intros ->; by apply list_elem_of_lookup_2 in Hc').
      cbn [mbind option_bind]. rewrite (proj2 (Z.eqb_neq c 0)) by done. rewrite aset_Some by lia.
      cbn [mbind option_bind safe step_to]. unfold Inv. rewrite length_insert.
      replace (Z.to_nat (k + 1)) with (S (Z.to_nat k)) by lia. rewrite take_insert_eq, Htk by lia.
      rewrite (take_S_r w _ c Hc'). split; [done|]. split; [lia|]. split; [done|]. split; [done|].
      by rewrite fmap_app, Hev, <-(assoc_L (++)).
  - intros [[l i] evs] (-> & Hkw & Hll & Htk & Hev). rewrite aset_Some by lia. cbn [mbind option_bind safe].
    assert (len w = 127) as Hw' by lia. change (Z.to_nat 127) with 127%nat in *.
    rewrite (take_ge w) in Htk, Hev by lia. subst evs.
    assert (text (Shell (<[127%nat := 0]> l) 127 (hist_at s) (hist s) (hist_count s) (keys_mode s)
      (events s ++ ((λ c, Print [c]) <$> w))) = w) as Etx.
    { unfold text. cbn [slen line]. change (Z.to_nat 127) with 127%nat. by rewrite take_insert_ge, Htk by lia. }
    split; [split; cbn [line slen hist hist_count]; unfold LINE_MAX; [by rewrite length_insert|lia| |done..]|exact Etx|done|done|].
    + unfold text in Etx. cbn [slen line] in Etx. by rewrite Etx.
    + exists ((λ c, Print [c]) <$> w). split; [done|]. by rewrite printed_chars, Et, display_plain.
  - cbn. split; [done|]. split; [lia|]. split; [done|]. by rewrite app_nil_r.
Qed.

(** The walk to the entry [hist_at] points at. *)
Lemma walk_spec s first :
  inv s →
  safe (s1 ← clear_line s;
        if hist_count s1 <=? hist_at s1 then Some s1
        else h ← hist_line s1 (u32 (hist_at s1 - first)); set_line h s1)
    (edited (if hist_count s <=? hist_at s then [] else hist_text s (u32 (hist_at s - first))) s).
Proof.
  intros Hinv. apply safe_bind. eapply safe_mono; [by apply clear_line_spec|]. intros s1 H1.
  destruct (ed_hist _ _ _ H1) as (Eh & Ec & _). rewrite Ec, (ed_at _ _ _ H1).
  destruct (hist_count s <=? hist_at s); [done|]. pose proof (ed_inv _ _ _ H1) as Hi1. set (i := u32 _).
  destruct (hist_line_ok s1 i) as (h & E & [Hl _] & Es & Hp); [apply Hi1|apply Hi1|].
  rewrite E. cbn [mbind option_bind].
  assert (hist_text s1 i = hist_text s i) as <- by (unfold hist_text, hist_line; by rewrite Eh).
  eapply safe_mono; [apply (set_line_spec s1 h); [done|apply H1|done..]|]. intros s2 H2. by eapply edited_trans.
Qed.

(** The up key shows the entry before the one shown, as long as the history is not
    full: the entry is looked up from the beginning of the array, where the oldest
    one only stands until then. *)
Theorem recall_spec s :
  inv s → hist_count s ≤ HIST_MAX → 0 < hist_at s ≤ hist_count s →
  safe (recall (-1) s) (λ s', hist_at s' = hist_at s - 1 ∧ inv s' ∧
    Some (text s') = hist_texts s !! Z.to_nat (hist_at s - 1) ∧
    ∃ evs, events s' = events s ++ evs ∧ display (text s) (printed evs) = text s').
Proof.
  intros Hinv Hc Ha. pose proof (inv_count s Hinv). unfold HIST_MAX in *.
  assert (hist_first s = 0) as Ef by (unfold hist_first, HIST_MAX; by rw_bool).
  unfold recall. rewrite Ef. cbv zeta. change (-1 <? 0) with true. rw_bool. rewrite u32_small by lia.
  set (s0 := set_hist_at (hist_at s - 1) s). eapply safe_mono; [apply walk_spec; unfold s0; auto|].
  intros s' [Hi Ht _ Hat (evs & Ee & Ed)]. cbn [hist_at hist_count set_hist_at s0] in *. rewrite Z.sub_0_r in *.
  rewrite (u32_small (hist_at s - 1)) in Ht, Ed by lia. assert ((hist_count s <=? hist_at s - 1) = false) as Eb by by_bool.
  rewrite Eb in Ht, Ed. split; [done|]. split; [done|]. split.
  - rewrite Ht. unfold hist_texts. rewrite Ef, list_lookup_fmap. unfold range.
    rewrite lookup_seqZ_lt by lia. cbn [fmap option_fmap option_map]. do 2 f_equal. lia.
  - exists evs. rewrite Ht. split; [done|exact Ed].
Qed.

(** ** Completion *)

Fixpoint lcp (a c : list Z) : list Z :=
  match a, c with
  | x :: a, y :: c => if x =? y then x :: lcp a c else []
  | _, _ => []
  end.

(** [t] is the beginning of [n], and [n] goes on. *)
Definition begins (t n : list Z) : bool :=
  bool_decide (take (length t) n = t) && (len t <? len n).

Definition names : list (list Z) := (λ c, chars c.1) <$> cmds.
Definition completions (t : list Z) : list (list Z) := List.filter (begins t) names.

(** What the tab key makes of the text: the one command it can be and a blank, or
    what all of them begin with. *)
Definition complete_text (t : list Z) : list Z :=
  match completions t with
  | [] => t
  | [n] => n ++ [32]
  | n :: ns => fold_left lcp ns n
  end.

Lemma names_plain n : n ∈ names → plain n ∧ len n ≤ 7 ∧ n ≠ [].
Proof.
  intros Hn. assert (Forall (λ n, Forall (λ c, 32 ≤ c ≤ 126) n ∧ len n ≤ 7 ∧ n ≠ []) names) as H.
  { apply (bool_decide_unpack _). by vm_compute. }
  rewrite list.Forall_forall in H. destruct (H n Hn) as (Hp & ? & ?). split; [|done].
  intros c Hc. rewrite list.Forall_forall in Hp. by apply Hp.
Qed.

Lemma plain_no_zero l : plain l → 0 ∉ l.
Proof. intros H H0. specialize (H 0 H0). lia. Qed.

Lemma name_prefix_spec n a k :
  (0 ∉ n) → (0 ∉ take (Z.to_nat k) a) → 0 ≤ k ≤ len a →
  name_prefix (n ++ [0]) a k = Some (begins (take (Z.to_nat k) a) n).
Proof.
  intros Hn Ha Hk. set (t := take (Z.to_nat k) a) in *. assert (len t = k) as Hlt by (unfold t; list_lia).
  unfold name_prefix, begins. set (loop := for_up _ _ _ _).
  assert (safe loop (λ b, b = bool_decide (take (length t) n = t))) as Hs.
  { apply (safe_for_up (λ i b, b = true ∧ i ≤ len n ∧ take (Z.to_nat i) n = take (Z.to_nat i) t)); [lia| | |].
    - intros i b Hi (-> & Hin & Htk). destruct (lookup_lt_is_Some_2 t (Z.to_nat i)) as [x Hx]; [lia|].
      assert (x ≠ 0) as Hx0 by (intros ->; by apply list_elem_of_lookup_2 in Hx).
      assert (aget a i = Some x) as ->.
      { rewrite aget_lookup by lia. unfold t in Hx. apply lookup_take_Some in Hx. tauto. }
      destruct (aget_Some (n ++ [0]) i) as [y Hy]; [rewrite length_app; cbn; lia|]. rewrite Hy.
      cbn [mbind option_bind]. rewrite aget_lookup in Hy by lia.
      assert (∀ z, n !! Z.to_nat i = Some z → y = z) as Hyn.
      { intros z Hz. rewrite lookup_app_l in Hy by (by apply lookup_lt_Some in Hz). congruence. }
      destruct (Z.eqb_spec y x) as [->|Hne]; cbn [safe step_to].
      + destruct (Z.eq_dec i (len n)) as [->|].
        { rewrite Nat2Z.id, lookup_app_r, Nat.sub_diag in Hy by lia. by injection Hy as <-. }
        destruct (lookup_lt_is_Some_2 n (Z.to_nat i)) as [z Hz]; [lia|]. pose proof (Hyn z Hz) as <-.
        split; [done|]. split; [lia|]. replace (Z.to_nat (i + 1)) with (S (Z.to_nat i)) by lia.
        by rewrite (take_S_r n _ x), (take_S_r t _ x), Htk.
      + symmetry. apply bool_decide_eq_false. intros E.
        assert (n !! Z.to_nat i = Some x) as Hz; [|by rewrite (Hyn x Hz) in Hne].
        rewrite <-E in Hx. apply lookup_take_Some in Hx. tauto.
    - intros b (-> & Hin & Htk). symmetry. apply bool_decide_eq_true.
      rewrite <-Hlt, Nat2Z.id in Htk. by rewrite Htk, firstn_all.
    - split; [done|]. split; [lia|done]. }
  destruct loop as [b|]; [|done]. cbn [safe] in Hs. subst b. cbn [mbind option_bind].
  case_bool_decide as E; [|done]. cbn [andb].
  assert (k ≤ len n). { rewrite <-E in Hlt. rewrite length_take in Hlt. lia. }
  destruct (Z.eq_dec k (len n)) as [->|].
  - rewrite aget_behind. cbn [head mbind option_bind]. by rw_bool.
  - destruct (lookup_lt_is_Some_2 n (Z.to_nat k)) as [x Hx]; [lia|].
    rewrite aget_lookup, lookup_app_l, Hx by lia. cbn [mbind option_bind].
    assert (x ≠ 0) by (intros ->; by apply list_elem_of_lookup_2 in Hx). by rw_bool.
Qed.

Lemma lcp_length a c : (length (lcp a c) ≤ length a)%nat.
Proof. revert c. induction a as [|x a IH]; intros [|y c]; cbn; try lia. case_match; cbn; [|lia]. specialize (IH c). lia. Qed.

Lemma lcp_take a c : take (length (lcp a c)) a = lcp a c.
Proof. revert c. induction a as [|x a IH]; intros [|y c]; cbn; try done. case_match; cbn; [by rewrite IH|done]. Qed.

(** The pointer walks over the common beginning. *)
Lemma common_spec p n r :
  (0 ∉ p) → (0 ∉ n) → len p ≤ 127 → common (p ++ 0 :: r) (n ++ [0]) = Some (len (lcp p n)).
Proof.
  intros Hp Hn Hl. assert (safe (common (p ++ 0 :: r) (n ++ [0])) (λ k, k = len (lcp p n))) as Hs;
    [|by destruct (common _ _); [rewrite Hs|]].
  assert (∀ q p' n', p = q ++ p' → n = q ++ n' →
    aget (p ++ 0 :: r) (len q) = head (p' ++ 0 :: r) ∧ aget (n ++ [0]) (len q) = head (n' ++ [0])) as Hg.
  { intros q p' n' -> ->. rewrite <-!(assoc_L (++)), !aget_behind. done. }
  apply (safe_while (λ k, ∃ q p' n', p = q ++ p' ∧ n = q ++ n' ∧ k = len q ∧ len q + len (lcp p' n') = len (lcp p n)) _
    (λ k, Z.to_nat (128 - k))).
  - intros k (q & p' & n' & Ep & En & -> & Hlen) Hc. destruct (Hg q p' n' Ep En) as [G1 G2]. rewrite G1, G2 in Hc.
    destruct p' as [|x p'], n' as [|y n']; cbn [app head] in Hc; try done.
    { apply andb_true_iff in Hc as [? Hc%Z.eqb_eq]. subst x. done. }
    apply andb_true_iff in Hc as [_ Hc]. cbn [lcp] in Hlen. rewrite Hc in Hlen. apply Z.eqb_eq in Hc as <-.
    cbn [safe]. assert (len p = len q + len (x :: p')) by (rewrite Ep, length_app; lia). cbn [length] in *. split; [|lia].
    exists (q ++ [x]), p', n'. rewrite <-!(assoc_L (++)), length_app. cbn [length]. split; [done|].
    split; [done|]. split; lia.
  - intros k (q & p' & n' & Ep & En & -> & Hlen) Hc. destruct (Hg q p' n' Ep En) as [G1 G2]. rewrite G1, G2 in Hc.
    destruct p' as [|x p'], n' as [|y n']; cbn [app head lcp length] in *; try lia.
    destruct (Z.eqb_spec x y) as [->|]; [|cbn [length] in Hlen; lia]. rewrite andb_true_r in Hc.
    apply negb_false_iff, Z.eqb_eq in Hc as ->. exfalso. apply Hp. rewrite Ep. apply elem_of_app. right. apply list_elem_of_here.
  - exists [], p, n. split; [done|]. split; [done|]. split; [done|]. cbn. lia.
  - unfold LINE_MAX. lia.
Qed.

Lemma elem_take {A} (x : A) n l : x ∈ take n l → x ∈ l.
Proof. rewrite <-(firstn_skipn n l) at 2. rewrite elem_of_app. by left. Qed.

Lemma lcp_elem x a c : x ∈ lcp a c → x ∈ a.
Proof. rewrite <-(lcp_take a c) at 1. apply elem_take. Qed.

(** What two strings begin with, they begin with together. *)
Lemma lcp_begins t a c : take (length t) a = t → take (length t) c = t → take (length t) (lcp a c) = t.
Proof.
  revert a c. induction t as [|x t IH]; intros [|y a] [|z c] Ha Hc; cbn in *; try done.
  injection Ha as -> Ha. injection Hc as -> Hc. rewrite Z.eqb_refl. cbn. f_equal. by apply IH.
Qed.

(** What the completions of a text have in common. *)
Definition shared (n : list Z) (ns : list (list Z)) : list Z := fold_left lcp ns n.

Lemma shared_spec t n ns :
  (∀ m, m ∈ n :: ns → take (length t) m = t ∧ plain m ∧ len m ≤ 7) →
  take (length t) (shared n ns) = t ∧ plain (shared n ns) ∧ len (shared n ns) ≤ 7.
Proof.
  unfold shared. revert n. induction ns as [|m ns IH]; intros n H; cbn [fold_left]; [apply H, list_elem_of_here|].
  apply IH. intros x. rewrite elem_of_cons. intros [->|Hx].
  - destruct (H n) as (? & Hp & ?); [apply list_elem_of_here|].
    destruct (H m) as (? & _ & _); [apply list_elem_of_further, list_elem_of_here|]. pose proof (lcp_length n m).
    split; [by apply lcp_begins|]. split; [|lia]. intros c Hc. apply Hp. by eapply lcp_elem.
  - apply H. by do 2 apply list_elem_of_further.
Qed.

Lemma begins_take t n : begins t n = true → take (length t) n = t.
Proof. unfold begins. by case_bool_decide. Qed.

Lemma completions_ok t m : m ∈ completions t → take (length t) m = t ∧ plain m ∧ len m ≤ 7.
Proof.
  unfold completions. rewrite list_elem_of_In, filter_In, <-list_elem_of_In. intros [Hm Hb%begins_take].
  destruct (names_plain m Hm) as (? & ? & _). done.
Qed.

Lemma cmd_name_spec i : 0 ≤ i < NCMD → ∃ n, names !! Z.to_nat i = Some n ∧ cmd_name i = Some (n ++ [0]).
Proof.
  intros Hi. unfold cmd_name, names. rewrite list_lookup_fmap, aget_lookup by lia.
  destruct (lookup_lt_is_Some_2 cmds (Z.to_nat i)) as [c Hc]; [cbn; unfold NCMD in Hi; lia|]. rewrite Hc. by eexists.
Qed.

(** The commands so far that can complete the text, and the array [best]. *)
Definition scanned (cs : list (list Z)) (best : list Z) : Prop :=
  len best = LINE_MAX ∧
  match cs with [] => True | n :: ns => ∃ r, best = shared n ns ++ 0 :: r end.

(** A cut in a C string. *)
Lemma cut_string (p r : list Z) k :
  (k ≤ length p)%nat → ∃ r', <[k := 0]> (p ++ 0 :: r) = take k p ++ 0 :: r'.
Proof.
  intros Hk. rewrite insert_take_drop by (rewrite length_app; cbn; lia). rewrite take_app_le by done. by eexists.
Qed.

Lemma complete_scan_spec s :
  inv s →
  safe (complete_scan s) (λ '(best, matches),
    matches = len (completions (text s)) ∧ scanned (completions (text s)) best).
Proof.
  intros Hinv. set (t := text s). assert (completions t = List.filter (begins t) (take (Z.to_nat NCMD) names)) as -> by done.
  apply (safe_for_all (λ i '(best, matches), let cs := List.filter (begins t) (take (Z.to_nat i) names) in
    matches = len cs ∧ scanned cs best)); [unfold NCMD; lia| |by split].
  intros i [best matches] Hi (-> & Hlen & Hbest). destruct (cmd_name_spec i Hi) as (n & Hn & ->).
  destruct (names_plain n ltac:(by eapply list_elem_of_lookup_2)) as (Hp & H7 & _). pose proof (plain_no_zero _ Hp) as Hn0.
  cbn [mbind option_bind]. pose proof Hinv as [Hl Hs Ht _ _ _].
  rewrite name_prefix_spec by (done || by apply plain_no_zero || (unfold LINE_MAX in *; lia)).
  fold (text s). fold t. cbn [mbind option_bind].
  replace (Z.to_nat (i + 1)) with (S (Z.to_nat i)) by lia. rewrite (take_S_r names _ n Hn), filter_app. cbn [List.filter].
  set (cs := List.filter (begins t) (take (Z.to_nat i) names)) in *. destruct (begins t n) eqn:Hb; cbn [negb].
  2:{ cbn [safe step_to]. by rewrite app_nil_r. }
  destruct cs as [|m ms] eqn:Ecs; cbn [length app].
  - change (Z.of_nat 0 =? 0) with true. cbv iota. unfold copy_over, LINE_MAX in *.
    rewrite !length_app. cbn [length]. rw_bool. cbn [mbind option_bind safe step_to].
    split; [done|]. split; [unfold LINE_MAX; list_lia|]. cbn. exists (drop (length n + 1) best).
    rewrite take_ge by (rewrite length_app; cbn; lia). rewrite <-(assoc_L (++)). do 3 f_equal. lia.
  - rewrite (proj2 (Z.eqb_neq _ 0)) by lia. destruct Hbest as (r & ->).
    assert (∀ m', m' ∈ m :: ms → take (length t) m' = t ∧ plain m' ∧ len m' ≤ 7) as Hok.
    { intros m' Hm'. apply completions_ok. unfold completions. rewrite list_elem_of_In, filter_In.
      rewrite <-Ecs, list_elem_of_In in Hm'. unfold cs in Hm'. apply filter_In in Hm' as [Hm' ?]. split; [|done].
      rewrite <-list_elem_of_In in *. by eapply elem_take. }
    destruct (shared_spec t m ms Hok) as (_ & Hpl & Hl7). set (p := shared m ms) in *.
    rewrite common_spec by (by apply plain_no_zero || lia). cbn [mbind option_bind].
    pose proof (lcp_length p n). rewrite aset_Some by (rewrite length_app; cbn; lia). cbn [mbind option_bind safe step_to].
    rewrite length_app. cbn [length]. split; [lia|]. split; [by rewrite length_insert|].
    rewrite Nat2Z.id. destruct (cut_string p r (length (lcp p n))) as (r' & ->); [done|]. exists r'.
    unfold shared. rewrite fold_left_app. cbn [fold_left]. fold (shared m ms). fold p. by rewrite lcp_take.
Qed.

(** A character behind the text. *)
Lemma append_raw_spec s c :
  inv s → slen s < LINE_MAX - 1 → 32 ≤ c ≤ 126 →
  safe (append_raw c s) (λ s', edited (text s ++ [c]) s s' ∧ slen s' = slen s + 1).
Proof.
  intros Hinv Hlt Hc. pose proof Hinv as [Hl Hn _ _ _ _]. unfold append_raw, LINE_MAX in *.
  rewrite aset_Some by lia. cbn [mbind option_bind safe]. split; [|done].
  apply append_spec; [done|done|done|by rewrite length_insert|]. by rewrite take_insert_eq by lia.
Qed.

(** The loop that copies the rest of [best] behind the text. *)
Lemma append_rest s p r :
  inv s → plain p → len p < LINE_MAX - 1 → take (length (text s)) p = text s →
  safe (while_up (Z.to_nat LINE_MAX) (λ s, slen s <? len p)
    (λ s, c ← aget (p ++ 0 :: r) (slen s); append_raw c s) s) (edited p s).
Proof.
  intros Hinv Hp Hl Ht. apply (safe_while (λ s', edited (take (Z.to_nat (slen s')) p) s s' ∧ slen s' ≤ len p) _
    (λ s', Z.to_nat (len p - slen s'))).
  - intros s1 [Hed Hle] Hc%Z.ltb_lt. pose proof (ed_inv _ _ _ Hed) as Hi1. pose proof (inv_len s1 Hi1).
    destruct (lookup_lt_is_Some_2 p (Z.to_nat (slen s1))) as [c Hc']; [lia|].
    rewrite aget_lookup, lookup_app_l, Hc' by lia. cbn [mbind option_bind].
    eapply safe_mono; [apply append_raw_spec; [done|lia|apply Hp; by eapply list_elem_of_lookup_2]|].
    intros s2 [Hed2 ->]. split; [|lia]. split; [|lia]. replace (Z.to_nat (slen s1 + 1)) with (S (Z.to_nat (slen s1))) by lia.
    rewrite (take_S_r _ _ c Hc'). rewrite (ed_text _ _ _ Hed) in Hed2. by eapply edited_trans.
  - intros s1 [Hed Hle] Hc%Z.ltb_ge. by rewrite take_ge in Hed by lia.
  - pose proof (length_text s Hinv) as E. assert (Z.to_nat (slen s) = length (text s)) as -> by lia.
    rewrite Ht. split; [by apply edited_refl|]. assert (length (take (length (text s)) p) = length (text s)) as E2 by (by rewrite Ht).
    rewrite length_take in E2. lia.
  - pose proof (inv_len s Hinv). unfold LINE_MAX in *. lia.
Qed.

(** The tab key makes of the text what [complete_text] says, and the screen shows
    the text. *)
Theorem complete_spec s : inv s → safe (complete s) (edited (complete_text (text s)) s).
Proof.
  intros Hinv. apply safe_bind. eapply safe_mono; [by apply complete_scan_spec|]. intros [best matches] (-> & Hlen & Hbest).
  unfold complete_text. pose proof (completions_ok (text s)) as Hok.
  destruct (completions (text s)) as [|n ns]; [cbn [length]; by apply edited_refl|].
  rewrite (proj2 (Z.eqb_neq _ 0)) by (cbn [length]; lia). destruct Hbest as (r & ->).
  destruct (shared_spec (text s) n ns Hok) as (Ht & Hp & H7). set (p := shared n ns) in *.
  rewrite str_at_c_str by (by apply plain_no_zero). cbn [mbind option_bind]. apply safe_bind.
  eapply safe_mono; [apply append_rest; [done|done|unfold LINE_MAX; lia|done]|]. intros s1 H1.
  destruct ns as [|n' ns].
  - change (len [n] =? 1) with true. cbv iota. pose proof (ed_inv _ _ _ H1) as Hi1.
    pose proof (length_text s1 Hi1) as E. rewrite (ed_text _ _ _ H1) in E.
    eapply safe_mono; [apply append_raw_spec; [done|unfold LINE_MAX; lia|lia]|]. intros s2 [H2 _].
    rewrite (ed_text _ _ _ H1) in H2. by eapply edited_trans.
  - rewrite (proj2 (Z.eqb_neq _ 1)) by (cbn [length]; lia). done.
Qed.

(** ** Commands *)

Definition emits (evs : list event) (s : shell) : shell :=
  Shell (line s) (slen s) (hist_at s) (hist s) (hist_count s) (keys_mode s) (events s ++ evs).

Lemma emit_emits e s : emit e s = emits [e] s.
Proof. done. Qed.

Lemma emits_app e1 e2 s : emits e2 (emits e1 s) = emits (e1 ++ e2) s.
Proof. unfold emits. cbn [line slen hist_at hist hist_count keys_mode events]. by rewrite (assoc_L (++)). Qed.

Lemma emits_nil s : emits [] s = s.
Proof. unfold emits. rewrite (right_id_L [] (++)). by destruct s. Qed.

Lemma emits_inv evs s : inv s → inv (emits evs s).
Proof. intros []. by split. Qed.

Definition prompt_events : list event := [Color 0x0A; Print (chars "qizo"); Color 0x07; Print (chars "> ")].

Lemma prompt_emits s : prompt s = emits prompt_events s.
Proof. unfold prompt, puts. by rewrite !emit_emits, !emits_app. Qed.

(** What [help] prints of a command: its name behind the directive for it that
    [qizo_printf] does not know, and not what it does. *)
Definition help_text (c : string * string) : list Z := chars "  %-10s " ++ chars c.1 ++ crlf.

Definition help_events (arg : list Z) : list event :=
  match arg with
  | _ :: _ =>
      match List.find (λ c, bool_decide (chars c.1 = arg)) cmds with
      | Some c => [Print (help_text c)]
      | None => [Print (chars "help: no such command, try help alone" ++ crlf)]
      end
  | [] =>
      Print (chars "  command     what it does" ++ crlf) :: ((Print ∘ help_text) <$> cmds) ++
      [Print (chars "  ctrl-u      erase the line, ctrl-w erase the last word" ++ crlf);
       Print (chars "  ctrl-l      clear the screen, ctrl-c cancel the line" ++ crlf);
       Print (chars "  up down     walk the history, tab completes a command" ++ crlf)]
  end.

Definition color_events (arg : list Z) : list event :=
  if 15 <? read_u32 0 arg
  then [Print (chars "color   : pick 0..15, 7 is light grey on black, 14 yellow" ++ crlf)]
  else [Color (read_u32 0 arg); Print (chars "qizo: colour set, the prompt goes back to grey" ++ crlf); Color 0x07].

(** What a command but [hist] does, when the echo of keys is [keys]. *)
Definition run_events (name : string) (arg : list Z) (keys : bool) : list event :=
  if bool_decide (name = "help"%string) then help_events arg
  else if bool_decide (name = "echo"%string) then [Print arg; Print crlf]
  else if bool_decide (name = "keys"%string) then
    [Print (chars "keys    : " ++ chars (if keys then "off" else "on") ++ chars ", press any key to see its code" ++ crlf)]
  else if bool_decide (name = "color"%string) then color_events arg
  else if bool_decide (name = "clear"%string) then [Clear]
  else [Run name arg].

Lemma help_line_spec c s : help_line c s = Some (emits [Print (help_text c)] s).
Proof. done. Qed.

Lemma help_lines l s :
  foldl (λ s c, s ≫= help_line c) (Some s) l = Some (emits ((Print ∘ help_text) <$> l) s).
Proof.
  revert s. induction l as [|c l IH]; intros s; [by rewrite emits_nil|]. cbn [foldl mbind option_bind].
  by rewrite help_line_spec, IH, emits_app.
Qed.

Lemma cmd_help_spec arg s : cmd_help arg s = Some (emits (help_events arg) s).
Proof.
  unfold cmd_help, help_events. destruct arg as [|x arg].
  - rewrite help_lines. cbn [mbind option_bind]. rewrite !emit_emits, !emits_app. done.
  - destruct (List.find _ cmds); [apply help_line_spec|done].
Qed.

(** The switch that [keys] turns. *)
Definition with_keys (k : bool) (s : shell) : shell :=
  Shell (line s) (slen s) (hist_at s) (hist s) (hist_count s) k (events s).

Definition keys_after (name : string) (k : bool) : bool :=
  if bool_decide (name = "keys"%string) then negb k else k.

Lemma with_keys_same s : with_keys (keys_mode s) s = s.
Proof. by destruct s. Qed.

Lemma run_command_spec name arg s :
  name ≠ "hist"%string →
  run_command name arg s =
    Some (with_keys (keys_after name (keys_mode s)) (emits (run_events name arg (keys_mode s)) s)).
Proof.
  intros Hh. destruct (decide (name = "help"%string)) as [->|].
  { change (run_command _ arg s) with (cmd_help arg s). rewrite cmd_help_spec. by destruct s. }
  destruct (decide (name = "echo"%string)) as [->|].
  { change (run_command _ arg s) with (Some (cmd_echo arg s)). unfold cmd_echo. rewrite !emit_emits, emits_app. by destruct s. }
  destruct (decide (name = "keys"%string)) as [->|].
  { change (run_command _ arg s) with (cmd_keys s). by destruct s as [? ? ? ? ? [] ?]. }
  destruct (decide (name = "color"%string)) as [->|].
  { change (run_command _ arg s) with (Some (cmd_color arg s)).
    change (run_events _ arg (keys_mode s)) with (color_events arg). unfold cmd_color, color_events.
    destruct (15 <? read_u32 0 arg); [by destruct s|]. rewrite !emit_emits, !emits_app. by destruct s. }
  unfold run_command, run_events, keys_after. rewrite !(bool_decide_eq_false_2 _) by done.
  destruct (bool_decide _); by destruct s.
Qed.

Lemma find_command_elem w name : find_command w = Some name → w = chars name.
Proof.
  unfold find_command. destruct (List.find _ cmds) as [c|] eqn:E; [|done]. intros [= <-].
  apply find_some in E as [_ E]. by apply bool_decide_eq_true in E.
Qed.

(** ** Entering a line *)

(** What the word runs: [?] is [help]. *)
Definition command_word (w : list Z) : list Z := if bool_decide (w = chars "?") then chars "help" else w.
Definition command_of (w : list Z) : option string := find_command (command_word w).

Definition command_events (w arg : list Z) (keys : bool) : list event :=
  match command_of w with
  | Some name => run_events name arg keys
  | None => [Print (chars "qizo: unknown command '"); Print (command_word w); Print (chars "' (help, or tab)" ++ crlf)]
  end.

(** The history with one more line. *)
Definition remember (w : list Z) (h : list (list Z)) : list (list Z) :=
  if bool_decide (w ∈ h) then h else drop (length h - 15) h ++ [w].

(** The zeros of a line stay where they are when it is cut. *)
Lemma split_line_zeros l0 l ci ai i :
  split_line l0 = Some (l, ci, ai) → l0 !! i = Some 0 → l !! i = Some 0.
Proof.
  unfold split_line. intros H H0. destruct (skip_while l0 _ 0) as [c|]; [|done]. cbn [mbind option_bind] in H.
  destruct (skip_while l0 _ c) as [a|]; [|done]. cbn [mbind option_bind] in H.
  destruct (aget l0 a) as [x|]; [|done]. cbn [mbind option_bind] in H. destruct (negb (x =? 0)); [|congruence].
  destruct (aset l0 a 0) as [l1|] eqn:E; [|done]. cbn [mbind option_bind] in H.
  destruct (skip_while l1 _ (a + 1)) as [a'|]; [|done]. cbn [mbind option_bind] in H.
  assert (l1 = l) as <- by congruence. apply aset_inv in E as [Ha ->].
  destruct (decide (i = Z.to_nat a)) as [->|]; [apply list_lookup_insert_eq; lia|by rewrite list_lookup_insert_ne].
Qed.

Lemma plain_part t1 t2 : plain (t1 ++ t2) → plain t1 ∧ plain t2.
Proof. intros H. split; intros c Hc; apply H, elem_of_app; auto. Qed.

(** The line behind the first part of [enter]. *)
Lemma enter_line s :
  inv s →
  ∃ l0 l ci ai, aset (line s) (slen s) 0 = Some l0 ∧ split_line l0 = Some (l, ci, ai) ∧ len l = LINE_MAX ∧
    str_at (drop (Z.to_nat ci) l) = Some (first_word (text s)) ∧
    str_at (drop (Z.to_nat ai) l) = Some (rest_of (text s)) ∧
    (first_word (text s) = [] → take (Z.to_nat (slen s)) l = text s) ∧
    (first_word (text s) ≠ [] → entered (set_line_len l (slen s) s) (leading (text s) ++ first_word (text s))).
Proof.
  intros Hinv. pose proof Hinv as [Hl Hn Ht _ _ _]. fold (text s) in Ht. pose proof (length_text s Hinv) as Hlt.
  unfold LINE_MAX in *.
  set (l0 := <[Z.to_nat (slen s) := 0]> (line s)). set (r := drop (S (Z.to_nat (slen s))) (line s)).
  assert (l0 = text s ++ 0 :: r) as El by (unfold l0; rewrite insert_take_drop by lia; done).
  assert (len l0 = LINE_MAX) as Hl0 by (unfold l0; by rewrite length_insert).
  pose proof (split_line_spec (text s) r (plain_no_zero _ Ht) ltac:(by rewrite <-El)) as Hs. rewrite <-El in Hs.
  destruct (split_line l0) as [[[l ci] ai]|] eqn:E; [|done]. cbn [safe] in Hs.
  destruct Hs as (Hll & Hc & Ha & Hw & Hb). exists l0, l, ci, ai.
  split; [rewrite aset_Some by lia; done|]. do 4 (split; [done|]). split.
  { intros Hb'%Hb. subst l. unfold l0. by rewrite take_insert_ge by lia. }
  intros Hne. split; cbn [line slen set_line_len]; [done| |eapply split_line_zeros; [done|]|done|].
  - assert (slen s ≠ 0) as ?; [|unfold LINE_MAX; lia]. intros Hz. apply text_nil in Hz; [|done]. by rewrite Hz in Hne.
  - unfold l0. apply list_lookup_insert_eq. lia.
  - pose proof (take_drop_while blank (text s)) as E1. rewrite <-E1 in Ht. apply plain_part in Ht as [P1 P2].
    rewrite <-(take_drop_while solid (drop_while blank (text s))) in P2. apply plain_part in P2 as [P2 _].
    intros c Hc'. apply elem_of_app in Hc' as [Hc'|Hc']; [by apply P1|by apply P2].
Qed.

(** A blank line runs nothing, and stays. *)
Theorem enter_blank s :
  inv s → first_word (text s) = [] →
  safe (enter s) (λ s', inv s' ∧ text s' = text s ∧ same_hist s s' ∧ events s' = events s ++ Print crlf :: prompt_events).
Proof.
  intros Hinv Hw. unfold enter. change (line (emit _ s)) with (line s). change (slen (emit _ s)) with (slen s).
  destruct (enter_line s Hinv) as (l0 & l & ci & ai & -> & Esp & Hl & Ec & Ea & Ht & _).
  cbn [mbind option_bind]. rewrite Esp. cbn [mbind option_bind].
  rewrite Ec, Ea, Hw. cbn [mbind option_bind]. rewrite bool_decide_eq_true_2 by done. cbn [safe].
  rewrite prompt_emits. specialize (Ht Hw). pose proof Hinv as [? ? Hp ? ? ?]. split.
  { apply emits_inv. split; cbn; try done. by rewrite Ht. }
  split; [done|]. split; [done|]. unfold emits, emit. cbn. by rewrite <-(assoc_L (++)).
Qed.

(** The text of the line in [enter] when it runs a command. *)
Lemma enter_runs s :
  inv s → hist_count s < 2 ^ 32 - 1 → first_word (text s) ≠ [] →
  ∃ s1, inv s1 ∧ hist_at s1 = hist_count s1 ∧ keys_mode s1 = keys_mode s ∧ events s1 = events s ++ [Print crlf] ∧
    0 < hist_count s1 ≤ hist_count s + 1 ∧ hist_texts s1 = remember (leading (text s) ++ first_word (text s)) (hist_texts s) ∧
    enter s = s2 ← match command_of (first_word (text s)) with
                   | Some name => run_command name (rest_of (text s)) s1
                   | None => Some (emits [Print (chars "qizo: unknown command '");
                       Print (command_word (first_word (text s))); Print (chars "' (help, or tab)" ++ crlf)] s1)
                   end;
              Some (prompt (set_line_len (line s2) 0 s2)).
Proof.
  intros Hinv Hc Hw. unfold enter. change (line (emit _ s)) with (line s). change (slen (emit _ s)) with (slen s).
  destruct (enter_line s Hinv) as (l0 & l & ci & ai & -> & Esp & Hl & Ec & Ea & _ & Hen).
  cbn [mbind option_bind]. rewrite Esp. cbn [mbind option_bind].
  rewrite Ec, Ea. cbn [mbind option_bind]. rewrite bool_decide_eq_false_2 by done.
  set (s0 := set_line_len l (slen s) (emit (Print crlf) s)). pose proof Hinv as [? ? ? Hhl Hhs Hcc].
  assert (entered s0 (leading (text s) ++ first_word (text s))) as Hen0 by (destruct (Hen Hw); by split).
  pose proof (push_history_spec s0 _ Hen0 Hhl Hhs ltac:(cbn; lia)) as Hp. destruct (push_history s0) as [s1|]; [|done].
  cbn [safe] in Hp. destruct Hp as (L1 & N1 & A1 & K1 & E1 & HL1 & HS1 & Hd).
  change (hist_texts s0) with (hist_texts s) in Hd. change (hist s0) with (hist s) in Hd. change (hist_count s0) with (hist_count s) in Hd.
  assert (0 < hist_count s1 ≤ hist_count s + 1 ∧ hist_texts s1 = remember (leading (text s) ++ first_word (text s)) (hist_texts s)) as [Hc1 Ht1].
  { unfold remember. case_bool_decide as Hin.
    - destruct Hd as [Eh Ec']. split; [|unfold hist_texts, hist_first, hist_text, hist_line; by rewrite Eh, Ec'].
      rewrite Ec'. apply list_elem_of_fmap in Hin as (i & _ & Hi%elem_of_range). pose proof (hist_first_range s ltac:(lia)). lia.
    - destruct Hd as [Eh Ec']. split; [lia|done]. }
  exists (set_hist_at (hist_count s1) s1). cbn [hist_at hist_count keys_mode events set_hist_at].
  split; [|split; [done|split; [done|split; [done|split; [lia|split; [done|]]]]]].
  { apply hist_at_inv. split; [by rewrite L1|rewrite N1; unfold LINE_MAX; lia|rewrite N1; by intros c ?%elem_of_nil|done|done|lia]. }
  cbn [mbind option_bind]. unfold command_of. fold (command_word (first_word (text s))).
  rewrite !emit_emits, !emits_app. done.
Qed.

(** A line runs the command that its first word names, with the rest of it, is
    remembered up to that word, and goes. *)
Theorem enter_spec s :
  inv s → hist_count s < 2 ^ 32 - 1 → first_word (text s) ≠ [] → command_of (first_word (text s)) ≠ Some "hist"%string →
  safe (enter s) (λ s', inv s' ∧ text s' = [] ∧ hist_at s' = hist_count s' ∧ hist_count s' ≤ hist_count s + 1 ∧
    hist_texts s' = remember (leading (text s) ++ first_word (text s)) (hist_texts s) ∧
    keys_mode s' = keys_after (default "" (command_of (first_word (text s)))) (keys_mode s) ∧
    events s' = events s ++ [Print crlf] ++
      command_events (first_word (text s)) (rest_of (text s)) (keys_mode s) ++ prompt_events).
Proof.
  intros Hinv Hc Hw Hh. destruct (enter_runs s Hinv Hc Hw) as (s1 & H1 & A1 & K1 & E1 & C1 & T1 & ->).
  set (w := first_word (text s)) in *. set (arg := rest_of (text s)).
  assert (∀ k evs, let s' := prompt (set_line_len (line s1) 0 (with_keys k (emits evs s1))) in
    inv s' ∧ text s' = [] ∧ hist_at s' = hist_count s' ∧ hist_count s' ≤ hist_count s + 1 ∧
    hist_texts s' = hist_texts s1 ∧ keys_mode s' = k ∧
    events s' = events s1 ++ evs ++ prompt_events) as Hfin.
  { intros k evs. cbv zeta. rewrite prompt_emits. pose proof H1 as [? ? ? ? ? ?].
    split; [apply emits_inv; split; cbn; try done; by intros c ?%elem_of_nil|]. do 2 (split; [done|]).
    split; [cbn; lia|]. do 2 (split; [done|]). cbn. by rewrite <-(assoc_L (++)). }
  unfold command_events. destruct (command_of w) as [name|]; cbn [default].
  - rewrite run_command_spec by congruence. cbn [mbind option_bind safe].
    destruct (Hfin (keys_after name (keys_mode s1)) (run_events name arg (keys_mode s1))) as (I & T & A & G & HT & K & E).
    rewrite K1 in *. split; [done|]. split; [done|]. split; [done|]. split; [done|]. split; [by rewrite <-T1|]. split; [done|].
    etransitivity; [exact E|]. by rewrite E1, <-(assoc_L (++)).
  - cbn [mbind option_bind safe]. rewrite <-(with_keys_same (emits _ s1)).
    match goal with |- context [emits ?evs s1] => destruct (Hfin (keys_mode s1) evs) as (I & T & A & G & HT & K & E) end.
    split; [done|]. split; [done|]. split; [done|]. split; [done|]. split; [by rewrite <-T1|].
    split; [by rewrite K1 in K|]. etransitivity; [exact E|]. by rewrite E1, <-(assoc_L (++)).
Qed.

(** The command [hist] gives [qizo_printf] a width it does not know: the number of
    the line is taken for the string. *)
Lemma hist_format a : CON.qizo_printf (chars "  %2u  %s" ++ crlf) [CON.Num 1; CON.Str a] = None.
Proof. done. Qed.

Lemma cmd_hist_faults s : inv s → 0 < hist_count s → cmd_hist s = None.
Proof.
  intros [_ _ _ Hl Hh _] Hc. pose proof (hist_first_range s ltac:(lia)). unfold cmd_hist.
  rewrite for_up_step by (unfold hist_first, HIST_MAX in *; case_bool; lia).
  destruct (hist_line_ok s (hist_first s) Hl Hh) as (h & -> & _ & Es & _). cbn [mbind option_bind]. 
  rewrite Es. cbn [mbind option_bind]. by rewrite Z.sub_diag, hist_format.
Qed.

Theorem hist_faults s :
  inv s → hist_count s < 2 ^ 32 - 1 → first_word (text s) = chars "hist" → enter s = None.
Proof.
  intros Hinv Hc Hw. destruct (enter_runs s Hinv Hc ltac:(rewrite Hw; discriminate)) as (s1 & H1 & _ & _ & _ & C1 & _ & ->).
  rewrite Hw. change (command_of (chars "hist")) with (Some "hist"%string). cbn [mbind option_bind].
  change (run_command "hist" (rest_of (text s)) s1) with (cmd_hist s1). by rewrite cmd_hist_faults by (done || lia).
Qed.

(** ** The loop *)

(** The key enters a line that runs [hist]. *)
Definition enters_hist (c : Z) (s : shell) : bool :=
  (c =? 10) && bool_decide (command_of (first_word (text s)) = Some "hist"%string).

(** How many lines the history has seen after a key. *)
Definition grows (s s' : shell) : Prop := hist_count s' ≤ hist_count s + 1.

Lemma edited_safe t s s' : edited t s s' → inv s' ∧ grows s s'.
Proof. intros [? _ (_ & E & _) _ _]. split; [done|]. unfold grows. lia. Qed.

Lemma recall_grows dir s : inv s → safe (recall dir s) (λ s', inv s' ∧ grows s s').
Proof.
  intros Hinv. assert (grows s s) by (unfold grows; lia). unfold recall. safe_if; [done|]. safe_if.
  - safe_if; [done|]. eapply safe_mono; [apply walk_spec; auto|]. intros s' Hs'%edited_safe. done.
  - safe_if; (eapply safe_mono; [(apply walk_spec || apply clear_line_spec); auto|]; intros s' Hs'%edited_safe; done).
Qed.

Lemma enter_safe s :
  inv s → hist_count s < 2 ^ 32 - 1 → command_of (first_word (text s)) ≠ Some "hist"%string →
  safe (enter s) (λ s', inv s' ∧ grows s s').
Proof.
  intros Hinv Hc Hh. destruct (decide (first_word (text s) = [])) as [Hw|Hw].
  - eapply safe_mono; [by apply enter_blank|]. intros s' (? & _ & (_ & E & _) & _). split; [done|]. unfold grows. lia.
  - pose proof (enter_spec s Hinv Hc Hw Hh) as Hs. destruct (enter s) as [s'|] eqn:E; [|done]. cbn [safe] in *.
    by destruct Hs as (Hi & _ & _ & Hg & _).
Qed.

#[local] Existing Instance CON.valid_dec.

Lemma key_echo_safe (c : Z) :
  ∃ t, CON.qizo_printf (chars "key     : %x" ++ crlf) [CON.Num (u32 c)] = Some t.
Proof.
  eexists. change (chars "key     : %x" ++ crlf) with
    (((CON.Char <$> chars "key     : ") ++ CON.Conv 120 :: (CON.Char <$> crlf)) ≫= CON.text_of).
  rewrite CON.printf_pieces by (apply (bool_decide_unpack _); by vm_compute). reflexivity.
Qed.

(** No key but the one that enters [hist] makes the shell leave its arrays. *)
Lemma shell_key_safe c s :
  inv s → hist_count s < 2 ^ 32 - 1 → enters_hist c s = false → safe (shell_key c s) (λ s', inv s' ∧ grows s s').
Proof.
  intros Hinv Hc Hh. unfold shell_key. apply safe_bind.
  apply (safe_mono _ (λ s1, inv s1 ∧ text s1 = text s ∧ hist_count s1 = hist_count s)).
  { safe_if; [|done]. destruct (key_echo_safe c) as [t ->]. cbn [mbind option_bind safe]. by split; [apply emit_inv|]. }
  intros s1 (H1 & T1 & C1). assert (∀ s', inv s' ∧ grows s1 s' → inv s' ∧ grows s s') as Hg.
  { unfold grows. intros s' [? ?]. split; [done|lia]. }
  assert (∀ t s2 m, edited t s1 s2 → m = s2 → inv m ∧ grows s m) as Hed by (by intros t s2 m Hs2%edited_safe ->; auto).
  assert (inv s1 ∧ grows s s1) as Hself by (split; [done|]; unfold grows; lia).
  safe_if; [done|]. safe_if; [eapply safe_mono; [by apply recall_grows|]; auto|].
  safe_if; [eapply safe_mono; [by apply recall_grows|]; auto|].
  safe_if; [eapply safe_mono; [by apply complete_spec|]; intros s2 Hs2; by eapply Hed|].
  safe_if; [cbn [safe]; rewrite prompt_emits; split; [apply emits_inv, emit_inv, H1|apply Hself]|].
  safe_if.
  { apply safe_bind. eapply safe_mono; [apply clear_line_spec, emit_inv, H1|]. intros s2 [Hi2 Hg2]%edited_safe.
    cbn [safe]. rewrite prompt_emits. split; [by apply emits_inv|]. unfold grows in *. cbn in *. lia. }
  safe_if; [|eapply safe_mono; [by apply edit_line_spec|]; intros s2 Hs2; by eapply Hed].
  eapply safe_mono; [apply enter_safe; [done|lia|]|auto]. rewrite T1. unfold enters_hist in Hh.
  rewrite E5 in Hh. by apply bool_decide_eq_false in Hh.
Qed.

(** No key of the list enters [hist]. *)
Definition hist_free (cs : list Z) (s : shell) : Prop :=
  ∀ pre c post s1, cs = pre ++ c :: post → shell_keys pre s = Some s1 → enters_hist c s1 = false.


(** *** A line, from the first key on *)

(** The keys that edit the line, and what they make of the text. *)
Definition typing (c : Z) : bool :=
  negb ((c =? KEY_UP) || (c =? KEY_DOWN) || (c =? 0x0C) || (c =? 0x03) || (c =? 10)).

Definition key_text (t : list Z) (c : Z) : list Z := if c =? 9 then complete_text t else edit_text c t.

Lemma typing_key c s :
  inv s → keys_mode s = false → typing c = true → safe (shell_key c s) (edited (key_text (text s) c) s).
Proof.
  intros Hinv Hk Ht%negb_true_iff. rewrite !orb_false_iff in Ht. destruct Ht as [[[[E1 E2] E3] E4] E5].
  unfold shell_key, key_text. rewrite Hk. cbn [andb mbind option_bind]. rewrite Hk, E1, E2, E3, E4, E5.
  destruct (c =? 9); [by apply complete_spec|by apply edit_line_spec].
Qed.

Lemma typing_keys cs s :
  inv s → keys_mode s = false → forallb typing cs = true →
  safe (shell_keys cs s) (edited (fold_left key_text cs (text s)) s).
Proof.
  revert s. induction cs as [|c cs IH]; intros s Hinv Hk Ht; cbn [shell_keys fold_left]; [by apply edited_refl|].
  cbn [forallb] in Ht. apply andb_true_iff in Ht as [Hc Ht]. apply safe_bind.
  eapply safe_mono; [by apply typing_key|]. intros s1 H1. destruct (ed_hist _ _ _ H1) as (_ & _ & Ek).
  eapply safe_mono; [apply IH; [apply H1|congruence|done]|]. intros s2 H2. rewrite (ed_text _ _ _ H1) in H2.
  by eapply edited_trans.
Qed.


Lemma shell_keys_snoc cs c s : shell_keys (cs ++ [c]) s = shell_keys cs s ≫= shell_key c.
Proof.
  revert s. induction cs as [|d cs IH]; intros s; cbn [app shell_keys mbind option_bind]; [by destruct (shell_key c s)|].
  destruct (shell_key d s); [apply IH|done].
Qed.

Lemma enter_key s : keys_mode s = false → shell_key 10 s = enter s.
Proof. intros Hk. unfold shell_key. rewrite Hk. cbn [andb mbind option_bind]. by rewrite Hk. Qed.

Lemma same_hist_texts s s' : same_hist s s' → hist_texts s' = hist_texts s.
Proof. intros (E1 & E2 & _). unfold hist_texts, hist_first, hist_text, hist_line. by rewrite E1, E2. Qed.


(** ** Examples *)

(** The state behind the prompt when [t] has been typed, and with the line [t]
    in the history. *)
Definition c_line (t : list Z) : list Z := t ++ replicate (Z.to_nat (LINE_MAX - len t)) 0.
Definition typed (t : list Z) : shell := Shell (c_line t) (len t) 0 (hist initial) 0 false [].
Definition recalled (t : list Z) : shell :=
  Shell (c_line []) 0 1 (<[O := c_line t]> (hist initial)) 1 false [].

Lemma c_line_ok t : len t < LINE_MAX → plain t → line_ok (c_line t).
Proof.
  intros Hl Hp. unfold c_line, LINE_MAX in *. split; [unfold LINE_MAX; list_lia|]. exists t. split; [|done].
  destruct (Z.to_nat (128 - len t)) eqn:E; [lia|]. cbn [replicate]. by apply str_at_c_str, plain_no_zero.
Qed.

Lemma zero_lines h : h ∈ hist initial → line_ok h.
Proof.
  intros ->%elem_of_replicate_inv. apply (c_line_ok []); [done|]. by intros c ?%elem_of_nil.
Qed.

Lemma typed_inv t : len t < LINE_MAX → plain t → inv (typed t) ∧ text (typed t) = t.
Proof.
  intros Hl Hp. assert (text (typed t) = t) as Et.
  { unfold text, typed, c_line. cbn [slen line]. by rewrite Nat2Z.id, take_app_length. }
  split; [|done]. split; cbn [line slen hist hist_count typed]; try done.
  - by apply c_line_ok.
  - lia.
  - by rewrite <-Et in Hp.
  - apply zero_lines.
Qed.

Lemma recalled_inv t : len t < LINE_MAX → plain t → inv (recalled t).
Proof.
  intros Hl Hp. split; cbn [line slen hist hist_count recalled]; try done.
  - by intros c ?%elem_of_nil.
  - intros h [->|Hh]%elem_of_insert_inv; [by apply c_line_ok|by apply zero_lines].
Qed.

Lemma plain_chars t : forallb (λ c, (32 <=? c) && (c <=? 126)) t = true → plain t.
Proof. rewrite forallb_forall. intros H c Hc%list_elem_of_In%H. lia. Qed.

Lemma initial_inv : inv initial.
Proof. by apply (typed_inv []); [|apply plain_chars]. Qed.

(** A check of [hist_free]. *)
Fixpoint hist_freeb (cs : list Z) (s : shell) : bool :=
  match cs with
  | [] => true
  | c :: cs => negb (enters_hist c s) && match shell_key c s with Some s' => hist_freeb cs s' | None => true end
  end.

Lemma hist_freeb_sound cs s : hist_freeb cs s = true → hist_free cs s.
Proof.
  revert s. induction cs as [|c cs IH]; intros s; [by intros _ [|] ?|]. cbn [hist_freeb].
  intros [Hc%negb_true_iff Hs]%andb_true_iff [|c' pre] d post s1 [= -> E] Hp; [by injection Hp as <-|].
  cbn [shell_keys] in Hp. destruct (shell_key c' s) as [s'|]; [|done]. by eapply IH.
Qed.

Definition echo_keys : list Z := chars "echo hi" ++ [10].

Example echo_hi :
  events <$> shell_keys echo_keys initial =
    Some (((λ c, Print [c]) <$> chars "echo hi") ++ [Print crlf; Print (chars "hi"); Print crlf] ++ prompt_events).
Proof. reflexivity. Qed.

(** Digits are no part of a line: [wait 5] cannot be typed. *)
Lemma digits_ignored key s : 48 ≤ key ≤ 57 → edit_line key s = Some s.
Proof.
  intros Hk. unfold edit_line. assert (printable key = false) as ->; [|by rw_bool].
  unfold printable. by rewrite !orb_false_iff, !andb_false_iff, !Z.eqb_neq, !Z.leb_gt; lia.
Qed.

(** Seventeen different lines, and the up key: it shows the sixteenth. *)
Definition many_keys : list Z := seqZ 65 17 ≫= λ c, [c; 10].

Example recall_off : text <$> shell_keys (many_keys ++ [KEY_UP]) initial = Some [80].
Proof. by vm_compute. Qed.


Lemma edit_line_spec_witness : safe (edit_line 97 (typed (chars "ech"))) (edited (chars "echa") (typed (chars "ech"))).
Proof. apply (edit_line_spec 97 (typed (chars "ech"))). apply typed_inv; [done|by apply plain_chars]. Defined.

Lemma complete_spec_witness : safe (complete (typed (chars "upt"))) (edited (chars "uptime ") (typed (chars "upt"))).
Proof. apply (complete_spec (typed (chars "upt"))). apply typed_inv; [done|by apply plain_chars]. Defined.

Lemma recall_spec_witness :
  safe (recall (-1) (recalled (chars "cpu"))) (λ s', hist_at s' = 0 ∧ inv s' ∧
    Some (text s') = Some (chars "cpu") ∧
    ∃ evs, events s' = [] ++ evs ∧ display [] (printed evs) = text s').
Proof. apply (recall_spec (recalled (chars "cpu"))); [apply recalled_inv; [done|by apply plain_chars]|done|by split]. Defined.

Lemma enter_spec_witness :
  safe (enter (typed (chars "echo hi"))) (λ s', inv s' ∧ text s' = [] ∧ hist_at s' = hist_count s' ∧ hist_count s' ≤ 1 ∧
    hist_texts s' = [chars "echo"] ∧ keys_mode s' = false ∧
    events s' = [] ++ [Print crlf] ++ [Print (chars "hi"); Print crlf] ++ prompt_events).
Proof.
  apply (enter_spec (typed (chars "echo hi"))); [apply typed_inv; [done|by apply plain_chars]|done|discriminate|discriminate].
Defined.

Lemma enter_blank_witness :
  safe (enter (typed [32])) (λ s', inv s' ∧ text s' = [32] ∧ same_hist (typed [32]) s' ∧
    events s' = [] ++ Print crlf :: prompt_events).
Proof. apply (enter_blank (typed [32])); [apply typed_inv; [done|by apply plain_chars]|done]. Defined.

Lemma hist_faults_witness : enter (typed (chars "hist")) = None.
Proof. apply hist_faults; [apply typed_inv; [done|by apply plain_chars]|done|done]. Defined.

Lemma entered_typed : entered (typed (chars "cpu")) (chars "cpu").
Proof. split; [done|done|done|done|by apply plain_chars]. Qed.

Lemma push_history_spec_witness :
  safe (push_history (typed (chars "cpu"))) (λ s', hist_count s' = 1 ∧ hist_texts s' = [chars "cpu"]).
Proof.
  eapply safe_mono; [apply (push_history_spec _ _ entered_typed); [done|exact zero_lines|done]|].
  intros s' (_ & _ & _ & _ & _ & _ & _ & H). exact H.
Defined.



End SH.
