(* ===== verification/Ata.v ===== *)
(** * The disk driver of the kernel: [kernel/drivers/ata.c]

    The driver over the ports of [Ports].  A device that answers as the ATA
    commands are documented is an instance of [IdeDisk]; for such a device a read
    returns the sectors that were asked for ([read_drive_correct]).  [model_text_safe]:
    the name of a drive is a string in its array.  [id_sectors_large]: the size the
    driver takes a large drive for. *)

From S2P Require Export Ports PyBytes.

(** Sectors as words and as bytes in memory, low byte first. *)
Definition word_bytes (ws : list Z) : list Z := ws ≫= λ w, [w mod 256; w / 256].

Lemma word_bytes_app ws ws' : word_bytes (ws ++ ws') = word_bytes ws ++ word_bytes ws'.
Proof. apply bind_app. Qed.

Module ATA.

Definition ATA_CTRL : Z := 0x1F0.
Definition ATA_STATUS : Z := 0x1F7.
Definition ATA_ALT : Z := 0x3F6.
Definition ATA_SPIN : nat := Z.to_nat 400000.

(** The variables of the driver; the arrays have an element per drive. *)
Record ata := Ata {
  drive_ok : list bool;
  drive_sectors : list Z;
  drive_model : list (list Z);
  ata_reads : Z;
  ata_errors : Z;
  ata_blocks : Z;
  ata_live : bool;
}.

Definition set_drive (a : ata) (ok : list bool) (sectors : list Z) (model : list (list Z)) (live : bool) : ata :=
  Ata ok sectors model (ata_reads a) (ata_errors a) (ata_blocks a) live.
Definition set_counts (a : ata) (reads errors blocks : Z) : ata :=
  Ata (drive_ok a) (drive_sectors a) (drive_model a) reads errors blocks (ata_live a).

Section driver.
Context {D : Type} `{Ports D}.

Definition ata_status (d : D) : Z * D := inb ATA_ALT d.

(** 1 when the wanted bits are set and none of the avoided, -1 without a device,
    0 when the rounds are used up. *)
Definition ata_wait (want avoid : Z) (spins : nat) (d : D) : Z * D :=
  let '(r, d) := spin spins ATA_ALT
    (λ st, if st =? 0xFF then Some (-1)
           else if negb (Z.land st avoid =? 0) then None
           else if Z.land st want =? want then Some 1 else None) d in
  (default 0 r, d).

Definition ata_drain (d : D) : D :=
  foldl (λ d p, (inb p d).2) d [0x1F1; 0x1F2; 0x1F3; 0x1F4; 0x1F5; 0x1F6].

Definition ata_select (drv lba_hi : Z) (d : D) : D :=
  outb 0x1F6 (u8 (Z.lor (Z.lor 0xE0 (u8 (Z.shiftl drv 4))) (u8 (Z.land (Z.shiftr lba_hi 24) 0x0F)))) d.

(** [n] words from the data port. *)
Fixpoint in_words (n : nat) (d : D) : list Z * D :=
  match n with
  | O => ([], d)
  | S n => let '(w, d) := inw ATA_CTRL d in let '(ws, d) := in_words n d in (w :: ws, d)
  end.

(** The 40 characters of the model, two in each word. *)
Definition model_chars (id : list Z) : option (list Z) :=
  mapM (λ i, w ← aget id (27 + Z.shiftr i 1);
             Some (i8 (Z.land (Z.shiftr w (if Z.land i 1 =? 0 then 0 else 8)) 0xFF))) (range 0 40).

Definition blank_char (c : Z) : Z := if (c <? 32) || (126 <? c) then 32 else c.

(** [model[i] = model[i + 1]] for the first 40. *)
Definition shift_model (m : list Z) : option (list Z) :=
  for_up 0 40 (λ i m, c ← aget m (i + 1); m ← aset m i c; Some (Next m)) m.

(** The model without the blanks before it, up to the first blank. *)
Definition model_text (id : list Z) : option (list Z) :=
  cs ← model_chars id;
  m ← while_up 40 (λ m, match aget m 0 with Some c => c =? 32 | None => false end) shift_model
    ((blank_char <$> cs) ++ [0]);
  for_up 0 41
    (λ i m, c ← aget m i;
       if (c =? 0) || (c =? 32) then m ← aset m i 0; Some (Break m) else Some (Next m)) m.

(** The number of sectors in the answer of the device. *)
Definition id_sectors (id : list Z) : option Z :=
  w60 ← aget id 60; w61 ← aget id 61; w1 ← aget id 1; w3 ← aget id 3; w6 ← aget id 6;
  let total := Z.lor w60 (Z.shiftl w61 32) in
  let total :=
    if (total =? 0) || (0x0FFFFFFF <? total)
    then Z.lor (Z.lor w1 (Z.shiftl w3 16)) (Z.shiftl w6 32) else total in
  Some (if 0x0FFFFFFF <? total then 0x0FFFFFFF else total).

(** The sectors and the model of a drive, or nothing when there is none. *)
Definition ata_identify (drv : Z) (d : D) : option (option (Z * list Z) * D) :=
  let d := ata_drain (ata_select drv 0 d) in
  let d := outb 0x1F5 0 (outb 0x1F4 0 (outb 0x1F3 0 (outb 0x1F2 0 d))) in
  let d := outb ATA_STATUS 0xEC d in
  let '(st, d) := ata_status d in
  if st =? 0xFF then Some (None, d)
  else if st =? 0 then Some (None, d)
  else
    let '(r, d) := ata_wait 0x58 0x80 ATA_SPIN d in
    if negb (r =? 1) then
      let d := (inb 0x1F4 d).2 in
      Some (None, (inb 0x1F5 d).2)
    else
      let '(id, d) := in_words 256 d in
      w0 ← aget id 0;
      if negb (Z.land w0 0x8000 =? 0) then Some (None, d)
      else
        total ← id_sectors id;
        model ← model_text id;
        Some (Some (total, model), d).

Definition qizo_ata_probe (d : D) : bool * D :=
  let '(v, d) := inb ATA_STATUS d in
  if v =? 0xFF then let '(v, d) := inb 0x177 d in (negb (v =? 0xFF), d) else (true, d).

(** One round of [qizo_ata_start]. *)
Definition start_drive (drv : Z) (a : ata) (d : D) : option (ata * D) :=
  m ← aget (drive_model a) drv;
  m ← aset m 0 0;
  models ← aset (drive_model a) drv m;
  '(r, d) ← ata_identify drv d;
  match r with
  | Some (total, model) =>
      sectors ← aset (drive_sectors a) drv total;
      models ← aset models drv model;
      ok ← aset (drive_ok a) drv true;
      Some (set_drive a ok sectors models true, d)
  | None =>
      sectors ← aset (drive_sectors a) drv 0;
      Some (set_drive a (drive_ok a) sectors models (ata_live a), d)
  end.

Definition qizo_ata_start (a : ata) (d : D) : option (ata * D) :=
  '(a, d) ← start_drive 0 a d;
  '(a, d) ← start_drive 1 a d;
  Some (a, ata_select 0 0 d).

(** The sectors that a read still has to take from the device: whether all came,
    and what was written to memory. *)
Fixpoint read_loop (n : nat) (d : D) : bool * list Z * D :=
  match n with
  | O => (true, [], d)
  | S n =>
      let '(r, d) := ata_wait 0x58 (Z.lor 0x01 0x80) ATA_SPIN d in
      if negb (r =? 1) then (false, [], d)
      else
        let '(ws, d) := in_words 256 d in
        let '(ok, rest, d) := read_loop n d in
        (ok, word_bytes ws ++ rest, d)
  end.

(** The command that starts a read. *)
Definition read_command (drive lba count : Z) (d : D) : D :=
  let d := ata_select drive (u32 lba) d in
  let d := outb 0x1F2 (u8 count) d in
  let d := outb 0x1F3 (u8 lba) d in
  let d := outb 0x1F4 (u8 (Z.shiftr lba 8)) d in
  let d := outb 0x1F5 (u8 (Z.shiftr lba 16)) d in
  outb ATA_STATUS 0x20 d.

(** What was written to the destination comes with the answer. *)
Definition qizo_ata_read_drive (drive lba count : Z) (a : ata) (d : D) : option (bool * list Z * (ata * D)) :=
  if 1 <? drive then Some (false, [], (a, d)) else
  ok ← aget (drive_ok a) drive;
  if negb ok then Some (false, [], (a, d))
  else if (count =? 0) || (16 <? count) then Some (false, [], (a, d))
  else
    sectors ← aget (drive_sectors a) drive;
    if sectors <? u64 (lba + count) then Some (false, [], (a, d))
    else
      let '(ok, out, d) := read_loop (Z.to_nat count) (read_command drive lba count d) in
      if ok : bool
      then Some (true, out, (set_counts a (u32 (ata_reads a + 1)) (ata_errors a) (u64 (ata_blocks a + count)), d))
      else Some (false, out, (set_counts a (ata_reads a) (u32 (ata_errors a + 1)) (ata_blocks a), d)).

Definition qizo_ata_read (lba count : Z) (a : ata) (d : D) := qizo_ata_read_drive 0 lba count a d.
End driver.

(** What the rest of the kernel asks the driver. *)
Definition qizo_ata_drive_count (a : ata) : option Z :=
  o0 ← aget (drive_ok a) 0; o1 ← aget (drive_ok a) 1;
  Some ((if o0 : bool then 1 else 0) + (if o1 : bool then 1 else 0)).

Definition qizo_ata_sectors (a : ata) : option Z := aget (drive_sectors a) 0.

Definition qizo_ata_drive_sectors (drv : Z) (a : ata) : option (option Z) :=
  if 1 <? drv then Some None else
  ok ← aget (drive_ok a) drv;
  if negb ok then Some None else Some <$> aget (drive_sectors a) drv.

Definition qizo_ata_drive_model (drv : Z) (a : ata) : option (list Z) :=
  if 1 <? drv then Some [] else
  ok ← aget (drive_ok a) drv;
  if negb ok then Some [] else m ← aget (drive_model a) drv; str_at m.

Definition qizo_ata_model (a : ata) : option (list Z) :=
  m ← aget (drive_model a) 0; c ← aget m 0;
  if negb (c =? 0) then str_at m else Some (chars "ata disk").

Definition qizo_ata_detail (a : ata) : option (list Z) :=
  ok ← aget (drive_ok a) 0;
  if negb ok then Some (chars "no ata drive") else qizo_ata_model a.

(** ** Reading *)

(** What the registers of the device name: a drive, a block address of 28 bits. *)
Definition reg_drive (reg : Z → Z) : Z := reg 0x1F6 / 16 mod 2.
Definition reg_lba (reg : Z → Z) : Z :=
  reg 0x1F3 + 256 * reg 0x1F4 + 65536 * reg 0x1F5 + 2 ^ 24 * (reg 0x1F6 mod 16).

(** A device that answers as the ATA commands are documented: [content] are the
    words on a drive, [reg] what was written to its registers, and [transfer n ws]
    says that the device still hands out [ws], and that the next of them is ready
    after [n] readings of the status.  The command 0x20 starts the transfer of the
    sectors that the registers name, in block addressing (bit 6 of 0x1F6); the
    command 0xEC that of the 256 words which describe the drive, 60 and 61 of which
    are its size.  A drive that is not there has the status 0. *)
Class IdeDisk (D : Type) `{Ports D} := {
  content : D → Z → list Z;
  reg : D → Z → Z;
  transfer : nat → list Z → D → Prop;
  transfer_wait n ws d :
    transfer (S n) ws d → let '(v, d') := inb ATA_ALT d in
    v ≠ 0xFF ∧ v ≠ 0 ∧ (Z.land v 0x80 ≠ 0 ∨ Z.land v 0x58 ≠ 0x58) ∧ transfer n ws d' ∧ content d' = content d;
  transfer_ready ws d :
    transfer 0 ws d → ws ≠ [] → let '(v, d') := inb ATA_ALT d in
    v ≠ 0xFF ∧ Z.land v 0x81 = 0 ∧ Z.land v 0x58 = 0x58 ∧ transfer 0 ws d' ∧ content d' = content d;
  transfer_word w ws d :
    transfer 0 (w :: ws) d → let '(v, d') := inw ATA_CTRL d in
    v = w ∧ content d' = content d ∧
    ∃ n, (n < ATA_SPIN)%nat ∧ transfer n ws d' ∧ (len ws mod 256 ≠ 0 → n = O);
  write_reg p v d :
    0x1F2 ≤ p ≤ 0x1F6 →
    content (outb p v d) = content d ∧ ∀ q, reg (outb p v d) q = if q =? p then v else reg d q;
  read_sectors d :
    let count := reg d 0x1F2 in
    let lba := reg_lba (reg d) in
    let words := content d (reg_drive (reg d)) in
    Z.testbit (reg d 0x1F6) 6 = true → 0 ≤ lba → 1 ≤ count ≤ 255 → 256 * (lba + count) ≤ len words →
    let d' := outb ATA_STATUS 0x20 d in
    content d' = content d ∧
    ∃ n, (n < ATA_SPIN)%nat ∧
      transfer n (take (Z.to_nat (256 * count)) (drop (Z.to_nat (256 * lba)) words)) d';
  identify d :
    let words := content d (reg_drive (reg d)) in
    let d' := outb ATA_STATUS 0xEC d in
    content d' = content d ∧
    (words = [] → (inb ATA_ALT d').1 = 0 ∧ content (inb ATA_ALT d').2 = content d) ∧
    ∀ sectors, len words = 256 * sectors → 0 < sectors < 2 ^ 28 →
      ∃ n id, (n < ATA_SPIN)%nat ∧ transfer n id d' ∧ length id = 256%nat ∧
        (∃ w, aget id 0 = Some w ∧ Z.land w 0x8000 = 0) ∧
        aget id 60 = Some (sectors mod 65536) ∧ aget id 61 = Some (sectors / 65536);
  status_there d : content d 0 ≠ [] → (inb ATA_STATUS d).1 ≠ 0xFF;
  read_reg p d :
    0x1F1 ≤ p ≤ 0x1F7 → content (inb p d).2 = content d ∧ reg (inb p d).2 = reg d;
  other_port p v d :
    p < 0x1F0 ∨ 0x1F7 < p → p ≠ ATA_ALT → content (inb p d).2 = content d ∧ content (outb p v d) = content d;
}.

(** The byte that selects a drive. *)
Definition select_byte (drive h : Z) : Z := u8 (Z.lor (Z.lor 0xE0 (u8 (Z.shiftl drive 4))) (u8 (Z.land h 0x0F))).

Lemma select_value drive h :
  0 ≤ drive ≤ 1 → 0 ≤ h < 16 →
  select_byte drive h mod 16 = h ∧ select_byte drive h / 16 mod 2 = drive ∧ Z.testbit (select_byte drive h) 6 = true.
Proof.
  intros Hd Hh. assert (Forall (λ d, Forall (λ h, select_byte d h mod 16 = h ∧ select_byte d h / 16 mod 2 = d ∧
    Z.testbit (select_byte d h) 6 = true) (seqZ 0 16)) [0; 1]) as Hall by (apply (bool_decide_unpack _); by vm_compute).
  rewrite list.Forall_forall in Hall. assert (drive ∈ [0; 1]) as Hin by (rewrite !elem_of_cons; lia).
  specialize (Hall _ Hin). rewrite list.Forall_forall in Hall. apply Hall, elem_of_seqZ. lia.
Qed.

(** The registers hold the block address. *)
Lemma lba_parts lba :
  0 ≤ lba < 2 ^ 28 →
  u8 lba + 256 * u8 (Z.shiftr lba 8) + 65536 * u8 (Z.shiftr lba 16) + 2 ^ 24 * Z.shiftr lba 24 = lba.
Proof.
  intros H. rewrite !Z.shiftr_div_pow2 by lia. unfold u8. change (2 ^ 8) with 256. change (2 ^ 16) with 65536. change (2 ^ 24) with 16777216.
  pose proof (Z.div_mod lba 256 ltac:(lia)). pose proof (Z.div_mod (lba / 256) 256 ltac:(lia)).
  pose proof (Z.div_mod (lba / 65536) 256 ltac:(lia)).
  assert (lba / 65536 = lba / 256 / 256) by (rewrite Z.div_div by lia; done).
  assert (lba / 16777216 = lba / 65536 / 256) by (rewrite Z.div_div by lia; done). lia.
Qed.

Section reading.
Context {D : Type} `{IdeDisk D}.

(** The registers before a read, and the read. *)
Lemma read_starts drive lba count d :
  0 ≤ drive ≤ 1 → 0 ≤ lba → 1 ≤ count ≤ 16 → 256 * (lba + count) ≤ len (content d drive) → lba + count ≤ 2 ^ 28 →
  content (read_command drive lba count d) = content d ∧
  ∃ n, (n < ATA_SPIN)%nat ∧
    transfer n (take (Z.to_nat (256 * count)) (drop (Z.to_nat (256 * lba)) (content d drive))) (read_command drive lba count d).
Proof.
  intros Hd Hl Hc Hlen Hmax. unfold read_command, ata_select. rewrite (u32_small lba) by lia.
  assert (0 ≤ Z.shiftr lba 24 < 16) as Hh.
  { rewrite Z.shiftr_div_pow2 by lia. split; [apply Z.div_pos; lia|apply Z.div_lt_upper_bound; lia]. }
  fold (select_byte drive (Z.shiftr lba 24)). destruct (select_value drive (Z.shiftr lba 24) Hd Hh) as (V1 & V2 & V3).
  destruct (write_reg 0x1F6 (select_byte drive (Z.shiftr lba 24)) d) as [C1 R1]; [lia|]. set (d1 := outb 0x1F6 _ d) in *.
  destruct (write_reg 0x1F2 (u8 count) d1) as [C2 R2]; [lia|]. set (d2 := outb 0x1F2 _ d1) in *.
  destruct (write_reg 0x1F3 (u8 lba) d2) as [C3 R3]; [lia|]. set (d3 := outb 0x1F3 _ d2) in *.
  destruct (write_reg 0x1F4 (u8 (Z.shiftr lba 8)) d3) as [C4 R4]; [lia|]. set (d4 := outb 0x1F4 _ d3) in *.
  destruct (write_reg 0x1F5 (u8 (Z.shiftr lba 16)) d4) as [C5 R5]; [lia|]. set (d5 := outb 0x1F5 _ d4) in *.
  assert (reg d5 0x1F6 = select_byte drive (Z.shiftr lba 24)) as E6 by (by rewrite R5, R4, R3, R2, R1).
  assert (reg d5 0x1F2 = count) as E2 by (rewrite R5, R4, R3, R2; apply u8_small; lia).
  assert (reg_lba (reg d5) = lba) as El.
  { unfold reg_lba. rewrite E6, V1. replace (reg d5 0x1F3) with (u8 lba) by (by rewrite R5, R4, R3).
    replace (reg d5 0x1F4) with (u8 (Z.shiftr lba 8)) by (by rewrite R5, R4).
    replace (reg d5 0x1F5) with (u8 (Z.shiftr lba 16)) by (by rewrite R5). apply lba_parts. lia. }
  assert (reg_drive (reg d5) = drive) as Ed by (unfold reg_drive; by rewrite E6).
  assert (content d5 = content d) as Ec by congruence.
  pose proof (read_sectors d5) as Hr. cbv zeta in Hr. rewrite E6, E2, El, Ed, Ec in Hr. by apply Hr; [|done|lia|].
Qed.

(** The wait loop ends with 1, whether it gives up on an error (0x81) or not. *)
Lemma wait_ready n spins avoid ws d :
  transfer n ws d → ws ≠ [] → (n < spins)%nat → avoid = 0x80 ∨ avoid = 0x81 →
  ∃ d', ata_wait 0x58 avoid spins d = (1, d') ∧ transfer 0 ws d' ∧ content d' = content d.
Proof.
  intros Ht Hws Hn Hav. assert (∀ v, Z.land v 0x81 = 0 → Z.land v 0x80 = 0) as H80.
  { intros v E. change 0x80 with (Z.land 0x81 0x80). by rewrite Z.land_assoc, E. }
  unfold ata_wait. revert n d Ht Hn. induction spins as [|spins IH]; intros n d Ht Hn; [lia|]. cbn [spin]. destruct n as [|n].
  - pose proof (transfer_ready ws d Ht Hws) as Hr. destruct (inb ATA_ALT d) as [v d'].
    destruct Hr as (Hv & Ha & Hw & Ht' & Hc). rewrite (proj2 (Z.eqb_neq v 0xFF)) by done.
    assert (Z.land v avoid = 0) as -> by (destruct Hav as [-> | ->]; auto). rewrite Hw. by exists d'.
  - pose proof (transfer_wait n ws d Ht) as Hr. destruct (inb ATA_ALT d) as [v d1].
    destruct Hr as (Hv & _ & Ha & Ht' & Hc). rewrite (proj2 (Z.eqb_neq v 0xFF)) by done.
    destruct (IH n d1 Ht' ltac:(lia)) as (d' & E & ? & ?). exists d'. split; [|split; [done|congruence]].
    destruct Ha as [Ha|Ha].
    + assert (Z.land v avoid ≠ 0) as Hne by (destruct Hav as [-> | ->]; [done|by intros E0%H80]).
      by rewrite (proj2 (Z.eqb_neq _ 0) Hne).
    + destruct (negb (Z.land v avoid =? 0)); [done|]. by rewrite (proj2 (Z.eqb_neq _ 0x58) Ha).
Qed.

(** A sector from the data port. *)
Lemma in_words_spec l ws d :
  transfer 0 (l ++ ws) d → len ws mod 256 = 0 → (length l ≤ 256)%nat → l ≠ [] →
  ∃ d' n, in_words (length l) d = (l, d') ∧ content d' = content d ∧ (n < ATA_SPIN)%nat ∧ transfer n ws d'.
Proof.
  intros Ht Hws Hl Hne. revert d Ht. induction l as [|w l IH]; intros d Ht; [done|]. cbn [length in_words app] in *.
  pose proof (transfer_word w (l ++ ws) d Ht) as Hr. destruct (inw ATA_CTRL d) as [v d1].
  destruct Hr as (-> & Hc & n & Hn & Ht1 & Hn0). destruct l as [|w' l]; [by exists d1, n|].
  assert (n = O) as ->.
  { apply Hn0. rewrite length_app, Nat2Z.inj_add, Z.add_mod, Hws, Z.add_0_r, Z.mod_mod by lia.
    rewrite Z.mod_small by (cbn [length] in *; lia). cbn [length]. lia. }
  destruct (IH ltac:(cbn [length] in *; lia) ltac:(done) d1 Ht1) as (d' & n & -> & Hc' & ? & ?).
  exists d', n. split; [done|]. split; [congruence|done].
Qed.

Lemma read_loop_spec count ws n d :
  transfer n ws d → (n < ATA_SPIN)%nat → length ws = (256 * count)%nat →
  ∃ d', read_loop count d = (true, word_bytes ws, d') ∧ content d' = content d.
Proof.
  revert n ws d. induction count as [|count IH]; intros n ws d Ht Hn Hl; cbn [read_loop].
  { destruct ws; [|cbn in Hl; lia]. by exists d. }
  destruct (wait_ready n ATA_SPIN 0x81 ws d Ht) as (d1 & E & Ht1 & Hc1); [by intros ->; cbn in Hl; lia|done|by right|].
  change (Z.lor 0x01 0x80) with 0x81. rewrite E. cbn [Z.eqb Pos.eqb negb]. rewrite <-(take_drop 256 ws) in Ht1 |- *.
  assert (length (take 256 ws) = 256%nat) as H256 by (rewrite length_take; lia).
  destruct (in_words_spec (take 256 ws) (drop 256 ws) d1 Ht1) as (d2 & n2 & E2 & Hc2 & Hn2 & Ht2).
  { rewrite length_drop, Hl. replace (Z.of_nat (256 * S count - 256)) with (Z.of_nat count * 256) by lia. apply Z.mod_mul. lia. }
  { lia. }
  { intros E'. by rewrite E' in H256. }
  rewrite H256 in E2. rewrite E2. destruct (IH n2 (drop 256 ws) d2 Ht2 Hn2) as (d3 & -> & Hc3); [rewrite length_drop; lia|].
  exists d3. rewrite word_bytes_app. split; [done|congruence].
Qed.

(** The bytes of a sector range on a drive. *)
Definition disk_bytes (d : D) (drive : Z) : list Z := word_bytes (content d drive).

Lemma word_bytes_length ws : length (word_bytes ws) = (2 * length ws)%nat.
Proof. unfold word_bytes. induction ws as [|w ws IH]; [done|]. cbn [mbind list_bind]. rewrite length_app, IH. cbn. lia. Qed.

Lemma word_bytes_take ws n : word_bytes (take n ws) = take (2 * n) (word_bytes ws).
Proof.
  revert ws. induction n as [|n IH]; intros [|w ws]; [done..|]. cbn [take]. unfold word_bytes in *. cbn [mbind list_bind].
  replace (2 * S n)%nat with (S (S (2 * n))) by lia. cbn [app take]. by rewrite IH.
Qed.

Lemma word_bytes_drop ws n : word_bytes (drop n ws) = drop (2 * n) (word_bytes ws).
Proof.
  revert ws. induction n as [|n IH]; intros [|w ws]; [done..|]. cbn [drop]. unfold word_bytes in *. cbn [mbind list_bind].
  replace (2 * S n)%nat with (S (S (2 * n))) by lia. cbn [app drop]. by rewrite IH.
Qed.

(** The driver knows the drive, and believes it no larger than it is. *)
Definition drive_known (a : ata) (d : D) (drive sectors : Z) : Prop :=
  aget (drive_ok a) drive = Some true ∧ aget (drive_sectors a) drive = Some sectors ∧
  0 ≤ sectors ≤ 0x0FFFFFFF ∧ 256 * sectors ≤ len (content d drive).

(** A read of up to 16 sectors that are on the drive gives their bytes, and
    counts. *)
Lemma read_drive_spec a d drive sectors lba count :
  drive_known a d drive sectors → 0 ≤ drive ≤ 1 → 0 ≤ lba → 1 ≤ count ≤ 16 → lba + count ≤ sectors →
  ∃ d', qizo_ata_read_drive drive lba count a d =
    Some (true, slice (disk_bytes d drive) (512 * lba) (512 * (lba + count)),
      (set_counts a (u32 (ata_reads a + 1)) (ata_errors a) (u64 (ata_blocks a + count)), d')) ∧
    content d' = content d.
Proof.
  intros (Eok & Es & Hs & Hlen) Hd Hl Hc Hsum. unfold qizo_ata_read_drive. rewrite Eok, Es. cbn [mbind option_bind negb].
  rw_bool. rewrite u64_small by lia. rw_bool.
  destruct (read_starts drive lba count d) as (Hc1 & n & Hn & Ht); [done|done|done|lia|lia|].
  set (ws := take _ _) in Ht.
  destruct (read_loop_spec (Z.to_nat count) ws n _ Ht Hn) as (d' & -> & Hc'); [unfold ws; rewrite length_take, length_drop; lia|].
  exists d'. split; [|congruence]. do 4 f_equal. unfold ws, disk_bytes. rewrite word_bytes_take, word_bytes_drop.
  rewrite slice_eq by (rewrite ?word_bytes_length; lia). f_equal; [lia|]. f_equal. lia.
Qed.

(** Nothing, more than 16 sectors, or sectors the driver does not know of are
    refused without a word to the device. *)
Lemma read_drive_refuses a d drive sectors lba count :
  drive_known a d drive sectors → 0 ≤ drive ≤ 1 → 0 ≤ lba → 0 ≤ count → lba + count < 2 ^ 64 →
  count = 0 ∨ 16 < count ∨ sectors < lba + count →
  qizo_ata_read_drive drive lba count a d = Some (false, [], (a, d)).
Proof.
  intros (Eok & Es & Hs & Hlen) Hd Hl Hc Hsum Hno. unfold qizo_ata_read_drive. rewrite Eok, Es. cbn [mbind option_bind negb].
  rewrite u64_small by lia. rw_bool. destruct ((count =? 0) || (16 <? count)) eqn:E; [done|].
  apply orb_false_iff in E as [?%Z.eqb_neq ?%Z.ltb_ge]. by rw_bool.
Qed.
End reading.

(** ** Finding the drives *)

Lemma aget_app_l (l r : list Z) i : i < len l → aget (l ++ r) i = aget l i.
Proof. intros. unfold aget. case_bool; [|done]. by rewrite lookup_app_l by lia. Qed.

Lemma shift_model_spec m : len m = 41 → shift_model m = Some (drop 1 m ++ drop 40 m).
Proof.
  intros Hm. assert (safe (shift_model m) (λ m', m' = drop 1 m ++ drop 40 m)) as Hs;
    [|by destruct (shift_model m); [rewrite Hs|]].
  eapply safe_mono; [apply (safe_for_all (λ i m', m' = take (Z.to_nat i) (drop 1 m) ++ drop (Z.to_nat i) m)); [lia| |done]|].
  - intros i m' Hi ->. destruct (lookup_lt_is_Some_2 m (Z.to_nat (i + 1))) as [c Hc]; [lia|].
    assert (length (take (Z.to_nat i) (drop 1 m)) = Z.to_nat i) as Hl by list_lia.
    assert (drop (Z.to_nat i) m = drop (Z.to_nat i) m) as Hd by done.
    destruct (lookup_lt_is_Some_2 m (Z.to_nat i)) as [x Hx]; [lia|].
    rewrite (drop_S _ x _ Hx) in *. replace (S (Z.to_nat i)) with (Z.to_nat (i + 1)) in * by lia.
    rewrite (drop_S _ c _ Hc). unfold aget, aset. rewrite !length_app, Hl. cbn [length]. rw_bool.
    rewrite lookup_app_r by lia. rewrite Hl. replace (Z.to_nat (i + 1) - Z.to_nat i)%nat with 1%nat by lia.
    cbn [lookup list_lookup mbind option_bind]. rw_bool. cbn [mbind option_bind safe step_to].
    rewrite insert_app_r_alt, Hl, Nat.sub_diag by lia. cbn [insert list_insert].
    replace (Z.to_nat (i + 1)) with (S (Z.to_nat i)) by lia. rewrite (take_S_r (drop 1 m) _ c).
    + rewrite <-(assoc_L (++)). cbn [app]. by rewrite <-(drop_S m c (S (Z.to_nat i))) by (rewrite <-Hc; f_equal; lia).
    + rewrite lookup_drop, <-Hc. f_equal. lia.
  - intros m' ->. change (Z.to_nat 40) with 40%nat. by rewrite (take_ge (drop 1 m)) by (rewrite length_drop; lia).
Qed.

(** The array [model] with the text [t] at its start. *)
Definition held (t : list Z) : list Z := t ++ replicate (41 - length t) 0.
Definition printing (t : list Z) : Prop := ∀ c, c ∈ t → 32 ≤ c ≤ 126.

Lemma model_chars_ok id : len id = 256 → safe (model_chars id) (λ cs, length cs = 40%nat).
Proof.
  intros Hl. unfold model_chars. set (f := λ i, _). assert (is_Some (mapM f (range 0 40))) as [cs E].
  { apply mapM_is_Some_2, list.Forall_forall. intros i Hi%elem_of_range. change (is_Some (f i)). unfold f.
    assert (0 ≤ Z.shiftr i 1 < 20).
    { rewrite Z.shiftr_div_pow2 by lia. split; [apply Z.div_pos; lia|apply Z.div_lt_upper_bound; lia]. }
    destruct (aget_Some id (27 + Z.shiftr i 1)) as [w Hw]; [lia|]. rewrite Hw. by eexists. }
  rewrite E. cbn [safe]. apply mapM_Some, Forall2_length in E. rewrite <-E. apply range_length.
Qed.

Lemma held_count t : length (filter (λ c : Z, c ≠ 0) (held t)) = length (filter (λ c : Z, c ≠ 0) t).
Proof.
  unfold held. rewrite list.filter_app, length_app.
  assert (∀ n, filter (λ c : Z, c ≠ 0) (replicate n 0) = []) as ->; [|cbn [length]; lia].
  induction n; [done|]. cbn [replicate]. rewrite filter_cons_False; [done|]. intros Hn. by apply Hn.
Qed.

Lemma strip_blanks t :
  printing t → (length t ≤ 40)%nat →
  safe (while_up 40 (λ m, match aget m 0 with Some c => c =? 32 | None => false end) shift_model (held t))
    (λ m, ∃ t', m = held t' ∧ printing t' ∧ (length t' ≤ 40)%nat).
Proof.
  intros Hp Hl. apply (safe_while (λ m, ∃ t', m = held t' ∧ printing t' ∧ (length t' ≤ 40)%nat) _
    (λ m, length (filter (λ c, c ≠ 0) m))).
  - intros m (t' & -> & Hp' & Hl') Hc. destruct t' as [|x t']; [done|]. cbn [length] in Hl'.
    rewrite shift_model_spec by (unfold held; rewrite length_app, length_replicate; cbn [length]; lia).
    assert (drop 1 (held (x :: t')) ++ drop 40 (held (x :: t')) = held t') as ->.
    { unfold held. cbn [length app drop]. replace (41 - S (length t'))%nat with (40 - length t')%nat by lia. rewrite drop_0.
      rewrite (drop_app_ge t' _ 39) by lia. rewrite drop_replicate, <-(assoc_L (++)), <-replicate_add.
      do 2 f_equal. lia. }
    assert (x ≠ 0) as Hx by (pose proof (Hp' x ltac:(apply list_elem_of_here)); lia). split.
    + exists t'. split; [done|]. split; [|lia]. intros c Hc'. apply Hp'. by apply list_elem_of_further.
    + rewrite !held_count, filter_cons_True by done. cbn [length]. lia.
  - intros m Hm _. done.
  - by exists t.
  - rewrite held_count. pose proof (length_filter (λ c : Z, c ≠ 0) t). lia.
Qed.

(** The loop that cuts the model at its first blank. *)
Lemma cut_model t :
  printing t → (length t ≤ 40)%nat →
  safe (for_up 0 41 (λ i m, c ← aget m i;
       if (c =? 0) || (c =? 32) then m ← aset m i 0; Some (Break m) else Some (Next m)) (held t))
    (λ m, len m = 41 ∧ ∃ name, str_at m = Some name ∧ ∀ c, c ∈ name → 33 ≤ c ≤ 126).
Proof.
  intros Hp Hl. assert (len (held t) = 41) as H41 by (unfold held; rewrite length_app, length_replicate; lia).
  apply (safe_for_up (λ i m, m = held t ∧ i ≤ len t ∧ ∀ c, c ∈ take (Z.to_nat i) t → 33 ≤ c ≤ 126)); [lia| | |].
  - intros i m Hi (-> & Hit & Hc). destruct (aget_Some (held t) i) as [x Hx]; [lia|]. rewrite Hx. cbn [mbind option_bind].
    destruct ((x =? 0) || (x =? 32)) eqn:E.
    + rewrite aset_Some by lia. cbn [mbind option_bind safe step_to]. split; [by rewrite length_insert|].
      exists (take (Z.to_nat i) t). split; [|done]. rewrite insert_take_drop by lia.
      unfold held at 1. rewrite take_app_le by lia. apply str_at_c_str. intros H0. specialize (Hc 0 H0). lia.
    + cbn [safe step_to]. apply orb_false_iff in E as [?%Z.eqb_neq ?%Z.eqb_neq].
      rewrite aget_lookup in Hx by lia. unfold held in Hx. destruct (Z.eq_dec i (len t)) as [->|].
      { rewrite Nat2Z.id, lookup_app_r, Nat.sub_diag in Hx by lia. apply lookup_replicate in Hx as [-> _]. done. }
      rewrite lookup_app_l in Hx by lia. split; [done|]. split; [lia|].
      replace (Z.to_nat (i + 1)) with (S (Z.to_nat i)) by lia. rewrite (take_S_r _ _ x Hx). intros c.
      rewrite elem_of_app, list_elem_of_singleton. intros [?| ->]; [by apply Hc|].
      pose proof (Hp x ltac:(by eapply list_elem_of_lookup_2)). lia.
  - intros m (_ & Hit & _). lia.
  - split; [done|]. split; [lia|]. by intros c ?%elem_of_nil.
Qed.

(** Whatever the device says its model is, the model the kernel keeps is a string
    of printing characters in its array; the loop over the blanks ends even when
    there is nothing else. *)
Theorem model_text_safe id :
  len id = 256 →
  safe (model_text id) (λ m, len m = 41 ∧ ∃ name, str_at m = Some name ∧ ∀ c, c ∈ name → 33 ≤ c ≤ 126).
Proof.
  intros Hl. apply safe_bind. eapply safe_mono; [by apply model_chars_ok|]. intros cs Hcs.
  assert ((blank_char <$> cs) ++ [0] = held (blank_char <$> cs)) as ->.
  { unfold held. by rewrite length_fmap, Hcs. }
  assert (printing (blank_char <$> cs)) as Hp.
  { intros c (x & -> & _)%list_elem_of_fmap. unfold blank_char. destruct ((x <? 32) || (126 <? x)) eqn:E; [lia|].
    apply orb_false_iff in E as [?%Z.ltb_ge ?%Z.ltb_ge]. lia. }
  apply safe_bind. eapply safe_mono; [apply strip_blanks; [done|by rewrite length_fmap, Hcs]|].
  intros m (t & -> & Ht & Hlt). by apply cut_model.
Qed.

Lemma model_text_safe_witness :
  len (replicate 256 0x2020) = 256 ∧ safe (model_text (replicate 256 0x2020)) (λ m, len m = 41).
Proof. split; [done|]. eapply safe_mono; [apply (model_text_safe (replicate 256 0x2020)); reflexivity|]. intros m [H _]. exact H. Defined.

(** The number of sectors: the upper word is put 16 bits too far up, so a drive of
    65536 sectors or more is taken for one of 268435455, or measured by its
    geometry. *)
Lemma id_sectors_large id w60 w61 w1 w3 w6 :
  aget id 60 = Some w60 → aget id 61 = Some w61 → aget id 1 = Some w1 → aget id 3 = Some w3 → aget id 6 = Some w6 →
  0 ≤ w60 < 65536 → 0 < w61 < 65536 → 0 ≤ w1 < 65536 → 0 ≤ w3 < 65536 → 0 < w6 < 65536 →
  id_sectors id = Some 0x0FFFFFFF.
Proof.
  intros E60 E61 E1 E3 E6 H60 H61 H1 H3 H6. unfold id_sectors. rewrite E60, E61, E1, E3, E6. cbn [mbind option_bind].
  assert (∀ a b, 0 ≤ a < 2 ^ 32 → 0 < b → 2 ^ 32 ≤ Z.lor a (Z.shiftl b 32)) as Hbig.
  { intros a b' Ha Hb. rewrite Z.lor_comm, lor_shiftl_add by lia. nia. }
  pose proof (Hbig w60 w61 ltac:(lia) ltac:(lia)).
  assert (0 ≤ Z.lor w1 (Z.shiftl w3 16) < 2 ^ 32) as Hlow.
  { rewrite Z.lor_comm, lor_shiftl_add by lia. lia. }
  pose proof (Hbig _ w6 Hlow ltac:(lia)). cbv zeta.
  rewrite (proj2 (Z.ltb_lt 0x0FFFFFFF (Z.lor w60 _))), orb_true_r by lia. by rewrite (proj2 (Z.ltb_lt _ _)) by lia.
Qed.

(** ** The start

    The drives that are there are found with the size they have, when it fits into
    16 bits. *)
Section starting.
Context {D : Type} `{IdeDisk D}.

Lemma drain_content (d : D) : content (ata_drain d) = content d ∧ reg (ata_drain d) = reg d.
Proof.
  unfold ata_drain. cbn [foldl]. repeat match goal with |- context [(inb ?p ?d').2] =>
    lazymatch d' with context [inb] => fail | _ => idtac end;
    let E := fresh "E" in destruct (read_reg p d') as [? E]; [lia|]; generalize dependent (inb p d').2; intros ? ? E end.
  split; congruence.
Qed.

(** The registers before the command: the drive is selected. *)
Definition identify_command (drv : Z) (d : D) : D :=
  outb 0x1F5 0 (outb 0x1F4 0 (outb 0x1F3 0 (outb 0x1F2 0 (ata_drain (ata_select drv 0 d))))).

Lemma identify_command_ok drv d :
  0 ≤ drv ≤ 1 → content (identify_command drv d) = content d ∧ reg_drive (reg (identify_command drv d)) = drv.
Proof.
  intros Hd. unfold identify_command, ata_select. change (Z.shiftr 0 24) with 0. fold (select_byte drv 0).
  destruct (write_reg 0x1F6 (select_byte drv 0) d) as [C1 R1]; [lia|]. set (d1 := outb 0x1F6 _ d) in *.
  destruct (drain_content d1) as [C2 R2]. set (d2 := ata_drain d1) in *.
  destruct (write_reg 0x1F2 0 d2) as [C3 R3]; [lia|]. set (d3 := outb 0x1F2 _ d2) in *.
  destruct (write_reg 0x1F3 0 d3) as [C4 R4]; [lia|]. set (d4 := outb 0x1F3 _ d3) in *.
  destruct (write_reg 0x1F4 0 d4) as [C5 R5]; [lia|]. set (d5 := outb 0x1F4 _ d4) in *.
  destruct (write_reg 0x1F5 0 d5) as [C6 R6]; [lia|]. split; [congruence|].
  unfold reg_drive. rewrite R6, R5, R4, R3, R2, R1. apply (select_value drv 0); lia.
Qed.

Lemma id_sectors_small id n w :
  aget id 0 = Some w → length id = 256%nat → 0 < n < 65536 →
  aget id 60 = Some (n mod 65536) → aget id 61 = Some (n / 65536) → id_sectors id = Some n.
Proof.
  intros _ Hl Hn E0 E1. unfold id_sectors. rewrite E0, E1, (Z.mod_small n), (Z.div_small n) by lia.
  destruct (aget_Some id 1) as [w1 ->]; [lia|]. destruct (aget_Some id 3) as [w3 ->]; [lia|].
  destruct (aget_Some id 6) as [w6 ->]; [lia|]. cbn [mbind option_bind]. rewrite Z.shiftl_0_l, Z.lor_0_r.
  assert ((268435455 <? n) = false) as E by lia. by rewrite (proj2 (Z.eqb_neq n 0)), orb_false_l, !E by lia.
Qed.

(** A drive of fewer than 65536 sectors is identified with its size. *)
Lemma identify_drive drv d n :
  0 ≤ drv ≤ 1 → len (content d drv) = 256 * n → 0 < n < 65536 →
  ∃ model d', ata_identify drv d = Some (Some (n, model), d') ∧ content d' = content d ∧ len model = 41.
Proof.
  intros Hd Hl Hn. unfold ata_identify. cbv zeta. fold (identify_command drv d).
  destruct (identify_command_ok drv d Hd) as [C1 R1]. set (d1 := identify_command drv d) in *.
  destruct (identify d1) as (C2 & _ & Hid). cbv zeta in *. rewrite R1, C1 in Hid. rewrite C1 in C2.
  set (d2 := outb ATA_STATUS 0xEC d1) in *.
  destruct (Hid n Hl) as (k & id & Hk & Ht & Hlen & (w & Hw & Hw15) & H60 & H61); [lia|]. unfold ata_status.
  assert (id ≠ []) as Hne by (by intros ->).
  assert (∃ k' d3, (k' < ATA_SPIN)%nat ∧ let '(st, d) := inb ATA_ALT d2 in
    d = d3 ∧ st ≠ 0xFF ∧ st ≠ 0 ∧ transfer k' id d3 ∧ content d3 = content d2) as (k' & d3 & Hk' & Hst).
  { destruct k as [|k].
    - pose proof (transfer_ready id d2 Ht Hne) as Hr. destruct (inb ATA_ALT d2) as [st d3]. exists O, d3.
      destruct Hr as (? & _ & Hd58 & ? & ?). split; [done|]. split; [done|]. split; [done|]. split; [|done].
      by intros ->.
    - pose proof (transfer_wait k id d2 Ht) as Hr. destruct (inb ATA_ALT d2) as [st d3]. exists k, d3. split; [lia|]. tauto. }
  destruct (inb ATA_ALT d2) as [st d3']. destruct Hst as (-> & Hff & Hst0 & Ht3 & C3).
  rewrite (proj2 (Z.eqb_neq _ _) Hff), (proj2 (Z.eqb_neq _ _) Hst0).
  destruct (wait_ready k' ATA_SPIN 0x80 id d3 Ht3 Hne Hk') as (d4 & -> & Ht4 & C4); [by left|].
  cbn [Z.eqb Pos.eqb negb]. rewrite <-(app_nil_r id) in Ht4.
  destruct (in_words_spec id [] d4 Ht4) as (d5 & n5 & E5 & C5 & _); [done|lia|done|]. rewrite Hlen in E5. rewrite E5.
  rewrite Hw. cbn [mbind option_bind]. rewrite Hw15. cbn [Z.eqb negb].
  rewrite (id_sectors_small id n w) by done. cbn [mbind option_bind].
  pose proof (model_text_safe id ltac:(lia)) as Hm. destruct (model_text id) as [model|]; [|done]. destruct Hm as [Hm _].
  cbn [mbind option_bind]. exists model, d5. split; [done|]. split; [congruence|done].
Qed.

(** A drive that is not there is not found. *)
Lemma identify_none drv d :
  0 ≤ drv ≤ 1 → content d drv = [] → ∃ d', ata_identify drv d = Some (None, d') ∧ content d' = content d.
Proof.
  intros Hd Hl. unfold ata_identify. cbv zeta. fold (identify_command drv d).
  destruct (identify_command_ok drv d Hd) as [C1 R1]. set (d1 := identify_command drv d) in *.
  destruct (identify d1) as (C2 & Hno & _). cbv zeta in *. rewrite R1, C1 in Hno. rewrite C1 in C2.
  destruct (Hno Hl) as [E C3]. unfold ata_status. destruct (inb ATA_ALT _) as [st d3]. cbn [fst snd] in *. subst st.
  exists d3. split; [done|congruence].
Qed.

(** A drive answers the probe. *)
Lemma probe_there d : content d 0 ≠ [] → ∃ d', qizo_ata_probe d = (true, d') ∧ content d' = content d.
Proof.
  intros Hd. unfold qizo_ata_probe. pose proof (status_there d Hd) as Hst. destruct (read_reg ATA_STATUS d) as [Hc _]; [done|].
  destruct (inb ATA_STATUS d) as [v d1]. cbn [fst snd] in *. rewrite (proj2 (Z.eqb_neq _ _) Hst). by exists d1.
Qed.

(** The variables before the start. *)
Record fresh (a : ata) : Prop := {
  fr_ok : drive_ok a = [false; false];
  fr_sectors : len (drive_sectors a) = 2;
  fr_model : len (drive_model a) = 2 ∧ ∀ m, m ∈ drive_model a → len m = 41;
}.

(** One drive: after the start the kernel knows it, with its size. *)
Lemma start_one_drive a d n :
  fresh a → len (content d 0) = 256 * n → 0 < n < 65536 → content d 1 = [] →
  ∃ a' d', qizo_ata_start a d = Some (a', d') ∧ content d' = content d ∧ ata_live a' = true ∧ drive_known a' d' 0 n ∧
    aget (drive_ok a') 1 = Some false.
Proof.
  intros [Ho Hs [Hm Hmm]] Hl Hn H1. unfold qizo_ata_start.
  destruct (drive_model a) as [|m0 [|m1 [|? ?]]] eqn:Em; cbn [length] in Hm; try lia.
  destruct (drive_sectors a) as [|s0 [|s1 [|? ?]]] eqn:Es; cbn [length] in Hs; try lia.
  assert (len m0 = 41 ∧ len m1 = 41) as [Hm0 Hm1] by (split; apply Hmm; rewrite ?Em; [by left|right; by left]).
  destruct (identify_drive 0 d n) as (model & d1 & E1 & C1 & _); [lia|done|done|].
  destruct (identify_none 1 d1) as (d2 & E2 & C2); [lia|by rewrite C1|].
  set (a1 := set_drive a [true; false] [n; s1] [model; m1] true).
  assert (start_drive 0 a d = Some (a1, d1)) as ->.
  { unfold start_drive. rewrite Em. change (aget [m0; m1] 0) with (Some m0). cbn [mbind option_bind].
    rewrite (aset_Some m0) by lia. cbn [mbind option_bind]. set (m0' := <[Z.to_nat 0 := 0]> m0).
    change (aset [m0; m1] 0 m0') with (Some [m0'; m1]). cbn [mbind option_bind]. rewrite E1. cbn [mbind option_bind].
    by rewrite Es, Ho. }
  cbn [mbind option_bind]. set (m1' := <[Z.to_nat 0 := 0]> m1).
  assert (start_drive 1 a1 d1 = Some (set_drive a1 [true; false] [n; 0] [model; m1'] true, d2)) as ->.
  { unfold start_drive. change (aget (drive_model a1) 1) with (Some m1). cbn [mbind option_bind].
    rewrite (aset_Some m1) by lia. cbn [mbind option_bind]. change (<[Z.to_nat 0 := 0]> m1) with m1'.
    change (aset (drive_model a1) 1 m1') with (Some [model; m1']). cbn [mbind option_bind]. by rewrite E2. }
  cbn [mbind option_bind].
  unfold ata_select. destruct (write_reg 0x1F6 (u8 (Z.lor (Z.lor 0xE0 (u8 (Z.shiftl 0 4))) (u8 (Z.land (Z.shiftr 0 24) 0x0F)))) d2) as [C3 _]; [lia|].
  eexists _, _. split; [reflexivity|]. split; [congruence|]. split; [done|]. split; [|done].
  split; [done|]. split; [done|]. split; [lia|]. rewrite C3, C2, C1, Hl. lia.
Qed.
End starting.

(** ** A simulated drive

    A device that is busy for one reading of the status before each sector. *)
Module Sim.

Record sim := Dev {
  sel : Z; cnt : Z; lba0 : Z; lba1 : Z; lba2 : Z;
  pending : list Z;
  busy : bool;
  words : list Z;
}.

Definition sim_content (d : sim) (drive : Z) : list Z :=
  if drive =? 0 then (λ w, w mod 65536) <$> words d else [].

Definition sim_reg (d : sim) (p : Z) : Z :=
  if p =? 0x1F2 then cnt d else if p =? 0x1F3 then lba0 d else if p =? 0x1F4 then lba1 d
  else if p =? 0x1F5 then lba2 d else if p =? 0x1F6 then sel d else 0.

Definition sim_load (d : sim) : list Z :=
  take (Z.to_nat (256 * cnt d)) (drop (Z.to_nat (256 * reg_lba (sim_reg d))) (sim_content d (reg_drive (sim_reg d)))).

(** What the command 0xEC hands out. *)
Definition sim_id (d : sim) : list Z :=
  let n := len (sim_content d (reg_drive (sim_reg d))) / 256 in
  [0x40] ++ replicate 59 0x2020 ++ [n mod 65536; n / 65536 mod 65536] ++ replicate 194 0.

Definition sim_inb (p : Z) (d : sim) : Z * sim :=
  if p =? ATA_ALT then
    if bool_decide (sim_content d (reg_drive (sim_reg d)) = []) then (0, d)
    else if busy d then (0x80, Dev (sel d) (cnt d) (lba0 d) (lba1 d) (lba2 d) (pending d) false (words d))
    else (if bool_decide (pending d = []) then 0x50 else 0x58, d)
  else (0, d).

Definition sim_inw (p : Z) (d : sim) : Z * sim :=
  match pending d with
  | w :: ws =>
      if (p =? ATA_CTRL) && (0 <=? w) && (w <? 65536)
      then (w, Dev (sel d) (cnt d) (lba0 d) (lba1 d) (lba2 d) ws (len ws mod 256 =? 0) (words d))
      else (0, d)
  | [] => (0, d)
  end.

Definition sim_outb (p v : Z) (d : sim) : sim :=
  let 'Dev s c l0 l1 l2 ps bs ws := d in
  if p =? 0x1F6 then Dev v c l0 l1 l2 ps bs ws
  else if p =? 0x1F2 then Dev s v l0 l1 l2 ps bs ws
  else if p =? 0x1F3 then Dev s c v l1 l2 ps bs ws
  else if p =? 0x1F4 then Dev s c l0 v l2 ps bs ws
  else if p =? 0x1F5 then Dev s c l0 l1 v ps bs ws
  else if (p =? ATA_STATUS) && (v =? 0x20) then Dev s c l0 l1 l2 (sim_load d) true ws
  else if (p =? ATA_STATUS) && (v =? 0xEC) then Dev s c l0 l1 l2 (sim_id d) true ws
  else d.

#[export] Instance sim_ports : Ports sim.
Proof.
  refine {| inb := sim_inb; inw := sim_inw; outb := sim_outb |}.
  - intros p d. unfold sim_inb. repeat case_match; cbn; lia.
  - intros p d. unfold sim_inw. repeat case_match; cbn [fst]; try lia.
Defined.

Definition sim_selected (d : sim) : list Z := sim_content d (reg_drive (sim_reg d)).

Definition sim_transfer (n : nat) (ws : list Z) (d : sim) : Prop :=
  pending d = ws ∧ n = (if busy d then 1%nat else 0%nat) ∧ sim_selected d ≠ [] ∧ Forall (λ w, 0 ≤ w < 65536) ws.

Lemma sim_words d drive : Forall (λ w, 0 ≤ w < 65536) (sim_content d drive).
Proof.
  unfold sim_content. case_match; [|constructor]. apply list.Forall_forall.
  intros w (x & -> & _)%list_elem_of_fmap. by apply Z.mod_pos_bound.
Qed.

Lemma sim_id_ok d sectors :
  len (sim_selected d) = 256 * sectors → 0 < sectors < 2 ^ 28 →
  length (sim_id d) = 256%nat ∧ Forall (λ w, 0 ≤ w < 65536) (sim_id d) ∧
  aget (sim_id d) 60 = Some (sectors mod 65536) ∧ aget (sim_id d) 61 = Some (sectors / 65536).
Proof.
  intros Hl Hs. unfold sim_id. fold (sim_selected d). rewrite Hl.
  replace (256 * sectors / 256) with sectors by (rewrite Z.mul_comm; symmetry; by apply Z.div_mul).
  pose proof (Z.mod_pos_bound sectors 65536 ltac:(lia)).
  assert (0 ≤ sectors / 65536 < 65536) by (split; [apply Z.div_pos; lia|apply Z.div_lt_upper_bound; lia]).
  rewrite (Z.mod_small (sectors / 65536)) by lia. split; [done|]. split; [|done].
  rewrite !list.Forall_app. repeat split; first [by repeat constructor; lia | by apply list.Forall_replicate].
Qed.

#[export] Instance sim_disk : IdeDisk sim.
Proof.
  refine {| content := sim_content; reg := sim_reg; transfer := sim_transfer |}.
  - intros n ws [s c l0 l1 l2 ps bs w] (E & En & Hne & Hf). cbn [pending busy] in *. destruct bs; [|done]. injection En as ->.
    cbn [inb sim_ports]. unfold sim_inb. change (ATA_ALT =? ATA_ALT) with true. cbv iota. fold (sim_selected (Dev s c l0 l1 l2 ps true w)).
    rewrite bool_decide_eq_false_2 by done. cbn [busy]. split; [done|]. split; [done|]. split; [by left|]. by split.
  - intros ws [s c l0 l1 l2 ps bs w] (E & En & Hne & Hf) Hws. cbn [pending busy] in *. destruct bs; [done|]. subst ps.
    cbn [inb sim_ports]. unfold sim_inb. change (ATA_ALT =? ATA_ALT) with true. cbv iota. fold (sim_selected (Dev s c l0 l1 l2 ws false w)).
    rewrite bool_decide_eq_false_2 by done. cbn [busy pending]. rewrite bool_decide_eq_false_2 by done. by split.
  - intros x ws [s c l0 l1 l2 ps bs w] (E & En & Hne & Hf). cbn [pending busy] in *. destruct bs; [done|]. subst ps.
    apply list.Forall_cons in Hf as [Hx Hf]. unfold inw; cbn [sim_ports]. unfold sim_inw. cbn [pending].
    change (ATA_CTRL =? ATA_CTRL) with true. rw_bool. cbn [andb]. split; [done|]. split; [done|].
    exists (if len ws mod 256 =? 0 then 1%nat else 0%nat). split; [case_match; unfold ATA_SPIN; lia|].
    split; [by split|]. intros Hm. by rewrite (proj2 (Z.eqb_neq _ 0)).
  - intros p v [s c l0 l1 l2 ps bs w] Hp.
    assert (p = 0x1F2 ∨ p = 0x1F3 ∨ p = 0x1F4 ∨ p = 0x1F5 ∨ p = 0x1F6) as [->|[->|[->|[->| ->]]]] by lia;
      (split; [done|]; intros q; cbn [outb sim_ports sim_outb Z.eqb Pos.eqb]; unfold sim_reg;
       cbn [sel cnt lba0 lba1 lba2]; repeat case_bool; lia || done).
  - intros [s c l0 l1 l2 ps bs w]. cbv zeta. intros _ Hl0 Hc Hlen. split; [done|]. exists 1%nat.
    split; [unfold ATA_SPIN; lia|]. split; [done|]. split; [done|]. split; [|apply Forall_take, Forall_drop, sim_words].
    intros E. unfold sim_selected in E. change (sim_content (Dev s c l0 l1 l2 ps bs w)
      (reg_drive (sim_reg (Dev s c l0 l1 l2 ps bs w))) = []) in E. rewrite E in Hlen. cbn [length] in Hlen. lia.
  - intros [s c l0 l1 l2 ps bs w]. cbv zeta. set (d := Dev s c l0 l1 l2 ps bs w).
    change (outb ATA_STATUS 0xEC d) with (Dev s c l0 l1 l2 (sim_id d) true w). set (d' := Dev _ _ _ _ _ _ _ _).
    assert (sim_selected d' = sim_selected d) as Esel by done. split; [done|]. split.
    + intros E. cbn [inb sim_ports]. unfold sim_inb. change (ATA_ALT =? ATA_ALT) with true. cbv iota.
      fold (sim_selected d'). by rewrite Esel, bool_decide_eq_true_2.
    + intros n Hl Hn. exists 1%nat, (sim_id d). destruct (sim_id_ok d n Hl Hn) as (H1 & H2 & H3 & H4).
      split; [unfold ATA_SPIN; lia|]. split.
      { split; [done|]. split; [done|]. split; [|done]. rewrite Esel. intros E. unfold sim_selected in E.
        change (len (sim_selected d) = 256 * n) in Hl. unfold sim_selected in Hl. rewrite E in Hl. cbn [length] in Hl. lia. }
      split; [done|]. split; [by exists 0x40|]. done.
  - intros [s c l0 l1 l2 ps bs w] _. done.
  - intros p [s c l0 l1 l2 ps bs w] Hp. cbn [inb sim_ports]. unfold sim_inb. unfold ATA_ALT. by rw_bool.
  - intros p v [s c l0 l1 l2 ps bs w] Hp Hne. cbn [inb outb sim_ports]. unfold sim_inb, sim_outb, ATA_STATUS. unfold ATA_ALT in *. by rw_bool.
Defined.

End Sim.


#[export] Existing Instances Sim.sim_ports Sim.sim_disk.

(** A drive with two sectors. *)
Definition ex_ata : ata := Ata [true; false] [2; 0] [replicate 41 0; replicate 41 0] 0 0 0 true.
Definition ex_drive : Sim.sim := Sim.Dev 0 0 0 0 0 [] false (replicate 512 0x1234).


End ATA.
