(* ===== verification/FatVolume.v ===== *)
(** * The volume as the kernel sees it: [kernel/drivers/fat.c]

    The kernel looks for the FAT volume that [tools/mkqizoimg] wrote, and counts its
    clusters.  The driver is written over what it needs of the disk driver
    ([SectorReader]); [Ata.v] gives that promise for drives that answer as
    documented ([ata_reader]).  The theorem [kernel_finds_volume] follows an image
    from the tool to the kernel: the volume is found, with more clusters than it
    has. *)

From S2P Require Export Frames Ata Image.

(** ** What the driver needs of the disk *)

(** [present] is [qizo_ata_present], [read_drive] is [qizo_ata_read_drive] with what
    it writes, and [drive_bytes] are the bytes of a drive that the driver knows. *)
Class SectorReader (S : Type) := {
  present : S → bool;
  read_drive : Z → Z → Z → S → option (bool * list Z * S);
  drive_bytes : S → Z → option (list Z);
  read_ok s drive img lba count :
    drive_bytes s drive = Some img → 0 ≤ lba → 1 ≤ count ≤ 16 → 512 * (lba + count) ≤ len img →
    ∃ s', read_drive drive lba count s = Some (true, slice img (512 * lba) (512 * (lba + count)), s') ∧
      drive_bytes s' drive = Some img ∧ present s' = present s;
  read_refused s drive img lba count :
    drive_bytes s drive = Some img → 0 ≤ lba < 2 ^ 63 → 16 < count < 2 ^ 32 →
    read_drive drive lba count s = Some (false, [], s);
}.

(** The disk driver with a documented device keeps the promise. *)
Section ata_reader.
Context {D : Type} `{ATA.IdeDisk D}.

Definition ata_knows (s : ATA.ata * D) (drive : Z) : bool :=
  let '(a, d) := s in
  (0 <=? drive) && (drive <=? 1) && bool_decide (aget (ATA.drive_ok a) drive = Some true) &&
  match aget (ATA.drive_sectors a) drive with
  | Some n => (0 <=? n) && (n <=? 0x0FFFFFFF) && (256 * n =? len (ATA.content d drive))
  | None => false
  end.

Lemma ata_knows_spec a d drive :
  ata_knows (a, d) drive = true → 0 ≤ drive ≤ 1 ∧
  ∃ n, ATA.drive_known a d drive n ∧ len (ATA.disk_bytes d drive) = 512 * n.
Proof.
  unfold ata_knows. destruct (aget (ATA.drive_sectors a) drive) as [n|] eqn:En; [|by rewrite andb_false_r].
  rewrite !andb_true_iff, bool_decide_eq_true, !Z.leb_le, Z.eqb_eq. intros [[[? ?] ?] [[? ?] ?]].
  split; [lia|]. exists n. split; [|unfold ATA.disk_bytes; rewrite ATA.word_bytes_length; lia].
  split; [done|]. split; [done|]. split; lia.
Qed.

#[export] Program Instance ata_reader : SectorReader (ATA.ata * D) := {|
  present s := ATA.ata_live s.1;
  read_drive drive lba count s := ATA.qizo_ata_read_drive drive lba count s.1 s.2;
  drive_bytes s drive := if ata_knows s drive then Some (ATA.disk_bytes s.2 drive) else None;
|}.
Next Obligation.
  intros [a d] drive img lba count E Hl Hc Hlen. cbn [fst snd] in *.
  destruct (ata_knows (a, d) drive) eqn:Hk; [|done]. injection E as <-.
  destruct (ata_knows_spec _ _ _ Hk) as (Hd & n & Hn & Hb).
  destruct (ATA.read_drive_spec a d drive n lba count Hn Hd Hl Hc ltac:(lia)) as (d' & E & Ec).
  exists (ATA.set_counts a (u32 (ATA.ata_reads a + 1)) (ATA.ata_errors a) (u64 (ATA.ata_blocks a + count)), d').
  split; [exact E|]. split; [|done]. cbn [fst snd]. unfold ata_knows in *. cbn [ATA.drive_ok ATA.drive_sectors ATA.set_counts].
  unfold ATA.disk_bytes. by rewrite Ec, Hk.
Qed.
Next Obligation.
  intros [a d] drive img lba count E Hl Hc. cbn [fst snd] in *.
  destruct (ata_knows (a, d) drive) eqn:Hk; [|done]. destruct (ata_knows_spec _ _ _ Hk) as (Hd & n & Hn & _).
  apply (ATA.read_drive_refuses a d drive n); [done|done|lia|lia|lia|]. right. left. lia.
Qed.
End ata_reader.

Module FV.

Definition FAT_SCAN_LBAS : Z := 96.

(** The fields of the boot sector that the driver reads, at their offsets in the
    packed struct. *)
Record bpb := Bpb {
  bytssec : Z; spc : Z; reserved : Z; fats : Z; rootent : Z; mbr_sects : Z; media : Z; spf : Z; big_sects : Z;
}.

Definition le16 (s : list Z) (i : Z) : option Z :=
  x ← aget s i; y ← aget s (i + 1); Some (x + 256 * y).
Definition le32 (s : list Z) (i : Z) : option Z :=
  x ← le16 s i; y ← le16 s (i + 2); Some (x + 65536 * y).

Definition read_bpb (s : list Z) : option bpb :=
  w11 ← le16 s 11; b13 ← aget s 13; w14 ← le16 s 14; b16 ← aget s 16; w17 ← le16 s 17; w19 ← le16 s 19;
  b21 ← aget s 21; w22 ← le16 s 22; d32 ← le32 s 32;
  Some (Bpb w11 b13 w14 b16 w17 w19 b21 w22 d32).

(** The answers of the driver; [label] and [type] are arrays of characters. *)
Record fat := Fat {
  f_present : Z; sect_per_clust : Z; clusters : Z; free_clusters : Z; total_bytes : Z; free_bytes : Z;
  start_lba : Z; label : list Z; type : list Z;
}.

Definition bpb_sane (sector : list Z) (b : bpb) : option bool :=
  s510 ← aget sector 510; s511 ← aget sector 511;
  Some (if negb (s510 =? 0x55) || negb (s511 =? 0xAA) then false
        else if negb (bytssec b =? 512) then false
        else if (spc b =? 0) || negb (Z.land (spc b) (spc b - 1) =? 0) then false
        else if 128 <? spc b then false
        else if (fats b <? 1) || (4 <? fats b) then false
        else if (spf b =? 0) || (rootent b =? 0) then false
        else if (mbr_sects b =? 0) && (big_sects b =? 0) then false
        else if negb (media b =? 0xF0) && negb (media b =? 0xF8) && negb (media b =? 0x00) then false
        else true).

Definition fat_entry_12 (f : list Z) (i : Z) : option Z :=
  x ← aget f (u32 (i + i / 2));
  y ← aget f (u32 (i + i / 2 + 1));
  let v := Z.lor x (u32 (Z.shiftl y 8)) in
  Some (if negb (Z.land i 1 =? 0) then Z.shiftr v 4 else Z.land v 0x0FFF).

Definition fat_entry_16 (f : list Z) (i : Z) : option Z :=
  x ← aget f (u32 (i * 2));
  y ← aget f (u32 (i * 2 + 1));
  Some (Z.lor x (Z.shiftl y 8)).

Definition count_free (is12 : bool) (f : list Z) (bytes clusters : Z) : option Z :=
  let limit := if is12 then u32 (bytes * 2) / 3 else bytes / 2 in
  let limit := if u32 (clusters + 2) <? limit then u32 (clusters + 2) else limit in
  free_count ← for_up 2 limit
    (λ i free_count,
      v ← (if is12 then fat_entry_12 f i else fat_entry_16 f i);
      Some (Next (if v =? 0 then u32 (free_count + 1) else free_count))) 0;
  Some (if u32 (limit - 2) <? clusters then u32 (free_count + u32 (clusters - u32 (limit - 2))) else free_count).

(** [label_text] into an array that holds [dst]. *)
Definition label_text (src : list Z) (n : Z) (dst : list Z) : option (list Z * Z) :=
  '(dst, used) ← for_up 0 n
    (λ i (st : list Z * Z),
      let '(dst, used) := st in
      c ← aget src i;
      let c := i8 c in
      let c := if (c <? 32) || (126 <? c) then 32 else c in
      dst ← aset dst i c;
      Some (Next (dst, if negb (c =? 32) then i + 1 else used))) (dst, 0);
  dst ← aset dst used 0;
  Some (dst, used).

Section driver.
Context {S : Type} `{SectorReader S}.

(** The disk, the frame allocator, and the buffer for the table: the block that
    [fatbuf] points at, or [None] for the null pointer. *)
Record state := State { reader : S; frames : PMA.pma; fatbuf : option (list Z) }.

Definition set_reader (r : S) (st : state) : state := State r (frames st) (fatbuf st).
Definition set_fatbuf (f : option (list Z)) (st : state) : state := State (reader st) (frames st) f.

(** Bytes written at [off] of the buffer. *)
Definition write_at (buf : list Z) (off : Z) (data : list Z) : option (list Z) :=
  if (0 <=? off) && (off + len data <=? len buf) then Some (slice_set buf off (off + len data) data) else None.

(** [read_sectors] to [fatbuf + off]. *)
Definition read_table (drive lba count off : Z) (buf : list Z) (s : S) : option (bool * list Z * S) :=
  '(ok, data, s) ← read_drive drive lba count s;
  buf ← write_at buf off data;
  Some (ok, buf, s).

(** The loop that reads the table in pieces of 16 sectors. *)
Fixpoint read_chunks (fuel : nat) (drive lba total done : Z) (buf : list Z) (s : S) : option (Z * list Z * S) :=
  if done <? total then
    match fuel with
    | O => None
    | Datatypes.S fuel =>
        let chunk := if 16 <? total - done then 16 else total - done in
        '(ok, buf, s) ← read_table drive (u64 (lba + done)) chunk (done * 512) buf s;
        if ok : bool then read_chunks fuel drive lba total (done + chunk) buf s else Some (done, buf, s)
    end
  else Some (done, buf, s).

(** The [n] sectors of the table at once, or in pieces: whether the first way did
    it, how many sectors came, and the buffer. *)
Definition read_fat (drive lba n : Z) (buf : list Z) (s : S) : option (bool * Z * list Z * S) :=
  '(ok, buf, s) ← read_table drive lba n 0 buf s;
  if ok : bool then Some (ok, n, buf, s)
  else '(done, buf, s) ← read_chunks (Z.to_nat n) drive lba n 0 buf s; Some (ok, done, buf, s).

(** [fatbuf], allocated when it is the null pointer; the contents of fresh frames
    are written before they are read. *)
Definition table_buffer (bytes : Z) (st : state) : option state :=
  match fatbuf st with
  | Some _ => Some st
  | None =>
      let pages := (bytes + 4095) / 4096 in
      '(v, p) ← PMA.qizo_page_alloc (frames st) pages;
      Some (State (reader st) p (if v =? 0 then None else Some (replicate (Z.to_nat (4096 * Z.max 1 pages)) 0)))
  end.

(** What [scan_drive] does with a sane boot sector: nothing, or leave with an
    answer. *)
Definition scan_volume (drive first lba : Z) (sector : list Z) (b : bpb) (out : fat) (st : state)
    : option (ctl (option (bool * fat) * state)) :=
  let total_sects := if negb (mbr_sects b =? 0) then mbr_sects b else big_sects b in
  let total_sects := if 0x0FFFFFFF <? total_sects then 0x0FFFFFFF else total_sects in
  let root_sects := u32 (rootent b * 32 + 511) / 512 in
  let fat_sects := u32 (fats b * spf b) in
  let data_start := u32 (reserved b + fat_sects + root_sects) in
  if total_sects <=? data_start then Some (Next (None, st))
  else
    let clusters := u32 ((total_sects - data_start) / spc b) in
    if clusters <? 2 then Some (Next (None, st))
    else
      let is12 := clusters <? 4085 in
      let bytes := u32 (spf b * 512) in
      let bytes := if 256 * 1024 <? bytes then 256 * 1024 else bytes in
      st ← table_buffer bytes st;
      match fatbuf st with
      | None => Some (Break (Some (false, out), st))
      | Some buf =>
          '(ok, done, buf, r) ← read_fat drive (u64 (first + reserved b)) (bytes / 512) buf (reader st);
          let st := State r (frames st) (Some buf) in
          if negb ok && (done =? 0) then Some (Break (Some (false, out), st))
          else
            let bytes := if ok then bytes else done * 512 in
            free ← count_free is12 buf bytes clusters;
            let total_b := u64 (clusters * spc b * 512) in
            let free_b := u64 (free * spc b * 512) in
            lab ← fst <$> label_text (drop 39 sector) 11 (label out);
            lab ← aset lab 11 0;
            Some (Break (Some (true,
              Fat 1 (spc b) clusters free total_b (if total_b <? free_b then total_b else free_b) lba lab
                (chars (if is12 then "FAT12   " else "FAT16   ") ++ [0])), st))
      end.

Definition scan_drive (drive first : Z) (out : fat) (st : state) : option (bool * fat * state) :=
  '(r, st) ← for_up 0 FAT_SCAN_LBAS
    (λ i (x : option (bool * fat) * state),
      let st := x.2 in
      let lba := u64 (first + i) in
      '(ok, sector, r) ← read_drive drive lba 1 (reader st);
      let st := set_reader r st in
      if negb ok then Some (Next (None, st))
      else
        b ← read_bpb sector;
        sane ← bpb_sane sector b;
        if negb sane then Some (Next (None, st))
        else scan_volume drive first lba sector b out st) (None, st);
  Some (default (false, out) r, st).

(** The places where [fat_for] looks. *)
Fixpoint scan_places (drive : Z) (places : list Z) (out : fat) (st : state) : option (bool * fat * state) :=
  match places with
  | [] => Some (false, out, st)
  | p :: places =>
      '(found, out, st) ← scan_drive drive p out st;
      if found : bool then Some (true, out, st) else scan_places drive places out st
  end.

(** [qizo_drivers_start], which starts each driver once, is done; [blob_lba] and
    [blob_sects] are read from the boot information. *)
Definition fat_for (blob_lba blob_sects drive : Z) (out : fat) (st : state) : option (bool * fat * state) :=
  lab ← aset (label out) 0 0;
  let out := Fat 0 (sect_per_clust out) 0 0 0 0 0 lab (chars "none    " ++ drop 8 (type out)) in
  if negb (present (reader st)) then Some (false, out, st)
  else if 1 <? drive then Some (false, out, st)
  else scan_places drive [u32 (blob_lba + blob_sects); 63; 2048] out st.

(** The state of the module: the answer for the boot drive is kept. *)
Definition qizo_fat_stat_drive (blob_lba blob_sects drive : Z) := fat_for blob_lba blob_sects drive.
Definition qizo_fat_stat (blob_lba blob_sects : Z) := fat_for blob_lba blob_sects 0.

Definition qizo_fat_start (blob_lba blob_sects : Z) (fs : fat) (fs_ready : bool) (st : state)
    : option (bool * fat * state) :=
  if fs_ready then Some (fs_ready, fs, st) else fat_for blob_lba blob_sects 0 fs st.

(** [ata_probe] is the answer of [qizo_ata_probe]. *)
Definition qizo_fat_probe (ata_probe : bool) (blob_lba blob_sects : Z) (fs : fat) (fs_ready : bool) (st : state)
    : option (bool * fat * state) :=
  if negb ata_probe then Some (false, fs, st) else qizo_fat_start blob_lba blob_sects fs fs_ready st.
End driver.

Definition qizo_fat_detail (fs : fat) : list Z :=
  chars (if negb (f_present fs =? 0) then "boot volume readable" else "no boot volume").

(** ** The boot sector that the tool writes *)

(** The 32 bit sector count: its upper half is written over. *)
Definition big_count (total : Z) (l : layout) : Z := 0x01800000 + (total - l_part_lba l) mod 65536.

Lemma le_sum2 x : 0 ≤ x < 65536 → x mod 256 + 256 * (x / 256 mod 256) = x.
Proof. intros. pose proof (Z.div_mod x 256 ltac:(lia)). rewrite (Z.mod_small (x / 256)); [lia|]. split; [apply Z.div_pos; lia|apply Z.div_lt_upper_bound; lia]. Qed.

Lemma boot_sector_bpb total l label :
  boot_fields_fit total l → l_bits l = 16 →
  let bs := boot_sector_bytes total l label in
  read_bpb bs = Some (Bpb 512 1 (l_reserved l) 2 224 0 0xF8 (l_fat_size l) (big_count total l)) ∧
  aget bs 510 = Some 0x55 ∧ aget bs 511 = Some 0xAA.
Proof.
  intros [Hr%fits_spec Hf%fits_spec _ _ _] Hb. unfold boot_sector_bytes, big_count. cbv zeta. rewrite Hb.
  change (256 ^ Z.of_nat 2) with 65536 in *.
  assert (len (ljust (take 11 (b label)) 11 32) = 11) as Hl by (rewrite length_ljust by lia; list_lia).
  generalize dependent (ljust (take 11 (b label)) 11 32). intros f Hl. do 12 (explode f).
  set (v := total - l_part_lba l). pose proof (Z.mod_pos_bound v 65536 ltac:(lia)).
  assert (v mod 65536 = v mod 256 + 256 * (v / 256 mod 256)) as ->.
  { change 65536 with (256 * 256). by rewrite Z.rem_mul_r by lia. }
  destruct (le_bytes_2 (total - PART_LBA)) as (? & ? & ->). destruct (le_bytes_4 (l_part_lba l)) as (? & ? & ? & ? & ->).
  change (le_bytes 2 (l_reserved l)) with [l_reserved l mod 256; l_reserved l / 256 mod 256].
  change (le_bytes 2 (l_fat_size l)) with [l_fat_size l mod 256; l_fat_size l / 256 mod 256].
  change (take 2 (le_bytes 4 v)) with [v mod 256; v / 256 mod 256].
  pose proof (le_sum2 (l_reserved l) ltac:(lia)) as E1. pose proof (le_sum2 (l_fat_size l) ltac:(lia)) as E2.
  generalize dependent (l_reserved l mod 256). generalize dependent (l_reserved l / 256 mod 256).
  generalize dependent (l_fat_size l mod 256). generalize dependent (l_fat_size l / 256 mod 256).
  generalize dependent (v mod 256). generalize dependent (v / 256 mod 256). intros v1 v0 f1 f0 E2 r1 r0 E1.
  split; [|split; reflexivity]. rewrite <-E1, <-E2. 
  transitivity (Some (Bpb 512 1 (r0 + 256 * r1) 2 224 0 0xF8 (f0 + 256 * f1) (v0 + 256 * v1 + 65536 * (128 + 256 * 1))));
    [reflexivity|]. do 2 f_equal. lia.
Qed.

Lemma boot_sector_sane total l label :
  boot_fields_fit total l → l_bits l = 16 → l_fat_size l ≠ 0 →
  let bs := boot_sector_bytes total l label in
  ∃ bp, read_bpb bs = Some bp ∧ bpb_sane bs bp = Some true ∧
    bp = Bpb 512 1 (l_reserved l) 2 224 0 0xF8 (l_fat_size l) (big_count total l).
Proof.
  intros Hf Hb Hfs bs. destruct (boot_sector_bpb total l label Hf Hb) as (E & E1 & E2). eexists. split; [exact E|].
  split; [|done]. unfold bpb_sane. fold bs in E1, E2. rewrite E1, E2. cbn.
  pose proof (Z.mod_pos_bound (total - l_part_lba l) 65536 ltac:(lia)).
  rewrite (proj2 (Z.eqb_neq (l_fat_size l) 0)) by done.
  by rewrite (proj2 (Z.eqb_neq (big_count total l) 0)) by (unfold big_count; lia).
Qed.

(** ** Reading the table *)

Section reading.
Context {S : Type} `{SectorReader S}.

Lemma take_slice_set (l d : list Z) i :
  0 ≤ i → i + len d ≤ len l → take (Z.to_nat (i + len d)) (slice_set l i (i + len d) d) = take (Z.to_nat i) l ++ d.
Proof.
  intros. rewrite slice_set_eq by lia. rewrite (assoc_L (++)).
  rewrite take_app_le by list_lia. apply take_ge. list_lia.
Qed.

(** A read of up to 16 sectors puts them behind what is in the buffer. *)
Lemma read_table_ok s drive img lba count off buf :
  drive_bytes s drive = Some img → 0 ≤ lba → 1 ≤ count ≤ 16 → 512 * (lba + count) ≤ len img →
  0 ≤ off → off + 512 * count ≤ len buf →
  ∃ buf' s', read_table drive lba count off buf s = Some (true, buf', s') ∧
    drive_bytes s' drive = Some img ∧ len buf' = len buf ∧
    take (Z.to_nat (off + 512 * count)) buf' = take (Z.to_nat off) buf ++ slice img (512 * lba) (512 * (lba + count)).
Proof.
  intros Hs Hl Hc Hi Ho Hb. destruct (read_ok s drive img lba count Hs Hl Hc Hi) as (s' & E & Hs' & _).
  unfold read_table. rewrite E. cbn [mbind option_bind]. set (d := slice img _ _).
  assert (len d = 512 * count) as Hd by (unfold d; rewrite length_slice by lia; lia).
  unfold write_at. rw_bool. cbn [mbind option_bind]. do 2 eexists. split; [done|]. split; [done|].
  split; [rewrite length_slice_set; lia|]. rewrite <-Hd. apply take_slice_set; lia.
Qed.

(** The loop reads the whole table. *)
Lemma read_chunks_ok fuel s drive img lba total done_ buf :
  drive_bytes s drive = Some img → 0 ≤ lba → 0 ≤ done_ ≤ total → 512 * (lba + total) ≤ len img →
  512 * total ≤ len buf → (Z.to_nat (total - done_) ≤ fuel)%nat → lba + total < 2 ^ 63 →
  take (Z.to_nat (512 * done_)) buf = slice img (512 * lba) (512 * (lba + done_)) →
  ∃ buf' s', read_chunks fuel drive lba total done_ buf s = Some (total, buf', s') ∧
    drive_bytes s' drive = Some img ∧ len buf' = len buf ∧
    take (Z.to_nat (512 * total)) buf' = slice img (512 * lba) (512 * (lba + total)).
Proof.
  revert s done_ buf. induction fuel as [|fuel IH]; intros s dn buf Hs Hl Hd Hi Hb Hf Hmax Ht; cbn [read_chunks].
  - replace dn with total in * by lia. rw_bool. by exists buf, s.
  - destruct (Z.ltb_spec dn total) as [Hlt|Hge]; [|replace dn with total in * by lia; by exists buf, s].
    set (chunk := if 16 <? total - dn then 16 else total - dn).
    assert (1 ≤ chunk ≤ 16 ∧ chunk ≤ total - dn) as [Hc Hc'] by (unfold chunk; case_bool; lia).
    rewrite u64_small by lia.
    destruct (read_table_ok s drive img (lba + dn) chunk (dn * 512) buf) as (buf1 & s1 & -> & Hs1 & Hl1 & Ht1);
      [done|lia|lia|lia|lia|lia|]. cbn [mbind option_bind].
    destruct (IH s1 (dn + chunk) buf1) as (buf2 & s2 & E2 & Hs2 & Hl2 & Ht2); try done; try lia.
    + replace (512 * (dn + chunk)) with (dn * 512 + 512 * chunk) by lia. rewrite Ht1.
      replace (dn * 512) with (512 * dn) by lia. rewrite Ht.
      rewrite (slice_split img (512 * lba) (512 * (lba + dn)) (512 * (lba + (dn + chunk)))) by lia.
      do 2 f_equal; lia.
    + exists buf2, s2. split; [done|]. split; [done|]. split; [lia|done].
Qed.
End reading.

(** ** Counting *)

Lemma lor_zero x y : 0 ≤ x < 256 → 0 ≤ y < 256 → (Z.lor x (Z.shiftl y 8) =? 0) = (x + 256 * y =? 0).
Proof. intros. rewrite Z.lor_comm, lor_shiftl_add by lia. by rewrite Z.add_comm. Qed.

(** An entry in the buffer that holds the start of the table. *)
Lemma entry_16 buf fat bytes j :
  Bytes fat → 0 ≤ bytes ≤ len fat → bytes < 2 ^ 32 → take (Z.to_nat bytes) buf = take (Z.to_nat bytes) fat →
  0 ≤ j → 2 * j + 1 < bytes →
  ∃ v, fat_entry_16 buf j = Some v ∧ (v =? 0) = (fat_get 16 fat j =? 0).
Proof.
  intros Hb Hl Hs Ht Hj Hjb. assert (∀ i, 0 ≤ i < bytes → ∃ x, aget buf i = Some x ∧ at_ fat i = x ∧ 0 ≤ x < 256) as Hx.
  { intros i Hi. destruct (lookup_lt_is_Some_2 fat (Z.to_nat i)) as [x Hx]; [lia|]. exists x. rewrite Hx.
    split; [|split; [done|by apply is_byte_spec, (Bytes_lookup _ _ _ Hb Hx)]].
    rewrite aget_lookup by lia. rewrite <-(lookup_take_lt buf (Z.to_nat bytes)) by lia. rewrite Ht.
    by rewrite lookup_take_lt by lia. }
  destruct (Hx (j * 2)) as (x & Ex & Ax & ?); [lia|]. destruct (Hx (j * 2 + 1)) as (y & Ey & Ay & ?); [lia|].
  unfold fat_entry_16. rewrite !u32_small by lia. rewrite Ex, Ey. cbn [mbind option_bind]. eexists. split; [done|].
  unfold fat_get. cbn [Z.eqb Pos.eqb]. rewrite Ax, Ay. by apply lor_zero.
Qed.

(** The clusters that are not used are counted, those that the table does not
    describe among them. *)
Lemma count_free_16 buf fat bytes clusters pe :
  Bytes fat → 0 ≤ bytes ≤ len fat → bytes < 2 ^ 32 → take (Z.to_nat bytes) buf = take (Z.to_nat bytes) fat →
  2 ≤ pe ≤ bytes / 2 → bytes / 2 ≤ clusters + 2 < 2 ^ 32 →
  (∀ j, 2 ≤ j < pe → fat_get 16 fat j ≠ 0) → (∀ j, pe ≤ j < bytes / 2 → fat_get 16 fat j = 0) →
  count_free false buf bytes clusters = Some (clusters + 2 - pe).
Proof.
  intros Hb Hl Hs Ht Hpe Hcl Hused Hfree. pose proof (Z.div_mod bytes 2 ltac:(lia)). pose proof (Z.mod_pos_bound bytes 2 ltac:(lia)).
  unfold count_free. cbv iota zeta. rewrite (u32_small (clusters + 2)) by lia. rw_bool.
  set (loop := for_up _ _ _ _). assert (safe loop (λ f, f = bytes / 2 - pe)) as Hloop.
  { eapply safe_mono; [apply (safe_for_all (λ i f, f = Z.max 0 (i - pe))); [lia| |lia]|intros f ->; lia].
    intros i f Hi ->. destruct (entry_16 buf fat bytes i) as (v & -> & Ev); [done|done|done|done|lia|lia|].
    cbn [mbind option_bind safe step_to]. rewrite Ev. destruct (Z.le_gt_cases pe i) as [Hge|Hlt].
    - rewrite Hfree by lia. cbn [Z.eqb]. rewrite u32_small by lia. lia.
    - rewrite (proj2 (Z.eqb_neq _ 0)) by (apply Hused; lia). lia. }
  destruct loop as [f|]; [|done]. cbn [safe] in Hloop. subst f. cbn [mbind option_bind].
  rewrite (u32_small (bytes / 2 - 2)) by lia. destruct (Z.ltb_spec (bytes / 2 - 2) clusters); f_equal; [|lia].
  rewrite (u32_small (clusters - _)) by lia. rewrite u32_small; lia.
Qed.

(** Every cluster before the end of the files is in the chain of one. *)
Lemma place_covers nxt files j :
  nxt ≤ j < place_end nxt files → ∃ n p first, (n, p, first) ∈ place nxt files ∧ first ≤ j < first + sectors_of p.
Proof.
  revert nxt. induction files as [|[n p] files IH]; intros nxt Hj; cbn [place_end place] in *; [lia|].
  destruct (Z.lt_ge_cases j (nxt + sectors_of p)).
  - exists n, p, nxt. split; [apply list_elem_of_here|lia].
  - destruct (IH (nxt + sectors_of p)) as (m & q & first & Hin & ?); [lia|]. exists m, q, first.
    split; [by apply list_elem_of_further|done].
Qed.

Lemma used_entries fat l files j : table_of fat l files → 2 ≤ j < place_end 2 files → fat_get 16 fat j ≠ 0.
Proof.
  intros Ht Hj. destruct (place_covers 2 files j Hj) as (n & p & first & Hin & Hr).
  pose proof (place_range _ _ _ _ _ Hin) as (_ & ? & _).
  pose proof (t_chain _ _ _ Ht n p first Hin (j - first) ltac:(lia)) as E. rewrite Zplus_minus in E.
  rewrite E. case_match; lia.
Qed.

(** ** From the tool to the kernel *)

Lemma label_text_safe src n dst :
  0 ≤ n → n ≤ len src → n < len dst → safe (label_text src n dst) (λ r, len r.1 = len dst).
Proof.
  intros Hn Hs Hd. unfold label_text. apply safe_bind.
  eapply safe_mono; [apply (safe_for_all (λ i st, len st.1 = len dst ∧ 0 ≤ st.2 ≤ i)); [lia| |cbn; lia]|].
  - intros i [d u] Hi [Hl Hu]. cbn [fst snd] in *. destruct (aget_Some src i) as [c ->]; [lia|]. cbn [mbind option_bind].
    rewrite aset_Some by lia. cbn [mbind option_bind safe step_to fst snd]. rewrite length_insert. split; [done|]. destruct (negb _); lia.
  - intros [d u] [Hl Hu]. cbn [fst snd] in *. rewrite aset_Some by lia. cbn [mbind option_bind safe fst]. by rewrite length_insert.
Qed.

Section volume.
Context {S : Type} `{SectorReader S}.

(** The kernel is ready to look: the drive 0 is the image, there are free frames for
    the table, and the answer has room for a label. *)
Record ready (img : list Z) (out : fat) (st : state (S := S)) : Prop := {
  rd_present : present (reader st) = true;
  rd_drive : drive_bytes (reader st) 0 = Some img;
  rd_fatbuf : fatbuf st = None;
  rd_frames : PMA.inv (frames st) ∧ ∃ f, PMA.run_free (frames st) f 64;
  rd_label : len (label out) = 12;
}.

(** The buffer for a table of up to 64 pages. *)
Lemma table_buffer_ok img out st bytes :
  ready img out st → 0 < bytes ≤ 256 * 1024 →
  ∃ p buf, table_buffer bytes st = Some (State (reader st) p (Some buf)) ∧ bytes ≤ len buf.
Proof.
  intros [_ _ Hf [Hi (f & Hf0 & Hft & Hrun)] _] Hb. unfold table_buffer. rewrite Hf. cbv zeta. set (n := (bytes + 4095) / 4096).
  assert (1 ≤ n ≤ 64 ∧ bytes ≤ 4096 * n) as [Hn Hbn].
  { unfold n. pose proof (Z.div_mod (bytes + 4095) 4096 ltac:(lia)). pose proof (Z.mod_pos_bound (bytes + 4095) 4096 ltac:(lia)). lia. }
  pose proof (PMA.page_alloc_spec (frames st) n Hi ltac:(lia)) as Hp.
  destruct (PMA.qizo_page_alloc (frames st) n) as [[v p]|]; [|done]. cbn [safe fst snd mbind option_bind] in *.
  rewrite Z.max_r in Hp by lia. destruct Hp as [[_ Hno]|(g & -> & Ht & _)].
  - exfalso. apply (Hno f). split; [done|]. split; [lia|]. intros x Hx. apply Hrun. lia.
  - pose proof (PMA.tk_in _ _ _ _ Ht). pose proof (PMA.total_small _ (PMA.inv_wf _ Hi)).
    destruct (PMA.virt_nonzero g ltac:(lia)) as [Hv _]. rewrite (proj2 (Z.eqb_neq _ 0)) by done.
    do 2 eexists. split; [done|]. rewrite length_replicate. lia.
Qed.

(** The number of table bytes that the kernel looks at. *)
Definition table_bytes (l : layout) : Z := if 256 * 1024 <? l_fat_size l * 512 then 256 * 1024 else l_fat_size l * 512.

(** Both ways to read the table end with its start in the buffer. *)
Lemma read_fat_ok s img fat lba n buf :
  drive_bytes s 0 = Some img → has img (512 * lba) fat → 0 < n → 512 * n ≤ len fat → 512 * n ≤ len buf →
  0 ≤ lba → lba + n < 2 ^ 32 →
  ∃ ok buf' s', read_fat 0 lba n buf s = Some (ok, n, buf', s') ∧
    take (Z.to_nat (512 * n)) buf' = take (Z.to_nat (512 * n)) fat.
Proof.
  intros Hs Hh Hn Hfat Hbuf Hl Hmax. unfold read_fat.
  assert (512 * (lba + n) ≤ len img) as Himg by (destruct Hh as (? & ? & _); lia).
  assert (slice img (512 * lba) (512 * (lba + n)) = take (Z.to_nat (512 * n)) fat) as Hsl.
  { rewrite slice_eq by lia. replace (512 * (lba + n) - 512 * lba) with (512 * n) by lia.
    destruct Hh as (? & ? & Hh). rewrite <-Hh, slice_eq by lia.
    rewrite take_take. f_equal. lia. }
  destruct (Z.le_gt_cases n 16) as [Hsmall|Hbig].
  - destruct (read_table_ok s 0 img lba n 0 buf Hs) as (buf' & s' & E & _ & _ & Ht); [lia..|].
    exists true, buf', s'. rewrite E. cbn [mbind option_bind]. split; [done|]. cbn [Z.add] in Ht.
    change (0 + 512 * n) with (512 * n) in Ht. rewrite Ht, Hsl. done.
  - assert (read_table 0 lba n 0 buf s = Some (false, buf, s)) as E.
    { unfold read_table. rewrite (read_refused s 0 img lba n Hs) by lia. cbn [mbind option_bind].
      unfold write_at. cbn [length]. rw_bool. rewrite slice_set_eq by (cbn [length]; lia). done. }
    destruct (read_chunks_ok (Z.to_nat n) s 0 img lba n 0 buf Hs) as (buf' & s' & E' & _ & _ & Ht); try lia.
    { by rewrite slice_eq, Z.add_0_r, Z.sub_diag by lia. }
    exists false, buf', s'. rewrite E. cbn [mbind option_bind]. rewrite E'. cbn [mbind option_bind].
    split; [done|]. by rewrite Ht, Hsl.
Qed.

(** The volume of an image, by the numbers the kernel computes. *)
Definition seen (l : layout) (pe : Z) (lab : list Z) : fat :=
  let n := 0x01800000 + l_clusters l in
  Fat 1 1 n (n + 2 - pe) (512 * n) (512 * (n + 2 - pe)) (l_part_lba l) lab (chars "FAT16   " ++ [0]).

Lemma scan_volume_ok img out st total l label files fat bs bp :
  ready img out st → volume img total l label files fat → boot_fields_fit total l → l_bits l = 16 →
  l_reserved l = 32 → data_lba l + l_clusters l = total → 4085 ≤ l_clusters l < 0xFFEE →
  (l_clusters l + 2) * 2 ≤ l_fat_size l * 512 → place_end 2 files ≤ l_clusters l + 2 →
  24 ≤ l_part_lba l → total - 16 < 65536 → len bs = 512 →
  bp = Bpb 512 1 (l_reserved l) 2 224 0 0xF8 (l_fat_size l) (big_count total l) →
  safe (scan_volume 0 (l_part_lba l) (l_part_lba l) bs bp out st) (λ c,
    ∃ lab st', c = Break (Some (true, seen l (place_end 2 files) lab), st')).
Proof.
  intros Hr Hvol Hff Hb Hres Hsum Hcl Htab Hpe Hpart Htot Hbs ->. pose proof Hff as [_ Hfs%fits_spec _ _ _].
  change (256 ^ Z.of_nat 2) with 65536 in Hfs. set (pe := place_end 2 files) in *.
  assert (2 ≤ pe) as Hpe2 by (unfold pe; apply place_end_ge).
  assert (big_count total l = 0x01800000 + (total - l_part_lba l)) as Ebig.
  { unfold big_count. unfold data_lba, root_lba, fat_lba in Hsum. rewrite Z.mod_small; lia. }
  unfold data_lba, root_lba, fat_lba in Hsum.
  unfold scan_volume. cbn [mbr_sects big_sects rootent fats spf reserved spc Z.eqb negb].
  rewrite Ebig, Hres. cbv zeta. rw_bool. change (u32 (224 * 32 + 511) / 512) with 14.
  rewrite (u32_small (2 * l_fat_size l)), (u32_small (32 + _ + 14)) by lia.
  rewrite Z.div_1_r, (u32_small (0x01800000 + _ - _)), (u32_small (l_fat_size l * 512)) by lia.
  set (n := 0x01800000 + (total - l_part_lba l) - (32 + 2 * l_fat_size l + 14)).
  assert (n = 0x01800000 + l_clusters l) as En by (unfold n; lia). clearbody n. rw_bool.
  fold (table_bytes l). set (bytes := table_bytes l).
  set (m := bytes / 512). assert (bytes = 512 * m ∧ m = Z.min (l_fat_size l) 512) as [Ebytes Em].
  { unfold m, bytes, table_bytes. destruct (Z.ltb_spec (256 * 1024) (l_fat_size l * 512)).
    - change (256 * 1024 / 512) with 512. lia.
    - rewrite Z.div_mul by lia. lia. }
  clearbody m. assert (0 < bytes ≤ 256 * 1024) as Hbytes by lia.
  destruct (table_buffer_ok img out st bytes Hr Hbytes) as (p & buf & -> & Hbuf). cbn [mbind option_bind fatbuf reader].
  rewrite (u64_small (l_part_lba l + 32)) by lia. pose proof (v_table _ _ _ _ _ _ Hvol) as Ht. pose proof (t_len _ _ _ Ht) as Hfl.
  change SECTOR with 512 in *.
  assert (has img (512 * (l_part_lba l + 32)) fat) as Hhas.
  { pose proof (v_fat1 _ _ _ _ _ _ Hvol) as Hv. change SECTOR with 512 in Hv. unfold fat_lba in Hv. rewrite Hres in Hv.
    by rewrite Z.mul_comm. }
  destruct (read_fat_ok (reader st) img fat (l_part_lba l + 32) m buf) as (ok & buf' & s' & -> & Htake);
    [apply Hr|done|lia|lia|lia|lia|lia|]. cbn [mbind option_bind].
  rewrite (proj2 (Z.eqb_neq m 0)), andb_false_r by lia.
  assert ((if ok then bytes else m * 512) = bytes) as -> by (destruct ok; lia). rewrite <-Ebytes in Htake.
  assert (bytes / 2 = 256 * m) as E2 by (rewrite Ebytes; replace (512 * m) with (256 * m * 2) by lia; apply Z.div_mul; lia).
  rewrite (count_free_16 buf' fat bytes n pe); [|apply Ht|lia|lia|done|lia|lia| |].
  2: { intros j Hj. by eapply used_entries. }
  2: { intros j Hj. apply (t_free _ _ _ Ht). lia. }
  cbn [mbind option_bind]. pose proof (rd_label _ _ _ Hr) as Hlab.
  assert (safe (label_text (drop 39 bs) 11 (FV.label out)) (λ r, len r.1 = 12)) as Hs.
  { rewrite <-Hlab. apply label_text_safe; [lia|rewrite length_drop; lia|lia]. }
  destruct (label_text (drop 39 bs) 11 (FV.label out)) as [[lab u]|]; [|done]. cbn [safe fst] in Hs.
  cbn [fmap option_fmap option_map fst mbind option_bind]. rewrite aset_Some by lia. cbn [mbind option_bind safe].
  rewrite !u64_small by lia. rw_bool. do 2 eexists. do 4 f_equal. unfold seen. cbv zeta. rewrite En. f_equal; lia.
Qed.


Lemma scan_drive_ok img out st total l label files fat :
  ready img out st → volume img total l label files fat → boot_fields_fit total l → l_bits l = 16 →
  l_reserved l = 32 → data_lba l + l_clusters l = total → 4085 ≤ l_clusters l < 0xFFEE →
  (l_clusters l + 2) * 2 ≤ l_fat_size l * 512 → place_end 2 files ≤ l_clusters l + 2 →
  24 ≤ l_part_lba l → total - 16 < 65536 →
  safe (scan_drive 0 (l_part_lba l) out st) (λ r, ∃ lab st', r = (true, seen l (place_end 2 files) lab, st')).
Proof.
  intros Hr Hvol Hff Hb Hres Hsum Hcl Htab Hpe Hpart Htot. pose proof Hff as [_ Hfs%fits_spec _ _ _].
  pose proof (v_boot _ _ _ _ _ _ Hvol) as Hbs. pose proof (length_boot_sector_bytes total l label) as Hbl.
  set (bs := boot_sector_bytes total l label) in *. change SECTOR with 512 in *.
  assert (l_part_lba l < total) as Hpt by (unfold data_lba, root_lba, fat_lba in Hsum; lia).
  destruct Hbs as (Hb0 & Hb1 & Hb2).
  destruct (read_ok (reader st) 0 img (l_part_lba l) 1 (rd_drive _ _ _ Hr)) as (s' & E & Hs' & Hp'); [lia|lia|lia|].
  unfold scan_drive. apply safe_bind. rewrite for_up_step by (unfold FAT_SCAN_LBAS; lia).
  cbn [fst snd]. rewrite Z.add_0_r, u64_small by lia. rewrite E. cbn [mbind option_bind negb].
  replace (slice img (512 * l_part_lba l) (512 * (l_part_lba l + 1))) with bs.
  2: { rewrite <-Hb2. f_equal; lia. }
  destruct (boot_sector_sane total l label Hff Hb) as (bp & Ebp & Esane & Ebpv); [lia|]. fold bs in Ebp, Esane.
  rewrite Ebp. cbn [mbind option_bind]. rewrite Esane. cbn [mbind option_bind negb]. apply safe_bind.
  assert (ready img out (set_reader s' st)) as Hr'.
  { destruct Hr. split; cbn [reader set_reader fatbuf frames]; try done. congruence. }
  eapply safe_mono; [eapply scan_volume_ok; done|]. intros c (lab & st' & ->). cbn [safe]. by exists lab, st'.
Qed.
End volume.

(** The search on the disk that the tool builds. *)
Lemma finds_volume {S : Type} `{SectorReader S} o k blob total l :
  build_ok o k blob total l →
  ∃ img lines, Image.main o = Ok (img, lines) ∧
    ∀ (st : state (S := S)) out, ready img out st →
      safe (qizo_fat_stat BLOB_LBA (sectors_of blob) out st) (λ r,
        ∃ lab st', r = (true, seen l (place_end 2 (files_of o k blob l)) lab, st')).
Proof.
  intros Hok. destruct (main_spec o k blob total l Hok) as (img & lines & E & Hd). exists img, lines. split; [done|].
  intros st out Hr. pose proof (build_ok_layout _ _ _ _ _ Hok) as [Hp Hff Hres Hsum Hcl Htab].
  destruct (d_volume _ _ _ _ _ _ Hd) as [fat Hvol]. pose proof (sectors_bound blob (bo_blob_max _ _ _ _ _ Hok)) as Hbs.
  unfold qizo_fat_stat, fat_for. rewrite aset_Some by (rewrite (rd_label _ _ _ Hr); lia). cbn [mbind option_bind].
  rewrite (rd_present _ _ _ Hr). cbn [negb]. change (1 <? 0) with false. cbv iota. cbn [scan_places].
  change BLOB_LBA with 24 in *. rewrite u32_small by lia. rewrite <-Hp. set (out' := Fat _ _ _ _ _ _ _ _ _).
  assert (ready img out' st) as Hr' by (destruct Hr; split; try done; cbn; by rewrite length_insert).
  apply safe_bind. eapply safe_mono; [eapply scan_drive_ok; try done|].
  - apply Hok.
  - apply Hok.
  - lia.
  - apply (bo_total _ _ _ _ _ Hok).
  - intros r (lab & st' & ->). cbn [safe]. by exists lab, st'.
Qed.

(** C7 - From [tools/mkqizoimg] to the kernel: on the disk that the tool builds, the kernel
    finds the volume where the boot information puts it, and reads its table; but it
    takes the clusters for 25165824 more than there are, since the tool writes over
    the upper half of the sector count, and all of these for free. *)
Theorem kernel_finds_volume {S : Type} `{SectorReader S} o k blob total l :
  build_ok o k blob total l →
  ∃ img lines, Image.main o = Ok (img, lines) ∧
    ∀ (st : state (S := S)) out, ready img out st →
      safe (qizo_fat_stat BLOB_LBA (sectors_of blob) out st) (λ r,
        ∃ lab st', r = (true, seen l (place_end 2 (files_of o k blob l)) lab, st')).
Proof. apply finds_volume. Qed.

(** *** An example *)

(** A drive in memory. *)
#[export] Program Instance mem_reader : SectorReader (list Z) := {|
  present _ := true;
  read_drive drive lba count img :=
    if negb (drive =? 0) || (count =? 0) || (16 <? count) || (len img <? 512 * (lba + count)) then Some (false, [], img)
    else Some (true, slice img (512 * lba) (512 * (lba + count)), img);
  drive_bytes img drive := if drive =? 0 then Some img else None;
|}.
Next Obligation.
  intros s drive img lba count E Hl Hc Hlen. cbv beta in *. destruct (drive =? 0); [|done]. injection E as ->.
  exists img. cbn [negb]. by rw_bool.
Qed.
Next Obligation.
  intros s drive img lba count E Hl Hc. cbv beta in *. destruct (drive =? 0); [|done]. injection E as ->.
  cbn [negb]. by rw_bool.
Qed.

Definition ex_out : fat := Fat 0 0 0 0 0 0 0 (replicate 12 0) (replicate 9 0).

(** The drive holds the image, and the frames are those of a machine after its
    start. *)
Lemma ex_ready img : ∃ st : state (S := list Z), ready img ex_out st.
Proof.
  destruct (PMA.init_start PMA.ex_symbols PMA.ex_info PMA.ex_valid) as (p & _ & Hi & _ & Ht & HF).
  exists (State img p None). split; [done|done|done| |done]. cbn [frames]. split; [done|]. exists 300.
  split; [lia|]. split; [rewrite Ht; by vm_compute|]. intros g Hg. rewrite HF by lia.
  assert (Forall (λ g, PMA.start_free PMA.ex_symbols PMA.ex_info g = true) (range 300 364)) as Hall
    by (apply (bool_decide_unpack _); by vm_compute).
  rewrite list.Forall_forall in Hall. apply Hall, elem_of_range. lia.
Qed.

Lemma kernel_finds_volume_witness :
  ∃ img lines (st : state (S := list Z)), Image.main (ex_options false) = Ok (img, lines) ∧
    ready img ex_out st ∧
    safe (qizo_fat_stat BLOB_LBA 1 ex_out st) (λ r, ∃ lab st', r = (true, seen ex_layout 4 lab, st')).
Proof.
  destruct (kernel_finds_volume (S := list Z) (ex_options false) ex_span (ex_blob false) 4425 ex_layout (ex_build_ok false))
    as (img & lines & E & H).
  destruct (ex_ready img) as [st Hst]. exists img, lines, st. split; [exact E|]. split; [exact Hst|]. exact (H st ex_out Hst).
Defined.

End FV.
