(* ===== verification/ImageBytes.v ===== *)
(** * The image is a string of bytes

    What [mkqizoimg] writes ([Image.main]) consists of bytes when what it reads does
    ([main_bytes]), whether or not the build is one that [Image.build_ok] describes.
    The models of the tool keep bytes as integers; this is the type of its output. *)

From S2P Require Export Image.

(** [m] gives nothing that is not [P]. *)
Definition gives {A} (P : A → Prop) (m : res A) : Prop := ∀ a, m = Ok a → P a.

Section gives.
Context {A B : Type}.
Implicit Types (P : A → Prop) (Q : B → Prop).

Lemma gives_Ok P a : P a → gives P (Ok a).
Proof. by intros ? ? [= <-]. Qed.

Lemma gives_bind P Q (m : res A) (k : A → res B) : gives P m → (∀ a, P a → gives Q (k a)) → gives Q (m ≫= k).
Proof. destruct m as [a| |]; [|done..]. intros Hm Hk. apply Hk. by apply Hm. Qed.

Lemma gives_skip Q (m : res A) (k : A → res B) : (∀ a, gives Q (k a)) → gives Q (m ≫= k).
Proof. destruct m as [a| |]; [|done..]. intros Hk. apply Hk. Qed.
End gives.

Lemma gives_for_each {A S} (Inv : S → Prop) (body : A → S → res (ctl S)) l s :
  (∀ x s, x ∈ l → Inv s → gives (λ c, match c with Next s | Break s => Inv s end) (body x s)) →
  Inv s → gives Inv (for_each body l s).
Proof.
  revert s. induction l as [|x l IH]; intros s Hb Hs; cbn [for_each]; [by apply gives_Ok|].
  eapply gives_bind; [apply Hb; [by left|done]|]. intros [s'|s'] Hs'; [|by apply gives_Ok].
  apply IH; [|done]. intros y t Hy. apply Hb. by right.
Qed.

(** ** The operations on bytes *)

Lemma pack_le_bytes n v : gives (λ d, Bytes d) (pack_le n v).
Proof. unfold pack_le. case_match; [|done]. apply gives_Ok, le_bytes_Bytes. Qed.

Lemma pack_into_bytes n l off v : Bytes l → gives (λ d, Bytes d) (pack_into n l off v).
Proof.
  intros Hl. unfold pack_into. eapply gives_bind; [apply pack_le_bytes|]. intros d Hd. apply gives_skip. intros o.
  by apply gives_Ok, slice_set_Bytes.
Qed.

Lemma bset_bytes l i v : Bytes l → gives (λ d, Bytes d) (bset l i v).
Proof. intros Hl. unfold bset. repeat case_match; try done. apply gives_Ok. by apply insert_Bytes. Qed.

Lemma app_bytes (l l' : bytes) : Bytes l → Bytes l' → Bytes (l ++ l').
Proof. intros. by apply list.Forall_app. Qed.

Lemma take_bytes n (l : bytes) : Bytes l → Bytes (take n l).
Proof. apply Forall_take. Qed.

Lemma ljust_bytes l n v : Bytes l → is_byte v = true → Bytes (ljust l n v).
Proof. intros. apply app_bytes; [done|]. by apply list.Forall_replicate. Qed.

Create HintDb bytes.
#[export] Hint Resolve pack_le_bytes pack_into_bytes bset_bytes app_bytes take_bytes ljust_bytes slice_set_Bytes
  slice_Bytes zeros_Bytes b_Bytes gives_Ok : bytes.
#[export] Hint Extern 1 (Bytes [_]) => (by apply (bool_decide_unpack _)) : bytes.
#[export] Hint Extern 1 (Bytes (_ :: _)) => (by apply (bool_decide_unpack _)) : bytes.

(** Take the steps one by one; each gives bytes. *)
Ltac bytes_step :=
  lazymatch goal with
  | |- gives _ (pack_into _ _ _ _ ≫= _) => eapply gives_bind; [apply pack_into_bytes; solve [eauto 6 with bytes]|intros ? ?]
  | |- gives _ (bset _ _ _ ≫= _) => eapply gives_bind; [apply bset_bytes; solve [eauto 6 with bytes]|intros ? ?]
  | |- gives _ (pack_le _ _ ≫= _) => eapply gives_bind; [apply pack_le_bytes|intros ? ?]
  | |- gives _ (Ok _) => apply gives_Ok
  end.

Lemma boot_sector_bytes_ok total l label : gives (λ d, Bytes d) (boot_sector total l label).
Proof.
  unfold boot_sector. cbv zeta.
  assert (Bytes (slice_set (slice_set (zeros 512) 0 3 [0xEB; 0x3E; 0x90]) 3 11 (b "QIZOIMG" ++ [0]))) as Hs
    by eauto 6 with bytes.
  repeat bytes_step. assert (Bytes (ljust (take 11 (encode_utf8 label)) 11 32)) as Hl
    by (apply ljust_bytes; [apply take_bytes, b_Bytes|done]).
  repeat apply slice_set_Bytes; eauto with bytes. case_match; apply b_Bytes.
Qed.

Lemma image_entry_bytes name size cluster attrs modtime moddate :
  gives (λ d, Bytes d) (dir_entry name size cluster attrs modtime moddate).
Proof.
  unfold dir_entry. destruct (default _ _) as [base ext]. cbv zeta. unfold encode_utf8.
  match goal with |- gives _ (bset ?e _ _ ≫= _) => assert (Bytes e) as He by eauto 6 with bytes; generalize dependent e end.
  intros e He. repeat bytes_step. eauto 12 with bytes.
Qed.

Lemma fat_set_bytes fat bits i v : Bytes fat → gives (λ d, Bytes d) (fat_set fat bits i v).
Proof.
  intros Hf. unfold fat_set. case_match; [|by apply pack_into_bytes]. cbv zeta. case_match.
  - apply gives_skip. intros x. bytes_step. eauto with bytes.
  - bytes_step. apply gives_skip. intros y. eauto with bytes.
Qed.

Lemma alloc_file_bytes bits eof f s :
  Bytes (a_fat s) → gives (λ c, match c with Next s | Break s => Bytes (a_fat s) end) (alloc_file bits eof f s).
Proof.
  destruct f as [name payload], s as [fat co nxt]. cbn [a_fat]. intros Hf. unfold alloc_file. case_match; [by apply gives_Ok|].
  eapply gives_bind; [apply (gives_for_each (λ d, Bytes d)); [|done]|].
  - intros i d _ Hd. eapply gives_bind; [by apply fat_set_bytes|]. intros d' Hd'. by apply gives_Ok.
  - intros d Hd. eapply gives_bind; [by apply fat_set_bytes|]. intros d' Hd'. by apply gives_Ok.
Qed.

Lemma root_dir_bytes n label co files : gives (λ d, Bytes d) (root_dir n label co files).
Proof.
  unfold root_dir. cbv zeta. eapply gives_bind; [apply image_entry_bytes|]. intros e He.
  eapply gives_bind; [apply (gives_for_each (λ s : bytes * Z, Bytes s.1)); [|cbn; eauto with bytes]|].
  - intros [name payload] [root off] _ Hr. unfold root_entry. destruct (default _ _) as [first count].
    eapply gives_bind; [apply image_entry_bytes|]. intros e' He'. apply gives_Ok. cbn in *. eauto with bytes.
  - intros [root off] Hr. by apply gives_Ok.
Qed.

Lemma write_file_bytes lba co f img :
  Bytes f.2 → Bytes img → gives (λ c, match c with Next s | Break s => Bytes s end) (write_file lba co f img).
Proof.
  destruct f as [name payload]. cbn [snd]. intros Hp Hi. unfold write_file.
  destruct (co !! name) as [[first count]|]; apply gives_Ok; eauto with bytes.
Qed.

Lemma build_image_bytes total l files label blob off stage2 :
  Bytes blob → Bytes stage2 → (∀ f, f ∈ files → Bytes f.2) →
  gives (λ r, Bytes r.1) (build_image total l files label blob off stage2).
Proof.
  intros Hb Hs Hf. unfold build_image. cbv zeta. eapply gives_bind; [apply boot_sector_bytes_ok|]. intros bs Hbs.
  eapply gives_bind.
  { apply (gives_for_each (λ s, Bytes (a_fat s))); [|apply zeros_Bytes]. intros f s _. apply alloc_file_bytes. }
  intros [fat co nxt] Hfat. cbn [a_fat] in Hfat.
  eapply gives_bind; [by apply fat_set_bytes|]. intros fat1 Hfat1.
  eapply gives_bind; [by apply fat_set_bytes|]. intros fat2 Hfat2. apply gives_skip. intros n.
  eapply gives_bind; [apply root_dir_bytes|]. intros root Hroot.
  eapply gives_bind; [apply (gives_for_each (λ d, Bytes d))|].
  - intros f s Hin. apply write_file_bytes. by apply Hf.
  - eauto 12 with bytes.
  - intros img Himg. apply gives_Ok. cbn [fst]. eauto with bytes.
Qed.

Lemma write_mbr_bytes img stage1 l part total :
  Bytes img → Bytes stage1 → gives (λ d, Bytes d) (write_mbr img stage1 l part total).
Proof. intros Hi Hs. unfold write_mbr. cbv zeta. repeat bytes_step. eauto with bytes. Qed.

(** ** The tool *)

Lemma compress_bytes src : Bytes src → gives (λ d, Bytes d) (Lzss.compress src).
Proof.
  intros Hs blob E. assert (fits 4 (len src) = true) as Hfit.
  { unfold Lzss.compress in E. destruct (pack_le 4 Lzss.LZSS_MAGIC); [|done..]. cbn [mbind res_bind] in E.
    unfold pack_le in E. by destruct (fits 4 (len src)). }
  destruct (codec_encodes (enc := compress) (dec := decompress) (magic := LZSS_MAGIC) src Hs Hfit) as (blob' & E' & Hb). congruence.
Qed.

Lemma pack_blob_bytes raw payload : Bytes payload → gives (λ d, Bytes d) (pack_blob raw payload).
Proof.
  intros Hp. unfold pack_blob. destruct raw; [|by apply compress_bytes].
  do 2 (eapply gives_bind; [apply pack_le_bytes|]; intros ? ?). apply gives_Ok. eauto with bytes.
Qed.

Lemma module_header_bytes klen entry total base : gives (λ d, Bytes d) (module_header klen entry total base).
Proof.
  unfold module_header. do 6 (eapply gives_bind; [apply pack_le_bytes|]; intros ? ?). apply gives_Ok. eauto 12 with bytes.
Qed.

Lemma load_stage1_bytes data : Bytes data → gives (λ d, Bytes d) (load_stage1 data).
Proof.
  intros Hd. unfold load_stage1. cbv zeta. do 2 (apply gives_skip; intros _). apply gives_Ok.
  case_match; eauto with bytes.
Qed.

Lemma patch_stage1_bytes stage1 n crc : Bytes stage1 → gives (λ d, Bytes d) (patch_stage1 stage1 n crc).
Proof. intros Hs. unfold patch_stage1. repeat bytes_step. by apply pack_into_bytes. Qed.

(** The image of [Image.main]. *)
Lemma image_bytes o img lines :
  Bytes (o_stage1 o) → Bytes (o_stage2 o) → Bytes (o_kernel_bin o) → Image.main o = Ok (img, lines) → Bytes img.
Proof.
  intros H1 H2 Hk. enough (gives (λ r, Bytes r.1) (Image.main o)) as Hg by (intros E; by apply (Hg _ E)).
  unfold Image.main. cbv zeta. eapply gives_bind; [by apply load_stage1_bytes|]. intros s1 Hs1.
  apply gives_skip. intros _. apply gives_skip. intros k. eapply gives_bind; [apply module_header_bytes|]. intros hdr Hh.
  eapply gives_bind; [apply pack_blob_bytes; eauto with bytes|]. intros blob Hb. apply gives_skip. intros _.
  eapply gives_bind; [by apply patch_stage1_bytes|]. intros s1' Hs1'. apply gives_skip. intros [total l].
  eapply gives_bind; [apply build_image_bytes|].
  - eauto with bytes.
  - eauto with bytes.
  - intros f. rewrite !elem_of_cons, elem_of_nil. intros [->|[->|[]]]; [apply b_Bytes|done].
  - intros [img0 info] Hi. cbn [fst] in Hi. eapply gives_bind; [by apply write_mbr_bytes|]. intros img1 Hi1. by apply gives_Ok.
Qed.

(** Whatever the sizes, the symbols and the options are: an image that is written
    consists of bytes, when the code and the kernel do. *)
Theorem main_bytes o img lines :
  Bytes (o_stage1 o) → Bytes (o_stage2 o) → Bytes (o_kernel_bin o) → Image.main o = Ok (img, lines) → Bytes img.
Proof. apply image_bytes. Qed.

Lemma main_bytes_witness : ∃ img lines, Image.main (ex_options false) = Ok (img, lines) ∧ Bytes img.
Proof.
  destruct (main_spec _ _ _ _ _ (ex_build_ok false)) as (img & lines & E & _). exists img, lines. split; [exact E|].
  apply (main_bytes (ex_options false) img lines);
    [apply (bool_decide_unpack _); vm_compute; exact I|apply (bool_decide_unpack _); vm_compute; exact I|
     apply (bool_decide_unpack _); vm_compute; exact I|exact E].
Defined.
