(* ===== verification/Interrupts.v ===== *)
(** * Interrupts and time: [kernel/main.c]

    The handler that every interrupt reaches, what it tells the interrupt
    controllers, how these are set up, and the clock.  [interrupts_safe]: whatever
    interrupts come, the handler returns, the drivers keep their state in order,
    and each interrupt is acknowledged to the controllers that wait for it.
    [pic_init_lines]: after the start only the timer and the keyboard reach the
    processor, the mouse does not.  [sleep_ends] and [calibrate_rate]: waiting ends,
    and the rate the clock is taken to have is never zero.

    The two interrupt controllers are devices of which the documented behaviour is
    stated by the class [TwoPics]. *)

From S2P Require Export Console Keyboard Mouse.

Module IRQ.

(** The fields of [struct qizo_regs] that are used. *)
Record regs := Regs { vector : Z; code : Z; rip : Z }.

Record state := State {
  ticks : Z;
  keyboard_irqs : Z;
  spurious : Z;
  kbd : KBD.kbd;
  mouse : MOUSE.mouse;
}.

Definition tick (s : state) : state :=
  State (u64 (ticks s + 1)) (keyboard_irqs s) (spurious s) (kbd s) (mouse s).
Definition count_key (s : state) : state :=
  State (ticks s) (u64 (keyboard_irqs s + 1)) (spurious s) (kbd s) (mouse s).
Definition count_spurious (s : state) : state :=
  State (ticks s) (keyboard_irqs s) (u64 (spurious s + 1)) (kbd s) (mouse s).
Definition set_kbd (k : KBD.kbd) (s : state) : state :=
  State (ticks s) (keyboard_irqs s) (spurious s) k (mouse s).
Definition set_mouse (m : MOUSE.mouse) (s : state) : state :=
  State (ticks s) (keyboard_irqs s) (spurious s) (kbd s) m.

(** What is printed before the machine halts: on the serial port only, or on the
    console. *)
Inductive output : Type :=
  | Trace (stage : string)
  | Text (t : list Z).

Section device.
Context {D : Type} `{Ports D}.

(** The handler returns, or the machine stops for good. *)
Inductive outcome : Type :=
  | Return (s : state) (d : D)
  | Halt (out : list output).

(** [cr2] is the register of that name, [frame] the address of the registers. *)
Definition qizo_exception (r : regs) (cr2 frame : Z) : option (list output) :=
  let fault := if vector r =? 14 then cr2 else 0 in
  t1 ← CON.qizo_printf (chars "qizo: cpu exception %u rip=%p code=%p cr2=%p" ++ [13; 10])
    [CON.Num (u32 (vector r)); CON.Num (rip r); CON.Num (code r); CON.Num fault];
  t2 ← CON.qizo_printf (chars "qizo: faulting frame at %p, vector list in docs" ++ [13; 10]) [CON.Num frame];
  Some [Trace "panic"; Text t1; Text t2].

Definition qizo_irq_handler (r : regs) (cr2 frame : Z) (s : state) (d : D) : option outcome :=
  if vector r <? 32 then Halt <$> qizo_exception r cr2 frame
  else if vector r =? 32 then Some (Return (tick s) d)
  else if vector r =? 33 then
    let '(status, d) := inb 0x64 d in
    let s := count_key s in
    if negb (Z.land status 1 =? 0) then
      let '(c, d) := inb 0x60 d in
      k ← KBD.qizo_kbd_interrupt (kbd s) c;
      Some (Return (set_kbd k s) d)
    else Some (Return s d)
  else if vector r =? 44 then
    let '(status, d) := inb 0x64 d in
    let '(c, d) := inb 0x60 d in
    if Z.land status 0x21 =? 0x21 then
      m ← MOUSE.qizo_mouse_interrupt (mouse s) c;
      Some (Return (set_mouse m s) d)
    else Some (Return s d)
  else Some (Return (count_spurious s) d).

Definition qizo_irq_eoi (r : regs) (d : D) : D :=
  if (32 <=? vector r) && (vector r <? 48) then
    outb 0x20 0x20 (if 40 <=? vector r then outb 0xA0 0x20 d else d)
  else d.

(** The two calls of [qizo_isr_common]. *)
Definition qizo_isr_common (r : regs) (cr2 frame : Z) (s : state) (d : D) : option outcome :=
  o ← qizo_irq_handler r cr2 frame s d;
  Some (match o with Return s d => Return s (qizo_irq_eoi r d) | Halt out => Halt out end).

(** ** Setting the controllers up *)

(** [qizo_outb] and [qizo_io_wait] *)
Definition outb_wait (d : D) (pv : Z * Z) : D := outb 0x80 0 (outb pv.1 pv.2 d).

Definition pic_init (d : D) : D :=
  foldl outb_wait d
    [(0x20, 0x11); (0xA0, 0x11); (0x21, 0x20); (0xA1, 0x28); (0x21, 0x04); (0xA1, 0x02);
     (0x21, 0x01); (0xA1, 0xEF); (0x21, 0xFC)].

(** ** The clock *)

Definition qizo_timer_init (d : D) : D := foldl outb_wait d [(0x43, 0x36); (0x40, 0x49); (0x40, 0x04)].

Definition qizo_cycles_per_ms (cycles_per_ms : Z) : Z := if cycles_per_ms =? 0 then 1000000 else cycles_per_ms.

(** A round that waits: [ticks] and the time stamp counter as the test of round
    [i] sees them. *)
Definition sleep_loop (fuel : nat) (seen : nat → Z * Z) (target limit : Z) : option nat :=
  while_up fuel (λ i, ((seen i).1 <? target) && ((seen i).2 <? limit)) (λ i, Some (S i)) O.

(** [ticks] and the counter when the call is made are [t0] and [c0]; the result is
    the number of rounds.  Without a timer the loop counts and nothing else. *)
Definition qizo_sleep (fuel : nat) (timer_alive : bool) (cycles_per_ms ms_per_tick ms t0 c0 : Z) (seen : nat → Z * Z) :
    option nat :=
  if negb timer_alive then Some O
  else
    let target := u64 (t0 + u64 (ms + ms_per_tick - 1) / ms_per_tick) in
    let limit := u64 (c0 + u64 (u64 (ms + 40) * qizo_cycles_per_ms cycles_per_ms)) in
    sleep_loop fuel seen target limit.

Section calibrate.
(** The time stamp counter, and [ticks] as it is when it is read for the [i]th time
    from the second loop on. *)
Context (rdtsc : D → Z * D) (ticks_at : nat → Z).

(** The first loop: the counter at the last change, if there was one, the changes,
    the last value of the port. *)
Definition pit_round (a : Z) (c1 : option Z) (ms : Z) (d : D) : Z * option Z * Z * D :=
  let '(v, d) := inb 0x40 d in
  if a <? v then let '(c, d) := rdtsc d in (v, Some c, ms + 1, d) else (a, c1, ms, d).

Fixpoint pit_loop (n : nat) (a : Z) (c1 : option Z) (ms : Z) (d : D) : option Z * Z * D :=
  match n with
  | O => (c1, ms, d)
  | S n =>
      if ms <? 8
      then let '(a, c1, ms, d) := pit_round a c1 ms d in pit_loop n a c1 ms d
      else (c1, ms, d)
  end.

(** The second loop: the rounds until [ticks] changes, 200000 at most. *)
Definition tick_loop (seen : Z) (d : D) : option (nat * D) :=
  while_up (Z.to_nat 200000) (λ st, (Z.of_nat st.1 <? 200000) && (ticks_at st.1 =? seen))
    (λ st, Some (S st.1, outb 0x80 0 st.2)) (O, d).

(** [cycles_per_ms], whether the timer lives, and what is printed.  A counter that
    was not read is not defined. *)
Definition qizo_calibrate (cycles_per_ms : Z) (ticks0 seen : Z) (d : D) :
    option (Z * bool * list Z * D) :=
  let '(a, d) := inb 0x40 d in
  let '(c0, d) := rdtsc d in
  let '(c1, ms, d) := pit_loop (Z.to_nat 400000) a None 0 d in
  cycles ← (if negb (ms =? 0) then
              c1 ← c1;
              let c := u64 (c1 - c0) / ms in
              Some (if c =? 0 then 1 else c)
            else Some cycles_per_ms);
  '(i, d) ← tick_loop seen d;
  let alive := negb (ticks_at (S i) =? seen) in
  t ← (if alive
       then CON.qizo_printf (chars "timer : %u ticks/s, %u Mcycles/s, pit wraps %u" ++ [13; 10])
              [CON.Num (u32 (u64 (ticks_at (S (S i)) - ticks0))); CON.Num (u32 cycles); CON.Num ms]
       else Some (chars "timer : irq0 silent, pit polling only" ++ [13; 10]));
  Some (cycles, alive, t, d).
End calibrate.

(** ** The reset

    [n] bounds the rounds of the loop, which has no end of its own. *)
Fixpoint reboot_loop (n : nat) (spin : Z) (d : D) : option D :=
  match n with
  | O => None
  | S n =>
      let '(v, d) := inb 0x64 d in
      if Z.land v 2 =? 0 then
        if spin =? 0 then Some (outb 0x64 0xFE d) else reboot_loop n (spin - 1) d
      else reboot_loop n spin d
  end.

Definition qizo_reboot (n : nat) (d : D) : option D := reboot_loop n 0x10000 d.
End device.
Arguments outcome : clear implicits.

(** ** The interrupt controllers

    What is documented of a controller of the PC: the words of the initialization,
    the mask, and the requests in service, the most urgent first. *)
Record pic := Pic {
  p_step : Z;
  p_single : bool;
  p_icw4 : bool;
  p_offset : Z;
  p_mask : Z;
  p_auto : bool;
  p_service : list Z;
}.

(** A write to the first port: a word with bit 4 starts the initialization, 0x20
    ends the most urgent request. *)
Definition pic_command (v : Z) (p : pic) : pic :=
  if Z.testbit v 4 then Pic 2 (Z.testbit v 1) (Z.testbit v 0) (p_offset p) 0 false (p_service p)
  else if v =? 0x20
  then Pic (p_step p) (p_single p) (p_icw4 p) (p_offset p) (p_mask p) (p_auto p) (drop 1 (p_service p))
  else p.

(** A write to the second port: the next word of the initialization, or the mask. *)
Definition pic_data (v : Z) (p : pic) : pic :=
  let next := if p_icw4 p then 4 else 0 in
  if p_step p =? 2
  then Pic (if p_single p then next else 3) (p_single p) (p_icw4 p) (Z.land v 0xF8) (p_mask p) (p_auto p) (p_service p)
  else if p_step p =? 3
  then Pic next (p_single p) (p_icw4 p) (p_offset p) (p_mask p) (p_auto p) (p_service p)
  else if p_step p =? 4
  then Pic 0 (p_single p) (p_icw4 p) (p_offset p) (p_mask p) (Z.testbit v 1) (p_service p)
  else Pic (p_step p) (p_single p) (p_icw4 p) (p_offset p) v (p_auto p) (p_service p).

Class TwoPics (D : Type) `{Ports D} := {
  master : D → pic;
  slave : D → pic;
  write_master p v d :
    master (outb p v d) =
      if p =? 0x20 then pic_command v (master d) else if p =? 0x21 then pic_data v (master d) else master d;
  write_slave p v d :
    slave (outb p v d) =
      if p =? 0xA0 then pic_command v (slave d) else if p =? 0xA1 then pic_data v (slave d) else slave d;
  read_pics p d : p ≠ 0x20 → p ≠ 0x21 → p ≠ 0xA0 → p ≠ 0xA1 →
    master (inb p d).2 = master d ∧ slave (inb p d).2 = slave d;
}.

Section pics.
Context {D : Type} `{TwoPics D}.

(** The vector under which a request on one of the 16 lines reaches the processor:
    the second controller is behind line 2 of the first. *)
Definition delivered (d : D) (line : Z) : option Z :=
  if line <? 8 then
    if (line =? 2) || Z.testbit (p_mask (master d)) line then None else Some (p_offset (master d) + line)
  else if Z.testbit (p_mask (master d)) 2 || Z.testbit (p_mask (slave d)) (line - 8) then None
  else Some (p_offset (slave d) + (line - 8)).

Lemma outb_wait_pics p v (d : D) :
  master (outb_wait d (p, v)) =
    (if p =? 0x20 then pic_command v (master d) else if p =? 0x21 then pic_data v (master d) else master d) ∧
  slave (outb_wait d (p, v)) =
    (if p =? 0xA0 then pic_command v (slave d) else if p =? 0xA1 then pic_data v (slave d) else slave d).
Proof. unfold outb_wait. cbn [fst snd]. by rewrite !write_master, !write_slave. Qed.

Lemma pic_init_state (d : D) :
  master (pic_init d) = Pic 0 false true 0x20 0xFC false (p_service (master d)) ∧
  slave (pic_init d) = Pic 0 false true 0x28 0 true (p_service (slave d)).
Proof.
  unfold pic_init. cbn [foldl].
  split; rewrite ?(proj1 (outb_wait_pics _ _ _)), ?(proj2 (outb_wait_pics _ _ _)); reflexivity.
Qed.

(** C20 - After the start the timer and the keyboard reach the processor, under the
    vectors the handler takes them for, and nothing else does: the line the second
    controller is behind is masked, so the mouse never interrupts.  That
    controller took the byte meant as its mask for the last word of its
    initialization. *)
Theorem pic_init_lines (d : D) line :
  0 ≤ line < 16 →
  delivered (pic_init d) line = (if line <? 2 then Some (32 + line) else None) ∧
  p_mask (slave (pic_init d)) = 0 ∧ p_auto (slave (pic_init d)) = true.
Proof.
  intros Hl. destruct (pic_init_state d) as [Em Es]. unfold delivered. rewrite Em, Es. cbn [p_mask p_offset p_auto].
  split; [|done]. assert (Forall (λ line, (if line <? 8 then
    if (line =? 2) || Z.testbit 0xFC line then None else Some (0x20 + line) else if Z.testbit 0xFC 2 || Z.testbit 0 (line - 8) then None
    else Some (0x28 + (line - 8))) = if line <? 2 then Some (32 + line) else None) (seqZ 0 16)) as Hall
    by (apply (bool_decide_unpack _); by vm_compute).
  rewrite list.Forall_forall in Hall. apply (Hall line), elem_of_seqZ. lia.
Qed.
End pics.

(** ** What the handler does *)

#[local] Existing Instance CON.valid_dec.

Section handled.
Context {D : Type} `{TwoPics D}.

Record ok (s : state) : Prop := {
  ok_ticks : 0 ≤ ticks s < 2 ^ 64;
  ok_keys : 0 ≤ keyboard_irqs s < 2 ^ 64;
  ok_spurious : 0 ≤ spurious s < 2 ^ 64;
  ok_kbd : KBD.inv (kbd s);
  ok_mouse : MOUSE.inv (mouse s);
}.

(** A list of interrupts, one after the other. *)
Fixpoint interrupts (rs : list (regs * Z * Z)) (s : state) (d : D) : option (state * D) :=
  match rs with
  | [] => Some (s, d)
  | (r, cr2, frame) :: rs =>
      o ← qizo_isr_common r cr2 frame s d;
      match o with Return s d => interrupts rs s d | Halt _ => None end
  end.

(** How many of them have a vector from [a] to [b]. *)
Definition within (a b : Z) (v : Z) : bool := (a <=? v) && (v <=? b).
Definition count (a b : Z) (rs : list (regs * Z * Z)) : nat := length (List.filter (λ r, within a b (vector r.1.1)) rs).

(** What happens to the counters, the drivers and the requests in service. *)
Record handled (rs : list (regs * Z * Z)) (s : state) (d : D) (s' : state) (d' : D) : Prop := {
  h_ok : ok s';
  h_ticks : ticks s' = u64 (ticks s + Z.of_nat (count 32 32 rs));
  h_keys : keyboard_irqs s' = u64 (keyboard_irqs s + Z.of_nat (count 33 33 rs));
  h_ring : KBD.tail (kbd s') = KBD.tail (kbd s) ∧
    ∃ l, KBD.content (kbd s') = KBD.content (kbd s) ++ l ∧ (length l ≤ count 33 33 rs)%nat;
  h_moves : count 44 44 rs = O → mouse s' = mouse s;
  h_master : p_service (master d') = drop (count 32 47 rs) (p_service (master d));
  h_slave : p_service (slave d') = drop (count 40 47 rs) (p_service (slave d));
}.

Lemma eoi_pics r (d : D) :
  p_service (master (qizo_irq_eoi r d)) = drop (if within 32 47 (vector r) then 1 else 0) (p_service (master d)) ∧
  p_service (slave (qizo_irq_eoi r d)) = drop (if within 40 47 (vector r) then 1 else 0) (p_service (slave d)).
Proof.
  unfold qizo_irq_eoi, within. destruct (Z.leb_spec 32 (vector r)), (Z.ltb_spec (vector r) 48), (Z.leb_spec 40 (vector r)),
    (Z.leb_spec (vector r) 47); cbn [andb]; try lia; rewrite ?write_master, ?write_slave; cbn; rewrite ?drop_0; try done.
  all: by rewrite ?write_master, ?write_slave.
Qed.

Lemma inb_pics p (d d' : D) v :
  inb p d = (v, d') → p = 0x60 ∨ p = 0x64 → master d' = master d ∧ slave d' = slave d ∧ 0 ≤ v < 256.
Proof.
  intros E Hp. pose proof (inb_byte p d) as Hb. destruct (read_pics p d) as [Em Es]; [lia..|].
  rewrite E in Em, Es, Hb. done.
Qed.

(** A counter after one more interrupt. *)
Lemma count_cons a b r cr2 frame rs :
  count a b ((r, cr2, frame) :: rs) = ((if within a b (vector r) then 1 else 0) + count a b rs)%nat.
Proof. unfold count. cbn [List.filter fst]. by destruct (within a b (vector r)). Qed.

Lemma handled_nil s d : ok s → handled [] s d s d.
Proof.
  intros Hok. pose proof Hok as [? ? ? ? ?]. split; cbn [count]; try done.
  - unfold count. cbn. by rewrite Z.add_0_r, u64_small.
  - unfold count. cbn. by rewrite Z.add_0_r, u64_small.
  - split; [done|]. exists []. by rewrite (right_id_L [] (++)).
Qed.

Lemma count_one a b r cr2 frame : count a b [(r, cr2, frame)] = if within a b (vector r) then 1%nat else 0%nat.
Proof. rewrite count_cons. unfold count. cbn [List.filter length]. by rewrite Nat.add_0_r. Qed.

Lemma count_app a b rs rs' : count a b (rs ++ rs') = (count a b rs + count a b rs')%nat.
Proof. unfold count. by rewrite List.filter_app, length_app. Qed.

(** The handler has returned: take the parts of its specification one by one. *)
Ltac returned := cbn [safe]; eexists _, _; split_and!;
  [reflexivity|congruence|congruence|constructor; first [done|apply u64_range]|..]; try done.

(** The counters and drivers after the handler, which leaves the controllers alone. *)
Lemma handler_returns r cr2 frame s d :
  ok s → 32 ≤ vector r →
  safe (qizo_irq_handler r cr2 frame s d) (λ o, ∃ s' d', o = Return s' d' ∧ master d' = master d ∧ slave d' = slave d ∧
    ok s' ∧
    ticks s' = u64 (ticks s + if within 32 32 (vector r) then 1 else 0) ∧
    keyboard_irqs s' = u64 (keyboard_irqs s + if within 33 33 (vector r) then 1 else 0) ∧
    KBD.tail (kbd s') = KBD.tail (kbd s) ∧
    (∃ l, KBD.content (kbd s') = KBD.content (kbd s) ++ l ∧ (length l ≤ if within 33 33 (vector r) then 1 else 0)%nat) ∧
    (within 44 44 (vector r) = false → mouse s' = mouse s)).
Proof.
  intros [Ht Hk Hs Hkbd Hm] Hv. unfold qizo_irq_handler, within. rewrite (proj2 (Z.ltb_ge (vector r) 32)) by done.
  assert (∃ l, KBD.content (kbd s) = KBD.content (kbd s) ++ l ∧ (length l ≤ 0)%nat) as Hnone
    by (exists []; by rewrite (right_id_L [] (++))).
  destruct (Z.eqb_spec (vector r) 32) as [->|N32].
  { cbn -[Z.pow u64]. rewrite Z.add_0_r, (u64_small (keyboard_irqs s)) by done.
    returned. }
  assert ((32 <=? vector r) && (vector r <=? 32) = false) as -> by by_bool.
  rewrite Z.add_0_r, (u64_small (ticks s)) by done.
  destruct (Z.eqb_spec (vector r) 33) as [->|N33].
  { destruct (inb 0x64 d) as [st d1] eqn:E1. destruct (inb_pics _ _ _ _ E1) as (M1 & S1 & _); [lia|]. cbn -[Z.pow u64 inb Z.land].
    destruct (negb (Z.land st 1 =? 0)).
    - destruct (inb 0x60 d1) as [c d2] eqn:E2. destruct (inb_pics _ _ _ _ E2) as (M2 & S2 & Hc); [lia|].
      apply safe_bind. eapply safe_mono; [by apply KBD.interrupt_appends|]. intros k (Hi & Htl & l & Hl & Hn).
      returned. by exists l.
    - returned. exists []. rewrite (right_id_L [] (++)). split; [done|]. cbn. lia. }
  assert ((33 <=? vector r) && (vector r <=? 33) = false) as -> by by_bool.
  rewrite Z.add_0_r, (u64_small (keyboard_irqs s)) by done.
  destruct (Z.eqb_spec (vector r) 44) as [->|N44].
  { destruct (inb 0x64 d) as [st d1] eqn:E1. destruct (inb_pics _ _ _ _ E1) as (M1 & S1 & _); [lia|].
    destruct (inb 0x60 d1) as [c d2] eqn:E2. destruct (inb_pics _ _ _ _ E2) as (M2 & S2 & Hc); [lia|].
    destruct (Z.land st 0x21 =? 0x21).
    - apply safe_bind. eapply safe_mono; [by apply MOUSE.interrupt_spec|]. intros m [Hi _]. returned.
    - returned. }
  returned.
Qed.

(** One interrupt. *)
Lemma isr_handled r cr2 frame s d :
  ok s → 32 ≤ vector r →
  safe (qizo_isr_common r cr2 frame s d) (λ o, ∃ s' d', o = Return s' d' ∧ handled [(r, cr2, frame)] s d s' d').
Proof.
  intros Hok Hv. unfold qizo_isr_common. apply safe_bind. eapply safe_mono; [by apply handler_returns|].
  intros o (s' & d' & -> & Em & Es & Hok' & Ht & Hk & Htl & Hc & Hm). cbn [safe]. exists s', (qizo_irq_eoi r d').
  split; [done|]. destruct (eoi_pics r d') as [Hem Hes].
  split; rewrite ?count_one; try done.
  - rewrite Ht. do 2 f_equal. by destruct (within 32 32 _).
  - rewrite Hk. do 2 f_equal. by destruct (within 33 33 _).
  - intros Hn. apply Hm. by destruct (within 44 44 _).
  - by rewrite Hem, Em.
  - by rewrite Hes, Es.
Qed.

Lemma handled_trans rs rs' s d s1 d1 s2 d2 :
  handled rs s d s1 d1 → handled rs' s1 d1 s2 d2 → handled (rs ++ rs') s d s2 d2.
Proof.
  intros [O1 T1 K1 (R1 & l1 & C1 & L1) M1 Ma1 Sl1] [O2 T2 K2 (R2 & l2 & C2 & L2) M2 Ma2 Sl2].
  split; rewrite ?count_app; try done.
  - rewrite T2, T1. unfold u64. rewrite Z.add_mod_idemp_l by done. f_equal. lia.
  - rewrite K2, K1. unfold u64. rewrite Z.add_mod_idemp_l by done. f_equal. lia.
  - split; [congruence|]. exists (l1 ++ l2). rewrite C2, C1, (assoc_L (++)). split; [done|]. rewrite length_app. lia.
  - intros. rewrite M2, M1 by lia. done.
  - rewrite Ma2, Ma1, drop_drop. done.
  - rewrite Sl2, Sl1, drop_drop. done.
Qed.

(** C16 - Whatever interrupts come, one after the other and none of them an exception,
    the handler returns from each; the timer and the keyboard are counted, keys are
    put behind those that wait, the mouse moves by its own interrupts only, and
    each request is ended once, at both controllers when it came through the
    second. *)
Theorem interrupts_safe rs s d :
  ok s → Forall (λ r, 32 ≤ vector r.1.1) rs →
  safe (interrupts rs s d) (λ r, handled rs s d r.1 r.2).
Proof.
  intros Hok Hrs. revert s d Hok. induction Hrs as [|[[r cr2] frame] rs Hr Hrs IH]; intros s d Hok; cbn [interrupts].
  { by apply handled_nil. }
  apply safe_bind. eapply safe_mono; [by apply isr_handled|]. intros o (s1 & d1 & -> & H1).
  eapply safe_mono; [by apply IH, H1|]. intros [s2 d2] H2. by apply (handled_trans [(r, cr2, frame)] rs s d s1 d1).
Qed.

(** An exception never returns: its number, the place and the page are printed, in
    this order. *)
Lemma exception_text r cr2 frame :
  qizo_exception r cr2 frame = Some [Trace "panic";
    Text (chars "qizo: cpu exception " ++ b (fmt_d (u32 (u32 (vector r)))) ++ chars " rip=" ++ b (fmt_x (u64 (rip r))) ++
      chars " code=" ++ b (fmt_x (u64 (code r))) ++ chars " cr2=" ++ b (fmt_x (u64 (if vector r =? 14 then cr2 else 0))) ++
      [13; 10]);
    Text (chars "qizo: faulting frame at " ++ b (fmt_x (u64 frame)) ++ chars ", vector list in docs" ++ [13; 10])].
Proof.
  unfold qizo_exception.
  change (chars "qizo: cpu exception %u rip=%p code=%p cr2=%p" ++ [13; 10]) with
    (((CON.Char <$> chars "qizo: cpu exception ") ++ CON.Conv 117 :: (CON.Char <$> chars " rip=") ++ CON.Conv 112 ::
      (CON.Char <$> chars " code=") ++ CON.Conv 112 :: (CON.Char <$> chars " cr2=") ++ CON.Conv 112 ::
      (CON.Char <$> [13; 10])) ≫= CON.text_of).
  change (chars "qizo: faulting frame at %p, vector list in docs" ++ [13; 10]) with
    (((CON.Char <$> chars "qizo: faulting frame at ") ++ CON.Conv 112 :: (CON.Char <$> (chars ", vector list in docs" ++ [13; 10])))
      ≫= CON.text_of).
  rewrite !CON.printf_pieces by (apply (bool_decide_unpack _); by vm_compute). reflexivity.
Qed.
End handled.

(** ** Waiting *)

(** A wait of [ms] milliseconds, with a tick each: it ends in the first round that
    sees [ms] ticks gone, or the counter past the cycles of [ms + 40]
    milliseconds, whichever comes first. *)
Theorem sleep_ends fuel cycles ms t0 c0 seen n :
  0 ≤ ms → 0 ≤ t0 → 0 ≤ c0 → t0 + ms < 2 ^ 64 → c0 + (ms + 40) * qizo_cycles_per_ms cycles < 2 ^ 64 → 0 ≤ cycles →
  let over i := t0 + ms ≤ (seen i).1 ∨ c0 + (ms + 40) * qizo_cycles_per_ms cycles ≤ (seen i).2 in
  over n → (n ≤ fuel)%nat →
  ∃ i, qizo_sleep fuel true cycles 1 ms t0 c0 seen = Some i ∧ (i ≤ n)%nat ∧ over i ∧ ∀ j, (j < i)%nat → ¬ over j.
Proof.
  intros Hms Ht Hc Ht' Hc' Hcy over Hn Hf. unfold qizo_sleep, sleep_loop. cbn [negb].
  assert (1 ≤ qizo_cycles_per_ms cycles) by (unfold qizo_cycles_per_ms; case_bool; lia).
  replace (ms + 1 - 1) with ms by lia.
  assert (ms + 40 ≤ (ms + 40) * qizo_cycles_per_ms cycles) by nia.
  rewrite Z.div_1_r, (u64_small ms), (u64_small (t0 + ms)), (u64_small (ms + 40)), (u64_small ((ms + 40) * _)),
    (u64_small (c0 + _)) by nia.
  set (cond := λ i, ((seen i).1 <? _) && _). assert (∀ i, cond i = false ↔ over i) as Hcond.
  { intros i. unfold cond, over. cbn beta. rewrite andb_false_iff, !Z.ltb_ge. done. }
  assert (safe (while_up fuel cond (λ i, Some (S i)) O) (λ i, (i ≤ n)%nat ∧ over i ∧ ∀ j, (j < i)%nat → ¬ over j)) as Hs.
  { apply (safe_while (λ i, (i ≤ n)%nat ∧ ∀ j, (j < i)%nat → ¬ over j) _ (λ i, (n - i)%nat)); [|..|lia].
    - intros i [Hi Hall] Hci. cbn [safe].
      assert (¬ over i) as Hno by (intros E%Hcond; congruence). assert (i ≠ n) by congruence.
      split; [split; [lia|]|lia]. intros j Hj. destruct (decide (j = i)) as [->|]; [done|]. apply Hall. lia.
    - intros i [Hi Hall] Hci. split; [done|]. split; [by apply Hcond|done].
    - split; [lia|]. lia. }
  apply safe_Some in Hs as (i & E & Hi). by exists i.
Qed.

Lemma sleep_ends_witness :
  ∃ i, qizo_sleep 10 true 0 1 3 100 0 (λ i, (100 + Z.of_nat i, 0)) = Some i ∧ (i ≤ 3)%nat.
Proof.
  destruct (sleep_ends 10 0 3 100 0 (λ i, (100 + Z.of_nat i, 0)) 3 ltac:(lia) ltac:(lia) ltac:(lia) ltac:(lia)
    ltac:(vm_compute; reflexivity) ltac:(lia) ltac:(left; vm_compute; congruence) ltac:(lia)) as (i & E & Hi & _).
  by exists i.
Defined.

Section clock.
Context {D : Type} `{Ports D} (rdtsc : D → Z * D) (ticks_at : nat → Z).

(** The counter has been read when the port has changed. *)
Lemma pit_loop_read n a c1 ms d :
  0 ≤ ms ≤ 8 → (0 < ms → is_Some c1) →
  let '(c1, ms, _) := pit_loop rdtsc n a c1 ms d in 0 ≤ ms ≤ 8 ∧ (0 < ms → is_Some c1).
Proof.
  revert a c1 ms d. induction n as [|n IH]; intros a c1 ms d Hms Hc; cbn [pit_loop]; [done|].
  destruct (Z.ltb_spec ms 8); [|done]. unfold pit_round. destruct (inb 0x40 d) as [v d1]. destruct (a <? v).
  - destruct (rdtsc d1) as [c d2]. apply IH; [lia|by eexists].
  - by apply IH.
Qed.

Lemma tick_loop_ends seen (d : D) : is_Some (tick_loop ticks_at seen d).
Proof.
  assert (safe (tick_loop ticks_at seen d) (λ _, True)) as Hs.
  { apply (safe_while (λ _, True) _ (λ st, Z.to_nat (200000 - Z.of_nat st.1))); [|done|done|cbn [fst]; lia].
    intros [i d'] _ Hc. cbn [safe fst] in *. split; [done|]. apply andb_true_iff in Hc as [Hc%Z.ltb_lt _]. lia. }
  apply safe_Some in Hs as (st & -> & _). by eexists.
Qed.

(** Whatever the port and the counters show, the measurement ends, divides by no
    zero and reads no counter that was not set; the rate that the clock then goes
    by is positive. *)
Theorem calibrate_rate cycles_per_ms ticks0 seen d :
  0 ≤ cycles_per_ms →
  safe (qizo_calibrate rdtsc ticks_at cycles_per_ms ticks0 seen d) (λ r,
    let '(cycles, _, _, _) := r in 0 < qizo_cycles_per_ms cycles ∧
      (cycles = cycles_per_ms ∨ 0 < cycles < 2 ^ 64)).
Proof.
  intros Hcy. unfold qizo_calibrate. destruct (inb 0x40 d) as [a d1]. destruct (rdtsc d1) as [c0 d2].
  pose proof (pit_loop_read (Z.to_nat 400000) a None 0 d2 ltac:(lia) ltac:(lia)) as Hr.
  destruct (pit_loop rdtsc (Z.to_nat 400000) a None 0 d2) as [[c1 ms] d3]. destruct Hr as [Hms Hc1].
  apply safe_bind. apply (safe_mono _ (λ cycles, cycles = cycles_per_ms ∨ 0 < cycles < 2 ^ 64)).
  { destruct (Z.eqb_spec ms 0); cbn [negb]; [by left|]. destruct (Hc1 ltac:(lia)) as [c ->]. cbn [mbind option_bind safe].
    right. pose proof (u64_range (c - c0)). destruct (Z.eqb_spec (u64 (c - c0) / ms) 0); [lia|].
    pose proof (Z.div_pos (u64 (c - c0)) ms ltac:(lia) ltac:(lia)).
    pose proof (Z.div_le_upper_bound (u64 (c - c0)) ms (2 ^ 64 - 1) ltac:(lia) ltac:(nia)). lia. }
  intros cycles Hcycles. destruct (tick_loop_ends seen d3) as [[i d4] ->]. cbn [mbind option_bind].
  assert (0 < qizo_cycles_per_ms cycles) by (unfold qizo_cycles_per_ms; case_bool; lia).
  change (chars "timer : %u ticks/s, %u Mcycles/s, pit wraps %u" ++ [13; 10]) with
    (((CON.Char <$> chars "timer : ") ++ CON.Conv 117 :: (CON.Char <$> chars " ticks/s, ") ++ CON.Conv 117 ::
      (CON.Char <$> chars " Mcycles/s, pit wraps ") ++ CON.Conv 117 :: (CON.Char <$> [13; 10])) ≫= CON.text_of).
  rewrite CON.printf_pieces by (apply (bool_decide_unpack _); by vm_compute).
  by destruct (negb (ticks_at (S i) =? seen)).
Qed.

(** ** The reset *)

(** The answers of the keyboard controller to [n] readings of its status. *)
Fixpoint answers (n : nat) (d : D) : list Z :=
  match n with
  | O => []
  | S n => let '(v, d) := inb 0x64 d in v :: answers n d
  end.

Definition accepts (v : Z) : bool := Z.land v 2 =? 0.

Lemma reboot_loop_ends n spin d :
  0 ≤ spin → spin < len (List.filter accepts (answers n d)) → ∃ d', reboot_loop n spin d = Some (outb 0x64 0xFE d').
Proof.
  revert spin d. induction n as [|n IH]; intros spin d Hs Ha; cbn in Ha; [lia|]. cbn [reboot_loop].
  destruct (inb 0x64 d) as [v d1]. cbn [List.filter] in Ha. unfold accepts in Ha at 1. destruct (Z.land v 2 =? 0).
  - destruct (Z.eqb_spec spin 0); [by eexists|]. apply IH; [lia|]. cbn [length] in Ha. lia.
  - by apply IH.
Qed.

(** The machine is reset, by the last thing the loop does, as soon as the controller
    has been ready to take a command 65537 times. *)
Theorem reboot_resets n d :
  65536 < len (List.filter accepts (answers n d)) → ∃ d', qizo_reboot n d = Some (outb 0x64 0xFE d').
Proof. by apply reboot_loop_ends. Qed.
End clock.

(** ** A machine

    Two controllers, and a keyboard controller that has a byte for each interrupt
    and always takes a command. *)
Module Sim.

Record sim := Dev { s_master : pic; s_slave : pic; s_bytes : list Z }.

Definition sim_inb (p : Z) (d : sim) : Z * sim :=
  if p =? 0x64 then (match s_bytes d with [] => 0 | _ => 1 end, d)
  else if p =? 0x60 then
    match s_bytes d with
    | [] => (0, d)
    | c :: bs => (c mod 256, Dev (s_master d) (s_slave d) bs)
    end
  else (0, d).

Definition sim_outb (p v : Z) (d : sim) : sim :=
  Dev (if p =? 0x20 then pic_command v (s_master d) else if p =? 0x21 then pic_data v (s_master d) else s_master d)
    (if p =? 0xA0 then pic_command v (s_slave d) else if p =? 0xA1 then pic_data v (s_slave d) else s_slave d)
    (s_bytes d).

#[export] Instance sim_ports : Ports sim.
Proof.
  refine {| inb := sim_inb; inw := λ _ d, (0, d); outb := sim_outb |}.
  - intros p d. unfold sim_inb. repeat case_match; cbn [fst]; try lia. by apply Z.mod_pos_bound.
  - intros. cbn. lia.
Defined.

#[export] Instance sim_pics : TwoPics sim.
Proof.
  refine {| master := s_master; slave := s_slave |}; [done|done|].
  intros p d _ _ _ _. cbn [inb sim_ports]. unfold sim_inb. by repeat case_match.
Defined.
End Sim.
#[local] Existing Instances Sim.sim_ports Sim.sim_pics.

Definition ex_pic : pic := Pic 0 false true 0 0xFF false [].

(** The timer and the keyboard wait to be served, the timer first. *)
Definition ex_sim : Sim.sim :=
  Sim.Dev (Pic 0 false true 0x20 0xFC false [0; 1]) (Pic 0 false true 0x28 0 true []) [0x1C].
Definition ex_state : state := State 0 0 0 KBD.ex_kbd MOUSE.ex_mouse.
Definition ex_irq (v : Z) : regs * Z * Z := (Regs v 0 0x100000, 0, 0x90000).

Lemma ex_state_ok : ok ex_state.
Proof. split; first [split; done | exact KBD.ex_kbd_inv | exact MOUSE.ex_mouse_inv]. Qed.

Lemma interrupts_safe_witness :
  safe (interrupts [ex_irq 32; ex_irq 33] ex_state ex_sim) (λ r,
    ticks r.1 = 1 ∧ keyboard_irqs r.1 = 1 ∧ p_service (master r.2) = []).
Proof.
  eapply safe_mono; [apply (interrupts_safe [ex_irq 32; ex_irq 33] ex_state ex_sim ex_state_ok)|].
  - apply (bool_decide_unpack _). vm_compute. exact I.
  - intros r [_ Ht Hk _ _ Hm _]. exact (conj Ht (conj Hk Hm)).
Defined.

Lemma pic_init_lines_witness :
  delivered (pic_init (Sim.Dev ex_pic ex_pic [])) 12 = None ∧ delivered (pic_init (Sim.Dev ex_pic ex_pic [])) 1 = Some 33.
Proof.
  split; [exact (proj1 (pic_init_lines (Sim.Dev ex_pic ex_pic []) 12 ltac:(lia)))|
          exact (proj1 (pic_init_lines (Sim.Dev ex_pic ex_pic []) 1 ltac:(lia)))].
Defined.

Lemma calibrate_rate_witness :
  safe (qizo_calibrate (λ d : Sim.sim, (7, d)) (λ _, 1) 0 0 0 ex_sim) (λ r,
    let '(cycles, _, _, _) := r in 0 < qizo_cycles_per_ms cycles).
Proof.
  eapply safe_mono; [apply (calibrate_rate (λ d : Sim.sim, (7, d)) (λ _, 1) 0 0 0 ex_sim); lia|].
  intros [[[cycles ?] ?] ?] [Hc _]. exact Hc.
Defined.

Lemma reboot_resets_witness :
  ∃ d', qizo_reboot (Z.to_nat 65537) (Sim.Dev ex_pic ex_pic []) = Some (outb 0x64 0xFE d').
Proof. apply (reboot_resets (Z.to_nat 65537) (Sim.Dev ex_pic ex_pic [])). vm_compute. reflexivity. Defined.

(** The divisor of the clock is 1097, which makes it tick 1087 times a second, not
    1000: the input of the chip runs at 1193182 Hz. *)
Example timer_rate : 1193182 / (0x49 + 256 * 0x04) = 1087.
Proof. reflexivity. Qed.

End IRQ.
