(* ===== verification/Net.v ===== *)
(** * The PCI bus and the network card: [kernel/drivers/net.c]

    The devices found on the bus, and the start of the one card the kernel knows.
    [pci_scan_spec]: the table holds at most 32 devices, each a slot of the bus that
    answered, in order.  [find_rtl_spec]: the card is the first device with the
    numbers of one.  [no_card]: the data port that the code uses is not that of the
    bus, so a machine on which nothing answers there has no devices and no card. *)

From Stdlib Require Import Sorting.Sorted.
From S2P Require Export Ports.

Module NET.

Definition PCI_CFG_ADDR : Z := 0xCF8.
Definition PCI_CFG_DATA : Z := 0xCF4.
Definition PCI_MAX_SLOTS : Z := 32.
Definition PCI_MAX_DEVS : Z := 32.
Definition RTL_VENDOR : Z := 0x10EC.
Definition RTL_DEVICE : Z := 0x8139.
Definition RTL_CMD : Z := 0x30.
Definition RTL_CR : Z := 0x37.
Definition RTL_CONFIG0 : Z := 0x38.
Definition RTL_RESET : Z := 0x10.
Definition RTL_SPIN : nat := Z.to_nat 200000.

Record pci_slot := Slot { dev : Z; func : Z; vend : Z; devid : Z; class : Z; bar0 : Z }.

Record net := Net {
  slots : list pci_slot;
  nslots : Z;
  rtl_slot : Z;
  rtl_io : Z;
  rtl_mac : list Z;
  rtl_cr : Z;
  rtl_config0 : Z;
  eeprom_done : bool;
}.

Definition set_slots (s : list pci_slot) (n : Z) (x : net) : net :=
  Net s n (rtl_slot x) (rtl_io x) (rtl_mac x) (rtl_cr x) (rtl_config0 x) (eeprom_done x).
Definition set_rtl (i io : Z) (x : net) : net :=
  Net (slots x) (nslots x) i io (rtl_mac x) (rtl_cr x) (rtl_config0 x) (eeprom_done x).

(** [inl] and [outl] on the device state. *)
Class Ports32 (D : Type) := {
  inl : Z → D → Z * D;
  outl : Z → Z → D → D;
  inl_word : ∀ p d, 0 ≤ (inl p d).1 < 2 ^ 32;
}.

Section driver.
Context {D : Type} `{Ports D} `{Ports32 D}.

Definition cfg_addr (dev func reg : Z) : Z :=
  Z.lor (Z.lor (Z.lor 0x80000000 (u32 (Z.shiftl dev 11))) (u32 (Z.shiftl func 8))) (Z.land reg 0xFC).

Definition cfg_read (dev func reg : Z) (d : D) : Z * D := inl PCI_CFG_DATA (outl PCI_CFG_ADDR (cfg_addr dev func reg) d).
Definition cfg_write (dev func reg value : Z) (d : D) : D :=
  outl PCI_CFG_DATA value (outl PCI_CFG_ADDR (cfg_addr dev func reg) d).

(** [x & ~3U] *)
Definition clear_low (x : Z) : Z := Z.land x 0xFFFFFFFC.

(** One round of [pci_scan]. *)
Definition scan_dev (dev : Z) (st : net * D) : option (ctl (net * D)) :=
  let '(x, d) := st in
  let '(id, d) := cfg_read dev 0 0 d in
  if (Z.land id 0xFFFF =? 0xFFFF) || (id =? 0) then Some (Next (x, d))
  else if nslots x =? PCI_MAX_SLOTS then Some (Break (x, d))
  else
    let '(c, d) := cfg_read dev 0 0x08 d in
    let '(bar, d) := cfg_read dev 0 0x10 d in
    s ← aset (slots x) (nslots x)
      (Slot dev 0 (Z.land id 0xFFFF) (Z.shiftr id 16) (Z.shiftr c 8) (clear_low bar));
    Some (Next (set_slots s (nslots x + 1) x, d)).

Definition pci_scan (x : net) (d : D) : option (net * D) :=
  for_up 0 PCI_MAX_DEVS scan_dev (set_slots (slots x) 0 x, d).

Definition is_rtl (s : pci_slot) : bool := (vend s =? RTL_VENDOR) && (devid s =? RTL_DEVICE).

Definition find_rtl (x : net) (d : D) : option (bool * net * D) :=
  for_up 0 (nslots x)
    (λ i (st : bool * net * D),
      let '(_, x, d) := st in
      s ← aget (slots x) i;
      if is_rtl s then
        let '(io, d) := if bar0 s =? 0 then let '(v, d) := cfg_read (dev s) 0 0x14 d in (clear_low v, d) else (bar0 s, d) in
        Some (Break (true, set_rtl (i32 i) io x, d))
      else Some (Next (false, x, d))) (false, x, d).

Definition qizo_pci_probe (x : net) (d : D) : option (bool * net * D) :=
  '(x, d) ← pci_scan x d; Some (negb (nslots x =? 0), x, d).

Definition qizo_rtl_probe (x : net) (d : D) : option (bool * net * D) :=
  '(x, d) ← (if nslots x =? 0 then pci_scan x d else Some (x, d));
  find_rtl x d.

(** The registers of the card are ports. *)
Definition io_in8 (port : Z) (d : D) : Z * D := inb (u16 port) d.
Definition io_out8 (port value : Z) (d : D) : D := outb (u16 port) value d.

(** The loop that reads the address of the card. *)
Fixpoint read_mac (n : nat) (port : Z) (d : D) : list Z * D :=
  match n with
  | O => ([], d)
  | S n => let '(v, d) := io_in8 port d in let '(vs, d) := read_mac n (u32 (port + 1)) d in (v :: vs, d)
  end.

Definition qizo_rtl_start (x : net) (d : D) : option (net * D) :=
  if rtl_slot x <? 0 then Some (x, d)
  else
    s ← aget (slots x) (rtl_slot x);
    let '(cmd, d) := cfg_read (dev s) 0 0x04 d in
    let d := cfg_write (dev s) 0 0x04 (Z.lor cmd 0x05) d in
    if rtl_io x =? 0 then Some (x, d)
    else
      let d := io_out8 (u32 (rtl_io x + RTL_CMD)) RTL_RESET d in
      let d := (spin RTL_SPIN (u16 (u32 (rtl_io x + RTL_CMD)))
                 (λ v, if Z.land v RTL_RESET =? 0 then Some tt else None) d).2 in
      let d := io_out8 (u32 (rtl_io x + RTL_CR)) 0 d in
      let '(mac, d) := read_mac 6 (rtl_io x) d in
      let '(config0, d) := io_in8 (u32 (rtl_io x + RTL_CONFIG0)) d in
      let '(cr, d) := io_in8 (u32 (rtl_io x + RTL_CR)) d in
      Some (Net (slots x) (nslots x) (rtl_slot x) (rtl_io x) mac cr config0 (negb (Z.land config0 0x01 =? 0)), d).
End driver.

(** What the rest of the kernel asks. *)
Definition qizo_pci_detail (x : net) : list Z := chars (if negb (nslots x =? 0) then "pci cfg space, bus 0" else "no pci").

Definition qizo_pci_slot_info (x : net) (i : Z) : option (option (Z * Z * Z)) :=
  if nslots x <=? i then Some None else s ← aget (slots x) i; Some (Some (vend s, devid s, class s)).

Definition qizo_pci_bar0 (x : net) (i : Z) : option Z :=
  if nslots x <=? i then Some 0 else bar0 <$> aget (slots x) i.

Definition qizo_rtl_detail (x : net) : list Z :=
  chars (if rtl_slot x <? 0 then "no rtl8139"
         else if (rtl_io x =? 0) || negb (eeprom_done x) then "rtl8139 present, idle" else "rtl8139 io, rx idle").

Definition qizo_net_present (x : net) : bool := (0 <=? rtl_slot x) && eeprom_done x.
Definition qizo_net_mac (x : net) : list Z := take 6 (rtl_mac x).
Definition qizo_net_io_port (x : net) : option Z := if (rtl_slot x <? 0) || (rtl_io x =? 0) then None else Some (rtl_io x).

(** ** The table *)

(** The devices found. *)
Definition found (x : net) : list pci_slot := take (Z.to_nat (nslots x)) (slots x).

(** A device that a scan puts in the table. *)
Definition answered (s : pci_slot) : Prop :=
  0 ≤ dev s < 32 ∧ func s = 0 ∧ 0 ≤ vend s < 0xFFFF ∧ (vend s ≠ 0 ∨ devid s ≠ 0).

Record inv (x : net) : Prop := {
  inv_slots : len (slots x) = PCI_MAX_SLOTS;
  inv_nslots : 0 ≤ nslots x ≤ PCI_MAX_SLOTS;
  inv_found : ∀ s, s ∈ found x → answered s;
  inv_rtl : -1 ≤ rtl_slot x < PCI_MAX_SLOTS;
}.

Section table.
Context {D : Type} `{Ports D} `{Ports32 D}.
Implicit Types (x : net) (d : D).

Lemma cfg_read_word v f r d : 0 ≤ (cfg_read v f r d).1 < 2 ^ 32.
Proof. apply inl_word. Qed.

(** A device at the end of the table. *)
Lemma found_snoc x s :
  len (slots x) = 32 → 0 ≤ nslots x < 32 →
  found (set_slots (<[Z.to_nat (nslots x) := s]> (slots x)) (nslots x + 1) x) = found x ++ [s].
Proof.
  intros Hl Hn. unfold found. cbn [slots nslots set_slots].
  replace (Z.to_nat (nslots x + 1)) with (S (Z.to_nat (nslots x))) by lia.
  rewrite (take_S_r _ _ s) by (apply list_lookup_insert_eq; lia). by rewrite take_insert_ge.
Qed.

(** The table during a scan, before device [i]. *)
Record scanned (i : Z) (x : net) : Prop := {
  sc_inv : inv x;
  sc_count : nslots x ≤ i;
  sc_below : ∀ s, s ∈ found x → dev s < i;
  sc_sorted : StronglySorted (λ s s', dev s < dev s') (found x);
}.

Lemma sorted_snoc (l : list pci_slot) s :
  StronglySorted (λ s s', dev s < dev s') l → (∀ s', s' ∈ l → dev s' < dev s) →
  StronglySorted (λ s s', dev s < dev s') (l ++ [s]).
Proof.
  induction 1 as [|a l Hs IH Ha]; intros Hall; cbn [app].
  - repeat constructor.
  - constructor; [apply IH; intros; apply Hall; by right|]. apply list.Forall_app. split; [done|].
    constructor; [|done]. apply Hall. by left.
Qed.

Lemma scan_dev_ok i x d :
  0 ≤ i < 32 → scanned i x → safe (scan_dev i (x, d)) (step_to (λ st, scanned (i + 1) st.1) (λ _, False)).
Proof.
  intros Hi [[Hl Hn Ha Hr] Hc Hb Hs]. unfold scan_dev, PCI_MAX_SLOTS in *.
  pose proof (cfg_read_word i 0 0 d) as Hid. destruct (cfg_read i 0 0 d) as [id d1]. cbn [fst] in Hid.
  destruct ((Z.land id 0xFFFF =? 0xFFFF) || (id =? 0)) eqn:E.
  { cbn [safe step_to fst]. split; [by split|lia| |done]. intros s Hin. specialize (Hb s Hin). lia. }
  apply orb_false_iff in E as [E1%Z.eqb_neq E2%Z.eqb_neq]. rewrite (proj2 (Z.eqb_neq (nslots x) 32)) by lia.
  destruct (cfg_read i 0 8 d1) as [c d2]. destruct (cfg_read i 0 16 d2) as [bar d3].
  rewrite aset_Some by lia. cbn [mbind option_bind safe step_to fst]. set (s := Slot _ _ _ _ _ _).
  assert (answered s) as Has.
  { change 0xFFFF with (Z.ones 16) in E1. rewrite Z.land_ones in E1 by lia.
    unfold answered, s. cbn [dev func vend devid]. change 0xFFFF with (Z.ones 16). rewrite Z.land_ones by lia.
    pose proof (Z.mod_pos_bound id (2 ^ 16) ltac:(lia)). change (Z.ones 16) with 65535 in *. change (2 ^ 16) with 65536 in *.
    rewrite Z.shiftr_div_pow2 by lia. change (2 ^ 16) with 65536. pose proof (Z.div_mod id 65536 ltac:(lia)). lia. }
  split; [split|..]; cbn [slots nslots rtl_slot set_slots]; unfold PCI_MAX_SLOTS; rewrite ?found_snoc by lia.
  - by rewrite length_insert.
  - lia.
  - intros s' [?| ->%list_elem_of_singleton]%elem_of_app; [by apply Ha|done].
  - done.
  - lia.
  - intros s' [Hin| ->%list_elem_of_singleton]%elem_of_app; [specialize (Hb s' Hin); lia|]. cbn. lia.
  - apply sorted_snoc; [done|]. intros s' Hin. cbn. by apply Hb.
Qed.

Lemma pci_scan_ok x d : inv x → safe (pci_scan x d) (λ r, scanned 32 r.1).
Proof.
  intros [Hl Hn Ha Hr]. unfold pci_scan.
  apply (safe_for_all (λ i st, scanned i st.1)); [done| |].
  - intros i [x' d'] Hi Hx. cbn [fst] in Hx. by apply scan_dev_ok.
  - cbn [fst]. assert (found (set_slots (slots x) 0 x) = []) as E by done.
    split; [split|..]; cbn [slots nslots rtl_slot set_slots]; rewrite ?E; unfold PCI_MAX_SLOTS in *; try done; try lia.
    + by intros s ?%elem_of_nil.
    + by intros s ?%elem_of_nil.
    + constructor.
Qed.

(** Whatever answers, a scan stays inside the table and leaves in it the devices
    that answered, in the order of the bus, each of them once. *)
Theorem pci_scan_spec x d :
  inv x →
  safe (qizo_pci_probe x d) (λ r, let '(ok, x', _) := r in
    inv x' ∧ (ok = true ↔ found x' ≠ []) ∧ StronglySorted (λ s s', dev s < dev s') (found x')).
Proof.
  intros Hi. unfold qizo_pci_probe. apply safe_bind. eapply safe_mono; [by apply pci_scan_ok|].
  intros [x' d'] [Hi' _ _ Hs]. cbn [safe fst] in *. split; [done|]. split; [|done].
  destruct Hi' as [Hl Hn _ _]. unfold found, PCI_MAX_SLOTS in *. rewrite negb_true_iff, Z.eqb_neq.
  rewrite <-length_zero_iff_nil, length_take. lia.
Qed.

(** The first card in the table. *)
Lemma find_rtl_ok x d :
  inv x →
  safe (find_rtl x d) (λ r, let '(ok, x', _) := r in
    inv x' ∧ found x' = found x ∧
    if ok : bool
    then ∃ i s, rtl_slot x' = Z.of_nat i ∧ found x !! i = Some s ∧ is_rtl s = true ∧
      ∀ j s', (j < i)%nat → found x !! j = Some s' → is_rtl s' = false
    else x' = x ∧ ∀ s, s ∈ found x → is_rtl s = false).
Proof.
  intros Hinv. pose proof Hinv as [Hl Hn Ha Hr]. unfold find_rtl, PCI_MAX_SLOTS in *.
  apply (safe_for_up (λ i st, st.1 = (false, x) ∧ ∀ j s, (j < Z.to_nat i)%nat → found x !! j = Some s → is_rtl s = false));
    [lia|..].
  - intros i [[b x'] d'] Hi [E Hall]. cbn [fst] in E. injection E as -> ->.
    destruct (aget_Some (slots x) i) as [s Hs]; [lia|]. rewrite Hs. cbn [mbind option_bind].
    assert (found x !! Z.to_nat i = Some s) as Hf.
    { unfold found. rewrite lookup_take_lt by lia. by rewrite <-aget_lookup by lia. }
    destruct (is_rtl s) eqn:Er.
    + set (p := if bar0 s =? 0 then _ else _). destruct p as [io d1]. cbn [safe step_to].
      split; [split; cbn [slots nslots rtl_slot set_rtl]; unfold PCI_MAX_SLOTS; try done; rewrite i32_small; lia|].
      split; [done|]. exists (Z.to_nat i), s. cbn [rtl_slot set_rtl]. rewrite i32_small by lia. split; [lia|]. done.
    + cbn [safe step_to fst]. split; [done|]. intros j s' Hj Hs'.
      destruct (decide (j = Z.to_nat i)) as [->|]; [congruence|]. apply (Hall j s'); [lia|done].
  - intros [[b x'] d'] [E Hall]. cbn [fst] in E. injection E as -> ->. split; [done|]. split; [done|]. split; [done|].
    intros s [j Hj]%list_elem_of_lookup. apply (Hall j s); [|done]. apply lookup_lt_Some in Hj.
    unfold found in Hj. rewrite length_take in Hj. lia.
  - split; [done|]. lia.
Qed.

(** The start of the card stays inside the table. *)
Lemma rtl_start_ok x d : inv x → safe (qizo_rtl_start x d) (λ r, inv r.1).
Proof.
  intros Hi. pose proof Hi as [Hl Hn Ha Hr]. unfold qizo_rtl_start, PCI_MAX_SLOTS in *. destruct (Z.ltb_spec (rtl_slot x) 0); [done|].
  destruct (aget_Some (slots x) (rtl_slot x)) as [s ->]; [lia|]. cbn [mbind option_bind].
  destruct (cfg_read (dev s) 0 4 d) as [cmd d1]. destruct (rtl_io x =? 0); [done|].
  destruct (read_mac _ _ _) as [mac d2]. destruct (io_in8 _ d2) as [c0 d3]. destruct (io_in8 _ d3) as [cr d4]. by split.
Qed.

Lemma rtl_probe_ok x d : inv x → safe (qizo_rtl_probe x d) (λ r, inv r.1.2).
Proof.
  intros Hi. unfold qizo_rtl_probe. apply safe_bind. apply (safe_mono _ (λ r, inv r.1)).
  - destruct (nslots x =? 0); [|done]. eapply safe_mono; [by apply pci_scan_ok|]. intros r Hr. apply Hr.
  - intros [x' d'] Hi'. eapply safe_mono; [by apply find_rtl_ok|]. intros [[ok x2] d2] (Hi2 & _). exact Hi2.
Qed.

(** The card is the first device with the numbers of one; without one the driver is
    not there, and its start touches nothing outside the table either way. *)
Theorem find_rtl_spec x d :
  inv x → found x ≠ [] →
  safe (qizo_rtl_probe x d) (λ r, let '(ok, x', d') := r in
    inv x' ∧ (ok = true ↔ ∃ s, s ∈ found x ∧ is_rtl s = true) ∧
    (ok = true → ∃ i s, rtl_slot x' = Z.of_nat i ∧ found x !! i = Some s ∧ is_rtl s = true) ∧
    is_Some (qizo_rtl_start x' d')).
Proof.
  intros Hinv Hne. unfold qizo_rtl_probe.
  assert (nslots x ≠ 0) as Hn0 by (intros E; apply Hne; unfold found; by rewrite E).
  rewrite (proj2 (Z.eqb_neq _ _) Hn0). cbn [mbind option_bind]. eapply safe_mono; [by apply find_rtl_ok|].
  intros [[ok x'] d'] (Hi & Ef & Hok). split; [done|]. split; [|split].
  - destruct ok; split; try done.
    + intros _. destruct Hok as (i & s & _ & Hs & Hr & _). exists s. split; [by eapply list_elem_of_lookup_2|done].
    + intros (s & Hin & Hr). destruct Hok as [_ Hok]. by rewrite Hok in Hr.
  - intros ->. destruct Hok as (i & s & ? & ? & ? & _). by exists i, s.
  - apply (rtl_start_ok x' d') in Hi. destruct (qizo_rtl_start x' d'); [by eexists|done].
Qed.

(** When nothing answers on the port that is read, which is not the one of the bus,
    there are no devices and no card. *)
Theorem no_card x d :
  inv x → (∀ d' : D, (inl PCI_CFG_DATA d').1 = 0xFFFFFFFF) →
  safe (qizo_pci_probe x d) (λ r, let '(ok, x', d') := r in
    ok = false ∧ safe (qizo_rtl_probe x' d') (λ r', r'.1.1 = false)).
Proof.
  intros Hinv Hno. assert (∀ x d, safe (pci_scan x d) (λ r, nslots r.1 = 0)) as Hscan.
  { intros x0 d0. unfold pci_scan. apply (safe_for_all (λ i st, nslots st.1 = 0)); [done| |done].
    intros i [x' d'] Hi Hx. unfold scan_dev. pose proof (Hno (outl PCI_CFG_ADDR (cfg_addr i 0 0) d')) as Hr.
    unfold cfg_read. destruct (inl PCI_CFG_DATA _) as [id d1]. cbn [fst] in Hr. by subst id. }
  unfold qizo_pci_probe. apply safe_bind. eapply safe_mono; [apply Hscan|]. intros [x' d'] E. cbn [safe fst] in *.
  rewrite E. split; [done|]. unfold qizo_rtl_probe. rewrite E. cbn [Z.eqb]. apply safe_bind.
  eapply safe_mono; [apply Hscan|]. intros [x2 d2] E2. cbn [fst] in E2. unfold find_rtl. by rewrite for_up_empty by lia.
Qed.
End table.

(** ** Two machines

    One has a card in slot 3, and the port that the code reads is that of its bus;
    its state is the address that was last written.  On the other nothing answers. *)
Module Sim.
Record sim := Dev { addr : Z }.

#[export] Instance sim_ports : Ports sim.
Proof. refine {| inb := λ _ d, (0, d); inw := λ _ d, (0, d); outb := λ _ _ d, d |}; intros; cbn; lia. Defined.

Definition sim_inl (p : Z) (d : sim) : Z * sim :=
  (if p =? 0xCF4 then
     if addr d =? cfg_addr 3 0 0 then 0x813910EC else if addr d =? cfg_addr 3 0 0x10 then 0xC001 else 0xFFFFFFFF
   else 0xFFFFFFFF, d).

#[export] Instance sim_ports32 : Ports32 sim.
Proof.
  refine {| inl := sim_inl; outl := λ p v d, if p =? 0xCF8 then Dev v else d |}.
  intros p d. unfold sim_inl. cbn [fst]. repeat case_match; lia.
Defined.

#[export] Program Instance no_ports : Ports unit := {| inb _ d := (0xFF, d); inw _ d := (0xFFFF, d); outb _ _ d := d |}.
Solve All Obligations with (intros; cbn; lia).

#[export] Program Instance no_ports32 : Ports32 unit := {| inl _ d := (0xFFFFFFFF, d); outl _ _ d := d |}.
Solve All Obligations with (intros; cbn; lia).
End Sim.
#[local] Existing Instances Sim.sim_ports Sim.sim_ports32 Sim.no_ports Sim.no_ports32.

Definition initial : net := Net (replicate 32 (Slot 0 0 0 0 0 0)) 0 (-1) 0 (replicate 6 0) 0 0 false.

Lemma net_initial_inv : inv initial.
Proof. split; [done|done|by intros s ?%elem_of_nil|done]. Qed.

Lemma pci_scan_spec_witness :
  safe (qizo_pci_probe initial (Sim.Dev 0)) (λ r, let '(ok, x', _) := r in inv x' ∧ (ok = true ↔ found x' ≠ [])).
Proof.
  eapply safe_mono; [exact (pci_scan_spec initial (Sim.Dev 0) net_initial_inv)|].
  intros [[ok x'] d'] (Hi & Hok & _). split; [exact Hi|exact Hok].
Defined.

(** The table after a scan of the machine with a card. *)
Definition ex_net : net := Eval vm_compute in
  match pci_scan initial (Sim.Dev 0) with Some (x, _) => x | None => initial end.

Lemma ex_net_inv : inv ex_net.
Proof.
  pose proof (pci_scan_ok initial (Sim.Dev 0) net_initial_inv) as Hs.
  assert (pci_scan initial (Sim.Dev 0) = Some (ex_net, Sim.Dev (cfg_addr 31 0 0))) as E by (vm_compute; reflexivity).
  rewrite E in Hs. apply Hs.
Qed.

Lemma find_rtl_spec_witness :
  safe (qizo_rtl_probe ex_net (Sim.Dev 0)) (λ r, let '(ok, x', d') := r in ok = true ∧ is_Some (qizo_rtl_start x' d')).
Proof.
  eapply safe_mono; [apply (find_rtl_spec ex_net (Sim.Dev 0) ex_net_inv); vm_compute; congruence|].
  intros [[ok x'] d'] (_ & Hok & _ & Hs). split; [|exact Hs]. apply Hok. eexists. split; [left|reflexivity].
Defined.

Lemma no_card_witness :
  safe (qizo_pci_probe initial tt) (λ r, let '(ok, x', d') := r in ok = false).
Proof.
  eapply safe_mono; [exact (no_card (D := unit) initial tt net_initial_inv (λ _, eq_refl))|].
  intros [[ok x'] d'] [Hok _]. exact Hok.
Defined.

End NET.
