(* ===== verification/Drivers.v ===== *)
(** * The drivers, started one after the other: [kernel/drivers/driver.c]

    The table of drivers, what each start does to the state of the kernel, and the
    report.  The state is that of all drivers together; the devices are the ports
    of [Ports.v], with a disk as [Ata.v] documents it.  [drivers_find_volume] goes
    from [tools/mkqizoimg] through the start of every driver to the volume: on a
    machine with the disk that the tool builds the drivers of the disk and of the
    volume are ready, and the volume found is the one of the image.  [slot_add_ok]
    and [drivers_start_once]: the table takes eight drivers, and the start happens
    once. *)

From S2P Require Export Keyboard Mouse Console ImageBytes FatVolume Net.

Module DRV.

Definition QIZO_MAX_DRIVERS : Z := 8.
Definition QIZO_DRIVER_ABSENT : Z := -1.
Definition QIZO_DRIVER_PRESENT : Z := 0.
Definition QIZO_DRIVER_READY : Z := 1.

Section registry.
Context {D : Type} `{Ports D} `{NET.Ports32 D} `{!ATA.IdeDisk D}.

(** The drivers and the devices: the disk driver, the devices and the frame
    allocator are the state of the volume reader. *)
Record sys := Sys {
  kbd : KBD.kbd;
  mouse : MOUSE.mouse;
  mouse_id : Z;
  disk : FV.state (S := ATA.ata * D);
  fs : FV.fat;
  fs_ready : bool;
  net : NET.net;
}.

Definition dev (s : sys) : D := (FV.reader (disk s)).2.
Definition set_disk (x : FV.state) (s : sys) : sys := Sys (kbd s) (mouse s) (mouse_id s) x (fs s) (fs_ready s) (net s).
Definition set_ata (a : ATA.ata) (d : D) (s : sys) : sys := set_disk (FV.set_reader (a, d) (disk s)) s.
Definition set_dev (d : D) (s : sys) : sys := set_ata (FV.reader (disk s)).1 d s.
Definition set_mouse (m : MOUSE.mouse) (id : Z) (s : sys) : sys := Sys (kbd s) m id (disk s) (fs s) (fs_ready s) (net s).
Definition set_fs (f : FV.fat) (r : bool) (x : FV.state) (s : sys) : sys := Sys (kbd s) (mouse s) (mouse_id s) x f r (net s).
Definition set_net (n : NET.net) (s : sys) : sys := Sys (kbd s) (mouse s) (mouse_id s) (disk s) (fs s) (fs_ready s) n.

(** ** The functions in the table *)

Definition kbd_probe (s : sys) : option (bool * sys) :=
  let '(ok, d) := KBD.qizo_kbd_probe (dev s) in Some (ok, set_dev d s).

Definition mouse_probe (s : sys) : option (bool * sys) :=
  let '(ok, id, d) := MOUSE.qizo_mouse_probe (dev s) in
  Some (ok, set_dev d (set_mouse (mouse s) (default (mouse_id s) id) s)).

Definition mouse_start (s : sys) : option sys :=
  let '(m, d) := MOUSE.qizo_mouse_start (mouse s) (dev s) in Some (set_dev d (set_mouse m (mouse_id s) s)).

Definition ata_probe (s : sys) : option (bool * sys) :=
  let '(ok, d) := ATA.qizo_ata_probe (dev s) in Some (ok, set_dev d s).

Definition ata_start (s : sys) : option sys :=
  '(a, d) ← ATA.qizo_ata_start (FV.reader (disk s)).1 (dev s); Some (set_ata a d s).

(** What the boot information says of the blob. *)
Context (blob_lba blob_sects : Z).

Definition fat_probe (s : sys) : option (bool * sys) :=
  let '(ok, d) := ATA.qizo_ata_probe (dev s) in
  let s := set_dev d s in
  '(ok, f, x) ← FV.qizo_fat_probe ok blob_lba blob_sects (fs s) (fs_ready s) (disk s);
  Some (ok, set_fs f (if ok : bool then true else fs_ready s) x s).

Definition fat_start (s : sys) : option sys :=
  '(ok, f, x) ← FV.qizo_fat_start blob_lba blob_sects (fs s) (fs_ready s) (disk s);
  Some (set_fs f ok x s).

Definition pci_probe (s : sys) : option (bool * sys) :=
  '(ok, n, d) ← NET.qizo_pci_probe (net s) (dev s); Some (ok, set_dev d (set_net n s)).

Definition rtl_probe (s : sys) : option (bool * sys) :=
  '(ok, n, d) ← NET.qizo_rtl_probe (net s) (dev s); Some (ok, set_dev d (set_net n s)).

Definition rtl_start (s : sys) : option sys :=
  '(n, d) ← NET.qizo_rtl_start (net s) (dev s); Some (set_dev d (set_net n s)).

(** ** The table *)

(** The functions of a driver; the keyboard has no start of its own, that of the
    bus does nothing. *)
Record slot := Slot {
  name : string;
  kind : string;
  probe : sys → option (bool * sys);
  start : option (sys → option sys);
  detail : sys → option (list Z);
  state : Z;
}.

Definition set_state (st : Z) (s : slot) : slot := Slot (name s) (kind s) (probe s) (start s) (detail s) st.

Record registry := Registry { slots : list slot; started : bool }.

(** The slots behind the last one in use are empty. *)
Definition slot_add (n k : string) (p : sys → option (bool * sys)) (st : option (sys → option sys))
    (det : sys → option (list Z)) (l : list slot) : list slot :=
  if QIZO_MAX_DRIVERS <=? len l then l else l ++ [Slot n k p st det QIZO_DRIVER_ABSENT].

Definition mouse_detail (m : MOUSE.mouse) : list Z :=
  chars (if MOUSE.reporting m then "ps2 aux, irq12" else "i8042 aux, idle").

Definition all_slots (l : list slot) : list slot :=
  slot_add "rtl8139" "net" rtl_probe (Some rtl_start) (λ s, Some (NET.qizo_rtl_detail (net s))) (
  slot_add "pci" "bus" pci_probe (Some (λ s, Some s)) (λ s, Some (NET.qizo_pci_detail (net s))) (
  slot_add "fat" "volume" fat_probe (Some fat_start) (λ s, Some (FV.qizo_fat_detail (fs s))) (
  slot_add "ata" "block" ata_probe (Some ata_start) (λ s, ATA.qizo_ata_detail (FV.reader (disk s)).1) (
  slot_add "mouse" "input" mouse_probe (Some mouse_start) (λ s, Some (mouse_detail (mouse s))) (
  slot_add "kbd" "input" kbd_probe None (λ _, Some (chars "i8042 ps2, irq1")) l))))).

(** One round of the loop: the slot after it, and the state. *)
Definition start_slot (x : slot) (s : sys) : option (slot * sys) :=
  '(ok, s) ← probe x s;
  if negb ok then Some (x, s)
  else s ← match start x with Some f => f s | None => Some s end; Some (set_state QIZO_DRIVER_READY x, s).

Fixpoint start_all (l : list slot) (s : sys) : option (list slot * sys) :=
  match l with
  | [] => Some ([], s)
  | x :: l => '(x, s) ← start_slot x s; '(l, s) ← start_all l s; Some (x :: l, s)
  end.

Definition qizo_drivers_start (r : registry) (s : sys) : option (registry * sys) :=
  if started r then Some (r, s)
  else '(l, s) ← start_all (all_slots (slots r)) s; Some (Registry l true, s).

(** ** What the kernel asks *)

Definition qizo_drivers_count (r : registry) (s : sys) : option (Z * registry * sys) :=
  '(r, s) ← qizo_drivers_start r s; Some (len (slots r), r, s).

Definition slot_at (i : Z) (r : registry) (s : sys) : option (option slot * registry * sys) :=
  '(r, s) ← qizo_drivers_start r s; Some (if len (slots r) <=? i then None else aget (slots r) i, r, s).

Definition qizo_driver_name (i : Z) (r : registry) (s : sys) : option (list Z * registry * sys) :=
  '(x, r, s) ← slot_at i r s; Some (match x with Some x => chars (name x) | None => [] end, r, s).

Definition qizo_driver_kind (i : Z) (r : registry) (s : sys) : option (list Z * registry * sys) :=
  '(x, r, s) ← slot_at i r s; Some (match x with Some x => chars (kind x) | None => [] end, r, s).

Definition qizo_driver_detail (i : Z) (r : registry) (s : sys) : option (list Z * registry * sys) :=
  '(x, r, s) ← slot_at i r s; t ← match x with Some x => detail x s | None => Some [] end; Some (t, r, s).

Definition qizo_driver_state (i : Z) (r : registry) (s : sys) : option (Z * registry * sys) :=
  '(x, r, s) ← slot_at i r s; Some (match x with Some x => state x | None => QIZO_DRIVER_ABSENT end, r, s).

Definition state_name (st : Z) : list Z :=
  chars (if st =? QIZO_DRIVER_READY then "ready" else if st =? QIZO_DRIVER_PRESENT then "present" else "absent").

Definition crlf : list Z := [13; 10].

(** A line of the report. *)
Definition report_line (x : slot) (s : sys) : option (list Z) :=
  t ← detail x s;
  line ← CON.qizo_printf (chars "%s" ++ crlf) [CON.Str t];
  Some (chars (name x) ++ [32] ++ CON.qizo_pad (len (chars (name x))) 12 ++
    chars (kind x) ++ CON.qizo_pad (len (chars (kind x))) 9 ++
    state_name (state x) ++ [32] ++ CON.qizo_pad (len (state_name (state x))) 11 ++ line).

Definition qizo_drivers_report (r : registry) (s : sys) : option (list Z * registry * sys) :=
  '(r, s) ← qizo_drivers_start r s;
  lines ← mapM (λ x, report_line x s) (slots r);
  let ready := len (List.filter (λ x, state x =? QIZO_DRIVER_READY) (slots r)) in
  total ← CON.qizo_printf (chars "qizo: %u of %u drivers ready" ++ crlf) [CON.Num ready; CON.Num (len (slots r))];
  Some (chars "driver      class    state      detail" ++ crlf ++ concat lines ++ total, r, s).

(** The bytes that wait in the controller, eight at most. *)
Fixpoint drain (n : nat) (d : D) : D :=
  match n with
  | O => d
  | S n => let '(v, d) := inb 0x64 d in if Z.land v 0x01 =? 0 then d else drain n (inb 0x60 d).2
  end.

(** [qizo_mouse_report] of [drivers/mouse.c] *)
Definition qizo_mouse_report (r : registry) (s : sys) : option (list Z * registry * sys) :=
  '(r, s) ← qizo_drivers_start r s;
  let m := mouse s in
  let now := MOUSE.qizo_mouse_now m in
  t1 ← CON.qizo_printf (chars "mouse: %s, %lu packets, %lu irqs, %u half packets dropped" ++ crlf)
    [CON.Str (chars (if MOUSE.reporting m then "reporting" else "idle")); CON.Num (MOUSE.packets now);
     CON.Num (MOUSE.m_irqs m); CON.Num (MOUSE.m_dropped m)];
  b ← MOUSE.aux_last m;
  t2 ← CON.qizo_printf (chars "  position %d %d, buttons %x, partial byte %x" ++ crlf)
    [CON.Num (MOUSE.px now); CON.Num (MOUSE.py now); CON.Num (MOUSE.buttons now); CON.Num b];
  let '(ok, d) := MOUSE.aux_ready_read (dev s) in
  Some (t1 ++ t2, r, set_dev (if ok : bool then drain 8 d else d) s).
End registry.
Arguments sys : clear implicits.
Arguments slot : clear implicits.
Arguments registry : clear implicits.

(** ** The table and the start *)

Section table.
Context {D : Type} `{Ports D} `{NET.Ports32 D} `{!ATA.IdeDisk D}.

(** No more than eight drivers are taken. *)
Lemma slot_add_ok n k p st det (l : list (slot D)) :
  len l ≤ QIZO_MAX_DRIVERS →
  len (slot_add n k p st det l) ≤ QIZO_MAX_DRIVERS ∧
  (len l < QIZO_MAX_DRIVERS → slot_add n k p st det l = l ++ [Slot n k p st det QIZO_DRIVER_ABSENT]).
Proof. intros Hl. unfold slot_add. case_bool; [split; [done|lia]|]. rewrite length_app. cbn. split; [lia|done]. Qed.

(** The drivers are started by the first call, whoever makes it. *)
Lemma drivers_start_once lba n (r r' : registry D) s s' :
  qizo_drivers_start lba n r s = Some (r', s') → started r' = true ∧ qizo_drivers_start lba n r' s' = Some (r', s').
Proof.
  unfold qizo_drivers_start. destruct (started r) eqn:E; [intros [= <- <-]; by rewrite E|].
  destruct (start_all _ s) as [[l s1]|]; [|done]. cbn [mbind option_bind]. by intros [= <- <-].
Qed.
End table.

(** ** What the keyboard controller keeps *)

Section keeps.
Context {D : Type} `{Ports D} (P : D → Prop).
Hypothesis keeps_in : ∀ p d, p = 0x60 ∨ p = 0x64 → P d → P (inb p d).2.
Hypothesis keeps_out : ∀ p v d, p = 0x60 ∨ p = 0x64 → P d → P (outb p v d).

Let keeps_64 : ∀ d, P d → P (inb 0x64 d).2.
Proof. intros. apply keeps_in; [by right|done]. Qed.

Lemma kbd_probe_keeps d : P d → P (KBD.qizo_kbd_probe d).2.
Proof.
  intros Hd. unfold KBD.qizo_kbd_probe. pose proof (spin_keeps P (Z.to_nat 200000) 0x64
    (λ v, if Z.land v 2 =? 0 then Some tt else None) d keeps_64 Hd). by destruct (spin _ _ _ d).
Qed.

Lemma ready_write_keeps d : P d → P (MOUSE.aux_ready_write d).2.
Proof.
  intros Hd. unfold MOUSE.aux_ready_write. pose proof (spin_keeps P MOUSE.M_SPIN 0x64
    (λ v, if Z.land v 2 =? 0 then Some tt else None) d keeps_64 Hd). by destruct (spin _ _ _ d).
Qed.

Lemma ready_read_keeps d : P d → P (MOUSE.aux_ready_read d).2.
Proof.
  intros Hd. unfold MOUSE.aux_ready_read. pose proof (spin_keeps P MOUSE.M_SPIN 0x64
    (λ v, if Z.land v 1 =? 0 then None else Some tt) d keeps_64 Hd). by destruct (spin _ _ _ d).
Qed.

(** Take the next call of a function that keeps [P]. *)
Ltac kept lem :=
  match goal with
  | Hd : P ?d |- context [?f ?d] =>
      let H := fresh in pose proof (lem d Hd) as H; clear Hd; revert H;
      lazymatch type of (lem d) with _ → P (?g).2 => destruct g as [? ?] end; cbn [snd]; intros H
  end.

Lemma read_byte_keeps d : P d → P (MOUSE.aux_read_byte d).2.
Proof.
  intros Hd. unfold MOUSE.aux_read_byte. kept ready_read_keeps. case_match; [done|]. apply keeps_in; [by left|done].
Qed.

Lemma aux_send_keeps v d : P d → P (MOUSE.aux_send v d).
Proof.
  intros Hd. unfold MOUSE.aux_send. kept ready_write_keeps. case_match; [done|].
  match goal with Hd : P ?d |- _ => pose proof (keeps_out 0x64 0xD4 d (or_intror eq_refl) Hd) as Ho end.
  kept ready_write_keeps. case_match; [done|]. apply ready_write_keeps, keeps_out; [by left|done].
Qed.

Lemma config_keeps d : P d → P (MOUSE.aux_config d).2.
Proof.
  intros Hd. unfold MOUSE.aux_config. kept ready_write_keeps. case_match; [done|].
  apply read_byte_keeps, keeps_out; [by right|done].
Qed.

Lemma set_config_keeps v d : P d → P (MOUSE.aux_set_config v d).
Proof.
  intros Hd. unfold MOUSE.aux_set_config. kept ready_write_keeps. case_match; [done|].
  apply ready_write_keeps, keeps_out; [by left|]. apply keeps_out; [by right|done].
Qed.

Lemma mouse_probe_keeps d : P d → P (MOUSE.qizo_mouse_probe d).2.
Proof.
  intros Hd. unfold MOUSE.qizo_mouse_probe. kept ready_write_keeps. case_match; [done|].
  match goal with Hd : P ?d |- _ => pose proof (keeps_out 0x64 0xA8 d (or_intror eq_refl) Hd) as Ho; clear Hd end.
  kept ready_write_keeps. case_match; [done|]. kept config_keeps.
  match goal with |- context [MOUSE.aux_send 0xF2 ?d] => assert (P (MOUSE.aux_send 0xF2 d)) as Hs end.
  { apply aux_send_keeps. case_match; [by apply set_config_keeps|done]. }
  kept ready_read_keeps. case_match; [done|]. by kept read_byte_keeps.
Qed.

Lemma mouse_start_keeps m d : P d → P (MOUSE.qizo_mouse_start m d).2.
Proof.
  intros Hd. unfold MOUSE.qizo_mouse_start. kept config_keeps. cbn [snd]. do 5 apply aux_send_keeps.
  case_match; [by apply set_config_keeps|done].
Qed.
End keeps.

(** ** From the tool to the ready driver *)

Section started.
Context {D : Type} `{Ports D} `{NET.Ports32 D} `{!ATA.IdeDisk D}.

(** A machine before the start: its only disk is the image, there are free frames,
    and the variables of the drivers are as they are in a new kernel. *)
Record machine (img : list Z) (s : sys D) : Prop := {
  mc_disk : ATA.disk_bytes (dev s) 0 = img;
  mc_other : ATA.content (dev s) 1 = [];
  mc_ata : ATA.fresh (FV.reader (disk s)).1;
  mc_fatbuf : FV.fatbuf (disk s) = None;
  mc_frames : PMA.inv (FV.frames (disk s)) ∧ ∃ f, PMA.run_free (FV.frames (disk s)) f 64;
  mc_fs : fs_ready s = false ∧ len (FV.label (fs s)) = 12;
  mc_net : NET.inv (net s);
}.

(** What the keyboard and the mouse may change: the device, but not its disks. *)
Record untouched (s s' : sys D) : Prop := {
  un_content : ATA.content (dev s') = ATA.content (dev s);
  un_ata : (FV.reader (disk s')).1 = (FV.reader (disk s)).1;
  un_disk : FV.fatbuf (disk s') = FV.fatbuf (disk s) ∧ FV.frames (disk s') = FV.frames (disk s);
  un_fs : fs s' = fs s ∧ fs_ready s' = fs_ready s;
  un_net : net s' = net s;
}.

Lemma machine_untouched img s s' : machine img s → untouched s s' → machine img s'.
Proof.
  intros [Hd Ho Ha Hf Hfr Hfs Hn] [Uc Ua [Uf Up] [Us Ur] Un].
  split; unfold ATA.disk_bytes in *; rewrite ?Uc, ?Ua, ?Uf, ?Up, ?Us, ?Ur, ?Un; done.
Qed.

Lemma untouched_trans s s1 s2 : untouched s s1 → untouched s1 s2 → untouched s s2.
Proof. intros [? ? [? ?] [? ?] ?] [? ? [? ?] [? ?] ?]. split; try split; congruence. Qed.

(** The content of the disks is kept by the ports of the keyboard controller. *)
Lemma keyboard_ports c :
  (∀ p (d : D), p = 0x60 ∨ p = 0x64 → ATA.content d = c → ATA.content (inb p d).2 = c) ∧
  (∀ p v (d : D), p = 0x60 ∨ p = 0x64 → ATA.content d = c → ATA.content (outb p v d) = c).
Proof.
  split; [intros p d Hp <-; destruct (ATA.other_port p 0 d) as [E _]|intros p v d Hp <-; destruct (ATA.other_port p v d) as [_ E]];
    unfold ATA.ATA_ALT; done || lia.
Qed.

Lemma kbd_slot_untouched s : safe (kbd_probe s) (λ r, untouched s r.2).
Proof.
  unfold kbd_probe. destruct (keyboard_ports (ATA.content (dev s))) as [Hin Hout].
  pose proof (kbd_probe_keeps (λ d, ATA.content d = ATA.content (dev s)) Hin (dev s) eq_refl) as Hk.
  destruct (KBD.qizo_kbd_probe (dev s)) as [ok d]. by split.
Qed.

Lemma mouse_probe_untouched s : safe (mouse_probe s) (λ r, untouched s r.2).
Proof.
  unfold mouse_probe. destruct (keyboard_ports (ATA.content (dev s))) as [Hin Hout].
  pose proof (mouse_probe_keeps (λ d, ATA.content d = ATA.content (dev s)) Hin Hout (dev s) eq_refl) as Hk.
  destruct (MOUSE.qizo_mouse_probe (dev s)) as [[ok id] d]. by split.
Qed.

Lemma mouse_start_untouched s : safe (mouse_start s) (λ s', untouched s s').
Proof.
  unfold mouse_start. destruct (keyboard_ports (ATA.content (dev s))) as [Hin Hout].
  pose proof (mouse_start_keeps (λ d, ATA.content d = ATA.content (dev s)) Hin Hout (mouse s) (dev s) eq_refl) as Hk.
  destruct (MOUSE.qizo_mouse_start (mouse s) (dev s)) as [m d]. by split.
Qed.

(** A round of the start that keeps [Q]: the slot keeps its name, and is ready when
    the probe and the start say so. *)
Lemma start_slot_safe (Q : sys D → Prop) x s :
  safe (probe x s) (λ r, Q r.2) → (∀ f s', start x = Some f → Q s' → safe (f s') Q) →
  safe (start_slot x s) (λ r, Q r.2 ∧ name r.1 = name x).
Proof.
  intros Hp Hs. unfold start_slot. apply safe_bind. eapply safe_mono; [exact Hp|]. intros [ok s1] Hq1. cbn [snd] in Hq1.
  destruct ok; cbn [negb]; [|by split]. apply safe_bind. apply (safe_mono _ Q).
  - destruct (start x) as [f|] eqn:E; [by apply Hs|done].
  - intros s2 Hq2. by split.
Qed.

(** What the disk driver leaves for that of the volume. *)
Record found (img : list Z) (s : sys D) : Prop := {
  fo_ready : FV.ready img (fs s) (disk s);
  fo_disk : ATA.content (dev s) 0 ≠ [];
  fo_fs : fs_ready s = false;
  fo_net : NET.inv (net s);
}.

Lemma found_dev img s d : found img s → ATA.content d = ATA.content (dev s) → found img (set_dev d s).
Proof.
  intros [[Hp Hd Hf Hfr Hl] Hc Hfs Hn] E. unfold dev in E. destruct s as [k m i [[a d0] fr fb] f fr' n]. cbn in *.
  split; cbn; [split; cbn; try done|congruence|done|done]. revert Hd. cbn. unfold ATA.disk_bytes. by rewrite E.
Qed.

Lemma ata_slot_ready img s n :
  machine img s → len img = 512 * n → 0 < n < 65536 →
  safe (start_slot (Slot "ata" "block" ata_probe (Some ata_start)
    (λ s, ATA.qizo_ata_detail (FV.reader (disk s)).1) QIZO_DRIVER_ABSENT) s) (λ r,
    found img r.2 ∧ name r.1 = "ata"%string ∧ state r.1 = QIZO_DRIVER_READY).
Proof.
  intros [Hd Ho Ha Hf Hfr [Hfs Hlab] Hn] Hl Hr. unfold start_slot. cbn [probe start]. unfold ata_probe.
  assert (len (ATA.content (dev s) 0) = 256 * n) as Hc.
  { rewrite <-Hd in Hl. unfold ATA.disk_bytes in Hl. rewrite ATA.word_bytes_length in Hl. lia. }
  assert (ATA.content (dev s) 0 ≠ []) as Hne by (intros E; rewrite E in Hc; cbn [length] in Hc; lia).
  destruct (ATA.probe_there (dev s) Hne) as (d1 & -> & C1). cbn [mbind option_bind negb]. unfold ata_start.
  destruct s as [k m i [[a d0] fr fb] f fr' x]. unfold dev in *. cbn in * |-.
  cbn [set_dev set_ata set_disk disk FV.reader FV.set_reader fst snd FV.frames FV.fatbuf kbd mouse mouse_id fs fs_ready net].
  destruct (ATA.start_one_drive a d1 n Ha) as (a2 & d2 & -> & C2 & Hlive & Hk & _); [by rewrite C1|done|by rewrite C1|].
  cbn [mbind option_bind safe fst snd]. split; [|done].
  assert (ata_knows (a2, d2) 0 = true) as Hkn.
  { destruct Hk as (E1 & E2 & E3 & E4). unfold ata_knows. rewrite E1, E2, C2, C1, Hc.
    rewrite bool_decide_eq_true_2 by done. by rw_bool. }
  split; cbn; [split; cbn -[ata_knows]; try done|congruence|done|done].
  rewrite Hkn. unfold ATA.disk_bytes. rewrite C2, C1. by rewrite <-Hd.
Qed.

(** The rounds one by one. *)
Lemma start_all_cons (Q : list (slot D) * sys D → Prop) x l s :
  safe (start_slot x s) (λ r, safe (start_all l r.2) (λ r', Q (r.1 :: r'.1, r'.2))) → safe (start_all (x :: l) s) Q.
Proof.
  intros Hs. cbn [start_all]. apply safe_bind. eapply safe_mono; [exact Hs|]. intros [x' s1] H1'. cbn [fst snd] in H1'.
  apply safe_bind. eapply safe_mono; [exact H1'|]. by intros [l' s2].
Qed.

Lemma all_slots_nil lba n :
  all_slots (D := D) lba n [] = [
    Slot "kbd" "input" kbd_probe None (λ _, Some (chars "i8042 ps2, irq1")) QIZO_DRIVER_ABSENT;
    Slot "mouse" "input" mouse_probe (Some mouse_start) (λ s, Some (mouse_detail (mouse s))) QIZO_DRIVER_ABSENT;
    Slot "ata" "block" ata_probe (Some ata_start) (λ s, ATA.qizo_ata_detail (FV.reader (disk s)).1) QIZO_DRIVER_ABSENT;
    Slot "fat" "volume" (fat_probe lba n) (Some (fat_start lba n)) (λ s, Some (FV.qizo_fat_detail (fs s))) QIZO_DRIVER_ABSENT;
    Slot "pci" "bus" pci_probe (Some (λ s, Some s)) (λ s, Some (NET.qizo_pci_detail (net s))) QIZO_DRIVER_ABSENT;
    Slot "rtl8139" "net" rtl_probe (Some rtl_start) (λ s, Some (NET.qizo_rtl_detail (net s))) QIZO_DRIVER_ABSENT].
Proof. reflexivity. Qed.

Section image.
Context (o : options) (k : kernel_span) (blob : bytes) (total : Z) (l : layout).
Hypothesis (Hok : build_ok o k blob total l).

(** The volume of the image, as the driver sees it. *)
Definition volume_seen (s : sys D) : Prop :=
  fs_ready s = true ∧ ∃ lab, fs s = FV.seen l (place_end 2 (files_of o k blob l)) lab.

Lemma fat_slot_ready img lines s :
  Image.main o = Ok (img, lines) → found img s →
  safe (start_slot (Slot "fat" "volume" (fat_probe BLOB_LBA (sectors_of blob)) (Some (fat_start BLOB_LBA (sectors_of blob)))
    (λ s, Some (FV.qizo_fat_detail (fs s))) QIZO_DRIVER_ABSENT) s) (λ r,
    NET.inv (net r.2) ∧ volume_seen r.2 ∧ name r.1 = "fat"%string ∧ state r.1 = QIZO_DRIVER_READY).
Proof.
  intros Em Hf. unfold start_slot. cbn [probe start]. unfold fat_probe.
  destruct (ATA.probe_there (dev s) (fo_disk _ _ Hf)) as (d1 & -> & C1). set (s1 := set_dev d1 s).
  pose proof (found_dev img s d1 Hf C1) as [Hr _ Hfs Hn]. fold s1 in Hr, Hfs, Hn.
  destruct (FV.finds_volume (S := ATA.ata * D) o k blob total l Hok) as (img' & lines' & Em' & Hv).
  rewrite Em in Em'. injection Em' as <- <-. specialize (Hv (disk s1) (fs s1) Hr).
  unfold FV.qizo_fat_probe, FV.qizo_fat_start. cbn [negb]. rewrite Hfs. unfold FV.qizo_fat_stat in Hv.
  destruct (FV.fat_for BLOB_LBA (sectors_of blob) 0 (fs s1) (disk s1)) as [[[ok f] x]|]; [|done].
  cbn [safe] in Hv. destruct Hv as (lab & st' & [= -> -> ->]). cbn [mbind option_bind negb]. unfold fat_start.
  cbn [set_fs fs_ready fs disk]. unfold FV.qizo_fat_start. cbn [mbind option_bind safe fst snd name state set_state].
  split; [done|]. split; [|done]. split; [done|]. by exists lab.
Qed.

(** The bus and the card leave the volume alone. *)
Lemma pci_slot_safe (Q : FV.fat → bool → Prop) s :
  NET.inv (net s) → Q (fs s) (fs_ready s) →
  safe (pci_probe s) (λ r, NET.inv (net r.2) ∧ Q (fs r.2) (fs_ready r.2)).
Proof.
  intros Hn Hq. unfold pci_probe. apply safe_bind. eapply safe_mono; [by apply NET.pci_scan_spec|].
  intros [[ok n] d] (Hi & _). by split.
Qed.

Lemma rtl_slot_safe (Q : FV.fat → bool → Prop) s :
  NET.inv (net s) → Q (fs s) (fs_ready s) →
  safe (rtl_probe s) (λ r, NET.inv (net r.2) ∧ Q (fs r.2) (fs_ready r.2)) ∧
  safe (rtl_start s) (λ s', NET.inv (net s') ∧ Q (fs s') (fs_ready s')).
Proof.
  intros Hn Hq. split.
  - unfold rtl_probe. apply safe_bind. eapply safe_mono; [by apply NET.rtl_probe_ok|]. intros [[ok n] d] Hi. by split.
  - unfold rtl_start. apply safe_bind. eapply safe_mono; [by apply NET.rtl_start_ok|]. intros [n d] Hi. by split.
Qed.

(** C8 - From [tools/mkqizoimg] to the running kernel: on a machine whose disk is the
    image, the start of the drivers, one after the other and whatever keyboard,
    mouse and bus answer, ends with the disk and the volume ready, and with the
    volume of the image in the state of the kernel, 25165824 clusters larger than it
    is. *)
Theorem drivers_find_volume :
  total < 65536 →
  ∃ img lines, Image.main o = Ok (img, lines) ∧
    ∀ s, machine img s →
      safe (qizo_drivers_start BLOB_LBA (sectors_of blob) (Registry [] false) s) (λ r,
        (name <$> slots r.1) = ["kbd"; "mouse"; "ata"; "fat"; "pci"; "rtl8139"]%string ∧
        (∀ x, x ∈ slots r.1 → name x = "ata"%string ∨ name x = "fat"%string → state x = QIZO_DRIVER_READY) ∧
        volume_seen r.2).
Proof.
  intros Ht. destruct (main_spec o k blob total l Hok) as (img & lines & Em & Hd). exists img, lines. split; [done|].
  intros s Hm. pose proof (d_len _ _ _ _ _ _ Hd) as Hl. change SECTOR with 512 in Hl.
  pose proof (build_ok_layout _ _ _ _ _ Hok) as Hlo.
  destruct (layout_ok_pos _ _ _ Hlo (proj1 (sectors_bound blob (bo_blob_max _ _ _ _ _ Hok)))) as (_ & _ & _ & Hpos).
  unfold qizo_drivers_start. cbn [started slots]. apply safe_bind. rewrite all_slots_nil.
  apply start_all_cons. eapply safe_mono.
  { apply (start_slot_safe (machine img)); [|done]. cbn [probe]. eapply safe_mono; [apply kbd_slot_untouched|].
    intros r. by apply machine_untouched. }
  intros [x1 s1] [M1 N1]. cbn [fst snd] in *. apply start_all_cons. eapply safe_mono.
  { apply (start_slot_safe (machine img)); cbn [probe start].
    - eapply safe_mono; [apply mouse_probe_untouched|]. intros r. by apply machine_untouched.
    - intros f s' [= <-] Hs'. eapply safe_mono; [apply mouse_start_untouched|]. intros r. by apply machine_untouched. }
  intros [x2 s2] [M2 N2]. cbn [fst snd] in *. apply start_all_cons.
  eapply safe_mono; [apply (ata_slot_ready img s2 total M2); lia|].
  intros [x3 s3] (F3 & N3 & R3). cbn [fst snd] in *. apply start_all_cons. eapply safe_mono; [by eapply fat_slot_ready|].
  intros [x4 s4] (I4 & V4 & N4 & R4). cbn [fst snd] in *. apply start_all_cons. eapply safe_mono.
  { apply (start_slot_safe (λ s, NET.inv (net s) ∧ volume_seen s)); cbn [probe start]; [|by intros f s' [= <-] Hs'].
    by apply (pci_slot_safe (λ f r, r = true ∧ ∃ lab, f = FV.seen l (place_end 2 (files_of o k blob l)) lab)). }
  intros [x5 s5] [[I5 V5] N5]. cbn [fst snd] in *. apply start_all_cons. eapply safe_mono.
  { apply (start_slot_safe (λ s, NET.inv (net s) ∧ volume_seen s)); cbn [probe start].
    - by apply (rtl_slot_safe (λ f r, r = true ∧ ∃ lab, f = FV.seen l (place_end 2 (files_of o k blob l)) lab)).
    - intros f s' [= <-] [In Vn].
      by apply (rtl_slot_safe (λ f r, r = true ∧ ∃ lab, f = FV.seen l (place_end 2 (files_of o k blob l)) lab)). }
  intros [x6 s6] [[_ V6] N6]. cbn [fst snd start_all safe slots name] in *.
  split; [cbn [fmap list_fmap]; congruence|]. split; [|done].
  intros x Hx. rewrite !elem_of_cons, elem_of_nil in Hx. intros Hname.
  destruct Hx as [->|[->|[->|[->|[->|[->|[]]]]]]]; try done; destruct Hname; congruence.
Qed.
End image.
End started.

(** ** A machine

    The simulated disk of [Ata.v] with the words of the image on it; nothing answers
    on the bus. *)
Fixpoint words_of (l : bytes) : list Z :=
  match l with
  | x :: y :: l => x + 256 * y :: words_of l
  | _ => []
  end.

Lemma words_of_bytes l n : Bytes l → length l = (2 * n)%nat → word_bytes ((λ w, w mod 65536) <$> words_of l) = l.
Proof.
  revert n. induction l as [l IH] using (induction_ltof1 _ (@length Z)). unfold ltof in IH. intros n Hl Hn.
  destruct l as [|x [|y l]]; cbn [length] in Hn; [done|lia|].
  apply list.Forall_cons in Hl as [Hx%is_byte_spec [Hy%is_byte_spec Hl]%list.Forall_cons].
  cbn [words_of fmap list_fmap]. unfold word_bytes. cbn [mbind list_bind].
  fold (word_bytes ((λ w, w mod 65536) <$> words_of l)). cbn [app].
  rewrite (IH l ltac:(cbn; lia) (n - 1)%nat Hl ltac:(lia)). rewrite (Z.mod_small (x + 256 * y)) by lia.
  f_equal; [|f_equal]; [rewrite Z.mul_comm, Z.mod_add, Z.mod_small by lia; done|].
  rewrite Z.mul_comm, Z.div_add, Z.div_small by lia. done.
Qed.

#[local] Existing Instances ATA.Sim.sim_ports ATA.Sim.sim_disk.

#[local] Program Instance ex_ports32 : NET.Ports32 ATA.Sim.sim := {| NET.inl _ d := (0xFFFFFFFF, d); NET.outl _ _ d := d |}.
Next Obligation. intros. cbn. lia. Qed.

Definition ex_fresh : ATA.ata := ATA.Ata [false; false] [0; 0] (replicate 2 (replicate 41 0)) 0 0 0 false.

Definition ex_sys (img : list Z) (p : PMA.pma) : sys ATA.Sim.sim :=
  Sys KBD.ex_kbd MOUSE.ex_mouse 0
    (FV.State (ex_fresh, ATA.Sim.Dev 0 0 0 0 0 [] false (words_of img)) p None) FV.ex_out false NET.initial.

Lemma ex_machine img n : Bytes img → length img = (2 * n)%nat → ∃ s, machine img s.
Proof.
  intros Hb Hl. destruct (FV.ex_ready img) as [st [_ _ _ Hf _]]. exists (ex_sys img (FV.frames st)). split; try done.
  - by eapply words_of_bytes.
  - split; [done|done|]. split; [done|]. intros m Hm%elem_of_replicate_inv. by subst m.
  - apply NET.net_initial_inv.
Qed.

Lemma drivers_find_volume_witness :
  ∃ img lines (s : sys ATA.Sim.sim), Image.main (ex_options false) = Ok (img, lines) ∧ machine img s ∧
    safe (qizo_drivers_start BLOB_LBA 1 (Registry [] false) s) (λ r, fs_ready r.2 = true).
Proof.
  destruct (drivers_find_volume (D := ATA.Sim.sim) (ex_options false) ex_span (ex_blob false) 4425 ex_layout
    (ex_build_ok false) ltac:(lia)) as (img & lines & E & Hs).
  destruct (main_spec _ _ _ _ _ (ex_build_ok false)) as (img' & lines' & E' & Hd). rewrite E in E'. injection E' as <- <-.
  assert (Bytes img) as Hb.
  { apply (image_bytes (ex_options false) img lines); [..|exact E]; apply (bool_decide_unpack _); vm_compute; exact I. }
  destruct (ex_machine img (256 * Z.to_nat 4425) Hb) as [s Hm].
  { pose proof (d_len _ _ _ _ _ _ Hd) as Hl. change SECTOR with 512 in Hl. lia. }
  exists img, lines, s. split; [exact E|]. split; [exact Hm|].
  eapply safe_mono; [exact (Hs s Hm)|]. intros r (_ & _ & Hv & _). exact Hv.
Defined.

End DRV.
