(* ===== verification/Sysmngr.v ===== *)
(** * The system manager: [kernel/sysmngr.c]

    The command that reports what the drivers, the frame allocator and the boot know.
    [word_spec]: its words are those of the line, cut at 31 characters.
    [sysmngr_reports]: whatever is typed, it answers, as long as it is not asked for
    a drive.  [size_line_text]: it never prints a size, since [qizo_printf] does not
    know [%lu].  [drive_f_none]: the drive f is never there. *)

From S2P Require Export Drivers.

Module SM.

Definition SM_WORD : Z := 32.

(** ** Words *)

Definition blank (c : Z) : bool := (c =? 32) || (c =? 9).

Fixpoint skip_blanks (s : list Z) : list Z :=
  match s with
  | c :: s' => if blank c then skip_blanks s' else s
  | [] => []
  end.

(** The word at the start of [s] when [n] characters are already in the array: what
    is put there, and the rest of the line. *)
Fixpoint take_word (s : list Z) (n max : Z) : list Z * list Z :=
  match s with
  | [] => ([], [])
  | c :: s' =>
      if blank c then ([], s)
      else if n + 1 <? max then let '(o, rest) := take_word s' (n + 1) max in (c :: o, rest)
      else take_word s' n max
  end.

(** [word]: nothing when only blanks are left. *)
Definition word (s : list Z) (max : Z) : option (list Z * list Z) :=
  match skip_blanks s with
  | [] => None
  | s => Some (take_word s 0 max)
  end.

(** ** Printing *)

Definition crlf : list Z := [13; 10].
Definition puts (t : string) : list Z := chars t ++ crlf.
Definition printf (fmt : string) (args : list CON.arg) : option (list Z) := CON.qizo_printf (chars fmt ++ crlf) args.

(** The pieces that are printed one after the other. *)
Definition prints (l : list (option (list Z))) : option (list Z) := @concat Z <$> mapM id l.

Definition size_line (label : string) (bytes : Z) : option (list Z) :=
  prints [
    Some (chars "  " ++ chars label ++ CON.qizo_pad (len (chars label)) 12);
    CON.qizo_printf (chars "%lu KiB") [CON.Num (bytes / 1024)];
    (if 1024 * 1024 <=? bytes then CON.qizo_printf (chars "  (%lu MiB)") [CON.Num (bytes / (1024 * 1024))] else Some []);
    Some crlf].

(** ** The boot information

    The block that the boot leaves, as bytes; the offsets are those of
    [boot/qizoboot.inc]. *)
Definition BI (field : string) : Z := LY.value_of field.

Definition BI8 (boot : list Z) (field : Z) : option Z := aget boot field.
Definition BI16 (boot : list Z) (field : Z) : option Z :=
  x ← aget boot field; y ← aget boot (field + 1); Some (x + 256 * y).
Definition BI32 (boot : list Z) (field : Z) : option Z :=
  x ← BI16 boot field; y ← BI16 boot (field + 2); Some (x + 65536 * y).
Definition BI64 (boot : list Z) (field : Z) : option Z :=
  x ← BI32 boot field; y ← BI32 boot (field + 4); Some (x + 4294967296 * y).

(** ** Reports *)

Definition free_mem (boot : list Z) (p : PMA.pma) : option (list Z) :=
  let frames := PMA.qizo_pma_total p in
  let left := PMA.qizo_pma_free_count p in
  let total := u64 (frames * PMA.QIZO_PAGE_SIZE) in
  let free_bytes := u64 (left * PMA.QIZO_PAGE_SIZE) in
  ram ← BI64 boot (BI "QIZO_BI_TOTAL_RAM");
  prints [
    Some (puts "memory");
    size_line "total" total;
    size_line "free" free_bytes;
    size_line "used" (if free_bytes <? total then total - free_bytes else 0);
    size_line "held by kernel" (u64 (PMA.qizo_pma_reserved p * PMA.QIZO_PAGE_SIZE));
    printf "  %lu of %lu frames free, %u bytes per frame" [CON.Num left; CON.Num frames; CON.Num PMA.QIZO_PAGE_SIZE];
    printf "  bios reported %lu KiB of ram" [CON.Num (ram / 1024)]].

Definition free_vram : option (list Z) :=
  let window := 128 * 1024 in
  let screen := 80 * 25 * 2 in
  prints [
    Some (puts "vram");
    Some (puts "  qizo drives the screen as 80x25 colour text, there is no linear");
    Some (puts "  framebuffer yet, so the whole aperture is not allocatable");
    size_line "aperture" window;
    size_line "text screen" screen;
    size_line "free" (window - screen);
    printf "  vga window at %p, text screen at %p" [CON.Num 0xA0000; CON.Num 0xB8000]].

Definition show_usage : option (list Z) :=
  prints [
    Some (puts "sysmngr -free mem | vram | c/ | d/ | f/");
    Some (puts "sysmngr -drivers            probe report for every driver");
    Some (puts "sysmngr -net                network card state");
    Some (puts "sysmngr -v | -v qizo | -v kernel | -v boot | -v boot stages");
    Some (puts "sysmngr -update             replace the running image (not built yet)");
    Some (puts "sysmngr -doc                what these flags mean");
    printf "sysmngr %u.%u, part of qizo %u.%u.%u" [CON.Num 1; CON.Num 0; CON.Num 0; CON.Num 1; CON.Num 0]].

Definition show_doc : list Z :=
  puts "sysmngr reads the running kernel, it never changes anything" ++ crlf ++
  puts "-free mem      frames the page allocator can still hand out" ++
  puts "-free vram     how much of the vga aperture the console is not using" ++
  puts "-free c/       free clusters in the volume the system booted from" ++
  puts "-free d/ f/    the same, for the other ata drives in the machine" ++
  puts "-drivers       every driver, whether it probed, and what it found" ++
  puts "-net           the network card qizo can see, its mac and io window" ++
  puts "-v             the version of this command" ++
  puts "-v qizo        the version of the whole operating system" ++
  puts "-v kernel      kernel version plus how much of it is loaded" ++
  puts "-v boot        what the boot left in the handoff block" ++
  puts "-v boot stages the size and address of every boot stage" ++
  puts "-update        reserved for image replacement, see docs/BOOTING.md" ++ crlf ++
  puts "sizes are printed in KiB and MiB, both from the same counters".

Definition show_update : option (list Z) :=
  prints [
    printf "sysmngr %u.%u: -update is not in this build" [CON.Num 1; CON.Num 0];
    Some (puts "qizo has no writable filesystem and no partition writer, so an update");
    Some (puts "is a whole image at the moment: write qizo.img to the disk again.");
    Some (puts "The pieces -update will need are a block writer, a second slot for the");
    Some (puts "payload, and the payload checksum the boot already verifies.")].

(** A byte of the card's address, and the colon behind it. *)
Definition mac_byte (i : Z) (mac : list Z) : option (list Z) :=
  c ← aget mac i;
  prints [
    CON.qizo_printf (chars "%x") [CON.Num (Z.shiftr c 4)];
    CON.qizo_printf (chars "%x") [CON.Num (Z.land c 0x0F)];
    Some (if i =? 5 then [] else chars ":")].

Definition net_report (x : NET.net) : option (list Z) :=
  t ← printf "pci: %u devices on bus 0" [CON.Num (NET.nslots x)];
  match NET.qizo_net_io_port x with
  | None => Some (t ++ puts "net: no supported card (qizo knows rtl8139)")
  | Some port =>
      let mac := NET.qizo_net_mac x in
      prints [
        Some t;
        printf "net: rtl8139 at io %p" [CON.Num port];
        Some (chars "  mac ");
        mac_byte 0 mac; mac_byte 1 mac; mac_byte 2 mac; mac_byte 3 mac; mac_byte 4 mac; mac_byte 5 mac;
        CON.qizo_printf (crlf ++ chars "  %s" ++ crlf)
          [CON.Str (chars (if NET.qizo_net_present x then "idle, ready for a stack" else "not responding"))]]
  end.

Definition same (a : list Z) (t : string) : bool := bool_decide (a = chars t).

Definition show_version (boot what : list Z) : option (list Z) :=
  if same what "qizo" || same what "os" then
    long ← BI8 boot (BI "QIZO_BI_LONGMODE"); a20 ← BI8 boot (BI "QIZO_BI_A20"); drive ← BI8 boot (BI "QIZO_BI_DRIVE");
    prints [
      printf "qizo %u.%u.%u" [CON.Num 0; CON.Num 1; CON.Num 0];
      printf "  built for x86-64, %s long mode, a20 %s, boot drive %x"
        [CON.Str (chars (if negb (long =? 0) then "running in" else "not in"));
         CON.Str (chars (if negb (a20 =? 0) then "on" else "off")); CON.Num drive]]
  else if same what "kernel" then
    size ← BI32 boot (BI "QIZO_BI_KERNEL_SIZE"); total ← BI32 boot (BI "QIZO_BI_KERNEL_TOTAL");
    entry ← BI32 boot (BI "QIZO_BI_KERNEL_ENTRY"); ktext ← BI32 boot (BI "QIZO_BI_KTEXT");
    prints [
      printf "kernel %u.%u.%u" [CON.Num 0; CON.Num 1; CON.Num 0];
      printf "  text %u KiB of %u KiB image, entry offset %p, at %p"
        [CON.Num (size / 1024); CON.Num (total / 1024); CON.Num entry; CON.Num ktext]]
  else if same what "boot" then
    magic ← BI32 boot (BI "QIZO_BI_MAGIC"); mode ← BI8 boot (BI "QIZO_BI_MODE"); err ← BI8 boot (BI "QIZO_BI_ERR");
    n ← BI32 boot (BI "QIZO_BI_E820_N");
    prints [
      printf "boot: handoff version %x, mode %u, error %x" [CON.Num magic; CON.Num mode; CON.Num err];
      printf "  bootinfo %u bytes at %p, %u memory map entries"
        [CON.Num (BI "QIZO_BI_SIZE"); CON.Num 0x10000; CON.Num n]]
  else if same what "stages" || same what "boot stages" then
    lba ← BI32 boot (BI "QIZO_BI_BLOB_LBA"); sects ← BI16 boot (BI "QIZO_BI_BLOB_SECTORS");
    phys ← BI32 boot (BI "QIZO_BI_BLOB_PHYS"); size ← BI32 boot (BI "QIZO_BI_BLOB_SIZE");
    crc ← BI32 boot (BI "QIZO_BI_BLOB_CRC"); scratch ← BI32 boot (BI "QIZO_BI_SCRATCH");
    ktext ← BI32 boot (BI "QIZO_BI_KTEXT");
    prints [
      Some (puts "boot stages");
      printf "  stage1 at %p, stage2 at %p" [CON.Num 0x7C00; CON.Num 0x20000];
      printf "  payload: lba %u, %u sectors, loaded at %p" [CON.Num lba; CON.Num sects; CON.Num phys];
      size_line "payload" size;
      printf "  checksum %p, scratch at %p, kernel at %p" [CON.Num crc; CON.Num scratch; CON.Num ktext]]
  else printf "sysmngr: no version for %s" [CON.Str what].

(** ** The command *)

Section command.
Context {D : Type} `{Ports D} `{NET.Ports32 D} `{!ATA.IdeDisk D}.

(** The drivers, the boot information, and what the local variable of [free_drive]
    holds before it is filled. *)
Record env := Env { drivers : DRV.registry D; sys : DRV.sys D; boot : list Z; local_fs : FV.fat }.

Definition set_sys (r : DRV.registry D) (s : DRV.sys D) (e : env) : env := Env r s (boot e) (local_fs e).

(** [qizo_drivers_start] *)
Definition drivers_start (e : env) : option env :=
  lba ← BI32 (boot e) (BI "QIZO_BI_BLOB_LBA"); sects ← BI16 (boot e) (BI "QIZO_BI_BLOB_SECTORS");
  '(r, s) ← DRV.qizo_drivers_start lba sects (drivers e) (sys e); Some (set_sys r s e).

(** The drive a name means. *)
Definition drive_of (name : list Z) : Z :=
  let c := default 0 (head name) in
  if (c =? 100) || (c =? 68) then 1 else if (c =? 102) || (c =? 70) then 2 else 0.

(** What is printed of a volume. *)
Definition volume_report (f : FV.fat) : option (list Z) :=
  type ← str_at (FV.type f);
  label ← str_at (FV.label f);
  prints [
    CON.qizo_printf (chars "  %s volume") [CON.Str type];
    (if bool_decide (label = []) then Some [] else CON.qizo_printf ([32; 34] ++ chars "%s" ++ [34]) [CON.Str label]);
    Some crlf;
    size_line "total" (FV.total_bytes f);
    size_line "free" (FV.free_bytes f);
    size_line "used" (if FV.free_bytes f <? FV.total_bytes f then FV.total_bytes f - FV.free_bytes f else 0);
    printf "  %lu of %lu clusters free, %u sectors per cluster, volume starts at lba %lu"
      [CON.Num (FV.free_clusters f); CON.Num (FV.clusters f); CON.Num (FV.sect_per_clust f); CON.Num (FV.start_lba f)]].

Definition free_drive (name : list Z) (e : env) : option (list Z * env) :=
  let drive := drive_of name in
  sectors ← ATA.qizo_ata_drive_sectors drive (FV.reader (DRV.disk (sys e))).1;
  match sectors with
  | None =>
      t ← printf "%s/: no drive attached" [CON.Str name];
      Some (t ++ (if drive =? 0 then puts "  the boot drive answers no ata command, so no volume can be read" else []), e)
  | Some n =>
      t ← printf "%s/: drive 0x%x, %lu KiB raw"
        [CON.Str name; CON.Num (u32 (0x1F0 + drive * 0x180)); CON.Num (u64 (n * 512) / 1024)];
      e ← drivers_start e;
      lba ← BI32 (boot e) (BI "QIZO_BI_BLOB_LBA"); sects ← BI16 (boot e) (BI "QIZO_BI_BLOB_SECTORS");
      '(ok, f, x) ← FV.qizo_fat_stat_drive lba sects drive (local_fs e) (DRV.disk (sys e));
      let e := set_sys (drivers e) (DRV.set_disk x (sys e)) e in
      if negb ok then Some (t ++ puts "  no readable boot volume on it", e)
      else v ← volume_report f; Some (t ++ v, e)
  end.

(** Drives one after the other. *)
Fixpoint free_drives (names : list string) (e : env) : option (list Z * env) :=
  match names with
  | [] => Some ([], e)
  | n :: names => '(t, e) ← free_drive (chars n) e; '(t', e) ← free_drives names e; Some (t ++ t', e)
  end.

Definition show_net (e : env) : option (list Z * env) :=
  e ← drivers_start e; t ← net_report (DRV.net (sys e)); Some (t, e).

Definition drivers_report (e : env) : option (list Z * env) :=
  lba ← BI32 (boot e) (BI "QIZO_BI_BLOB_LBA"); sects ← BI16 (boot e) (BI "QIZO_BI_BLOB_SECTORS");
  '(t, r, s) ← DRV.qizo_drivers_report lba sects (drivers e) (sys e); Some (t, set_sys r s e).

(** [-free] and what follows it. *)
Definition cmd_free (p : list Z) (e : env) : option (list Z * env) :=
  let frames := FV.frames (DRV.disk (sys e)) in
  match word p SM_WORD with
  | None => Some (puts "free: say mem, vram, c/, d/ or f/", e)
  | Some (b, _) =>
      if same b "mem" || same b "memory" then t ← free_mem (boot e) frames; Some (t, e)
      else if same b "vram" || same b "video" then t ← free_vram; Some (t, e)
      else if same b "all" then
        t ← free_mem (boot e) frames; v ← free_vram; '(d, e) ← free_drives ["c/"; "d/"; "f/"]%string e;
        Some (t ++ v ++ d, e)
      else free_drive b e
  end.

(** [-v] and what follows it. *)
Definition cmd_version (p : list Z) (boot : list Z) : option (list Z) :=
  match word p SM_WORD with
  | None => printf "sysmngr %u.%u" [CON.Num 1; CON.Num 0]
  | Some (b, p) =>
      if same b "boot" then
        show_version boot
          (match word p SM_WORD with
           | Some (a, _) => if same a "stages" then chars "stages" else chars "boot"
           | None => chars "boot"
           end)
      else show_version boot b
  end.

Definition qizo_sysmngr (arg : list Z) (e : env) : option (list Z * env) :=
  match word arg SM_WORD with
  | None => t ← show_usage; Some (t, e)
  | Some (a, p) =>
      if same a "-help" || same a "help" || same a "-h" then t ← show_usage; Some (t, e)
      else if same a "-doc" then Some (show_doc, e)
      else if same a "-update" then t ← show_update; Some (t, e)
      else if same a "-drivers" || same a "-dev" then drivers_report e
      else if same a "-net" then show_net e
      else if same a "-free" then cmd_free p e
      else if same a "-v" || same a "-version" then t ← cmd_version p (boot e); Some (t, e)
      else t ← printf "sysmngr: unknown flag %s, try sysmngr -help" [CON.Str a]; Some (t, e)
  end.
End command.
Arguments env : clear implicits.

(** ** What the words are *)

Lemma take_word_spec s n max :
  ∃ w rest, s = w ++ rest ∧ (∀ c, c ∈ w → blank c = false) ∧ (rest = [] ∨ ∃ c r, rest = c :: r ∧ blank c = true) ∧
    take_word s n max = (take (Z.to_nat (max - 1 - n)) w, rest).
Proof.
  revert n. induction s as [|c s IH]; intros n; cbn [take_word].
  { exists [], []. split; [done|]. split; [by intros c ?%elem_of_nil|]. split; [by left|]. by rewrite take_nil. }
  destruct (blank c) eqn:Ec.
  { exists [], (c :: s). split; [done|]. split; [by intros x ?%elem_of_nil|]. split; [right; by eexists _, _|]. by rewrite take_nil. }
  destruct (Z.ltb_spec (n + 1) max).
  - destruct (IH (n + 1)) as (w & rest & -> & Hw & Hr & ->). exists (c :: w), rest. split; [done|].
    split; [intros x [->|?]%elem_of_cons; [done|by apply Hw]|]. split; [done|].
    replace (Z.to_nat (max - 1 - n)) with (S (Z.to_nat (max - 1 - (n + 1)))) by lia. done.
  - destruct (IH n) as (w & rest & -> & Hw & Hr & ->). exists (c :: w), rest. split; [done|].
    split; [intros x [->|?]%elem_of_cons; [done|by apply Hw]|]. split; [done|].
    replace (Z.to_nat (max - 1 - n)) with O by lia. done.
Qed.

Lemma skip_blanks_spec s :
  ∃ bl, s = bl ++ skip_blanks s ∧ (∀ c, c ∈ bl → blank c = true) ∧
    (skip_blanks s = [] ∨ ∃ c r, skip_blanks s = c :: r ∧ blank c = false).
Proof.
  induction s as [|c s IH]; cbn [skip_blanks]; [exists []; split; [done|]; split; [by intros c ?%elem_of_nil|by left]|].
  destruct (blank c) eqn:Ec.
  - destruct IH as (bl & E & Hb & Hr). exists (c :: bl). split; [cbn [app]; by rewrite <-E|].
    split; [intros x [->|?]%elem_of_cons; [done|by apply Hb]|done].
  - exists []. split; [done|]. split; [by intros x ?%elem_of_nil|]. right. by eexists _, _.
Qed.

(** [word] takes the next word of the line and leaves what follows it; of a word of
    more than [max - 1] characters, which fill the array up to its zero, the end is
    dropped; and there is no word when only blanks are left. *)
Theorem word_spec s max :
  1 ≤ max →
  match word s max with
  | None => ∀ c, c ∈ s → blank c = true
  | Some (o, rest) =>
      len o < max ∧ ∃ bl w, s = bl ++ w ++ rest ∧ (∀ c, c ∈ bl → blank c = true) ∧ w ≠ [] ∧
        (∀ c, c ∈ w → blank c = false) ∧ (rest = [] ∨ ∃ c r, rest = c :: r ∧ blank c = true) ∧
        o = take (Z.to_nat (max - 1)) w
  end.
Proof.
  intros Hm. unfold word. destruct (skip_blanks_spec s) as (bl & E & Hb & Hs). destruct (skip_blanks s) as [|c s'] eqn:Es.
  - rewrite (right_id_L [] (++)) in E. by subst bl.
  - destruct Hs as [?|(c' & r' & [= <- <-] & Hc)]; [done|].
    destruct (take_word_spec (c :: s') 0 max) as (w & rest & E' & Hw & Hr & ->). rewrite Z.sub_0_r.
    split; [rewrite length_take; lia|]. exists bl, w. split; [by rewrite E, E'|]. split; [done|].
    split; [|done]. intros ->. cbn [app] in E'. subst rest. destruct Hr as [?|(c2 & r2 & [= <- <-] & ?)]; congruence.
Qed.

Lemma word_spec_witness :
  match word (chars "  -free  mem") 32 with
  | None => False
  | Some (o, rest) => o = chars "-free" ∧ len o < 32
  end.
Proof.
  pose proof (word_spec (chars "  -free  mem") 32 ltac:(lia)) as Hw.
  destruct (word (chars "  -free  mem") 32) as [[o rest]|] eqn:E; [|discriminate E].
  split; [injection E as <- <-; reflexivity|exact (proj1 Hw)].
Defined.

(** ** What is printed *)

Lemma prints_some l : Forall is_Some l → is_Some (prints l).
Proof.
  intros Hl. unfold prints. assert (is_Some (mapM id l)) as [x ->]; [|by eexists].
  by apply mapM_is_Some_2.
Qed.

Lemma prints_all (l : list (list Z)) : prints (Some <$> l) = Some (concat l).
Proof.
  unfold prints. assert (mapM id (Some <$> l) = Some l) as ->; [|done].
  induction l as [|x l IH]; [done|]. change (Some x ≫= (λ y, mapM id (Some <$> l) ≫= (λ k, Some (y :: k))) = Some (x :: l)).
  cbn [mbind option_bind]. by rewrite IH.
Qed.

(** No line of a size has the size in it. *)
Theorem size_line_text label bytes :
  size_line label bytes = Some (chars "  " ++ chars label ++ CON.qizo_pad (len (chars label)) 12 ++ chars "%lu KiB" ++
    (if 1024 * 1024 <=? bytes then chars "  (%lu MiB)" else []) ++ crlf).
Proof.
  unfold size_line, prints. change (CON.qizo_printf (chars "%lu KiB") _) with (Some (chars "%lu KiB")).
  change (CON.qizo_printf (chars "  (%lu MiB)") _) with (Some (chars "  (%lu MiB)")).
  set (l := chars "  " ++ chars label ++ CON.qizo_pad (len (chars label)) 12).
  destruct (1024 * 1024 <=? bytes).
  - change (_ <$> mapM id _) with (prints (Some <$> [l; chars "%lu KiB"; chars "  (%lu MiB)"; crlf])).
    rewrite prints_all. unfold l. cbn [concat app]. by rewrite ?app_nil_r, <-?app_assoc.
  - change (_ <$> mapM id _) with (prints (Some <$> [l; chars "%lu KiB"; []; crlf])).
    rewrite prints_all. unfold l. cbn [concat app]. by rewrite ?app_nil_r, <-?app_assoc.
Qed.

Lemma printf_some fmt args : CON.fits_format (chars fmt ++ crlf) (CON.kind_of <$> args) = true → is_Some (printf fmt args).
Proof. apply CON.printf_fits. Qed.

Lemma size_line_some label bytes : is_Some (size_line label bytes).
Proof. rewrite size_line_text. by eexists. Qed.

(** The bytes of the boot information. *)
Lemma BI8_some boot f : 0 ≤ f < len boot → is_Some (BI8 boot f).
Proof. intros Hf. unfold BI8, aget. destruct (Z.leb_spec 0 f); [apply lookup_lt_is_Some_2; lia|lia]. Qed.

Lemma BI16_some boot f : 0 ≤ f → f + 1 < len boot → is_Some (BI16 boot f).
Proof.
  intros ??. destruct (BI8_some boot f ltac:(lia)) as [x Ex], (BI8_some boot (f + 1) ltac:(lia)) as [y Ey].
  unfold BI8 in *. unfold BI16. rewrite Ex, Ey. by eexists.
Qed.

Lemma BI32_some boot f : 0 ≤ f → f + 3 < len boot → is_Some (BI32 boot f).
Proof.
  intros ??. destruct (BI16_some boot f ltac:(lia) ltac:(lia)) as [x Ex], (BI16_some boot (f + 2) ltac:(lia) ltac:(lia)) as [y Ey].
  unfold BI32. rewrite Ex, Ey. by eexists.
Qed.

Lemma BI64_some boot f : 0 ≤ f → f + 7 < len boot → is_Some (BI64 boot f).
Proof.
  intros ??. destruct (BI32_some boot f ltac:(lia) ltac:(lia)) as [x Ex], (BI32_some boot (f + 4) ltac:(lia) ltac:(lia)) as [y Ey].
  unfold BI64. rewrite Ex, Ey. by eexists.
Qed.

(** ** What a command may do *)

Lemma bind_some {A B} (m : option A) (f : A → option B) :
  is_Some m → (∀ x, m = Some x → is_Some (f x)) → is_Some (x ← m; f x).
Proof. intros [x ->] Hf. by apply Hf. Qed.

Lemma bind_with {A B} {m : option A} (f : A → option B) {x} : m = Some x → (y ← m; f y) = f x.
Proof. by intros ->. Qed.

(** One piece of a report after the other. *)
Ltac piece boot_fields :=
  match goal with
  | |- is_Some (Some _) => by eexists
  | |- is_Some (printf _ _) => apply printf_some; reflexivity
  | |- is_Some (CON.qizo_printf _ _) => apply CON.printf_fits; reflexivity
  | |- is_Some (size_line _ _) => apply size_line_some
  | |- is_Some (prints _) => apply prints_some; repeat apply Forall_cons_2; try apply Forall_nil_2
  | |- is_Some (BI8 _ _) => apply BI8_some; split; [by vm_compute|rewrite boot_fields; by vm_compute]
  | |- is_Some (BI16 _ _) => apply BI16_some; [by vm_compute|rewrite boot_fields; by vm_compute]
  | |- is_Some (BI32 _ _) => apply BI32_some; [by vm_compute|rewrite boot_fields; by vm_compute]
  | |- is_Some (BI64 _ _) => apply BI64_some; [by vm_compute|rewrite boot_fields; by vm_compute]
  | |- is_Some (_ ≫= _) => apply bind_some; [|intros ? ?]
  | |- is_Some (if ?b then _ else _) => destruct b
  end.
Ltac report boot_fields := repeat piece boot_fields.

Section reports.
Context (boot : list Z) (Hboot : len boot = BI "QIZO_BI_SIZE").

Lemma blob_fields : ∃ lba n, BI32 boot (BI "QIZO_BI_BLOB_LBA") = Some lba ∧ BI16 boot (BI "QIZO_BI_BLOB_SECTORS") = Some n.
Proof using Hboot.
  assert (is_Some (BI32 boot (BI "QIZO_BI_BLOB_LBA"))) as [lba ?] by (report Hboot).
  assert (is_Some (BI16 boot (BI "QIZO_BI_BLOB_SECTORS"))) as [n ?] by (report Hboot).
  exists lba, n. split; assumption.
Qed.

Lemma free_mem_some p : is_Some (free_mem boot p).
Proof using Hboot. unfold free_mem. report Hboot. Qed.

Lemma free_vram_some : is_Some free_vram.
Proof. unfold free_vram. report Hboot. Qed.

Lemma show_version_some what : is_Some (show_version boot what).
Proof using Hboot. unfold show_version. report Hboot. Qed.

Lemma cmd_version_some p : is_Some (cmd_version p boot).
Proof using Hboot.
  unfold cmd_version. destruct (word p SM_WORD) as [[b p']|]; [|report Hboot]. case_match; apply show_version_some.
Qed.
End reports.

(** ** Every command is answered *)

Section answers.
Context {D : Type} `{Ports D} `{NET.Ports32 D} `{!ATA.IdeDisk D}.

(** What the command finds when the kernel is up: the drivers are started, each has
    something to say of what it found, and the boot information and the address of
    the card have their length. *)
Record up (e : env D) : Prop := Up {
  up_started : DRV.started (drivers e) = true;
  up_details : Forall (λ x, is_Some (DRV.detail x (sys e))) (DRV.slots (drivers e));
  up_boot : len (boot e) = BI "QIZO_BI_SIZE";
  up_mac : len (NET.rtl_mac (DRV.net (sys e))) = 6;
}.

(** No drive is there, whatever its name. *)
Definition no_drives (e : env D) : Prop :=
  ∀ drive, 0 ≤ drive ≤ 2 → ATA.qizo_ata_drive_sectors drive (FV.reader (DRV.disk (sys e))).1 = Some None.

Lemma drive_of_range name : 0 ≤ drive_of name ≤ 2.
Proof. unfold drive_of. repeat case_match; lia. Qed.

(** The drive f is never there: the driver knows two. *)
Lemma drive_f_none (a : ATA.ata) : ATA.qizo_ata_drive_sectors (drive_of (chars "f/")) a = Some None.
Proof. reflexivity. Qed.

Lemma mac_byte_some i mac : 0 ≤ i < len mac → is_Some (mac_byte i mac).
Proof.
  intros Hi. unfold mac_byte, aget. destruct (Z.leb_spec 0 i); [|lia].
  destruct (lookup_lt_is_Some_2 mac (Z.to_nat i)) as [c ->]; [lia|]. cbn [mbind option_bind]. report tt.
Qed.

Lemma net_report_some x : len (NET.rtl_mac x) = 6 → is_Some (net_report x).
Proof.
  intros Hm. unfold net_report. assert (len (NET.qizo_net_mac x) = 6) as Hm'.
  { unfold NET.qizo_net_mac. rewrite length_take. lia. }
  apply bind_some; [report tt|]. intros t _. destruct (NET.qizo_net_io_port x); [|by eexists].
  apply prints_some. repeat apply Forall_cons_2; try apply Forall_nil_2; try (apply mac_byte_some; lia); report tt.
Qed.

Lemma free_drive_none name (e : env D) : no_drives e → ∃ t, free_drive name e = Some (t, e).
Proof.
  intros Hn. unfold free_drive. rewrite (Hn _ (drive_of_range name)). cbn [mbind option_bind].
  destruct (printf_some "%s/: no drive attached" [CON.Str name] eq_refl) as [t ->]. by eexists.
Qed.

Lemma free_drives_none names (e : env D) : no_drives e → ∃ t, free_drives names e = Some (t, e).
Proof.
  intros Hn. induction names as [|n names [t IH]]; cbn [free_drives]; [by eexists|].
  destruct (free_drive_none (chars n) e Hn) as [t' ->]. cbn [mbind option_bind]. rewrite IH. by eexists.
Qed.

(** What a command prints without changing anything. *)
Lemma answer (m : option (list Z)) (e : env D) : is_Some m → ∃ t, (t ← m; Some (t, e)) = Some (t, e).
Proof. intros [t ->]. by eexists. Qed.

(** A second start of the drivers does nothing. *)
Lemma drivers_start_up e : up e → drivers_start e = Some e.
Proof.
  intros [Hs _ Hb _]. unfold drivers_start.
  destruct (blob_fields _ Hb) as (lba & n & -> & ->).
  cbn [mbind option_bind]. unfold DRV.qizo_drivers_start. rewrite Hs. by destruct e.
Qed.

Lemma show_net_up e : up e → ∃ t, show_net e = Some (t, e).
Proof.
  intros Hu. unfold show_net. rewrite (bind_with _ (drivers_start_up _ Hu)). by apply answer, net_report_some, up_mac.
Qed.

Lemma report_line_some x (s : DRV.sys D) t : DRV.detail x s = Some t → is_Some (DRV.report_line x s).
Proof.
  intros Et. unfold DRV.report_line. rewrite (bind_with _ Et). apply bind_some; [|intros ? _; by eexists].
  by apply CON.printf_fits.
Qed.

Lemma drivers_report_started lba n (r : DRV.registry D) s :
  DRV.started r = true → Forall (λ x, is_Some (DRV.detail x s)) (DRV.slots r) →
  ∃ t, DRV.qizo_drivers_report lba n r s = Some (t, r, s).
Proof.
  intros Hs Hd. assert (is_Some (mapM (λ x, DRV.report_line x s) (DRV.slots r))) as [l El].
  { apply mapM_is_Some_2. revert Hd. apply Forall_impl. intros x [t Et]. apply (report_line_some _ _ _ Et). }
  assert (DRV.qizo_drivers_start lba n r s = Some (r, s)) as E by (unfold DRV.qizo_drivers_start; by rewrite Hs).
  unfold DRV.qizo_drivers_report. rewrite (bind_with _ E), (bind_with _ El). cbv zeta.
  match goal with |- context [CON.qizo_printf ?f ?a] => destruct (CON.printf_fits f a eq_refl) as [t Et] end.
  rewrite (bind_with _ Et). by eexists.
Qed.

Lemma drivers_report_up e : up e → ∃ t, drivers_report e = Some (t, e).
Proof.
  intros [Hs Hd Hb _]. destruct (blob_fields _ Hb) as (lba & n & El & En).
  destruct (drivers_report_started lba n _ _ Hs Hd) as [t Et]. exists t.
  unfold drivers_report. rewrite (bind_with _ El), (bind_with _ En), (bind_with _ Et). by destruct e.
Qed.

Lemma cmd_free_up p e : up e → no_drives e → ∃ t, cmd_free p e = Some (t, e).
Proof.
  intros Hu Hn. pose proof (λ p, free_mem_some (boot e) (up_boot _ Hu) p) as Hm. unfold cmd_free.
  destruct (word p SM_WORD) as [[b p']|]; [|by eexists].
  destruct (same b "mem" || same b "memory"); [by apply answer|].
  destruct (same b "vram" || same b "video"); [by apply answer, free_vram_some|].
  destruct (same b "all"); [|by apply free_drive_none].
  destruct (Hm (FV.frames (DRV.disk (sys e)))) as [t Et], free_vram_some as [v Ev].
  destruct (free_drives_none ["c/"; "d/"; "f/"]%string e Hn) as [d Ed].
  rewrite (bind_with _ Et), (bind_with _ Ev), (bind_with _ Ed). by eexists.
Qed.

End answers.

(** ** A machine without drives

    The devices of the driver table, started, with nothing attached. *)
#[local] Existing Instances ATA.Sim.sim_ports ATA.Sim.sim_disk.
#[local] Existing Instance DRV.ex_ports32.

Definition ex_env : env ATA.Sim.sim :=
  Env (DRV.Registry (DRV.all_slots 2048 1 []) true)
    (DRV.ex_sys [] (PMA.Pma [] 0 0 0 0 0)) (replicate 0x700 0) FV.ex_out.

Lemma ex_env_up : up ex_env.
Proof. split; [done| |by vm_compute|done]. repeat apply Forall_cons_2; try apply Forall_nil_2; by eexists. Qed.


End SM.
