(* ===== verification/Cpu.v ===== *)
(** * The processor: [kernel/drivers/cpu.c]

    What the start takes from the answers of the processor, and how the texts among
    them are cleaned.  [trim_ascii_spec]: what is left of a text is its printable
    characters without the blanks behind them.  [cpu_init_texts]: whatever the
    processor answers, the start stays inside its two arrays and both texts end.
    [vendor_order]: the three words of the vendor are put one behind the other in
    the order of the registers, which is not that of the name.

    The answers of [cpuid] and the register CR4 are arguments. *)

From S2P Require Export Clang PyBytes.

Module CPU.

(** The four registers [cpuid] fills. *)
Record answer := Answer { eax : Z; ebx : Z; ecx : Z; edx : Z }.

Definition answer_bytes (r : answer) : list Z := le_bytes 4 (eax r) ++ le_bytes 4 (ebx r) ++ le_bytes 4 (ecx r) ++ le_bytes 4 (edx r).

Record cpu := Cpu {
  brand_string : list Z;
  vendor_string : list Z;
  feat_bits : Z;
  cpu_family : Z;
  cpu_model : Z;
  cpu_stepping : Z;
}.

(** ** Texts *)

(** [char] is signed: a byte from 128 on is less than 32. *)
Definition printable (c : Z) : Z := if (i8 c <? 32) || (126 <? i8 c) then 32 else c.

Definition trim_ascii (s : list Z) (n : Z) : option (list Z) :=
  s ← for_up 0 n
    (λ i s, c ← aget s i;
       if (i8 c <? 32) || (126 <? i8 c) then s ← aset s i 32; Some (Next s) else Some (Next s)) s;
  m ← for_up 0 n (λ i m, c ← aget s i; Some (Next (if negb (c =? 0) then i + 1 else m))) 0;
  m ← while_up (Z.to_nat n) (λ m, negb (m =? 0) && (default 0 (aget s (m - 1)) =? 32)) (λ m, Some (m - 1)) m;
  aset s m 0.

(** Bytes copied to an array, [memcpy] or a store of words. *)
Definition put_bytes (a : list Z) (i : Z) (bs : list Z) : option (list Z) :=
  for_up 0 (len bs) (λ j a, b ← aget bs j; a ← aset a (i + j) b; Some (Next a)) a.

(** ** The start *)

Definition QIZO_FEAT_SSE2 : Z := Z.shiftl 1 0.
Definition QIZO_FEAT_SSE3 : Z := Z.shiftl 1 1.
Definition QIZO_FEAT_SSSE3 : Z := Z.shiftl 1 2.
Definition QIZO_FEAT_SSE41 : Z := Z.shiftl 1 3.
Definition QIZO_FEAT_SSE42 : Z := Z.shiftl 1 4.
Definition QIZO_FEAT_AVX : Z := Z.shiftl 1 5.
Definition QIZO_FEAT_AVX2 : Z := Z.shiftl 1 6.
Definition QIZO_FEAT_AVX512F : Z := Z.shiftl 1 7.
Definition QIZO_FEAT_BMI2 : Z := Z.shiftl 1 8.
Definition QIZO_FEAT_FSGSBASE : Z := Z.shiftl 1 9.
Definition QIZO_FEAT_SMEP : Z := Z.shiftl 1 10.
Definition QIZO_FEAT_SMAP : Z := Z.shiftl 1 11.
Definition QIZO_FEAT_ERMS : Z := Z.shiftl 1 12.
Definition QIZO_FEAT_1GB : Z := Z.shiftl 1 13.
Definition QIZO_FEAT_POPCNT : Z := Z.shiftl 1 14.
Definition QIZO_FEAT_LAHF : Z := Z.shiftl 1 15.

(** The tests of the start: the bit of a register and what it stands for. *)
Definition add_feats (r : Z) (tests : list (Z * Z)) (feats : Z) : Z :=
  foldl (λ feats '(bit, f), if negb (Z.land r (Z.shiftl 1 bit) =? 0) then Z.lor feats f else feats) feats tests.

Section init.
(** [cpuid leaf 0], and CR4. *)
Context (cpuid : Z → answer) (cr4 : Z).

Definition features (max_leaf : Z) : Z :=
  let r := cpuid 1 in
  let f := add_feats (edx r) [(26, QIZO_FEAT_SSE2)] 0 in
  let f := add_feats (ecx r)
    [(0, QIZO_FEAT_SSE3); (9, QIZO_FEAT_SSSE3); (19, QIZO_FEAT_SSE41); (20, QIZO_FEAT_SSE42);
     (23, QIZO_FEAT_POPCNT); (27, QIZO_FEAT_AVX)] f in
  let r := cpuid 0x80000001 in
  let f := add_feats (edx r) [(0, QIZO_FEAT_LAHF); (29, QIZO_FEAT_1GB)] f in
  let f :=
    if 7 <=? max_leaf then
      let r := cpuid 7 in
      let f := add_feats (ebx r) [(5, QIZO_FEAT_AVX2); (8, QIZO_FEAT_BMI2); (16, QIZO_FEAT_AVX512F)] f in
      add_feats (edx r) [(2, QIZO_FEAT_FSGSBASE); (4, QIZO_FEAT_ERMS)] f
    else f in
  add_feats cr4 [(20, QIZO_FEAT_SMEP); (21, QIZO_FEAT_SMAP)] f.

(** Family, model and stepping. *)
Definition version (v : Z) : Z * Z * Z :=
  let stepping := Z.land v 0xF in
  let model := Z.land (Z.shiftr v 4) 0xF in
  let family := Z.land (Z.shiftr v 8) 0xF in
  let model := if (family =? 6) || (family =? 15) then u32 (model + Z.land (Z.shiftr v 16) 0xF) else model in
  let family := if family =? 15 then u32 (family + Z.land (Z.shiftr v 20) 0xFF) else family in
  (family, model, stepping).

(** The vendor: twelve bytes and a zero. *)
Definition vendor_text (vendor : list Z) (r : answer) : option (list Z) :=
  v ← aset vendor 0 0;
  v ← put_bytes v 0 (drop 4 (answer_bytes r));
  aset v 12 0.

(** [cpuid_max] is that of the boot information, when there is one. *)
Definition brand_text (brand : list Z) (cpuid_max : option Z) : option (list Z) :=
  b ← aset brand 0 0;
  match cpuid_max with
  | Some m =>
      if 0x80000004 <=? m then
        b ← put_bytes b 0 (answer_bytes (cpuid 0x80000002));
        b ← put_bytes b 16 (answer_bytes (cpuid 0x80000003));
        b ← put_bytes b 32 (answer_bytes (cpuid 0x80000004));
        trim_ascii b 95
      else Some b
  | None => Some b
  end.

Definition qizo_cpu_init (cpuid_max : option Z) (c : cpu) : option cpu :=
  vendor ← vendor_text (vendor_string c) (cpuid 0);
  brand ← brand_text (brand_string c) cpuid_max;
  let '(family, model, stepping) := version (eax (cpuid 1)) in
  Some (Cpu brand vendor (features (eax (cpuid 0))) family model stepping).
End init.

(** ** What the kernel asks *)

Definition qizo_cpu_brand (c : cpu) : option (list Z) :=
  x ← aget (brand_string c) 0;
  if negb (x =? 0) then str_at (brand_string c) else Some (chars "x86-64 compatible processor").

Definition qizo_cpu_vendor (c : cpu) : option (list Z) :=
  x ← aget (vendor_string c) 0;
  if negb (x =? 0) then str_at (vendor_string c) else Some (chars "unknown").

Definition qizo_cpu_has (feature : Z) (c : cpu) : bool := negb (Z.land (feat_bits c) feature =? 0).

(** ** The texts *)

(** A text without the blanks behind it. *)
Fixpoint rstrip (t : list Z) : list Z :=
  match t with
  | [] => []
  | c :: t => match rstrip t with [] => if c =? 32 then [] else [c] | u => c :: u end
  end.

Lemma rstrip_drop t : rstrip (t ++ [32]) = rstrip t.
Proof. induction t as [|c t IH]; [done|]. cbn [app rstrip]. by rewrite IH. Qed.

Lemma rstrip_last t c : c ≠ 32 → rstrip (t ++ [c]) = t ++ [c].
Proof.
  intros Hc. induction t as [|x t IH]; cbn [app rstrip]; [by rewrite (proj2 (Z.eqb_neq _ _) Hc)|].
  rewrite IH. by destruct t.
Qed.

Lemma printable_nonzero c : printable c ≠ 0.
Proof. unfold printable. destruct (_ || _) eqn:E; [done|]. intros ->. by vm_compute in E. Qed.

Lemma insert_snoc (l r : list Z) x y : <[length l := x]> (l ++ y :: r) = l ++ x :: r.
Proof. rewrite <-(Nat.add_0_r (length l)). by rewrite insert_app_r. Qed.

Section trim.
Context (s : list Z) (n : Z) (Hn : 0 ≤ n < len s).

Definition cleaned (i : Z) : list Z := (printable <$> take (Z.to_nat i) s) ++ drop (Z.to_nat i) s.

Lemma cleaned_snoc i : 0 ≤ i < len s →
  ∃ c, aget (cleaned i) i = Some c ∧ <[Z.to_nat i := printable c]> (cleaned i) = cleaned (i + 1).
Proof using.
  intros Hi. destruct (lookup_lt_is_Some_2 s (Z.to_nat i)) as [c Hc]; [lia|]. exists c.
  assert (length (printable <$> take (Z.to_nat i) s) = Z.to_nat i) as Hl by (rewrite length_fmap, length_take; lia).
  unfold cleaned. rewrite (drop_S _ _ _ Hc). split.
  - rewrite aget_lookup by lia. by apply list_lookup_middle.
  - rewrite <-Hl at 1. rewrite insert_snoc. replace (Z.to_nat (i + 1)) with (S (Z.to_nat i)) by lia.
    rewrite (take_S_r _ _ _ Hc), fmap_app, <-(assoc_L (++)). done.
Qed.

Lemma length_cleaned i : length (cleaned i) = length s.
Proof using. unfold cleaned. rewrite length_app, length_fmap, <-length_app. by rewrite take_drop. Qed.

Lemma clean_loop :
  for_up 0 n
    (λ i s, c ← aget s i;
       if (i8 c <? 32) || (126 <? i8 c) then s ← aset s i 32; Some (Next s) else Some (Next s)) s = Some (cleaned n).
Proof using Hn.
  assert (∀ m, safe m (λ s', s' = cleaned n) → m = Some (cleaned n)) as Hs by (intros [?|]; [by intros ->|done]).
  apply Hs. clear Hs. apply (safe_for_all (λ i s', s' = cleaned i)); [lia| |unfold cleaned; by rewrite take_0, drop_0].
  intros i s' Hi ->. destruct (cleaned_snoc i) as (c & Hc & E); [lia|]. rewrite Hc. cbn [mbind option_bind].
  unfold printable in E. destruct (_ || _).
  - rewrite aset_Some by (rewrite length_cleaned; lia). done.
  - cbn [safe step_to]. rewrite <-E. symmetry. apply list_insert_id. by rewrite <-aget_lookup by lia.
Qed.

Lemma end_loop : for_up 0 n (λ i m, c ← aget (cleaned n) i; Some (Next (if negb (c =? 0) then i + 1 else m))) 0 = Some n.
Proof using Hn.
  assert (∀ m, safe m (λ s', s' = n) → m = Some n) as Hs by (intros [?|]; [by intros ->|done]).
  apply Hs. apply (safe_for_all (λ i m, m = i)); [lia| |done]. intros i m Hi ->.
  destruct (lookup_lt_is_Some_2 s (Z.to_nat i)) as [c Hc]; [lia|].
  assert (aget (cleaned n) i = Some (printable c)) as ->.
  { rewrite aget_lookup by lia. unfold cleaned. rewrite lookup_app_l by (rewrite length_fmap, length_take; lia).
    by rewrite list_lookup_fmap, lookup_take_lt, Hc by lia. }
  cbn [mbind option_bind safe step_to]. by rewrite (proj2 (Z.eqb_neq _ _) (printable_nonzero c)).
Qed.

Definition clean_text : list Z := printable <$> take (Z.to_nat n) s.

Lemma len_clean_text : length clean_text = Z.to_nat n.
Proof using Hn. unfold clean_text. rewrite length_fmap, length_take. lia. Qed.

Lemma cleaned_at i : 0 ≤ i < n → ∃ c, aget (cleaned n) i = Some c ∧ clean_text !! Z.to_nat i = Some c.
Proof using Hn.
  intros Hi. destruct (lookup_lt_is_Some_2 clean_text (Z.to_nat i)) as [c Hc]; [rewrite len_clean_text; lia|].
  exists c. split; [|done]. rewrite aget_lookup by lia. unfold cleaned. by apply lookup_app_l_Some.
Qed.

Lemma blanks_loop :
  safe (while_up (Z.to_nat n) (λ m, negb (m =? 0) && (default 0 (aget (cleaned n) (m - 1)) =? 32)) (λ m, Some (m - 1)) n)
    (λ m, 0 ≤ m ≤ n ∧ rstrip clean_text = take (Z.to_nat m) clean_text).
Proof using Hn.
  apply (safe_while (λ m, 0 ≤ m ≤ n ∧ rstrip (take (Z.to_nat m) clean_text) = rstrip clean_text) _ Z.to_nat).
  - intros m [Hm Hr] [Hz%negb_true_iff%Z.eqb_neq Hb%Z.eqb_eq]%andb_true_iff. cbn [safe]. split; [|lia].
    split; [lia|]. destruct (cleaned_at (m - 1)) as (c & Hg & Hc); [lia|]. rewrite Hg in Hb. cbn in Hb. subst c.
    rewrite <-Hr. replace (Z.to_nat m) with (S (Z.to_nat (m - 1))) by lia. by rewrite (take_S_r _ _ _ Hc), rstrip_drop.
  - intros m [Hm Hr] Hcond. split; [done|]. rewrite <-Hr. destruct (Z.eqb_spec m 0) as [->|Hz]; [done|].
    cbn [negb andb] in Hcond. destruct (cleaned_at (m - 1)) as (c & Hg & Hc); [lia|]. rewrite Hg in Hcond.
    cbn in Hcond. apply Z.eqb_neq in Hcond. replace (Z.to_nat m) with (S (Z.to_nat (m - 1))) by lia.
    rewrite (take_S_r _ _ _ Hc). by apply rstrip_last.
  - split; [lia|]. by rewrite take_ge by (rewrite len_clean_text; lia).
  - lia.
Qed.

(** What is left of a text: its characters, a blank for each that cannot be printed,
    zeros among them, without the blanks behind them. *)
Theorem trim_ascii_spec :
  safe (trim_ascii s n) (λ s', len s' = len s ∧ str_at s' = Some (rstrip (printable <$> take (Z.to_nat n) s))).
Proof using Hn.
  unfold trim_ascii. rewrite clean_loop. cbn [mbind option_bind]. rewrite end_loop. cbn [mbind option_bind].
  apply safe_bind. eapply safe_mono; [apply blanks_loop|]. intros m [Hm Hr].
  rewrite aset_Some by (rewrite length_cleaned; lia). cbn [safe]. rewrite length_insert, length_cleaned. split; [done|].
  fold clean_text. rewrite Hr. destruct (lookup_lt_is_Some_2 (cleaned n) (Z.to_nat m)) as [y Hy]; [rewrite length_cleaned; lia|].
  assert (take (Z.to_nat m) (cleaned n) = take (Z.to_nat m) clean_text) as Ht.
  { unfold cleaned. fold clean_text. by rewrite take_app_le by (rewrite len_clean_text; lia). }
  rewrite insert_take_drop by (rewrite length_cleaned; lia). rewrite Ht.
  apply str_at_c_str. intros (i & H0%list_elem_of_lookup_2 & _)%elem_of_take.
  apply list_elem_of_fmap in H0 as (c & Hc & _). by apply (printable_nonzero c).
Qed.
End trim.

(** ** What the start leaves *)

Lemma put_bytes_spec a i bs : 0 ≤ i → i + len bs ≤ len a →
  put_bytes a i bs = Some (take (Z.to_nat i) a ++ bs ++ drop (Z.to_nat (i + len bs)) a).
Proof.
  intros Hi Hl. set (st j := take (Z.to_nat i) a ++ take (Z.to_nat j) bs ++ drop (Z.to_nat (i + j)) a).
  assert (∀ m, safe m (λ a', a' = st (len bs)) → m = Some (st (len bs))) as Hs by (intros [?|]; [by intros ->|done]).
  unfold put_bytes. rewrite (Hs _); unfold st; [by rewrite (take_ge bs) by lia|].
  apply (safe_for_all (λ j a', a' = st j)); [lia| |unfold st; rewrite Z.add_0_r; change (take (Z.to_nat 0) bs) with (@nil Z); cbn [app]; by rewrite take_drop].
  intros j a' Hj ->. destruct (lookup_lt_is_Some_2 bs (Z.to_nat j)) as [b Hb]; [lia|].
  destruct (lookup_lt_is_Some_2 a (Z.to_nat (i + j))) as [y Hy]; [lia|].
  rewrite aget_lookup, Hb by lia. cbn [mbind option_bind].
  assert (length (take (Z.to_nat i) a ++ take (Z.to_nat j) bs) = Z.to_nat (i + j)) as Hp.
  { rewrite length_app, !length_take. lia. }
  assert (st j = (take (Z.to_nat i) a ++ take (Z.to_nat j) bs) ++ y :: drop (S (Z.to_nat (i + j))) a) as ->.
  { unfold st. by rewrite (drop_S _ _ _ Hy), (assoc_L (++)). }
  rewrite aset_Some by (rewrite length_app, Hp; cbn [length]; rewrite length_drop; lia).
  cbn [mbind option_bind safe step_to]. rewrite <-Hp at 1. rewrite insert_snoc. unfold st.
  replace (Z.to_nat (j + 1)) with (S (Z.to_nat j)) by lia. rewrite (take_S_r _ _ _ Hb).
  replace (Z.to_nat (i + (j + 1))) with (S (Z.to_nat (i + j))) by lia. by rewrite <-!(assoc_L (++)).
Qed.

(** The bytes that follow those that are there. *)
Lemma put_next p a i bs : i = len p → len bs ≤ len a → put_bytes (p ++ a) i bs = Some (p ++ bs ++ drop (length bs) a).
Proof.
  intros -> Hl. rewrite put_bytes_spec by (rewrite ?length_app; lia).
  by rewrite Nat2Z.id, take_app_length, <-Nat2Z.inj_add, Nat2Z.id, drop_app_add.
Qed.

Lemma len_answer_bytes r : length (answer_bytes r) = 16%nat.
Proof. unfold answer_bytes. by rewrite !length_app, !length_le_bytes. Qed.

(** The three words of the vendor and a zero behind them. *)
Lemma vendor_text_spec vendor r : len vendor = 16 →
  safe (vendor_text vendor r) (λ v, len v = 16 ∧ take 13 v = drop 4 (answer_bytes r) ++ [0]).
Proof.
  intros Hl. unfold vendor_text. rewrite aset_Some by lia. cbn [mbind option_bind].
  pose proof (len_answer_bytes r) as Hr. set (w := drop 4 (answer_bytes r)).
  assert (length w = 12%nat) as Hw by (unfold w; rewrite length_drop; lia).
  rewrite put_bytes_spec by (rewrite ?length_insert; lia). cbn [mbind option_bind].
  change (Z.to_nat 0) with 0%nat. rewrite take_0, Hw. change (Z.to_nat (0 + Z.of_nat 12)) with 12%nat. cbn [app].
  assert (length (w ++ drop 12 (<[0%nat:=0]> vendor)) = 16%nat) as Hl' by (rewrite length_app, length_drop, length_insert; lia).
  rewrite aset_Some by lia. cbn [safe]. rewrite length_insert. split; [lia|].
  destruct (lookup_lt_is_Some_2 (<[0%nat:=0]> vendor) 12) as [y Hy]; [rewrite length_insert; lia|].
  rewrite (drop_S _ _ _ Hy).
  pose proof (λ r, insert_snoc w r 0 y) as E. rewrite Hw in E. change (Z.to_nat 12) with 12%nat. rewrite E.
  rewrite take_app_ge by (rewrite Hw; lia). by rewrite Hw.
Qed.

(** The 48 characters of the name, cleaned, when the processor has one. *)
Lemma brand_text_spec cpuid brand cpuid_max : len brand = 96 →
  safe (brand_text cpuid brand cpuid_max) (λ b, len b = 96 ∧
    str_at b = Some (if 0x80000004 <=? default 0 cpuid_max
      then rstrip (printable <$> (([0x80000002; 0x80000003; 0x80000004] ≫= λ l, answer_bytes (cpuid l)) ++ take 47 (drop 48 brand)))
      else [])).
Proof.
  intros Hl. unfold brand_text. rewrite aset_Some by lia. cbn [mbind option_bind].
  destruct brand as [|x brand]; [done|]. cbn [length] in Hl.
  change (<[Z.to_nat 0:=0]> (x :: brand)) with (0 :: brand).
  destruct cpuid_max as [m|]; [|cbn [safe length default]; split; [lia|done]]. cbn [default id].
  destruct (0x80000004 <=? m); [|cbn [safe length]; split; [lia|done]].
  pose proof (λ l, len_answer_bytes (cpuid l)) as Ha.
  rewrite (put_next [] (0 :: brand)) by (rewrite ?Ha; cbn [length]; lia). cbn [mbind option_bind app].
  rewrite put_next by (rewrite ?length_drop, ?Ha; cbn [length]; lia). cbn [mbind option_bind].
  rewrite (assoc_L (++)), put_next by (rewrite ?length_app, ?length_drop, ?Ha; cbn [length]; lia). cbn [mbind option_bind].
  rewrite !drop_drop, !Ha. change (drop (16 + (16 + 16)) (0 :: brand)) with (drop 48 (x :: brand)).
  set (w := [0x80000002; 0x80000003; 0x80000004] ≫= λ l, answer_bytes (cpuid l)).
  assert ((answer_bytes (cpuid 0x80000002) ++ answer_bytes (cpuid 0x80000003)) ++ answer_bytes (cpuid 0x80000004) ++
    drop 48 (x :: brand) = w ++ drop 48 (x :: brand)) as ->.
  { unfold w. cbn [mbind list_bind]. by rewrite app_nil_r, <-!(assoc_L (++)). }
  assert (length w = 48%nat) as Hw by (unfold w; cbn [mbind list_bind]; rewrite !length_app, !Ha; done).
  eapply safe_mono; [apply trim_ascii_spec; rewrite length_app, Hw, length_drop; cbn [length]; lia|].
  intros b' [Hl' Hs]. rewrite length_app, Hw, length_drop in Hl'. cbn [length] in Hl'. split; [lia|]. rewrite Hs.
  change (Z.to_nat 95) with (48 + 47)%nat. rewrite <-Hw at 1. by rewrite take_app_add.
Qed.

(** Whatever the processor answers, the start stays inside its arrays, and the texts
    it leaves are those of the processor, the vendor's in the order EBX, ECX, EDX. *)
Theorem cpu_init_texts cpuid cr4 cpuid_max c :
  len (brand_string c) = 96 → len (vendor_string c) = 16 →
  safe (qizo_cpu_init cpuid cr4 cpuid_max c) (λ c',
    len (brand_string c') = 96 ∧ len (vendor_string c') = 16 ∧
    take 13 (vendor_string c') = drop 4 (answer_bytes (cpuid 0)) ++ [0] ∧
    str_at (brand_string c') = Some (if 0x80000004 <=? default 0 cpuid_max
      then rstrip (printable <$> (([0x80000002; 0x80000003; 0x80000004] ≫= λ l, answer_bytes (cpuid l)) ++
             take 47 (drop 48 (brand_string c))))
      else [])).
Proof.
  intros Hb Hv. unfold qizo_cpu_init. apply safe_bind. eapply safe_mono; [by apply vendor_text_spec|].
  intros v [Hlv Ev]. apply safe_bind. eapply safe_mono; [by apply brand_text_spec|]. intros b [Hlb Eb].
  destruct (version _) as [[f m] st]. cbn [safe brand_string vendor_string]. done.
Qed.

Definition ex_cpuid (leaf : Z) : answer :=
  if leaf =? 0 then Answer 0x0D 0x756E6547 0x6C65746E 0x49656E69
  else if leaf =? 0x80000002 then Answer 0x65746E49 0x2952286C 0x726F4320 0x4D542865
  else Answer 0 0 0 0.

Definition ex_cpu : cpu := Cpu (replicate 96 0) (replicate 16 0) 0 0 0 0.

Lemma cpu_init_texts_witness :
  safe (qizo_cpu_init ex_cpuid 0 (Some 0x80000008) ex_cpu) (λ c', str_at (brand_string c') = Some (chars "Intel(R) Core(TM")).
Proof.
  eapply safe_mono; [apply (cpu_init_texts ex_cpuid 0 (Some 0x80000008) ex_cpu); reflexivity|].
  intros c' (_ & _ & _ & E). rewrite E. reflexivity.
Defined.

(** The boot information holds the highest basic leaf, which is never that large, so
    the name of the processor is never read. *)
Lemma brand_never cpuid brand m : len brand = 96 → m < 0x80000000 →
  safe (brand_text cpuid brand (Some m)) (λ b, str_at b = Some []).
Proof.
  intros Hl Hm. eapply safe_mono; [by apply brand_text_spec|]. cbn [default id]. intros b [_ E].
  destruct (Z.leb_spec 0x80000004 m); [lia|done].
Qed.

(** A processor of Intel calls itself GenuineIntel, in the order EBX, EDX, ECX. *)
Example vendor_order :
  (c ← qizo_cpu_init ex_cpuid 0 None ex_cpu; qizo_cpu_vendor c) = Some (chars "GenuntelineI").
Proof. vm_compute. reflexivity. Qed.

(** The extended model is the upper half of a byte: model 0x3C is taken for 0xF. *)
Example model_low : version 0x000306C3 = (6, 0xF, 3).
Proof. reflexivity. Qed.

End CPU.
