(* ===== verification/ConsoleStart.v ===== *)
(** * The start of the console: [kernel/console.c]

    Where the screen is looked for, how it is cleared, how the font goes to the
    video memory, the trace and the panic.  [console_init_spec]: the start leaves a
    blank screen and the font in the window, byte by second byte.  [font_shifted]:
    with the table that [tools/qizoartifacts/qizofontgen] generates, the place of a
    character holds the picture of the character 32 codes behind it. *)

From S2P Require Export Font Console.

Module CST.

(** The window at [VGA_FONT_BASE]. *)
Definition FONT_WINDOW : Z := 65536.

Section device.
Context {D : Type} `{Ports D}.

Definition font_loop (rows window : list Z) : option (list Z) :=
  for_up 0 (256 * 16) (λ i w, x ← aget rows i; w ← aset w (8192 + i * 2) x; Some (Next w)) window.

Definition font_before (misc : Z) (d : D) : D :=
  foldl (λ d pv, outb pv.1 pv.2 d) d
    [(0x3C4, 0x01); (0x3C5, Z.land misc 0xF7); (0x3C4, 0x06); (0x3C5, 0x00);
     (0x3CE, 0x05); (0x3CF, 0x04); (0x3CE, 0x06); (0x3CF, 0x00)].

Definition font_after (misc : Z) (d : D) : D :=
  foldl (λ d pv, outb pv.1 pv.2 d) d
    [(0x3C4, 0x06); (0x3C5, 0x02); (0x3CE, 0x05); (0x3CF, 0x06); (0x3C4, 0x01); (0x3C5, Z.lor misc 0x08)].

Definition install_font (c : CON.console) (rows window : list Z) (d : D) : option (list Z * D) :=
  if negb (CON.vga_ok c) || CON.plain_mode c then Some (window, d)
  else
    let '(misc, d) := inb 0x3CC d in
    let d := font_before misc d in
    w ← font_loop rows window;
    Some (w, font_after misc d).

(** [present]: the memory at [VGA_BASE] keeps what is written to it; where there is
    none every bit reads as one. *)
Definition stored (present : bool) (x : Z) : Z := if present then x else 0xFFFF.

(** The letters written to the first row, and whether one of them can be read. *)
Definition probe_row (present : bool) (v : list Z) : option (bool * list Z) :=
  v ← for_up 0 80 (λ i v, v ← aset v i (stored present (u16 (Z.lor 65 (Z.shiftl 0x07 8)))); Some (Next v)) v;
  ok ← for_up 0 80 (λ i ok, x ← aget v i; Some (Next (if Z.land x 0xFF =? 65 then true else ok))) false;
  Some (ok, v).

Definition clear_cells (present : bool) (v : list Z) : option (list Z) :=
  for_up 0 (CON.TERM_COLS * CON.TERM_ROWS) (λ i v, v ← aset v i (stored present (CON.cell 0x07 32)); Some (Next v)) v.

(** [mode] is that of the boot information, when there is one.  The screen is the
    memory at [VGA_BASE]. *)
Definition qizo_console_init (mode : option Z) (present : bool) (c : CON.console) (rows window : list Z) (d : D) :
    option (CON.console * list Z * D) :=
  let '(serial, d) := CON.serial_init d in
  '(ok, v) ← (if bool_decide (mode = Some 1)
              then '(ok, v) ← probe_row present (CON.vga (CON.scr c)); v ← clear_cells present v; Some (ok, v)
              else Some (false, CON.vga (CON.scr c)));
  let t := CON.Term v (CON.cursor_col (CON.scr c)) (CON.cursor_row (CON.scr c)) 0x07 in
  let c := CON.Console t serial ok false in
  '(c, d) ← CON.qizo_console_write c (if ok : bool then [10] else [13; 10]) d;
  let d := if CON.vga_ok c then CON.cursor_update c d else d in
  '(w, d) ← install_font c rows window d;
  Some (c, w, d).

(** [serial_puts] and, in a build with debugging, [qizo_trace]. *)
Definition serial_puts (c : CON.console) (s : list Z) (d : D) : D :=
  foldl (λ d x, CON.serial_putc (CON.serial_ok c) x d) d s.

Definition qizo_trace (c : CON.console) (stage : list Z) (d : D) : D :=
  serial_puts c [13; 10] (serial_puts c stage (serial_puts c (chars "qizo: ") d)).

(** What the panic prints before the machine halts. *)
Definition qizo_panic (c : CON.console) (why : list Z) (d : D) : option (CON.console * D) :=
  '(c, d) ← CON.qizo_console_write c (10 :: chars "qizo: panic: ") d;
  '(c, d) ← CON.qizo_console_write c why d;
  CON.qizo_console_write c [10] d.

(** ** The font *)

Lemma font_loop_spec rows window :
  len rows = 4096 → len window = FONT_WINDOW →
  safe (font_loop rows window) (λ w, len w = FONT_WINDOW ∧
    (∀ i, 0 ≤ i < 4096 → aget w (8192 + 2 * i) = aget rows i) ∧
    (∀ j, (∀ i, 0 ≤ i < 4096 → j ≠ 8192 + 2 * i) → aget w j = aget window j)).
Proof.
  unfold FONT_WINDOW. intros Hr Hw. eapply safe_mono; [apply (safe_for_all (λ n w, len w = 65536 ∧
    (∀ i, 0 ≤ i < n → aget w (8192 + 2 * i) = aget rows i) ∧
    (∀ j, (∀ i, 0 ≤ i < n → j ≠ 8192 + 2 * i) → aget w j = aget window j))); [lia| |]|].
  - intros i w Hi (Hl & Hin & Hout). destruct (aget_Some rows i) as [x Hx]; [lia|]. rewrite Hx. cbn [mbind option_bind].
    rewrite aset_Some by lia. cbn [mbind option_bind safe step_to]. rewrite length_insert. split; [done|]. split.
    + intros k Hk. rewrite aget_insert by lia. destruct (Z.eqb_spec (8192 + 2 * k) (8192 + i * 2)).
      * by replace k with i by lia.
      * apply Hin. lia.
    + intros j Hj. rewrite aget_insert by lia. destruct (Z.eqb_spec j (8192 + i * 2)) as [->|]; [|apply Hout; intros k Hk; apply Hj; lia].
      destruct (Hj i); lia.
  - split; [done|]. split; [lia|done].
  - intros w Hw'. exact Hw'.
Qed.

(** ** The start *)

Lemma fill_cells (v : list Z) x n : 0 ≤ n ≤ len v →
  for_up 0 n (λ i v, v ← aset v i x; Some (Next v)) v = Some (replicate (Z.to_nat n) x ++ drop (Z.to_nat n) v).
Proof.
  intros Hn. set (r := replicate (Z.to_nat n) x ++ drop (Z.to_nat n) v).
  assert (∀ m, safe m (λ v', v' = r) → m = Some r) as Hs by (intros [?|]; [by intros ->|done]).
  apply Hs. apply (safe_for_all (λ i v', v' = replicate (Z.to_nat i) x ++ drop (Z.to_nat i) v)); [lia| |done].
  intros i v' Hi ->. destruct (lookup_lt_is_Some_2 v (Z.to_nat i)) as [y Hy]; [lia|].
  rewrite aset_Some by (rewrite length_app, length_replicate, length_drop; lia). cbn [mbind option_bind safe step_to].
  rewrite (drop_S _ _ _ Hy), insert_app_r_alt, length_replicate, Nat.sub_diag by (rewrite length_replicate; lia).
  cbn [insert list_insert]. replace (Z.to_nat (i + 1)) with (S (Z.to_nat i)) by lia.
  by rewrite replicate_S_end, <-(assoc_L (++)).
Qed.

Definition letter : Z := u16 (Z.lor 65 (Z.shiftl 0x07 8)).
Definition blank_cell : Z := CON.cell 0x07 32.

(** The letters are found again exactly when the memory is there. *)
Lemma probe_row_spec present (v : list Z) : len v = 2000 →
  ∃ v', probe_row present v = Some (present, v') ∧ len v' = 2000.
Proof.
  intros Hl. unfold probe_row. rewrite fill_cells by lia. cbn [mbind option_bind]. fold letter.
  set (v' := replicate _ _ ++ _). assert (len v' = 2000) as Hl'.
  { unfold v'. rewrite length_app, length_replicate, length_drop. lia. }
  set (m := for_up 0 80 _ _). assert (safe m (λ ok, ok = present)) as Hm.
  { eapply safe_mono; [apply (safe_for_all (λ i ok, ok = present && (0 <? i))); [lia| |by rewrite andb_false_r]|].
    - intros i ok Hi ->. assert (aget v' i = Some (stored present letter)) as ->.
      { rewrite aget_lookup by lia. unfold v'. rewrite lookup_app_l by (rewrite length_replicate; lia).
        apply lookup_replicate. split; [done|lia]. }
      cbn [mbind option_bind safe step_to]. rw_bool. by destruct present.
    - intros ok ->. by destruct present. }
  destruct m as [ok|]; [|done]. cbn [safe] in Hm. subst ok. by exists v'.
Qed.

Lemma clear_cells_spec present (v : list Z) : len v = 2000 →
  clear_cells present v = Some (replicate 2000 (stored present blank_cell)).
Proof.
  intros Hl. unfold clear_cells. change (CON.TERM_COLS * CON.TERM_ROWS) with 2000. rewrite fill_cells by lia.
  rewrite drop_ge by lia. by rewrite app_nil_r.
Qed.

(** After the start there is a screen exactly when the boot says so and there is
    memory for one; it is blank, with the cursor in the second row, and the font is in
    every second byte of the window. *)
Theorem console_init_spec mode present c rows window d :
  len (CON.vga (CON.scr c)) = 2000 → CON.cursor_col (CON.scr c) = 0 → CON.cursor_row (CON.scr c) = 0 →
  len rows = 4096 → len window = FONT_WINDOW →
  safe (qizo_console_init mode present c rows window d) (λ r,
    let '(c', w, _) := r in
    CON.vga_ok c' = bool_decide (mode = Some 1) && present ∧ CON.plain_mode c' = false ∧
    if bool_decide (mode = Some 1) && present
    then CON.scr c' = CON.Term (replicate 2000 blank_cell) 0 1 0x07 ∧
      (∀ i, 0 ≤ i < 4096 → aget w (8192 + 2 * i) = aget rows i)
    else w = window).
Proof.
  intros Hv Hc Hr Hrows Hw. unfold qizo_console_init. destruct (CON.serial_init d) as [serial d1].
  rewrite Hc, Hr. destruct (bool_decide (mode = Some 1)); cbn [andb].
  - destruct (probe_row_spec present _ Hv) as (v' & -> & Hl). cbn [mbind option_bind].
    rewrite clear_cells_spec by done. cbn [mbind option_bind]. destruct present; [|done].
    unfold CON.qizo_console_write. cbn [CON.vga_ok negb CON.scr CON.term_write].
    set (t := CON.Term _ 0 0 0x07). assert (CON.inv t) as Ht by (split; [done|by split|by split]).
    assert (CON.term_putc t 10 = Some (CON.line_feed t)) as ->.
    { unfold CON.term_putc. cbn [Z.eqb Pos.eqb]. by apply CON.new_line_spec. }
    cbn [mbind option_bind CON.vga_ok CON.plain_mode]. unfold install_font. cbn [CON.vga_ok CON.plain_mode negb orb].
    destruct (inb 0x3CC _) as [misc d2].
    pose proof (font_loop_spec rows window Hrows Hw) as Hf. destruct (font_loop rows window) as [w|]; [|done].
    cbn [mbind option_bind safe CON.scr] in *. split; [done|]. split; [done|]. split; [done|]. apply Hf.
  - done.
Qed.

(** The picture that the start puts in the place of a character. *)
Definition picture_at (w : list Z) (ch r : Z) : option Z := aget w (8192 + 2 * (16 * ch + r)).

(** C21 - The generated table is off by 32 codes against the screen: in the place of a
    character is the picture of the one 32 codes behind it, and in those of the last
    codes there is none. *)
Theorem font_shifted c window d :
  len (CON.vga (CON.scr c)) = 2000 → CON.cursor_col (CON.scr c) = 0 → CON.cursor_row (CON.scr c) = 0 →
  len window = FONT_WINDOW →
  ∃ rows, FontGen.array_rows = Ok rows ∧
    safe (qizo_console_init (Some 1) true c rows window d) (λ r,
      let '(_, w, _) := r in
      ∀ ch r, 0 ≤ ch < 256 → 0 ≤ r < 16 → ∃ cell,
        (if ch + 32 <=? 126 then FontGen.glyph_rows (ch + 32) = Ok cell else cell = replicate 16 0) ∧
        picture_at w ch r = aget cell r).
Proof.
  intros Hv Hc Hr Hw. destruct (entries_ok (range 0 256)) as (rows & Hrows & Hl & _ & Hs).
  rewrite range_length in Hl by lia. exists rows. split; [exact Hrows|].
  eapply safe_mono; [apply (console_init_spec (Some 1) true c rows window d); (done || lia)|].
  intros [[c' w] d'] (_ & _ & _ & Hin) ch r Hch Hr'. unfold picture_at. rewrite Hin by lia.
  assert (range 0 256 !! Z.to_nat ch = Some ch) as Hat.
  { unfold range. rewrite lookup_seqZ_lt by lia. f_equal. lia. }
  specialize (Hs _ _ Hat). rewrite Z2Nat.id in Hs by lia. unfold FontGen.entry_rows in Hs.
  assert (aget rows (16 * ch + r) = aget (slice rows (16 * ch) (16 * ch + 16)) r) as ->.
  { rewrite !aget_lookup, lookup_slice by lia. rewrite decide_True by lia. f_equal. lia. }
  exists (slice rows (16 * ch) (16 * ch + 16)). split; [|done].
  change QFont.FIRST with 32 in Hs. change QFont.LAST with 126 in Hs.
  rewrite (proj2 (Z.leb_le 32 (ch + 32))) in Hs by lia. cbn [andb] in Hs. destruct (ch + 32 <=? 126); [done|congruence].
Qed.
End device.

(** ** A console

    Nothing answers on the serial port. *)
#[local] Program Instance quiet_ports : Ports unit := {| inb _ d := (0, d); inw _ d := (0, d); outb _ _ d := d |}.
Next Obligation. intros. cbn. lia. Qed.
Next Obligation. intros. cbn. lia. Qed.

Definition ex_console : CON.console := CON.Console (CON.Term (replicate 2000 0) 0 0 0) false false false.
Definition ex_window : list Z := replicate (Z.to_nat 65536) 0.

Definition ex_rows : list Z := replicate (Z.to_nat 4096) 0x55.

Lemma len_zeros (x n : Z) : 0 ≤ n → len (replicate (Z.to_nat n) x) = n.
Proof. intros. rewrite length_replicate. lia. Qed.

Lemma len_ex_cells : len (CON.vga (CON.scr ex_console)) = 2000.
Proof. apply (len_zeros 0 2000). lia. Qed.

Lemma len_ex_rows : len ex_rows = 4096.
Proof. apply len_zeros. lia. Qed.

Lemma len_ex_window : len ex_window = FONT_WINDOW.
Proof. apply (len_zeros 0 65536). lia. Qed.

#[local] Opaque ex_rows ex_window.

Lemma console_init_spec_witness :
  safe (qizo_console_init (Some 1) true ex_console ex_rows ex_window tt) (λ r, CON.vga_ok r.1.1 = true).
Proof.
  eapply safe_mono; [apply (console_init_spec (Some 1) true ex_console ex_rows ex_window tt);
    [exact len_ex_cells|reflexivity|reflexivity|exact len_ex_rows|exact len_ex_window]|].
  intros [[c w] d] [E _]. exact E.
Defined.

(** In the place of [A] is the picture of [a]. *)
Lemma font_shifted_witness :
  ∃ rows, FontGen.array_rows = Ok rows ∧
    safe (qizo_console_init (Some 1) true ex_console rows ex_window tt) (λ r,
      let '(_, w, _) := r in ∃ cell, FontGen.glyph_rows 97 = Ok cell ∧ picture_at w 65 4 = aget cell 4).
Proof.
  destruct (font_shifted ex_console ex_window tt) as (rows & Hrows & Hs);
    [exact len_ex_cells|reflexivity|reflexivity|exact len_ex_window|].
  exists rows. split; [exact Hrows|]. eapply safe_mono; [exact Hs|]. intros [[c w] d] Hp.
  destruct (Hp 65 4 ltac:(lia) ltac:(lia)) as (cell & Hc & Hat). exists cell.
  rewrite (proj2 (Z.leb_le (65 + 32) 126) ltac:(lia)) in Hc. split; [exact Hc|exact Hat].
Defined.

End CST.
